(** * gemini-go-proxy: a shallow embedding of the converter, the dispatcher
      and the credential manager, with the properties of its specification.

    Layout: Part I holds the definitions, one module per Go package
    ([GoStrings] and [GoCrypto] for the pieces of the Go standard library the
    code calls, [Models] for pkg/models, [Converter] and [Client] for
    pkg/client, [Auth] for pkg/auth).  Part II holds the lemmas and theorems,
    one module per package again.

    Go strings are byte strings: they are modelled as [string] (a list of
    8-bit [ascii]), so [String.length] is Go's [len] and [substring] is Go's
    slicing.  Go's [int] is modelled as [Z]; the code under study compares
    and copies integers only, so no wrap-around arises.  [float32] is
    modelled as [spec_float] (IEEE 754, with NaN and infinities). *)

From Stdlib Require Import ZArith List String Ascii Bool Lia.
From Stdlib Require Import Floats.SpecFloat.
From stdpp Require Import base option list strings gmap.
Import ListNotations.
Local Open Scope Z_scope.

(* ===================================================================== *)
(** * Part I: definitions                                                 *)
(* ===================================================================== *)

(** Go's [(T, error)] results.  Errors are carried by their message, which
    is all the code under study ever inspects ([err.Error()]). *)
Inductive result (A : Type) : Type :=
| Ok (a : A)
| Err (msg : string).
Arguments Ok {A} a.
Arguments Err {A} msg.

Module GoStrings.

(** ** strings.ToLower and strings.ToUpper

    Both functions scan the string first.  When every byte is below
    [utf8.RuneSelf] (0x80) they fold the bytes [A]-[Z], resp. [a]-[z], and
    leave the others; otherwise they return
    [strings.Map(unicode.ToLower, s)], resp. [strings.Map(unicode.ToUpper, s)],
    which decodes the runes of [s] and looks each one up in the case tables
    of package unicode.  Those tables are data of the Go distribution, not of
    this program: [CaseTables] holds the two maps they induce on strings, and
    is consulted on no string of ASCII bytes. *)
Record CaseTables : Type := {
  Map_unicode_ToLower : string -> string;
  Map_unicode_ToUpper : string -> string
}.

Definition lower_byte (c : ascii) : ascii :=
  let n := N_of_ascii c in
  if ((65 <=? n) && (n <=? 90))%N then ascii_of_N (n + 32) else c.

Definition upper_byte (c : ascii) : ascii :=
  let n := N_of_ascii c in
  if ((97 <=? n) && (n <=? 122))%N then ascii_of_N (n - 32) else c.

Fixpoint map_bytes (f : ascii -> ascii) (s : string) : string :=
  match s with
  | EmptyString => EmptyString
  | String c s' => String (f c) (map_bytes f s')
  end.

(** The scan [for i := 0; i < len(s); i++ { if s[i] >= utf8.RuneSelf ... }]. *)
Fixpoint isASCII (s : string) : bool :=
  match s with
  | EmptyString => true
  | String c s' => (N_of_ascii c <? 128)%N && isASCII s'
  end.

Definition ToLower (tables : CaseTables) (s : string) : string :=
  if isASCII s then map_bytes lower_byte s else Map_unicode_ToLower tables s.

Definition ToUpper (tables : CaseTables) (s : string) : string :=
  if isASCII s then map_bytes upper_byte s else Map_unicode_ToUpper tables s.

(** [strings.Contains s sub]: [sub] occurs in [s] at some offset. *)
Fixpoint Contains (s sub : string) : bool :=
  String.prefix sub s ||
  match s with
  | EmptyString => false
  | String _ s' => Contains s' sub
  end.

(** [strings.Join parts sep] *)
Fixpoint Join (parts : list string) (sep : string) : string :=
  match parts with
  | [] => EmptyString
  | [p] => p
  | p :: ps => p +:+ sep +:+ Join ps sep
  end.

(** [s[:n]], defined when [n <= len(s)] (Go panics otherwise; every use
    below is guarded by a length test or by [min]). *)
Definition slice_to (s : string) (n : nat) : string := substring 0 n s.

Definition digit_byte (d : Z) : ascii :=
  if d <? 10 then ascii_of_N (Z.to_N (48 + d)) else ascii_of_N (Z.to_N (87 + d)).

Fixpoint format_digits (fuel : nat) (n base : Z) (acc : string) : string :=
  match fuel with
  | O => acc
  | S fuel' =>
      let acc' := String (digit_byte (n mod base)) acc in
      if n / base =? 0 then acc' else format_digits fuel' (n / base) base acc'
  end.

(** [strconv.FormatInt i base] for [2 <= base <= 36]; the fuel is the
    number of binary digits of [|i|], which bounds the digits in any base. *)
Definition FormatInt (i base : Z) : string :=
  let fuel := S (Z.to_nat (Z.log2 (Z.abs i))) in
  if i <? 0 then "-" +:+ format_digits fuel (- i) base EmptyString
  else format_digits fuel i base EmptyString.

(** The [%d] verb of [fmt.Sprintf] / [fmt.Errorf]. *)
Definition fmt_d (i : Z) : string := FormatInt i 10.

(** [strings.HasPrefix s prefix] and [strings.TrimPrefix s prefix]. *)
Definition HasPrefix (s prefix : string) : bool := String.prefix prefix s.

Definition TrimPrefix (s prefix : string) : string :=
  if HasPrefix s prefix
  then substring (String.length prefix) (String.length s - String.length prefix) s
  else s.

End GoStrings.

(** crypto/md5 and encoding/hex, as pkg/auth calls them: [md5.Sum] of a byte
    string (RFC 1321) and the lower-case hexadecimal rendering of the digest.
    Words are 32-bit, kept in [Z] and reduced modulo 2^32 after each sum. *)
Module GoCrypto.

Definition mask32 (x : Z) : Z := x mod 2 ^ 32.
Definition not32 (x : Z) : Z := Z.lxor x 0xffffffff.
Definition rotl32 (x c : Z) : Z :=
  mask32 (Z.lor (Z.shiftl x c) (Z.shiftr x (32 - c))).

Definition md5_K : list Z :=
  [ 3614090360; 3905402710; 606105819; 3250441966; 4118548399; 1200080426;
    2821735955; 4249261313; 1770035416; 2336552879; 4294925233; 2304563134;
    1804603682; 4254626195; 2792965006; 1236535329; 4129170786; 3225465664;
    643717713; 3921069994; 3593408605; 38016083; 3634488961; 3889429448;
    568446438; 3275163606; 4107603335; 1163531501; 2850285829; 4243563512;
    1735328473; 2368359562; 4294588738; 2272392833; 1839030562; 4259657740;
    2763975236; 1272893353; 4139469664; 3200236656; 681279174; 3936430074;
    3572445317; 76029189; 3654602809; 3873151461; 530742520; 3299628645;
    4096336452; 1126891415; 2878612391; 4237533241; 1700485571; 2399980690;
    4293915773; 2240044497; 1873313359; 4264355552; 2734768916; 1309151649;
    4149444226; 3174756917; 718787259; 3951481745 ].

Definition md5_s : list Z :=
  [ 7; 12; 17; 22; 7; 12; 17; 22; 7; 12; 17; 22; 7; 12; 17; 22;
    5; 9; 14; 20; 5; 9; 14; 20; 5; 9; 14; 20; 5; 9; 14; 20;
    4; 11; 16; 23; 4; 11; 16; 23; 4; 11; 16; 23; 4; 11; 16; 23;
    6; 10; 15; 21; 6; 10; 15; 21; 6; 10; 15; 21; 6; 10; 15; 21 ].

Definition bytes_of_string (s : string) : list Z :=
  map (fun c => Z.of_N (N_of_ascii c)) (list_ascii_of_string s).

(** The [n] low bytes of [x], least significant first. *)
Definition le_bytes (n : nat) (x : Z) : list Z :=
  map (fun i => (x / 2 ^ (8 * Z.of_nat i)) mod 256) (seq 0 n).

(** Padding: a 1 bit, zeros up to 56 modulo 64 bytes, the bit length on
    64 bits. *)
Definition md5_pad (msg : list Z) : list Z :=
  let len := Z.of_nat (length msg) in
  msg ++ [128] ++ repeat 0 (Z.to_nat ((55 - len) mod 64))
      ++ le_bytes 8 ((8 * len) mod 2 ^ 64).

Fixpoint words_le (bs : list Z) : list Z :=
  match bs with
  | b0 :: b1 :: b2 :: b3 :: rest =>
      (b0 + 256 * b1 + 65536 * b2 + 16777216 * b3) :: words_le rest
  | _ => []
  end.

Fixpoint blocks16 (fuel : nat) (ws : list Z) : list (list Z) :=
  match fuel with
  | O => []
  | S fuel' =>
      match ws with
      | [] => []
      | _ => firstn 16 ws :: blocks16 fuel' (skipn 16 ws)
      end
  end.

Definition md5_step (M : list Z) (st : Z * Z * Z * Z) (i : nat) : Z * Z * Z * Z :=
  let '(A, B, C, D) := st in
  let iz := Z.of_nat i in
  let '(F, g) :=
    if (i <? 16)%nat then (Z.lor (Z.land B C) (Z.land (not32 B) D), iz)
    else if (i <? 32)%nat
         then (Z.lor (Z.land D B) (Z.land (not32 D) C), (5 * iz + 1) mod 16)
    else if (i <? 48)%nat then (Z.lxor (Z.lxor B C) D, (3 * iz + 5) mod 16)
    else (Z.lxor C (Z.lor B (not32 D)), (7 * iz) mod 16) in
  let F' := mask32 (F + A + nth i md5_K 0 + nth (Z.to_nat g) M 0) in
  (D, mask32 (B + rotl32 F' (nth i md5_s 0)), B, C).

Definition md5_block (h : Z * Z * Z * Z) (M : list Z) : Z * Z * Z * Z :=
  let '(a0, b0, c0, d0) := h in
  let '(A, B, C, D) := fold_left (md5_step M) (seq 0 64) h in
  (mask32 (a0 + A), mask32 (b0 + B), mask32 (c0 + C), mask32 (d0 + D)).

(** [md5.Sum]: the 16 bytes of the digest. *)
Definition md5_Sum (s : string) : list Z :=
  let ws := words_le (md5_pad (bytes_of_string s)) in
  let '(a, b, c, d) :=
    fold_left md5_block (blocks16 (length ws) ws)
              (0x67452301, 0xefcdab89, 0x98badcfe, 0x10325476) in
  le_bytes 4 a ++ le_bytes 4 b ++ le_bytes 4 c ++ le_bytes 4 d.

Definition hex_digit (d : Z) : ascii :=
  if d <? 10 then ascii_of_N (Z.to_N (48 + d)) else ascii_of_N (Z.to_N (87 + d)).

(** [hex.EncodeToString] *)
Fixpoint hex_EncodeToString (bs : list Z) : string :=
  match bs with
  | [] => EmptyString
  | b :: rest =>
      String (hex_digit (b / 16)) (String (hex_digit (b mod 16)) (hex_EncodeToString rest))
  end.

End GoCrypto.

(** pkg/models (types.go is not part of the sources at hand: the records
    below carry the fields that pkg/client, pkg/auth and types_test.go read
    and write, under the Go names prefixed by the type where Rocq needs the
    names to differ). *)
Module Models.

(** Go's [float32]. *)
Definition float32 : Type := spec_float.

(** The binary32 constants the clamp writes and compares against. *)
Definition f32_zero : float32 := S754_zero false.
Definition f32_one : float32 := S754_finite false 8388608 (-23).
Definition f32_two : float32 := S754_finite false 8388608 (-22).

Record GeminiPart : Type := { Text : string }.

Record GeminiContent : Type := {
  Role : string;
  Parts : list GeminiPart
}.

Record GeminiSystemInstruction : Type := { SI_Parts : list GeminiPart }.

(** Pointer fields ([*float32], [*int]) are options: [None] is [nil]. *)
Record GeminiGenerationConfig : Type := {
  Temperature : option float32;
  TopP : option float32;
  TopK : option Z;
  MaxOutputTokens : option Z;
  StopSequences : list string
}.

Record GeminiRequest : Type := {
  Contents : list GeminiContent;
  SystemInstruction : option GeminiSystemInstruction;
  GenerationConfig : option GeminiGenerationConfig
}.

Record GeminiCandidate : Type := {
  Cand_Content : GeminiContent;
  Cand_FinishReason : string;
  Cand_Index : Z
}.

Record GeminiUsageMetadata : Type := {
  PromptTokenCount : Z;
  CandidatesTokenCount : Z;
  TotalTokenCount : Z
}.

Record GeminiResponse : Type := {
  Candidates : list GeminiCandidate;
  UsageMetadata : option GeminiUsageMetadata
}.

Record OpenAIMessage : Type := {
  Msg_Role : string;
  Msg_Content : string
}.

Record OpenAIRequest : Type := {
  Req_Model : string;
  Req_Messages : list OpenAIMessage;
  Req_Stream : bool;
  Req_Temperature : option float32;
  Req_MaxTokens : option Z;
  Req_TopP : option float32;
  Req_Stop : list string;
  Req_SystemInstruction : option GeminiSystemInstruction
}.

Record OpenAIChoice : Type := {
  Index : Z;
  Message : option OpenAIMessage;
  Delta : option OpenAIMessage;
  FinishReason : option string
}.

Record OpenAIUsage : Type := {
  PromptTokens : Z;
  CompletionTokens : Z;
  TotalTokens : Z
}.

Record OpenAIResponse : Type := {
  ID : string;
  Object : string;
  Created : Z;
  Resp_Model : string;
  Choices : list OpenAIChoice;
  Usage : option OpenAIUsage
}.

(** The streaming types. *)
Record GeminiStreamCandidate : Type := {
  SC_Content : GeminiContent;
  SC_FinishReason : string;
  SC_Index : Z
}.

Record GeminiStreamChunk : Type := {
  Chunk_Candidates : list GeminiStreamCandidate;
  Chunk_UsageMetadata : option GeminiUsageMetadata
}.

Record OpenAIStreamChunk : Type := {
  Chunk_ID : string;
  Chunk_Object : string;
  Chunk_Created : Z;
  Chunk_Model : string;
  Chunk_Choices : list OpenAIChoice
}.

(** The model-listing types; of a [GeminiModel] the code under study reads
    the name only. *)
Record OpenAIModel : Type := {
  Model_ID : string;
  Model_Object : string;
  Model_Created : Z;
  Model_OwnedBy : string
}.

Record OpenAIModelsResponse : Type := {
  List_Object : string;
  List_Data : list OpenAIModel
}.

Record GeminiModel : Type := { Model_Name : string }.

Record GeminiModelsResponse : Type := { Models_List : list GeminiModel }.

Record ErrorDetail : Type := {
  Error_Type : string;
  Error_Message : string
}.

Record ErrorResponse : Type := { Error_Detail : ErrorDetail }.

End Models.

(** pkg/client/converter.go.  The logger calls are not modelled: they have
    no effect on any value the functions return or update. *)
Module Converter.
Import GoStrings Models.

Section WithTables.
(** The case tables the converter's calls of [strings.ToLower] and
    [strings.ToUpper] consult. *)
Variable tables : CaseTables.

(** ** OpenAIToGeminiRequest *)

(** Step 1a, the loop over [req.Messages]: the state is the pair
    [(systemParts, nonSystemMessages)], both grown by [append]. *)
Definition splitStep (st : list GeminiPart * list OpenAIMessage) (msg : OpenAIMessage)
  : list GeminiPart * list OpenAIMessage :=
  if String.eqb (ToLower tables (Msg_Role msg)) "system"
  then (fst st ++ [{| Text := Msg_Content msg |}], snd st)
  else (fst st, snd st ++ [msg]).

Definition splitMessages (msgs : list OpenAIMessage)
  : list GeminiPart * list OpenAIMessage :=
  fold_left splitStep msgs ([], []).

(** Step 2, the loop over [nonSystemMessages] with its [switch]. *)
Definition conversationStep (acc : list GeminiContent) (msg : OpenAIMessage)
  : list GeminiContent :=
  let r := ToLower tables (Msg_Role msg) in
  if String.eqb r "user"
  then acc ++ [{| Role := "user"; Parts := [{| Text := Msg_Content msg |}] |}]
  else if String.eqb r "assistant"
  then acc ++ [{| Role := "model"; Parts := [{| Text := Msg_Content msg |}] |}]
  else acc.

(** ** mergeConsecutiveMessages *)

(** The body of the [if current.Role == next.Role] branch:
    [current.Parts[0].Text += "\n" + next.Parts[0].Text] when both turns
    have a part, nothing otherwise.  Only [next.Parts[0]] is read. *)
Definition absorb (current next : GeminiContent) : GeminiContent :=
  match Parts current, Parts next with
  | p :: ps, q :: _ =>
      {| Role := Role current;
         Parts := {| Text := Text p +:+ String "010"%char EmptyString +:+ Text q |} :: ps |}
  | _, _ => current
  end.

(** The [for i := 1; i < len(contents); i++] loop, over the turns still to
    be read, with the loop variables [merged] and [current]. *)
Fixpoint mergeLoop (merged : list GeminiContent) (current : GeminiContent)
    (rest : list GeminiContent) : list GeminiContent :=
  match rest with
  | [] => merged ++ [current]
  | next :: rest' =>
      if String.eqb (Role current) (Role next)
      then mergeLoop merged (absorb current next) rest'
      else mergeLoop (merged ++ [current]) next rest'
  end.

Definition mergeConsecutiveMessages (contents : list GeminiContent)
  : list GeminiContent :=
  match contents with
  | [] | [_] => contents
  | first :: rest => mergeLoop [] first rest
  end.

Definition OpenAIToGeminiRequest (req : option OpenAIRequest) : result GeminiRequest :=
  match req with
  | None => Err "request cannot be nil"
  | Some req =>
      let '(embedded, nonSystemMessages) := splitMessages (Req_Messages req) in
      let systemParts :=
        match Req_SystemInstruction req with
        | Some si => if (0 <? length (SI_Parts si))%nat
                     then embedded ++ SI_Parts si else embedded
        | None => embedded
        end in
      let conversationContents := fold_left conversationStep nonSystemMessages [] in
      Ok {| Contents := mergeConsecutiveMessages conversationContents;
            SystemInstruction :=
              if (0 <? length systemParts)%nat
              then Some {| SI_Parts := systemParts |} else None;
            GenerationConfig :=
              Some {| Temperature := Req_Temperature req;
                      TopP := Req_TopP req;
                      TopK := None;
                      MaxOutputTokens := Req_MaxTokens req;
                      StopSequences := Req_Stop req |} |}
  end.

(** ** GeminiToOpenAIResponse *)

Definition convertFinishReason (geminiReason : string) : string :=
  let r := ToUpper tables geminiReason in
  if String.eqb r "STOP" then "stop"
  else if String.eqb r "MAX_TOKENS" then "length"
  else if String.eqb r "SAFETY" || String.eqb r "RECITATION" then "content_filter"
  else "stop".

(** [GenerateRequestID]; [nowNano] is the reading of [time.Now().UnixNano()]. *)
Definition GenerateRequestID (nowNano : Z) : string :=
  "chatcmpl-" +:+ FormatInt nowNano 36.

(** The non-empty texts of a candidate's parts, in order. *)
Definition textParts (parts : list GeminiPart) : list string :=
  fold_left (fun acc part =>
               if String.eqb (Text part) EmptyString then acc else acc ++ [Text part])
            parts [].

(** The two clock readings the function takes are arguments: [nowNano] for
    the synthesised id and [nowUnix] for [Created]. *)
Definition GeminiToOpenAIResponse (geminiResp : option GeminiResponse)
    (model : string) (nowNano nowUnix : Z) : result OpenAIResponse :=
  match geminiResp with
  | None => Err "Gemini response cannot be nil"
  | Some geminiResp =>
      let '(content, finishReason) :=
        match Candidates geminiResp with
        | candidate :: _ =>
            (Join (textParts (Parts (Cand_Content candidate))) EmptyString,
             if String.eqb (Cand_FinishReason candidate) EmptyString then None
             else Some (convertFinishReason (Cand_FinishReason candidate)))
        | [] => (EmptyString, None)
        end in
      Ok {| ID := GenerateRequestID nowNano;
            Object := "chat.completion";
            Created := nowUnix;
            Resp_Model := model;
            Choices := [ {| Index := 0;
                            Message := Some {| Msg_Role := "assistant";
                                               Msg_Content := content |};
                            Delta := None;
                            FinishReason := finishReason |} ];
            Usage :=
              match UsageMetadata geminiResp with
              | Some u => Some {| PromptTokens := PromptTokenCount u;
                                  CompletionTokens := CandidatesTokenCount u;
                                  TotalTokens := TotalTokenCount u |}
              | None => None
              end |}
  end.

(** ** ValidateAndFixRequest *)

(** The first loop, [for i := range req.Contents], with its variable
    [lastRole]; [i] is the index of the head of [contents]. *)
Fixpoint inferRoles (i : nat) (lastRole : string) (contents : list GeminiContent)
  : list GeminiContent :=
  match contents with
  | [] => []
  | c :: cs =>
      let c' :=
        if String.eqb (Role c) EmptyString
        then {| Role := if (i =? 0)%nat || String.eqb lastRole "model"
                        then "user" else "model";
                Parts := Parts c |}
        else c in
      c' :: inferRoles (S i) (Role c') cs
  end.

(** The [useCodeAssist] loop: a turn still without a role becomes "auto". *)
Definition autoRole (c : GeminiContent) : GeminiContent :=
  if String.eqb (Role c) EmptyString
  then {| Role := "auto"; Parts := Parts c |} else c.

Definition modelLimits : gmap string Z :=
  list_to_map [ ("gemini-pro", 2048); ("gemini-pro-vision", 2048);
                ("gemini-1.5-pro", 8192); ("gemini-1.5-flash", 8192);
                ("gemini-2.5-pro", 8192); ("gemini-2.5-flash", 8192) ].

Definition defaultTokens : Z := 2048.

Definition capMaxOutputTokens (modelID : string) (m : option Z) : option Z :=
  match modelLimits !! modelID with
  | Some limit =>
      match m with
      | None => Some limit
      | Some v => if limit <? v then Some limit else m
      end
  | None =>
      match m with
      | None => Some defaultTokens
      | Some _ => m
      end
  end.

(** [if *p < lo { *p = lo } else if *p > hi { *p = hi }] on a [*float32];
    both comparisons are false on NaN, which is therefore left in place. *)
Definition clampFloat (lo hi : float32) (p : option float32) : option float32 :=
  match p with
  | None => None
  | Some v => if SFltb v lo then Some lo
              else if SFltb hi v then Some hi
              else Some v
  end.

Definition clampTopK (p : option Z) : option Z :=
  match p with
  | Some k => if k <? 1 then Some 1 else p
  | None => None
  end.

Definition fixConfig (modelID : string) (config : GeminiGenerationConfig)
  : GeminiGenerationConfig :=
  {| Temperature := clampFloat f32_zero f32_two (Temperature config);
     TopP := clampFloat f32_zero f32_one (TopP config);
     TopK := clampTopK (TopK config);
     MaxOutputTokens := capMaxOutputTokens modelID (MaxOutputTokens config);
     StopSequences := StopSequences config |}.

(** The Go method updates the request its argument points to and returns
    nothing; here [req] is that request and the updated request is the
    result.  The method has no nil test: its first loop ranges over
    [req.Contents], so a call on a nil pointer panics there.  Its two
    callers, [sendRequestWithRetry] and [SendStreamRequestRaw], pass their
    own argument on and are modelled with that case.  [useCodeAssist] is
    the converter's field of that name. *)
Definition ValidateAndFixRequest (useCodeAssist : bool) (req : GeminiRequest)
    (modelID : string) : GeminiRequest :=
  let contents1 := inferRoles 0 EmptyString (Contents req) in
  let contents2 := if useCodeAssist then map autoRole contents1 else contents1 in
  {| Contents := contents2;
     SystemInstruction := SystemInstruction req;
     GenerationConfig :=
       match GenerationConfig req with
       | None => None
       | Some config => Some (fixConfig modelID config)
       end |}.

(** ** GeminiStreamToOpenAI *)

(** The loop [for _, part := range candidate.Content.Parts] with its
    [content += part.Text]. *)
Definition streamContent (parts : list GeminiPart) : string :=
  fold_left (fun content part => content +:+ Text part) parts EmptyString.

(** [roleSent] is the caller's flag, handed over by pointer: its value after
    the call is returned beside the result.  [nowUnix] is the reading of
    [time.Now().Unix()]. *)
Definition GeminiStreamToOpenAI (chunk : option GeminiStreamChunk)
    (model requestID : string) (nowUnix : Z) (roleSent : bool)
  : result OpenAIStreamChunk * bool :=
  match chunk with
  | None => (Err "stream chunk cannot be nil", roleSent)
  | Some chunk =>
      let '(content, finishReason) :=
        match Chunk_Candidates chunk with
        | candidate :: _ =>
            (streamContent (Parts (SC_Content candidate)),
             if String.eqb (SC_FinishReason candidate) EmptyString then None
             else Some (convertFinishReason (SC_FinishReason candidate)))
        | [] => (EmptyString, None)
        end in
      let delta := {| Msg_Role := if roleSent then EmptyString else "assistant";
                      Msg_Content := content |} in
      (Ok {| Chunk_ID := requestID;
             Chunk_Object := "chat.completion.chunk";
             Chunk_Created := nowUnix;
             Chunk_Model := model;
             Chunk_Choices := [ {| Index := 0;
                                   Message := None;
                                   Delta := Some delta;
                                   FinishReason := finishReason |} ] |},
       true)
  end.

(** ** The model lists *)

Definition defaultModels : list string :=
  [ "gemini-2.5-pro"; "gemini-2.5-flash"; "gemini-1.5-pro"; "gemini-1.5-flash";
    "gemini-pro"; "gemini-pro-vision" ].

(** [now] is the reading of [time.Now().Unix()]. *)
Definition GenerateModelsList (now : Z) : OpenAIModelsResponse :=
  {| List_Object := "list";
     List_Data := map (fun modelID => {| Model_ID := modelID; Model_Object := "model";
                                         Model_Created := now;
                                         Model_OwnedBy := "google" |})
                      defaultModels |}.

(** The loop appends one entry per backend model. *)
Definition ConvertGeminiModels (geminiModels : GeminiModelsResponse) (now : Z)
  : OpenAIModelsResponse :=
  {| List_Object := "list";
     List_Data :=
       fold_left (fun openaiModels model =>
                    openaiModels ++
                    [ {| Model_ID := TrimPrefix (Model_Name model) "models/";
                         Model_Object := "model";
                         Model_Created := now;
                         Model_OwnedBy := "google" |} ])
                 (Models_List geminiModels) [] |}.

End WithTables.

End Converter.

(** pkg/config/config.go: the configuration record, its defaults and its
    completion.  The two slices are options of lists, [None] being the nil
    slice, which [FillDefaults] tells from the empty one.  The random
    source, the clock and the UUID generator are the [Env]. *)
Module ConfigFile.
Import GoStrings GoCrypto.

Record Config : Type := {
  Host : string;
  Port : Z;
  ClientID : string;
  RedirectURL : string;
  ProxyURLs : option (list string);
  APIKeys : option (list string);
  APIMode : string;
  ProjectID : string;
  Location : string;
  TimeoutSeconds : Z;
  MaxRetries : Z;
  UserAgent : string;
  TokenFile : string;
  LogLevel : string;
  EnableCORS : bool;
  SystemPromptFile : string;
  SystemPromptMode : string
}.

Record Env : Type := {
  (** crypto/rand: [rand.Read] on a buffer of [n] bytes, the bytes read or
      the error *)
  rand_Read : nat -> result (list Z);
  (** [time.Now().Unix()] *)
  time_Now_Unix : Z;
  (** [uuid.New().String()] *)
  uuid_New : string
}.

(** [len] of a slice: 0 for nil. *)
Definition slice_len (s : option (list string)) : nat :=
  match s with
  | Some l => length l
  | None => 0%nat
  end.

(** [time.Duration] is an [int64] count of nanoseconds; [time.Second] is
    10^9 of them, and a product of durations wraps around as [int64]
    arithmetic does. *)
Definition time_Second : Z := 1000000000.

Definition int64_wrap (z : Z) : Z := (z + 2 ^ 63) mod 2 ^ 64 - 2 ^ 63.

(** [GetTimeout]: [time.Duration(c.TimeoutSeconds) * time.Second]. *)
Definition GetTimeout (c : Config) : Z :=
  if TimeoutSeconds c <=? 0 then 30 * time_Second
  else int64_wrap (TimeoutSeconds c * time_Second).

Definition DefaultConfig : Config :=
  {| Host := "localhost";
     Port := 8081;
     ClientID := EmptyString;
     RedirectURL := "http://localhost:8081";
     ProxyURLs := Some [];
     APIKeys := Some [];
     APIMode := "code_assist";
     ProjectID := EmptyString;
     Location := "us-central1";
     TimeoutSeconds := 300;
     MaxRetries := 3;
     UserAgent := "gemini-go-proxy/1.0.0";
     TokenFile := EmptyString;
     LogLevel := "info";
     EnableCORS := true;
     SystemPromptFile := EmptyString;
     SystemPromptMode := EmptyString |}.

(** [fmt.Sprintf("http://%s:%d", host, port)] *)
Definition hostPortURL (host : string) (port : Z) : string :=
  "http://" +:+ host +:+ ":" +:+ fmt_d port.

Definition GetRedirectURL (c : Config) : string :=
  if negb (String.eqb (RedirectURL c) EmptyString) then RedirectURL c
  else hostPortURL (Host c) (Port c) +:+ "/oauth/callback/" +:+ ClientID c.

Section WithEnv.
Variable env : Env.

Definition GenerateRandomAPIKey : string :=
  match rand_Read env 16 with
  | Err _ => "fallback-api-key-" +:+ fmt_d (time_Now_Unix env)
  | Ok bytes => "gp-" +:+ hex_EncodeToString bytes
  end.

Definition GenerateClientID : string :=
  match rand_Read env 8 with
  | Err _ => "client-" +:+ fmt_d (time_Now_Unix env)
  | Ok bytes => "client-" +:+ hex_EncodeToString bytes
  end.

(** [FillDefaults]: the completed configuration and the flag returned.
    The statements run in the order of the source, each on the record the
    previous ones left. *)
Definition FillDefaults (c : Config) : Config * bool :=
  let defaults := DefaultConfig in
  let host := if String.eqb (Host c) EmptyString then Host defaults else Host c in
  let port := if Port c =? 0 then Port defaults else Port c in
  let clientID := if String.eqb (ClientID c) EmptyString then uuid_New env else ClientID c in
  let defaultRedirectURL := hostPortURL (Host defaults) (Port defaults) in
  let resetRedirect := String.eqb (RedirectURL c) EmptyString
                       || String.eqb (RedirectURL c) defaultRedirectURL in
  let redirectURL := if resetRedirect then hostPortURL host port else RedirectURL c in
  let proxyURLs := match ProxyURLs c with None => Some [] | Some l => Some l end in
  let apiKeys1 := match APIKeys c with None => Some [] | Some l => Some l end in
  let noKeys := (slice_len apiKeys1 =? 0)%nat in
  let apiKeys := if noKeys then Some [GenerateRandomAPIKey] else apiKeys1 in
  let apiMode := if String.eqb (APIMode c) EmptyString then APIMode defaults else APIMode c in
  let location := if String.eqb (Location c) EmptyString then Location defaults
                  else Location c in
  let timeoutSeconds := if TimeoutSeconds c =? 0 then TimeoutSeconds defaults
                        else TimeoutSeconds c in
  let maxRetries := if MaxRetries c =? 0 then MaxRetries defaults else MaxRetries c in
  let userAgent := if String.eqb (UserAgent c) EmptyString then UserAgent defaults
                   else UserAgent c in
  let logLevel := if String.eqb (LogLevel c) EmptyString then LogLevel defaults
                  else LogLevel c in
  let changed :=
    String.eqb (Host c) EmptyString
    || (Port c =? 0)
    || String.eqb (ClientID c) EmptyString
    || resetRedirect
    || match ProxyURLs c with None => true | Some _ => false end
    || match APIKeys c with None => true | Some _ => false end
    || noKeys
    || String.eqb (APIMode c) EmptyString
    || String.eqb (Location c) EmptyString
    || (TimeoutSeconds c =? 0)
    || (MaxRetries c =? 0)
    || String.eqb (UserAgent c) EmptyString
    || String.eqb (LogLevel c) EmptyString in
  ({| Host := host; Port := port; ClientID := clientID; RedirectURL := redirectURL;
      ProxyURLs := proxyURLs; APIKeys := apiKeys; APIMode := apiMode;
      ProjectID := ProjectID c; Location := location;
      TimeoutSeconds := timeoutSeconds; MaxRetries := maxRetries;
      UserAgent := userAgent; TokenFile := TokenFile c; LogLevel := logLevel;
      EnableCORS := EnableCORS c; SystemPromptFile := SystemPromptFile c;
      SystemPromptMode := SystemPromptMode c |},
   changed).

End WithEnv.

End ConfigFile.

(** pkg/client/client.go: the request dispatcher.

    The outside world (network, random source, file system, the JSON and URL
    libraries) is an [Env]: a record of functions the dispatcher calls.  A
    [GeminiClient] carries the fields the Go struct mutates, together with
    two counters of what it has asked of the world: the requests handed to
    [client.Do], in order, and the number of draws from [randSource].

    A run that dereferences a nil pointer (a Go panic) is [None]. *)
Module Client.
Import GoStrings Models Converter.

Definition DefaultAPIEndpoint : string := "https://generativelanguage.googleapis.com".
Definition DefaultAPIVersion : string := "v1beta".
Definition VertexAPIVersion : string := "v1".
Definition CodeAssistEndpoint : string := "https://cloudcode-pa.googleapis.com".
Definition CodeAssistVersion : string := "v1internal".

(** pkg/config: [APIMode] is a string type with three named values. *)
Definition AIStudio : string := "ai_studio".
Definition VertexAI : string := "vertex_ai".
Definition CodeAssist : string := "code_assist".

(** The fields of [config.Config] the dispatcher reads. *)
Record Config : Type := {
  APIMode : string;
  ProjectID : string;
  Location : string;
  MaxRetries : Z;
  UserAgent : string;
  SystemPromptFile : string;
  SystemPromptMode : string
}.

Record CodeAssistRequest : Type := {
  CA_Model : string;
  CA_Project : string;
  CA_Request : GeminiRequest
}.

(** What the dispatcher sees of an attached [*auth.GoogleAuth]:
    [IsInitialized], [GetProjectID] and the outcomes of
    [tokenSource.Token()].  The token source is asked again each time a
    request is created, and may answer differently each time (the token
    expires, is refreshed, the refresh fails): [auth_tokenSource k] is
    what it answers the [k]-th time this client asks, the access token or
    the error. *)
Record AuthHandle : Type := {
  auth_initialized : bool;
  auth_projectID : string;
  auth_tokenSource : nat -> result string
}.

Record HttpRequest : Type := {
  Method : string;
  URL : string;
  Header : gmap string string;
  Body : string
}.

(** What [client.Do] yields: a transport error (by its message), or a
    response with its status code and body. *)
Inductive DoOutcome : Type :=
| TransportError (msg : string)
| Response (StatusCode : Z) (body : string).

(** An unread [*http.Response], as the raw streaming operation returns it. *)
Record StreamHandle : Type := {
  Stream_StatusCode : Z;
  Stream_Body : string
}.

Record Env : Type := {
  (** encoding/json *)
  json_Marshal : GeminiRequest -> result string;
  json_Marshal_codeAssist : CodeAssistRequest -> result string;
  json_Decode : string -> result GeminiResponse;
  (** [CodeAssistResponse.Response] is a pointer: [None] when absent *)
  json_Decode_codeAssist : string -> result (option GeminiResponse);
  (** net/url: [url.Parse], and the URL with [alt=sse] set in its query
      ([None] when [url.Parse] rejects the URL and returns nil) *)
  url_Parse : string -> result unit;
  url_setAltSSE : string -> option string;
  (** net/http: [http.NewRequestWithContext method url], and the outcome
      of the [k]-th [client.Do], given the active proxy and the request *)
  http_NewRequest : string -> string -> result unit;
  http_Do : nat -> option string -> HttpRequest -> DoOutcome;
  (** math/rand: the [k]-th raw draw of [randSource] *)
  rand_draw : nat -> nat;
  (** io/ioutil *)
  ioutil_ReadFile : string -> result string;
  (** package unicode: the case tables behind [strings.ToLower] and
      [strings.ToUpper] *)
  unicode_tables : CaseTables
}.

Record GeminiClient : Type := {
  config : Config;
  auth : option AuthHandle;
  useCodeAssist : bool;              (* converter.useCodeAssist *)
  Transport : option string;         (* client.Transport: the active proxy *)
  proxyURLs : list string;
  draws : nat;                       (* draws taken from randSource *)
  sent : list (option string * HttpRequest); (* calls of client.Do *)
  asked : nat                        (* calls of auth.GetToken *)
}.

Definition set_Transport (c : GeminiClient) (t : option string) : GeminiClient :=
  {| config := config c; auth := auth c; useCodeAssist := useCodeAssist c;
     Transport := t; proxyURLs := proxyURLs c; draws := draws c; sent := sent c;
     asked := asked c |}.

Definition tick_draws (c : GeminiClient) : GeminiClient :=
  {| config := config c; auth := auth c; useCodeAssist := useCodeAssist c;
     Transport := Transport c; proxyURLs := proxyURLs c; draws := S (draws c);
     sent := sent c; asked := asked c |}.

Definition log_sent (c : GeminiClient) (r : HttpRequest) : GeminiClient :=
  {| config := config c; auth := auth c; useCodeAssist := useCodeAssist c;
     Transport := Transport c; proxyURLs := proxyURLs c; draws := draws c;
     sent := sent c ++ [(Transport c, r)]; asked := asked c |}.

Definition tick_asked (c : GeminiClient) : GeminiClient :=
  {| config := config c; auth := auth c; useCodeAssist := useCodeAssist c;
     Transport := Transport c; proxyURLs := proxyURLs c; draws := draws c;
     sent := sent c; asked := S (asked c) |}.

(** [fmt]'s rendering of an error under [%w] / [%v]; [None] is nil. *)
Definition fmt_err (e : option string) : string :=
  match e with
  | Some m => m
  | None => "%!w(<nil>)"
  end.

Section WithEnv.
Variable env : Env.

Definition buildAPIURL (c : GeminiClient) (modelID action : string) : option string :=
  if String.eqb (APIMode (config c)) CodeAssist
  then Some (CodeAssistEndpoint +:+ "/" +:+ CodeAssistVersion +:+ ":" +:+ action)
  else if String.eqb (APIMode (config c)) VertexAI
  then match auth c with
       | None => None             (* c.auth.GetProjectID() on a nil auth *)
       | Some a =>
           let location := Location (config c) in
           let baseURL := "https://" +:+ location +:+ "-aiplatform.googleapis.com" in
           Some (baseURL +:+ "/" +:+ VertexAPIVersion +:+ "/projects/"
                   +:+ auth_projectID a +:+ "/locations/" +:+ location
                   +:+ "/publishers/google/models/" +:+ modelID +:+ ":" +:+ action)
       end
  else Some (DefaultAPIEndpoint +:+ "/" +:+ DefaultAPIVersion +:+ "/models/"
               +:+ modelID +:+ ":" +:+ action).

(** [auth.GetToken], called for the [k]-th time by this client. *)
Definition GetToken (a : AuthHandle) (k : nat) : result string :=
  if negb (auth_initialized a) then Err "authentication not initialized"
  else match auth_tokenSource a k with
       | Err e => Err ("failed to get token: " +:+ e)
       | Ok t => Ok t
       end.

(** [createRequest]: the request or the error, and the client, which has
    asked for a token once more when a manager is attached and
    initialized. *)
Definition createRequest (c : GeminiClient) (method url body : string)
  : result HttpRequest * GeminiClient :=
  match http_NewRequest env method url with
  | Err e => (Err e, c)
  | Ok _ =>
      let h := <["User-Agent" := UserAgent (config c)]>
                 (<["Content-Type" := "application/json"]> (∅ : gmap string string)) in
      let plain := {| Method := method; URL := url; Header := h; Body := body |} in
      match auth c with
      | Some a =>
          if auth_initialized a
          then match GetToken a (asked c) with
               | Err e => (Err ("failed to get auth token: " +:+ e), tick_asked c)
               | Ok token =>
                   (Ok {| Method := method; URL := url;
                          Header := <["Authorization" := "Bearer " +:+ token]> h;
                          Body := body |},
                    tick_asked c)
               end
          else (Ok plain, c)
      | None => (Ok plain, c)
      end
  end.

(** [client.Do]: the world answers, and the call is logged. *)
Definition Do (c : GeminiClient) (r : HttpRequest) : DoOutcome * GeminiClient :=
  (http_Do env (length (sent c)) (Transport c) r, log_sent c r).

Definition networkErrors : list string :=
  [ "connection refused"; "connection reset"; "connection timeout";
    "no such host"; "network unreachable"; "timeout"; "dial tcp"; "proxy" ].

Definition isNetworkError (err : option string) : bool :=
  match err with
  | None => false
  | Some errStr =>
      existsb (fun netErr => Contains (ToLower (unicode_tables env) errStr) netErr)
              networkErrors
  end.

(** [setRandomProxy]: the updated client and the error returned. *)
Definition setRandomProxy (c : GeminiClient) : GeminiClient * option string :=
  match proxyURLs c with
  | [] => (set_Transport c None, None)
  | _ =>
      let i := (rand_draw env (draws c) mod length (proxyURLs c))%nat in
      let c1 := tick_draws c in
      let proxyURL := nth i (proxyURLs c) EmptyString in
      match url_Parse env proxyURL with
      | Err e => (c1, Some ("invalid proxy URL: " +:+ e))
      | Ok _ => (set_Transport c1 (Some proxyURL), None)
      end
  end.

Definition RotateProxy (c : GeminiClient) : GeminiClient * option string :=
  if (length (proxyURLs c) <=? 1)%nat then (c, None) else setRandomProxy c.

(** [_applySystemPromptFromFile]: the updated request, or the error (in
    which case the request was not touched). *)
Definition applySystemPromptFromFile (c : GeminiClient) (req : GeminiRequest)
  : result GeminiRequest :=
  if String.eqb (SystemPromptFile (config c)) EmptyString then Ok req
  else match ioutil_ReadFile env (SystemPromptFile (config c)) with
       | Err e => Err ("failed to read system prompt file "
                         +:+ SystemPromptFile (config c) +:+ ": " +:+ e)
       | Ok filePromptText =>
           if String.eqb filePromptText EmptyString then Ok req
           else
             let newPart := {| Text := filePromptText |} in
             let parts := match SystemInstruction req with
                          | Some si => SI_Parts si
                          | None => []
                          end in
             let mode := ToLower (unicode_tables env) (SystemPromptMode (config c)) in
             Ok {| Contents := Contents req;
                   SystemInstruction :=
                     Some {| SI_Parts := if String.eqb mode "append"
                                         then parts ++ [newPart] else [newPart] |};
                   GenerationConfig := GenerationConfig req |}
       end.

(** Validation, prompt injection and serialisation, shared by both
    sending operations: the request body, or the marshalling error. *)
Definition buildBody (c : GeminiClient) (modelID : string) (req : GeminiRequest)
  : result string :=
  let req1 := ValidateAndFixRequest (useCodeAssist c) req modelID in
  let req2 := match applySystemPromptFromFile c req1 with
              | Ok r => r
              | Err _ => req1         (* logged, not fatal *)
              end in
  if String.eqb (APIMode (config c)) CodeAssist
  then json_Marshal_codeAssist env
         {| CA_Model := modelID; CA_Project := ProjectID (config c); CA_Request := req2 |}
  else json_Marshal env req2.

(** The streaming URL: [alt=sse] is added in two of the modes. *)
Definition streamURL (c : GeminiClient) (modelID : string) : option string :=
  match buildAPIURL c modelID "streamGenerateContent" with
  | None => None
  | Some apiURL =>
      if String.eqb (APIMode (config c)) CodeAssist
         || String.eqb (APIMode (config c)) AIStudio
      then url_setAltSSE env apiURL
      else Some apiURL
  end.

Definition emptyResponse : GeminiResponse :=
  {| Candidates := []; UsageMetadata := None |}.

(** The loop [for attempt := 0; attempt < maxRetries; attempt++]:
    [fuel] counts the iterations left, [lastErr] and the client are the
    loop's state. *)
Fixpoint retryLoop (fuel : nat) (attempt maxRetries : Z) (apiURL reqBody : string)
    (isStream : bool) (lastErr : option string) (c : GeminiClient)
  : result GeminiResponse * GeminiClient :=
  match fuel with
  | O => (Err ("request failed after " +:+ fmt_d maxRetries +:+ " attempts: "
                 +:+ fmt_err lastErr), c)
  | S fuel' =>
      let next := retryLoop fuel' (attempt + 1) maxRetries apiURL reqBody isStream in
      let c0 := if (0 <? attempt) && (1 <? length (proxyURLs c))%nat
                then fst (RotateProxy c) else c in
      let '(built, c1) := createRequest c0 "POST" apiURL reqBody in
      match built with
      | Err e => next (Some e) c1
      | Ok httpReq =>
          let '(outcome, c2) := Do c1 httpReq in
          match outcome with
          | TransportError msg =>
              let lastErr' := "request failed: " +:+ msg in
              if (1 <? length (proxyURLs c2))%nat && isNetworkError (Some msg)
              then next (Some lastErr') c2
              else (Err lastErr', c2)
          | Response status body =>
              if isStream then (Ok emptyResponse, c2)
              else if negb (status =? 200)
              then
                let lastErr' := "API request failed with status " +:+ fmt_d status
                                  +:+ ": " +:+ body in
                if ((status =? 429) || (500 <=? status))
                   && (1 <? length (proxyURLs c2))%nat
                then next (Some lastErr') c2
                else (Err lastErr', c2)
              else if String.eqb (APIMode (config c2)) CodeAssist
              then match json_Decode_codeAssist env body with
                   | Err e => next (Some ("failed to decode Code Assist response: " +:+ e)) c2
                   | Ok (Some r) => (Ok r, c2)
                   | Ok None => (Ok emptyResponse, c2)
                   end
              else match json_Decode env body with
                   | Err e => next (Some ("failed to decode response: " +:+ e)) c2
                   | Ok r => (Ok r, c2)
                   end
          end
      end
  end.

Definition effectiveMaxRetries (c : GeminiClient) : Z :=
  if MaxRetries (config c) <=? 0 then 3 else MaxRetries (config c).

(** The request arrives as a pointer, [None] being nil.  The first
    statement, [c.converter.ValidateAndFixRequest(req, modelID)], ranges over
    [req.Contents]: on a nil request it panics before anything else is done. *)
Definition sendRequestWithRetry (c : GeminiClient) (modelID : string)
    (req : option GeminiRequest) (isStream : bool)
  : option (result GeminiResponse * GeminiClient) :=
  match req with
  | None => None
  | Some req =>
      match buildBody c modelID req with
      | Err e => Some (Err ("failed to marshal request: " +:+ e), c)
      | Ok reqBody =>
          match (if isStream then streamURL c modelID
                 else buildAPIURL c modelID "generateContent") with
          | None => None
          | Some apiURL =>
              let maxRetries := effectiveMaxRetries c in
              Some (retryLoop (Z.to_nat maxRetries) 0 maxRetries apiURL reqBody
                              isStream None c)
          end
      end
  end.

(** [SendRequest], the non-streaming Send operation. *)
Definition SendRequest (c : GeminiClient) (modelID : string) (req : option GeminiRequest)
  : option (result GeminiResponse * GeminiClient) :=
  sendRequestWithRetry c modelID req false.

(** [SendStreamRequestRaw]; it validates the request first as well. *)
Definition SendStreamRequestRaw (c : GeminiClient) (modelID : string)
    (req : option GeminiRequest) : option (result StreamHandle * GeminiClient) :=
  match req with
  | None => None
  | Some req =>
      match buildBody c modelID req with
      | Err e => Some (Err ("failed to marshal request: " +:+ e), c)
      | Ok reqBody =>
          match streamURL c modelID with
          | None => None
          | Some apiURL =>
              let '(built, c0) := createRequest c "POST" apiURL reqBody in
              match built with
              | Err e => Some (Err e, c0)
              | Ok httpReq =>
                  let '(outcome, c1) := Do c0 httpReq in
                  match outcome with
                  | TransportError msg =>
                      Some (Err ("stream request failed: " +:+ msg), c1)
                  | Response status body =>
                      if negb (status =? 200)
                      then Some (Err ("stream API request failed with status "
                                        +:+ fmt_d status +:+ ": " +:+ body), c1)
                      else Some (Ok {| Stream_StatusCode := status;
                                       Stream_Body := body |}, c1)
                  end
              end
          end
      end
  end.

End WithEnv.

(** ** Construction and the proxy setters *)

Definition with_proxyURLs (c : GeminiClient) (l : list string) : GeminiClient :=
  {| config := config c; auth := auth c; useCodeAssist := useCodeAssist c;
     Transport := Transport c; proxyURLs := l; draws := draws c; sent := sent c;
     asked := asked c |}.

Definition with_config (c : GeminiClient) (cfg : Config) : GeminiClient :=
  {| config := cfg; auth := auth c; useCodeAssist := useCodeAssist c;
     Transport := Transport c; proxyURLs := proxyURLs c; draws := draws c;
     sent := sent c; asked := asked c |}.

(** The dispatcher's view of a [config.Config]. *)
Definition dispatcherConfig (cfg : ConfigFile.Config) : Config :=
  {| APIMode := ConfigFile.APIMode cfg;
     ProjectID := ConfigFile.ProjectID cfg;
     Location := ConfigFile.Location cfg;
     MaxRetries := ConfigFile.MaxRetries cfg;
     UserAgent := ConfigFile.UserAgent cfg;
     SystemPromptFile := ConfigFile.SystemPromptFile cfg;
     SystemPromptMode := ConfigFile.SystemPromptMode cfg |}.

(** Further library calls and readings of the world, used by the listing
    and streaming operations. *)
Record StreamEnv : Type := {
  (** [bufio.Scanner] over a response body: the lines it yields and the
      error [scanner.Err()] reports once they are exhausted *)
  bufio_Scan : string -> list string * option string;
  (** [json.Unmarshal] into a stream chunk, and into a Code Assist wrapper
      whose [Response] is a pointer *)
  json_Unmarshal_chunk : string -> result GeminiStreamChunk;
  json_Unmarshal_codeAssistChunk : string -> result (option GeminiStreamChunk);
  json_Decode_models : string -> result GeminiModelsResponse;
  (** [ctx.Err()] at the [k]-th look at [ctx.Done()]: [None] while the
      context is live *)
  ctx_Err : nat -> option string;
  (** [time.Now()], read for the [k]-th time: Unix seconds, and the
      nanoseconds a request id is made of *)
  time_Now_Unix : nat -> Z;
  time_Now_UnixNano : Z
}.

Section WithEnv.
Variable env : Env.

(** [NewGeminiClient]; a nil configuration is replaced by the default one.
    The proxy list is copied, and a first proxy drawn when there is one. *)
Definition NewGeminiClient (cfg : option ConfigFile.Config) (googleAuth : option AuthHandle)
  : GeminiClient :=
  let cfg := match cfg with
             | Some cfg => cfg
             | None => ConfigFile.DefaultConfig
             end in
  let geminiClient :=
    {| config := dispatcherConfig cfg;
       auth := googleAuth;
       useCodeAssist := String.eqb (ConfigFile.APIMode cfg) "code_assist";
       Transport := None;
       proxyURLs := match ConfigFile.ProxyURLs cfg with
                    | Some l => l
                    | None => []
                    end;
       draws := 0;
       sent := [];
       asked := 0 |} in
  if (0 <? length (proxyURLs geminiClient))%nat
  then fst (setRandomProxy env geminiClient)
  else geminiClient.

Definition SetProxy (c : GeminiClient) (proxyURL : string)
  : GeminiClient * option string :=
  if String.eqb proxyURL EmptyString
  then (with_proxyURLs (set_Transport c None) [], None)
  else match url_Parse env proxyURL with
       | Err e => (c, Some ("invalid proxy URL: " +:+ e))
       | Ok _ => (with_proxyURLs (set_Transport c (Some proxyURL)) [proxyURL], None)
       end.

(** The validation loop of [SetProxyList]: the URLs that parse, in order. *)
Definition validProxies (proxyURLs : list string) : list string :=
  fold_left (fun valid proxyURL =>
               match url_Parse env proxyURL with
               | Err _ => valid
               | Ok _ => valid ++ [proxyURL]
               end)
            proxyURLs [].

Definition SetProxyList (c : GeminiClient) (proxyURLs : list string)
  : GeminiClient * option string :=
  match proxyURLs with
  | [] => (with_proxyURLs (set_Transport c None) [], None)
  | _ =>
      match validProxies proxyURLs with
      | [] => (c, Some "no valid proxy URLs provided")
      | valid => setRandomProxy env (with_proxyURLs c valid)
      end
  end.

Definition UseCodeAssist (c : GeminiClient) : GeminiClient :=
  with_config c
    {| APIMode := CodeAssist; ProjectID := ProjectID (config c);
       Location := Location (config c); MaxRetries := MaxRetries (config c);
       UserAgent := UserAgent (config c);
       SystemPromptFile := SystemPromptFile (config c);
       SystemPromptMode := SystemPromptMode (config c) |}.

Definition UseVertexAI (c : GeminiClient) (location : string) : GeminiClient :=
  with_config c
    {| APIMode := VertexAI; ProjectID := ProjectID (config c);
       Location := if negb (String.eqb location EmptyString) then location
                   else Location (config c);
       MaxRetries := MaxRetries (config c);
       UserAgent := UserAgent (config c);
       SystemPromptFile := SystemPromptFile (config c);
       SystemPromptMode := SystemPromptMode (config c) |}.

End WithEnv.

Section WithStreamEnv.
Variable env : Env.
Variable senv : StreamEnv.

(** ** ListModels *)

Definition ListModels (c : GeminiClient) : result OpenAIModelsResponse * GeminiClient :=
  let fetch (apiURL : string) :=
    let '(built, c0) := createRequest env c "GET" apiURL EmptyString in
    match built with
    | Err e => (Err e, c0)
    | Ok httpReq =>
        let '(outcome, c1) := Do env c0 httpReq in
        match outcome with
        | TransportError msg => (Err ("models request failed: " +:+ msg), c1)
        | Response status body =>
            if negb (status =? 200)
            then
              if (status =? 404) || (status =? 405)
              then (Ok (GenerateModelsList (time_Now_Unix senv 0)), c1)
              else (Err ("models API request failed with status " +:+ fmt_d status
                           +:+ ": " +:+ body), c1)
            else match json_Decode_models senv body with
                 | Err e => (Err ("failed to decode models response: " +:+ e), c1)
                 | Ok geminiModels =>
                     (Ok (ConvertGeminiModels geminiModels (time_Now_Unix senv 0)), c1)
                 end
        end
    end in
  if String.eqb (APIMode (config c)) CodeAssist
  then fetch (CodeAssistEndpoint +:+ "/" +:+ CodeAssistVersion +:+ "/models")
  else if String.eqb (APIMode (config c)) VertexAI
  then (Ok (GenerateModelsList (time_Now_Unix senv 0)), c)
  else fetch (DefaultAPIEndpoint +:+ "/" +:+ DefaultAPIVersion +:+ "/models").

(** ** SendOpenAIRequest *)

(** [nowNano] and [nowUnix] are the clock readings of the response
    conversion. *)
Definition SendOpenAIRequest (c : GeminiClient) (req : option OpenAIRequest)
  : option (result OpenAIResponse * GeminiClient) :=
  match OpenAIToGeminiRequest (unicode_tables env) req with
  | Err e => Some (Err ("failed to convert request: " +:+ e), c)
  | Ok geminiReq =>
      (* [req.Model]; a nil request does not come this far *)
      let model := match req with
                   | Some req => Req_Model req
                   | None => EmptyString
                   end in
      match SendRequest env c model (Some geminiReq) with
      | None => None
      | Some (Err e, c') => Some (Err e, c')
      | Some (Ok geminiResp, c') =>
          match GeminiToOpenAIResponse (unicode_tables env) (Some geminiResp) model
                  (time_Now_UnixNano senv) (time_Now_Unix senv 0) with
          | Err e => Some (Err ("failed to convert response: " +:+ e), c')
          | Ok openaiResp => Some (Ok openaiResp, c')
          end
      end
  end.

(** ** SendStreamRequest

    The callback is a function of the chunk and of the state it keeps (of
    any type [A]), returning its error and the new state, or [None] when
    it panics. *)
Section Callback.
Context {A : Type}.
Variable callback : GeminiStreamChunk -> A -> option (option string * A).

Definition zeroChunk : GeminiStreamChunk :=
  {| Chunk_Candidates := []; Chunk_UsageMetadata := None |}.

(** The chunk a payload parses to: [None] when parsing fails (the line is
    logged and skipped). *)
Definition parseChunk (codeAssist : bool) (data : string) : option GeminiStreamChunk :=
  if codeAssist
  then match json_Unmarshal_codeAssistChunk senv data with
       | Err _ => None
       | Ok (Some chunk) => Some chunk
       | Ok None => Some zeroChunk
       end
  else match json_Unmarshal_chunk senv data with
       | Err _ => None
       | Ok chunk => Some chunk
       end.

(** The loop [for scanner.Scan()] over the lines still to come; [k] is the
    number of lines read so far.  The result is the error the loop returns
    with, or [None] when it runs to the end of the lines. *)
Fixpoint scanLoop (codeAssist : bool) (lines : list string) (k : nat) (a : A)
  : option (option string * A) :=
  match lines with
  | [] => Some (None, a)
  | line :: rest =>
      match ctx_Err senv k with
      | Some e => Some (Some e, a)
      | None =>
          if HasPrefix line "data: "
          then
            let data := TrimPrefix line "data: " in
            if negb (String.eqb data EmptyString)
            then match parseChunk codeAssist data with
                 | None => scanLoop codeAssist rest (S k) a
                 | Some chunk =>
                     match callback chunk a with
                     | None => None
                     | Some (Some e, a') => Some (Some ("callback error: " +:+ e), a')
                     | Some (None, a') => scanLoop codeAssist rest (S k) a'
                     end
                 end
            else scanLoop codeAssist rest (S k) a
          else scanLoop codeAssist rest (S k) a
      end
  end.

Definition SendStreamRequest (c : GeminiClient) (modelID : string)
    (req : option GeminiRequest) (a : A) : option (option string * A * GeminiClient) :=
  match SendStreamRequestRaw env c modelID req with
  | None => None
  | Some (Err e, c1) => Some (Some e, a, c1)
  | Some (Ok resp, c1) =>
      let '(lines, scanErr) := bufio_Scan senv (Stream_Body resp) in
      match scanLoop (String.eqb (APIMode (config c1)) CodeAssist) lines 0 a with
      | None => None
      | Some (Some e, a') => Some (Some e, a', c1)
      | Some (None, a') =>
          match scanErr with
          | Some e => Some (Some ("error reading stream: " +:+ e), a', c1)
          | None => Some (None, a', c1)
          end
      end
  end.

End Callback.

(** ** SendOpenAIStreamRequest

    The closure handed to [SendStreamRequest] captures the request id and
    the variable [roleSent]; its state here is that flag, the number of
    chunks converted and the state of the caller's callback. *)
Section OpenAICallback.
Context {A : Type}.
Variable callback : OpenAIStreamChunk -> A -> option (option string * A).

Definition openAICallback (model requestID : string) (chunk : GeminiStreamChunk)
    (st : bool * nat * A) : option (option string * (bool * nat * A)) :=
  let '(roleSent, n, a) := st in
  match GeminiStreamToOpenAI (unicode_tables env) (Some chunk) model requestID
          (time_Now_Unix senv n) roleSent with
  | (Err e, roleSent') =>
      Some (Some ("failed to convert stream chunk: " +:+ e), (roleSent', S n, a))
  | (Ok openaiChunk, roleSent') =>
      match callback openaiChunk a with
      | None => None
      | Some (err, a') => Some (err, (roleSent', S n, a'))
      end
  end.

Definition SendOpenAIStreamRequest (c : GeminiClient) (req : option OpenAIRequest) (a : A)
  : option (option string * A * GeminiClient) :=
  match OpenAIToGeminiRequest (unicode_tables env) req with
  | Err e => Some (Some ("failed to convert request: " +:+ e), a, c)
  | Ok geminiReq =>
      let model := match req with
                   | Some req => Req_Model req
                   | None => EmptyString
                   end in
      let requestID := GenerateRequestID (time_Now_UnixNano senv) in
      match SendStreamRequest (openAICallback model requestID) c model (Some geminiReq)
                              (false, 0%nat, a) with
      | None => None
      | Some (err, (_, _, a'), c') => Some (err, a', c')
      end
  end.

End OpenAICallback.

(** ** Health

    [authHealth] is the outcome of [c.auth.Health] for the attached
    manager ([None]: nil). *)
Definition healthProbe : OpenAIRequest :=
  {| Req_Model := "gemini-pro";
     Req_Messages := [ {| Msg_Role := "user"; Msg_Content := "Hello" |} ];
     Req_Stream := false; Req_Temperature := None; Req_MaxTokens := Some 10;
     Req_TopP := None; Req_Stop := [];
     Req_SystemInstruction := None |}.

Definition Health (authHealth : AuthHandle -> option string) (c : GeminiClient)
  : option (option string * GeminiClient) :=
  let probe :=
    match SendOpenAIRequest c (Some healthProbe) with
    | None => None
    | Some (Err e, c') => Some (Some e, c')
    | Some (Ok _, c') => Some (None, c')
    end in
  match auth c with
  | Some a =>
      match authHealth a with
      | Some e => Some (Some ("auth health check failed: " +:+ e), c)
      | None => probe
      end
  | None => probe
  end.

End WithStreamEnv.

End Client.

(** pkg/auth/auth.go: the credential manager.

    The manager is the record [GoogleAuth]; every method takes it and
    returns the updated record.  The two channels of capacity 1 are slots
    ([None] is an empty channel), the goroutine the callback handler starts
    is logged in [spawned] and its body is [runTokenCallback].  The
    discovery procedure talks to the backend through the [Wire]: the log of
    requests made and the seconds spent in [time.Sleep]. *)
Module Auth.
Import GoStrings GoCrypto.

Definition DefaultLocation : string := "us-central1".
Definition CloudScope : string := "https://www.googleapis.com/auth/cloud-platform".
Definition GoogleAuthURL : string := "https://accounts.google.com/o/oauth2/v2/auth".
Definition GoogleTokenURL : string := "https://oauth2.googleapis.com/token".
Definition CodeAssistEndpoint : string := "https://cloudcode-pa.googleapis.com".
Definition CodeAssistAPIVersion : string := "v1internal".
Definition OAuthClientID : string :=
  "681255809395-oo8ft2oprdrnp9e3aqf6av3hmdib135j.apps.googleusercontent.com".
Definition OAuthClientSecret : string := "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".

(** [oauth2.Token]; [Expiry] is a Unix time. *)
Record Token : Type := {
  AccessToken : string;
  TokenType : string;
  RefreshToken : string;
  Expiry : Z
}.

(** [oauth2.Config] *)
Record OAuthConfig : Type := {
  ClientID : string;
  ClientSecret : string;
  RedirectURL : string;
  Scopes : list string;
  AuthURL : string;
  TokenURL : string
}.

(** What [oauthConfig.TokenSource(ctx, t)] builds: a source that hands out
    [t] and refreshes it at the configuration's token endpoint with [t]'s
    refresh token. *)
Record TokenSource : Type := {
  ts_token : Token;
  ts_refreshURL : string;
  ts_refreshToken : string
}.

Definition Config_TokenSource (cfg : OAuthConfig) (t : Token) : TokenSource :=
  {| ts_token := t; ts_refreshURL := TokenURL cfg; ts_refreshToken := RefreshToken t |}.

(** [models.GoogleAuthConfig], the fields [NewGoogleAuth] reads. *)
Record GoogleAuthConfig : Type := {
  Cfg_RedirectURL : string;
  Cfg_OAuthTokens : list string;
  Cfg_ProjectID : string;
  Cfg_Location : string
}.

Record GoogleAuth : Type := {
  redirectURL : string;
  tokens : list string;
  tokenSource : option TokenSource;
  initialized : bool;
  oauthConfig : OAuthConfig;
  currentTokens : option Token;
  authComplete : option bool;          (* chan bool, capacity 1 *)
  callbackPath : string;
  clientBinding : string;
  projectID : string;
  location : string;
  tokenBase64 : string;
  (** the persistence callback, by the error it returns ([None] is nil) *)
  onTokenReceived : option (string -> Token -> option string);
  fatalErrorChan : option string;      (* chan error, capacity 1 *)
  spawned : list (string * Token)      (* goroutines started by the handler *)
}.

(** JSON values as the discovery procedure builds them for request bodies. *)
#[warnings="-register-all"] Inductive Json : Type :=
| JString (s : string)
| JObject (fields : list (string * Json)).

(** The outcome of one call through the OAuth-bound HTTP client. *)
Inductive ApiOutcome : Type :=
| ApiTransportError (msg : string)
| ApiResponse (StatusCode : Z) (body : string).

Record Wire : Type := {
  calls : list (string * Json);        (* URL and body of each call made *)
  slept : Z                            (* seconds spent in time.Sleep *)
}.

(** An inbound callback request: its method, its path and its parsed query
    ([url.Values], a map from keys to the list of their values).  The
    handler never reads the method. *)
Record CallbackRequest : Type := {
  ReqMethod : string;
  Path : string;
  Query : gmap string (list string)
}.

(** What the handler writes to its [http.ResponseWriter].  A JSON body is
    kept as the map handed to the encoder (its values are all strings). *)
Inductive ResponseBody : Type :=
| NoBody
| PlainText (text : string)
| JsonObject (fields : gmap string string).

Record HttpResponse : Type := {
  StatusCode : Z;
  Header : gmap string string;
  Body : ResponseBody
}.

Record Env : Type := {
  (** encoding/base64, encoding/json *)
  base64_DecodeString : string -> result string;
  json_Unmarshal_token : string -> result Token;
  (** the project carried by a load response, and the pair
      (done, response.cloudaicompanionProject.id) of an onboard response *)
  json_Decode_load : string -> result string;
  json_Decode_onboard : string -> result (bool * string);
  (** net/url: the base URL with its path replaced, query and fragment
      cleared *)
  url_withPath : string -> string -> result string;
  (** golang.org/x/oauth2 *)
  oauth_Exchange : OAuthConfig -> string -> result Token;
  token_Valid : Token -> bool;
  (** time *)
  time_Format_RFC3339 : Z -> string;
  (** the answer to the [k]-th call through the OAuth-bound client *)
  api_Do : nat -> string -> Json -> ApiOutcome
}.

(** ** Field updates *)

Definition with_path (g : GoogleAuth) (path binding : string) : GoogleAuth :=
  {| redirectURL := redirectURL g; tokens := tokens g; tokenSource := tokenSource g;
     initialized := initialized g; oauthConfig := oauthConfig g;
     currentTokens := currentTokens g; authComplete := authComplete g;
     callbackPath := path; clientBinding := binding; projectID := projectID g;
     location := location g; tokenBase64 := tokenBase64 g;
     onTokenReceived := onTokenReceived g; fatalErrorChan := fatalErrorChan g;
     spawned := spawned g |}.

Definition with_oauthConfig (g : GoogleAuth) (cfg : OAuthConfig) : GoogleAuth :=
  {| redirectURL := redirectURL g; tokens := tokens g; tokenSource := tokenSource g;
     initialized := initialized g; oauthConfig := cfg;
     currentTokens := currentTokens g; authComplete := authComplete g;
     callbackPath := callbackPath g; clientBinding := clientBinding g;
     projectID := projectID g; location := location g; tokenBase64 := tokenBase64 g;
     onTokenReceived := onTokenReceived g; fatalErrorChan := fatalErrorChan g;
     spawned := spawned g |}.

Definition with_currentTokens (g : GoogleAuth) (t : option Token) : GoogleAuth :=
  {| redirectURL := redirectURL g; tokens := tokens g; tokenSource := tokenSource g;
     initialized := initialized g; oauthConfig := oauthConfig g;
     currentTokens := t; authComplete := authComplete g;
     callbackPath := callbackPath g; clientBinding := clientBinding g;
     projectID := projectID g; location := location g; tokenBase64 := tokenBase64 g;
     onTokenReceived := onTokenReceived g; fatalErrorChan := fatalErrorChan g;
     spawned := spawned g |}.

Definition with_initialized (g : GoogleAuth) (src : TokenSource) : GoogleAuth :=
  {| redirectURL := redirectURL g; tokens := tokens g; tokenSource := Some src;
     initialized := true; oauthConfig := oauthConfig g;
     currentTokens := currentTokens g; authComplete := authComplete g;
     callbackPath := callbackPath g; clientBinding := clientBinding g;
     projectID := projectID g; location := location g; tokenBase64 := tokenBase64 g;
     onTokenReceived := onTokenReceived g; fatalErrorChan := fatalErrorChan g;
     spawned := spawned g |}.

Definition with_authComplete (g : GoogleAuth) (slot : option bool) : GoogleAuth :=
  {| redirectURL := redirectURL g; tokens := tokens g; tokenSource := tokenSource g;
     initialized := initialized g; oauthConfig := oauthConfig g;
     currentTokens := currentTokens g; authComplete := slot;
     callbackPath := callbackPath g; clientBinding := clientBinding g;
     projectID := projectID g; location := location g; tokenBase64 := tokenBase64 g;
     onTokenReceived := onTokenReceived g; fatalErrorChan := fatalErrorChan g;
     spawned := spawned g |}.

Definition with_fatalError (g : GoogleAuth) (slot : option string) : GoogleAuth :=
  {| redirectURL := redirectURL g; tokens := tokens g; tokenSource := tokenSource g;
     initialized := initialized g; oauthConfig := oauthConfig g;
     currentTokens := currentTokens g; authComplete := authComplete g;
     callbackPath := callbackPath g; clientBinding := clientBinding g;
     projectID := projectID g; location := location g; tokenBase64 := tokenBase64 g;
     onTokenReceived := onTokenReceived g; fatalErrorChan := slot;
     spawned := spawned g |}.

Definition with_spawned (g : GoogleAuth) (job : string * Token) : GoogleAuth :=
  {| redirectURL := redirectURL g; tokens := tokens g; tokenSource := tokenSource g;
     initialized := initialized g; oauthConfig := oauthConfig g;
     currentTokens := currentTokens g; authComplete := authComplete g;
     callbackPath := callbackPath g; clientBinding := clientBinding g;
     projectID := projectID g; location := location g; tokenBase64 := tokenBase64 g;
     onTokenReceived := onTokenReceived g; fatalErrorChan := fatalErrorChan g;
     spawned := spawned g ++ [job] |}.

(** A non-blocking send on a channel of capacity 1:
    [select { case ch <- v: default: }]. *)
Definition trySend {A : Type} (slot : option A) (v : A) : option A :=
  match slot with
  | None => Some v
  | Some _ => slot
  end.

(** ** Construction and the callback path *)

Definition callbackPrefix : string := "/oauth/callback/".

Definition generateCallbackPath (g : GoogleAuth) (clientID : string) : GoogleAuth :=
  if (String.length clientID <? 12)%nat
  then
    let hashStr := hex_EncodeToString (md5_Sum clientID) in
    with_path g (callbackPrefix +:+ slice_to hashStr 12) clientID
  else with_path g (callbackPrefix +:+ slice_to clientID 12) clientID.

Section WithEnv.
Variable env : Env.

Definition buildDynamicRedirectURL (g : GoogleAuth) (baseURL : string) : string :=
  if String.eqb baseURL EmptyString then EmptyString
  else match url_withPath env baseURL (callbackPath g) with
       | Err _ => EmptyString
       | Ok u => u
       end.

Definition NewGoogleAuth (authConfig : option GoogleAuthConfig) : GoogleAuth :=
  let redirect := match authConfig with Some a => Cfg_RedirectURL a | None => EmptyString end in
  let toks := match authConfig with Some a => Cfg_OAuthTokens a | None => [] end in
  let project := match authConfig with Some a => Cfg_ProjectID a | None => EmptyString end in
  let loc := match authConfig with Some a => Cfg_Location a | None => EmptyString end in
  let loc := if String.eqb loc EmptyString then DefaultLocation else loc in
  let blank := {| ClientID := EmptyString; ClientSecret := EmptyString;
                  RedirectURL := EmptyString; Scopes := [];
                  AuthURL := EmptyString; TokenURL := EmptyString |} in
  let g0 := {| redirectURL := redirect; tokens := toks; tokenSource := None;
               initialized := false; oauthConfig := blank; currentTokens := None;
               authComplete := None; callbackPath := EmptyString;
               clientBinding := EmptyString; projectID := project; location := loc;
               tokenBase64 := EmptyString; onTokenReceived := None;
               fatalErrorChan := None; spawned := [] |} in
  let g1 := generateCallbackPath g0 OAuthClientID in
  with_oauthConfig g1
    {| ClientID := OAuthClientID; ClientSecret := OAuthClientSecret;
       RedirectURL := buildDynamicRedirectURL g1 redirect;
       Scopes := [CloudScope];
       AuthURL := GoogleAuthURL; TokenURL := GoogleTokenURL |}.

(** ** Initialize *)

Definition loadTokenFromBase64 (g : GoogleAuth) (tokenBase64 : string)
  : GoogleAuth * option string :=
  match base64_DecodeString env tokenBase64 with
  | Err e => (g, Some ("failed to decode base64 token: " +:+ e))
  | Ok decoded =>
      match json_Unmarshal_token env decoded with
      | Err e => (g, Some ("failed to parse OAuth2 token: " +:+ e))
      | Ok token =>
          if String.eqb (AccessToken token) EmptyString
          then (g, Some "invalid token: missing access_token")
          else (with_currentTokens g (Some token), None)
      end
  end.

(** The [for _, tokenBase64 := range g.tokens] loop with its [break]. *)
Fixpoint loadFirstToken (g : GoogleAuth) (toks : list string) : GoogleAuth :=
  match toks with
  | [] => g
  | tokenBase64 :: rest =>
      match loadTokenFromBase64 g tokenBase64 with
      | (g', None) => g'
      | (g', Some _) => loadFirstToken g' rest
      end
  end.

Definition authRequiredMessage : string :=
  "OAuth2 authentication required, please call StartOAuthFlow".

Definition Initialize (g : GoogleAuth) : GoogleAuth * option string :=
  if initialized g then (g, None)
  else
    let g1 := loadFirstToken g (tokens g) in
    match currentTokens g1 with
    | None => (g1, Some authRequiredMessage)
    | Some t => (with_initialized g1 (Config_TokenSource (oauthConfig g1) t), None)
    end.

(** ** The OAuth callback handler *)

(** [r.URL.Query().Get(key)]: the first value of the key, or the empty
    string. *)
Definition Query_Get (r : CallbackRequest) (key : string) : string :=
  match Query r !! key with
  | Some (v :: _) => v
  | _ => EmptyString
  end.

Definition jsonHeader : gmap string string :=
  {[ "Content-Type" := "application/json" ]}.

(** [http.Error w msg code] *)
Definition http_Error (msg : string) (code : Z) : HttpResponse :=
  {| StatusCode := code;
     Header := <["X-Content-Type-Options" := "nosniff"]>
                 {[ "Content-Type" := "text/plain; charset=utf-8" ]};
     Body := PlainText (msg +:+ String "010"%char EmptyString) |}.

Definition clientIDShort : string :=
  slice_to OAuthClientID (Nat.min (String.length OAuthClientID) 20) +:+ "...".

Definition fatalPhrase : string :=
  "project ID is required but could not be discovered automatically".

(** The body of the goroutine started on success. *)
Definition runTokenCallback (g : GoogleAuth) (clientID : string) (token : Token)
  : GoogleAuth :=
  match onTokenReceived g with
  | None => g
  | Some save =>
      match save clientID token with
      | None => g
      | Some err =>
          if Contains err fatalPhrase
          then with_fatalError g (trySend (fatalErrorChan g) err)
          else g
      end
  end.

Definition handleOAuthCallback (g : GoogleAuth) (r : CallbackRequest)
  : HttpResponse * GoogleAuth :=
  let code := Query_Get r "code" in
  let errorParam := Query_Get r "error" in
  if negb (String.eqb (Path r) (callbackPath g))
  then (http_Error ("Invalid callback path: " +:+ Path r +:+ ", expected: "
                      +:+ callbackPath g) 400, g)
  else if negb (String.eqb errorParam EmptyString)
  then ({| StatusCode := 400; Header := jsonHeader;
           Body := JsonObject
             (<["status" := "error"]>
              (<["error" := errorParam]>
               {[ "message" :=
                  "OAuth authorization failed. Please try the authorization process again." ]})) |},
        g)
  else if String.eqb code EmptyString
  then ({| StatusCode := 204; Header := ∅; Body := NoBody |}, g)
  else
    match oauth_Exchange env (oauthConfig g) code with
    | Err e =>
        ({| StatusCode := 500; Header := jsonHeader;
            Body := JsonObject
              (<["status" := "error"]>
               (<["error" := e]>
                {[ "message" :=
                   "Token exchange failed. Please contact support if this problem persists." ]})) |},
         g)
    | Ok token =>
        let g1 := with_currentTokens g (Some token) in
        let g2 := match onTokenReceived g1 with
                  | Some _ => with_spawned g1 (OAuthClientID, token)
                  | None => g1
                  end in
        ({| StatusCode := 200; Header := jsonHeader;
            Body := JsonObject
              (<["status" := "success"]>
               (<["message" := "OAuth authentication successful"]>
                (<["client_id" := clientIDShort]>
                 (<["callback_path" := callbackPath g]>
                  (<["token_expires" := time_Format_RFC3339 env (Expiry token)]>
                   {[ "note" := "You can now close this browser tab." ]}))))) |},
         with_authComplete g2 (trySend (authComplete g2) true))
    end.

(** ** Project discovery *)

Definition pluginMetadata : Json :=
  JObject [("metadata", JObject [("pluginType", JString "GEMINI")])].

Definition onboardRequest : Json :=
  JObject [ ("tierId", JString "free-tier");
            ("cloudaicompanionProject", JString "default");
            ("metadata", JObject [("pluginType", JString "GEMINI")]) ].

(** [client.Do] on the OAuth-bound client: the world answers, the call
    is logged. *)
Definition apiCall (w : Wire) (url : string) (body : Json) : ApiOutcome * Wire :=
  (api_Do env (length (calls w)) url body,
   {| calls := calls w ++ [(url, body)]; slept := slept w |}).

(** [time.Sleep(d * time.Second)] *)
Definition sleepSeconds (w : Wire) (d : Z) : Wire :=
  {| calls := calls w; slept := slept w + d |}.

Definition callCodeAssistAPI (w : Wire) (method : string) (body : Json)
  : result string * Wire :=
  let url := CodeAssistEndpoint +:+ "/" +:+ CodeAssistAPIVersion +:+ ":" +:+ method in
  let '(out, w1) := apiCall w url body in
  match out with
  | ApiTransportError e => (Err ("failed to call API: " +:+ e), w1)
  | ApiResponse status rbody =>
      if negb (status =? 200)
      then (Err ("API returned status " +:+ fmt_d status), w1)
      else match json_Decode_load env rbody with
           | Err e => (Err ("failed to parse response: " +:+ e), w1)
           | Ok project => (Ok project, w1)
           end
  end.

Definition onboardURL : string :=
  CodeAssistEndpoint +:+ "/" +:+ CodeAssistAPIVersion +:+ ":onboardUser".

Definition callOnboardAPI (w : Wire) (body : Json) : result string * Wire :=
  let '(out, w1) := apiCall w onboardURL body in
  match out with
  | ApiTransportError e => (Err ("failed to call onboard API: " +:+ e), w1)
  | ApiResponse status rbody =>
      if negb (status =? 200)
      then (Err ("onboard API returned status " +:+ fmt_d status), w1)
      else match json_Decode_onboard env rbody with
           | Err e => (Err ("failed to parse onboard response: " +:+ e), w1)
           | Ok (done, id) =>
               if done && negb (String.eqb id EmptyString)
               then (Ok id, w1)
               else (Ok EmptyString, w1)
           end
  end.

(** The loop [for i := 0; i < 10; i++] of [onboardUser]; [fuel] counts
    the iterations left. *)
Fixpoint onboardLoop (fuel : nat) (w : Wire) : result string * Wire :=
  match fuel with
  | O => (Err "onboarding process timed out", w)
  | S fuel' =>
      let '(r, w1) := callOnboardAPI w onboardRequest in
      match r with
      | Err e => (Err e, w1)
      | Ok projectID =>
          if negb (String.eqb projectID EmptyString)
          then (Ok projectID, w1)
          else onboardLoop fuel' (sleepSeconds w1 2)
      end
  end.

Definition onboardUser (w : Wire) : result string * Wire :=
  let '(_, w1) := callCodeAssistAPI w "loadCodeAssist" pluginMetadata in
  onboardLoop 10 w1.

Definition DiscoverProjectID (g : GoogleAuth) (w : Wire) : result string * Wire :=
  let valid := match currentTokens g with
               | Some t => token_Valid env t
               | None => false
               end in
  if negb valid
  then (Err "no valid OAuth token available for project discovery", w)
  else
    let '(r, w1) := callCodeAssistAPI w "loadCodeAssist" pluginMetadata in
    let onboard :=
      let '(r2, w2) := onboardUser w1 in
      match r2 with
      | Err e => (Err ("could not discover a valid Google Cloud Project ID: " +:+ e), w2)
      | Ok projectID => (Ok projectID, w2)
      end in
    match r with
    | Ok projectID =>
        if negb (String.eqb projectID EmptyString) then (Ok projectID, w1) else onboard
    | Err _ => onboard
    end.

End WithEnv.

(** ** The accessors and the debug handler *)

Definition SetTokenBase64 (g : GoogleAuth) (tokenBase64' : string) : GoogleAuth :=
  {| redirectURL := redirectURL g; tokens := tokens g; tokenSource := tokenSource g;
     initialized := initialized g; oauthConfig := oauthConfig g;
     currentTokens := currentTokens g; authComplete := authComplete g;
     callbackPath := callbackPath g; clientBinding := clientBinding g;
     projectID := projectID g; location := location g; tokenBase64 := tokenBase64';
     onTokenReceived := onTokenReceived g; fatalErrorChan := fatalErrorChan g;
     spawned := spawned g |}.

Definition SetOnTokenReceived (g : GoogleAuth)
    (callback : option (string -> Token -> option string)) : GoogleAuth :=
  {| redirectURL := redirectURL g; tokens := tokens g; tokenSource := tokenSource g;
     initialized := initialized g; oauthConfig := oauthConfig g;
     currentTokens := currentTokens g; authComplete := authComplete g;
     callbackPath := callbackPath g; clientBinding := clientBinding g;
     projectID := projectID g; location := location g; tokenBase64 := tokenBase64 g;
     onTokenReceived := callback; fatalErrorChan := fatalErrorChan g;
     spawned := spawned g |}.

Section Accessors.
Variable env : Env.

(** [IsAuthComplete] *)
Definition IsAuthComplete (g : GoogleAuth) : bool :=
  match currentTokens g with
  | Some t => token_Valid env t
  | None => false
  end.

(** The outcome of [Token()] on a token source is the world's: the source
    hands out its token while it is valid and goes to the token endpoint
    otherwise. *)
Variable source_Token : TokenSource -> result Token.

(** [GetToken]; calling [Token] on a nil source panics. *)
Definition GetToken (g : GoogleAuth) : option (result Token) :=
  if negb (initialized g) then Some (Err "authentication not initialized")
  else match tokenSource g with
       | None => None
       | Some src =>
           match source_Token src with
           | Err e => Some (Err ("failed to get token: " +:+ e))
           | Ok token => Some (Ok token)
           end
       end.

(** [Health]: the error, [None] being nil. *)
Definition Health (g : GoogleAuth) : option (option string) :=
  if negb (initialized g) then Some (Some "authentication not initialized")
  else match GetToken g with
       | None => None
       | Some (Err e) => Some (Some ("failed to get token: " +:+ e))
       | Some (Ok token) =>
           if negb (token_Valid env token)
           then Some (Some "token is invalid or expired")
           else Some None
       end.

(** [GetTokenAsBase64]; the two encoders are [json.Marshal] on a token and
    [base64.StdEncoding.EncodeToString]. *)
Variable json_Marshal_token : Token -> result string.
Variable base64_EncodeToString : string -> string.

Definition GetTokenAsBase64 (g : GoogleAuth) : result string :=
  match currentTokens g with
  | None => Err "no OAuth2 token available"
  | Some token =>
      match json_Marshal_token token with
      | Err e => Err ("failed to marshal token: " +:+ e)
      | Ok tokenJSON => Ok (base64_EncodeToString tokenJSON)
      end
  end.

(** [handleOAuthDebug], registered for every path under /oauth/. *)
Definition handleOAuthDebug (g : GoogleAuth) (r : CallbackRequest)
  : HttpResponse * GoogleAuth :=
  if HasPrefix (Path r) (callbackPath g)
  then handleOAuthCallback env g r
  else ({| StatusCode := 200; Header := jsonHeader;
           Body := JsonObject
             (<["status" := "debug"]>
              (<["expected_callback_path" := callbackPath g]>
               (<["current_request_path" := Path r]>
                (<["client_id" := clientIDShort]>
                 (<["client_binding" := clientBinding g]>
                  {[ "message" :=
                     "To start OAuth flow, use the proper authorization URL." ]}))))) |},
        g).

End Accessors.

End Auth.

(** pkg/handler/server.go: the HTTP front.

    A handler works on the request and on its [http.ResponseWriter]; the
    writer is the log of the calls made on it, in order.  A handler that
    panics is [None].  The router (gorilla/mux) is not modelled: the
    middlewares are functions from handlers to handlers, as in the source,
    and are studied as such. *)
Module Handler.
Import GoStrings Models Converter Client.

(** The fields of [ServerConfig] the handlers read. *)
Record ServerConfig : Type := {
  EnableCORS : bool;
  APIKeys : list string
}.

(** An inbound request.  The headers are kept under their canonical names,
    as net/http stores them ([Header.Get] canonicalises the name it is
    given); the query is the parsed [url.Values]. *)
Record Request : Type := {
  In_Method : string;
  In_Path : string;
  In_Header : gmap string (list string);
  In_Query : gmap string (list string);
  In_Body : string
}.

Inductive WriterCall : Type :=
| SetHeader (key value : string)          (* w.Header().Set *)
| WriteHeader (code : Z)                  (* w.WriteHeader *)
| EncodeError (code : Z) (message status timestamp : string)
                                          (* Encode of the error map *)
| EncodeResponse (resp : OpenAIResponse)  (* Encode of a completion *)
| EncodeModels (list : OpenAIModelsResponse)
                                          (* Encode of a model list *)
| EncodeHealth (status timestamp version : string)
                                          (* Encode of the health map *)
| WriteString (s : string)                (* fmt.Fprintf(w, ...) *)
| Flush                                   (* flusher.Flush *)
| HttpError (message : string) (code : Z) (* http.Error *).

Definition Writer : Type := list WriterCall.

Record Env : Type := {
  (** [time.Now().Format(time.RFC3339)] *)
  time_Now_RFC3339 : string;
  (** the error of a write to the connection made when the writer has
      seen [k] calls ([None]: the write succeeds) *)
  write_Err : nat -> option string;
  (** [ctx.Err()] at the [k]-th invocation of the streaming callback *)
  callback_ctx_Err : nat -> option string;
  (** encoding/json *)
  json_Marshal_chunk : OpenAIStreamChunk -> result string;
  json_Marshal_error : ErrorResponse -> string;
  json_Decode_request : string -> result OpenAIRequest
}.

(** [r.Header.Get], for a name given in canonical form, and
    [r.URL.Query().Get]. *)
Definition Header_Get (r : Request) (canonicalKey : string) : string :=
  match In_Header r !! canonicalKey with
  | Some (v :: _) => v
  | _ => EmptyString
  end.

Definition Query_Get (r : Request) (key : string) : string :=
  match In_Query r !! key with
  | Some (v :: _) => v
  | _ => EmptyString
  end.

Definition unauthorizedMessage : string :=
  "Unauthorized: API key is invalid or missing. Provide it in the `Authorization: Bearer <key>` header, as a `key` query parameter, or in the `x-goog-api-key` header.".

Section WithEnv.
Variable env : Env.

Definition writeErrorResponse (w : Writer) (statusCode : Z) (errorType message : string)
  : Writer :=
  let w1 := w ++ [ SetHeader "Content-Type" "application/json"; WriteHeader statusCode ] in
  let w2 := w1 ++ [ EncodeError statusCode message errorType (time_Now_RFC3339 env) ] in
  match write_Err env (length w1) with
  | Some _ => w2 ++ [ HttpError "Internal server error" 500 ]
  | None => w2
  end.

(** [corsMiddleware] *)
Definition corsMiddleware (s : ServerConfig) (next : Request -> Writer -> option Writer)
    (r : Request) (w : Writer) : option Writer :=
  let w1 := if EnableCORS s
            then w ++ [ SetHeader "Access-Control-Allow-Origin" "*";
                        SetHeader "Access-Control-Allow-Methods"
                                  "GET, POST, PUT, DELETE, OPTIONS";
                        SetHeader "Access-Control-Allow-Headers"
                                  "Content-Type, Authorization, X-API-Key, x-goog-api-key" ]
            else w in
  if String.eqb (In_Method r) "OPTIONS"
  then Some (w1 ++ [ WriteHeader 200 ])
  else next r w1.

(** [authMiddleware]; the three header names are "Authorization",
    "X-API-Key" and "x-goog-api-key" in the source, canonicalised here. *)
Definition authMiddleware (s : ServerConfig) (next : Request -> Writer -> option Writer)
    (r : Request) (w : Writer) : option Writer :=
  if (length (APIKeys s) =? 0)%nat then next r w
  else if String.eqb (In_Path r) "/health" || HasPrefix (In_Path r) "/oauth/"
  then next r w
  else
    let authHeader := Header_Get r "Authorization" in
    if (negb (String.eqb authHeader EmptyString) && HasPrefix authHeader "Bearer ")
       && existsb (fun apiKey => String.eqb (TrimPrefix authHeader "Bearer ") apiKey)
                  (APIKeys s)
    then next r w
    else if existsb (fun configKey => String.eqb (Header_Get r "X-Api-Key") configKey)
                    (APIKeys s)
    then next r w
    else if existsb (fun configKey => String.eqb (Header_Get r "X-Goog-Api-Key") configKey)
                    (APIKeys s)
    then next r w
    else if existsb (fun configKey => String.eqb (Query_Get r "key") configKey)
                    (APIKeys s)
    then next r w
    else Some (writeErrorResponse w 401 "unauthorized" unauthorizedMessage).

(** The callback [handleOpenAIStreamResponse] hands to the client: its
    state is the number of its invocations and the writer. *)
Definition sseCallback (chunk : OpenAIStreamChunk) (st : nat * Writer)
  : option (option string * (nat * Writer)) :=
  let '(n, w) := st in
  match callback_ctx_Err env n with
  | Some e => Some (Some e, (S n, w))
  | None =>
      (* the filter of the chunks without content; [Delta] is a pointer *)
      let empty :=
        match Chunk_Choices chunk with
        | choice :: _ =>
            match Delta choice with
            | None => None
            | Some delta =>
                Some (String.eqb (Msg_Content delta) EmptyString
                      && match FinishReason choice with
                         | None => true
                         | Some _ => false
                         end)
            end
        | [] => Some false
        end in
      match empty with
      | None => None
      | Some true => Some (None, (S n, w))
      | Some false =>
          match json_Marshal_chunk env chunk with
          | Err e => Some (Some ("failed to marshal stream chunk: " +:+ e), (S n, w))
          | Ok data =>
              let w1 := w ++ [ WriteString ("data: " +:+ data
                                              +:+ String "010"%char (String "010"%char EmptyString)) ] in
              match write_Err env (length w) with
              | Some e => Some (Some ("failed to write stream chunk: " +:+ e), (S n, w1))
              | None => Some (None, (S n, w1 ++ [ Flush ]))
              end
          end
      end
  end.

Definition sseHeaders : Writer :=
  [ SetHeader "Content-Type" "text/event-stream";
    SetHeader "Cache-Control" "no-cache";
    SetHeader "Connection" "keep-alive";
    SetHeader "Transfer-Encoding" "chunked";
    WriteHeader 200 ].

Definition doneEvent : Writer :=
  [ WriteString ("data: [DONE]" +:+ String "010"%char (String "010"%char EmptyString));
    Flush ].

(** [handleOpenAIStreamResponse]; [flusher] tells whether the writer is an
    [http.Flusher]. *)
Definition handleOpenAIStreamResponse (cenv : Client.Env) (senv : StreamEnv)
    (c : GeminiClient) (req : OpenAIRequest) (flusher : bool) (w : Writer)
  : option (Writer * GeminiClient) :=
  let w1 := w ++ sseHeaders in
  if negb flusher
  then Some (writeErrorResponse w1 500 "streaming_error" "Streaming not supported", c)
  else
    match SendOpenAIStreamRequest cenv senv sseCallback c (Some req) (0%nat, w1) with
    | None => None
    | Some (Some e, (_, w2), c') =>
        let errorData :=
          json_Marshal_error env
            {| Error_Detail := {| Error_Type := "api_error"; Error_Message := e |} |} in
        Some (w2 ++ [ WriteString ("data: " +:+ errorData
                                     +:+ String "010"%char (String "010"%char EmptyString));
                      Flush ], c')
    | Some (None, (_, w2), c') => Some (w2 ++ doneEvent, c')
    end.

(** [writeJSONResponse]; [payload] is the call that encodes the data. *)
Definition writeJSONResponse (w : Writer) (payload : WriterCall) : Writer :=
  let w1 := w ++ [ SetHeader "Content-Type" "application/json" ] in
  match write_Err env (length w1) with
  | Some _ => w1 ++ [ payload; HttpError "Internal server error" 500 ]
  | None => w1 ++ [ payload ]
  end.

(** [handleChatCompletions]; the server's client is [c]. *)
Definition handleChatCompletions (cenv : Client.Env) (senv : StreamEnv)
    (c : GeminiClient) (r : Request) (flusher : bool) (w : Writer)
  : option (Writer * GeminiClient) :=
  match json_Decode_request env (In_Body r) with
  | Err _ =>
      Some (writeErrorResponse w 400 "invalid_request_error" "Invalid request body", c)
  | Ok req =>
      if Req_Stream req
      then handleOpenAIStreamResponse cenv senv c req flusher w
      else
        match SendOpenAIRequest cenv senv c (Some req) with
        | None => None
        | Some (Err e, c') => Some (writeErrorResponse w 500 "api_error" e, c')
        | Some (Ok resp, c') => Some (writeJSONResponse w (EncodeResponse resp), c')
        end
  end.

(** [handleModels] *)
Definition handleModels (cenv : Client.Env) (senv : StreamEnv) (c : GeminiClient)
    (w : Writer) : Writer * GeminiClient :=
  match ListModels cenv senv c with
  | (Err e, c') => (writeErrorResponse w 500 "api_error" e, c')
  | (Ok list, c') => (writeJSONResponse w (EncodeModels list), c')
  end.

(** [handleHealth]; [c] is the server's client, [None] when nil. *)
Definition handleHealth (cenv : Client.Env) (senv : StreamEnv)
    (authHealth : AuthHandle -> option string) (c : option GeminiClient) (w : Writer)
  : option (Writer * option GeminiClient) :=
  let answer := writeJSONResponse w (EncodeHealth "healthy" (time_Now_RFC3339 env) "1.0.0") in
  match c with
  | None => Some (answer, None)
  | Some c =>
      match Client.Health cenv senv authHealth c with
      | None => None
      | Some (_, c') => Some (answer, Some c')
      end
  end.

End WithEnv.

End Handler.

(** ** The vocabulary of the specification

    The predicates below name what the properties of Part II speak about;
    none of them is part of the program. *)

Module StringVocabulary.

(** [t] occurs in [s]: the relation [strings.Contains] decides. *)
Definition occurs_in (t s : string) : Prop :=
  exists pre post, s = pre +:+ t +:+ post.

End StringVocabulary.

Module ConverterVocabulary.
Import GoStrings Models Converter StringVocabulary.

(** A system-role entry of the message list, as the converter tests it. *)
Definition isSystemMessage (tables : CaseTables) (msg : OpenAIMessage) : bool :=
  String.eqb (ToLower tables (Msg_Role msg)) "system".

(** The embedded system-role entries of a message list, as parts. *)
Definition embeddedSystemParts (tables : CaseTables) (msgs : list OpenAIMessage)
  : list GeminiPart :=
  map (fun msg => {| Text := Msg_Content msg |}) (List.filter (isSystemMessage tables) msgs).

(** The parts of the explicit top-level system-instruction field. *)
Definition explicitSystemParts (req : OpenAIRequest) : list GeminiPart :=
  match Req_SystemInstruction req with
  | Some si => SI_Parts si
  | None => []
  end.

(** The part texts of a list of turns, in order, and their concatenation. *)
Definition texts (contents : list GeminiContent) : list string :=
  map Text (concat (map Parts contents)).

Definition allText (contents : list GeminiContent) : string :=
  fold_right String.append EmptyString (texts contents).

(** [t] lies inside one of the part texts of [contents]. *)
Definition covered (t : string) (contents : list GeminiContent) : Prop :=
  exists s, In s (texts contents) /\ occurs_in t s.

(** No two neighbouring turns have the same role. *)
Fixpoint rolesAlternate (contents : list GeminiContent) : Prop :=
  match contents with
  | c1 :: ((c2 :: _) as rest) => Role c1 <> Role c2 /\ rolesAlternate rest
  | _ => True
  end.

(** A turn as the converter builds it: exactly one text part. *)
Definition singlePart (c : GeminiContent) : Prop := length (Parts c) = 1%nat.

(** Every turn has a role. *)
Definition rolesPresent (contents : list GeminiContent) : Prop :=
  Forall (fun c => Role c <> EmptyString) contents.

(** A user or assistant entry of the message list, as the converter's
    [switch] tests it, and the turn it becomes. *)
Definition isConversationMessage (tables : CaseTables) (msg : OpenAIMessage) : bool :=
  String.eqb (ToLower tables (Msg_Role msg)) "user"
  || String.eqb (ToLower tables (Msg_Role msg)) "assistant".

Definition turnOf (tables : CaseTables) (msg : OpenAIMessage) : GeminiContent :=
  {| Role := if String.eqb (ToLower tables (Msg_Role msg)) "user" then "user" else "model";
     Parts := [ {| Text := Msg_Content msg |} ] |}.

(** A turn of the backend's conversation format. *)
Definition conversationTurn (c : GeminiContent) : Prop :=
  (Role c = "user" \/ Role c = "model") /\ singlePart c.

(** The chunks of one stream converted in order, the flag [roleSent] being
    threaded from each call to the next as the caller's variable is;
    [clock k] is the clock reading at the [k]-th conversion. *)
Fixpoint convertStream (tables : CaseTables) (model requestID : string) (clock : nat -> Z) (k : nat)
    (roleSent : bool) (chunks : list GeminiStreamChunk) : list OpenAIStreamChunk :=
  match chunks with
  | [] => []
  | chunk :: rest =>
      match GeminiStreamToOpenAI tables (Some chunk) model requestID (clock k) roleSent with
      | (Ok out, roleSent') =>
          out :: convertStream tables model requestID clock (S k) roleSent' rest
      | (Err _, _) => []
      end
  end.

(** The role and the content of the delta of a converted chunk's choices. *)
Definition deltaRoles (chunk : OpenAIStreamChunk) : list string :=
  map (fun ch => match Delta ch with Some d => Msg_Role d | None => EmptyString end)
      (Chunk_Choices chunk).

(** Roles "user", "model", "user", ... for [n] turns, from the one at
    position [i]. *)
Fixpoint alternatingRoles (i n : nat) : list string :=
  match n with
  | O => []
  | S n' => (if Nat.even i then "user" else "model") :: alternatingRoles (S i) n'
  end.

(** A generation configuration no clamp of the validation moves. *)
Definition withinBounds (modelID : string) (config : GeminiGenerationConfig) : Prop :=
  (forall t, Temperature config = Some t -> SFltb t f32_zero = false /\ SFltb f32_two t = false) /\
  (forall p, TopP config = Some p -> SFltb p f32_zero = false /\ SFltb f32_one p = false) /\
  (forall k, TopK config = Some k -> 1 <= k) /\
  (exists m, MaxOutputTokens config = Some m /\
             forall limit, modelLimits !! modelID = Some limit -> m <= limit).

(** A backend response and a stream chunk carrying the same candidates:
    for each, the content, the finish reason and the index. *)
Definition responseOf (cands : list (GeminiContent * string * Z))
    (usage : option GeminiUsageMetadata) : GeminiResponse :=
  {| Candidates := map (fun '(content, reason, i) =>
                          {| Cand_Content := content; Cand_FinishReason := reason;
                             Cand_Index := i |}) cands;
     UsageMetadata := usage |}.

Definition chunkOf (cands : list (GeminiContent * string * Z))
    (usage : option GeminiUsageMetadata) : GeminiStreamChunk :=
  {| Chunk_Candidates := map (fun '(content, reason, i) =>
                                {| SC_Content := content; SC_FinishReason := reason;
                                   SC_Index := i |}) cands;
     Chunk_UsageMetadata := usage |}.

(** The texts of a list of parts, one after the other. *)
Definition partsText (parts : list GeminiPart) : string :=
  fold_right String.append EmptyString (map Text parts).

End ConverterVocabulary.

Module ClientVocabulary.
Import GoStrings Models Converter Client.

(** Two clients that differ at most in the active transport, the state of
    the random source, the log of calls and the number of tokens asked
    for. *)
Definition sameSetup (c c' : GeminiClient) : Prop :=
  config c' = config c /\ auth c' = auth c /\ useCodeAssist c' = useCodeAssist c
  /\ proxyURLs c' = proxyURLs c.

(** The client with another retry bound and another list of routes. *)
Definition with_retry_setup (c : GeminiClient) (maxRetries : Z) (routes : list string)
  : GeminiClient :=
  {| config := {| APIMode := APIMode (config c); ProjectID := ProjectID (config c);
                  Location := Location (config c); MaxRetries := maxRetries;
                  UserAgent := UserAgent (config c);
                  SystemPromptFile := SystemPromptFile (config c);
                  SystemPromptMode := SystemPromptMode (config c) |};
     auth := auth c; useCodeAssist := useCodeAssist c; Transport := Transport c;
     proxyURLs := routes; draws := draws c; sent := sent c; asked := asked c |}.

(** The head of the error returned once the attempts are used up. *)
Definition exhaustedPrefix (maxRetries : Z) : string :=
  "request failed after " +:+ fmt_d maxRetries +:+ " attempts: ".

Section WithEnv.
Variable env : Env.

(** The HTTP request a call of the non-streaming Send hands to the network:
    defined when the body is serialised, the URL built and the request
    created with its credential. *)
Definition sendRequestOf (c : GeminiClient) (modelID : string) (req : GeminiRequest)
  : option HttpRequest :=
  match buildBody env c modelID req, buildAPIURL c modelID "generateContent" with
  | Ok reqBody, Some apiURL =>
      match fst (createRequest env c "POST" apiURL reqBody) with
      | Ok httpReq => Some httpReq
      | Err _ => None
      end
  | _, _ => None
  end.

(** The same for the raw streaming operation. *)
Definition streamRequestOf (c : GeminiClient) (modelID : string) (req : GeminiRequest)
  : option HttpRequest :=
  match buildBody env c modelID req, streamURL env c modelID with
  | Ok reqBody, Some apiURL =>
      match fst (createRequest env c "POST" apiURL reqBody) with
      | Ok httpReq => Some httpReq
      | Err _ => None
      end
  | _, _ => None
  end.

(** Every HTTP attempt, whenever made, through whatever route and with
    whatever request, fails with a transport error of the transient
    lexicon. *)
Definition everyAttemptTransient : Prop :=
  forall k proxy httpReq, exists msg,
    http_Do env k proxy httpReq = TransportError msg /\
    isNetworkError env (Some msg) = true.

End WithEnv.

(** The words of the transient lexicon that matter: "connection timeout"
    is left out, every text that holds it holding "timeout". *)
Definition coreLexicon : list string :=
  [ "connection refused"; "connection reset"; "no such host";
    "network unreachable"; "timeout"; "dial tcp"; "proxy" ].

(** The active transport is the direct one or one of the configured
    proxies. *)
Definition routed (c : GeminiClient) : Prop :=
  match Transport c with
  | None => True
  | Some proxyURL => In proxyURL (proxyURLs c)
  end.

(** A route a call of [c] may go through: the transport active when the
    call starts, or one of the configured proxies. *)
Definition viaKnownRoute (c : GeminiClient) (route : option string) : Prop :=
  route = Transport c \/ exists proxyURL, route = Some proxyURL /\ In proxyURL (proxyURLs c).

(** [createRequest] asks the token source: a credential manager is
    attached and initialized. *)
Definition asksToken (c : GeminiClient) : bool :=
  match auth c with
  | Some a => auth_initialized a
  | None => false
  end.

(** The client once a request has been created. *)
Definition afterAsk (c : GeminiClient) : GeminiClient :=
  if asksToken c then tick_asked c else c.

(** The token source answers with a token every time it is asked. *)
Definition tokenGranted (c : GeminiClient) : Prop :=
  forall a, auth c = Some a -> auth_initialized a = true ->
            forall k, exists token, auth_tokenSource a k = Ok token.

(** The credential manager is attached and initialized, and its token
    source fails every time it is asked, from now on; [e k] is the error
    of the [k]-th failure to come. *)
Definition tokenUnavailable (c : GeminiClient) (e : nat -> string) : Prop :=
  exists a, auth c = Some a /\ auth_initialized a = true /\
            forall k, auth_tokenSource a (asked c + k) = Err (e k).

(** Two requests that differ at most in their credential: same method,
    URL and body. *)
Definition sameButToken (r r' : HttpRequest) : Prop :=
  Method r' = Method r /\ URL r' = URL r /\ Body r' = Body r.

(** The operations of a client that touch its routes or use them. *)
Inductive Operation : Type :=
| CallSetProxy (proxyURL : string)
| CallSetProxyList (proxyURLs : list string)
| CallRotateProxy
| CallUseCodeAssist
| CallUseVertexAI (location : string)
| CallSendRequest (modelID : string) (req : option GeminiRequest)
| CallSendStreamRequestRaw (modelID : string) (req : option GeminiRequest).

Section WithEnv.
Variable env : Env.

(** [url.Parse] accepts the URL. *)
Definition parses (proxyURL : string) : bool :=
  match url_Parse env proxyURL with
  | Ok _ => true
  | Err _ => false
  end.

(** The client after one operation; [None] when the operation panics. *)
Definition perform (c : GeminiClient) (op : Operation) : option GeminiClient :=
  match op with
  | CallSetProxy proxyURL => Some (fst (SetProxy env c proxyURL))
  | CallSetProxyList proxyURLs => Some (fst (SetProxyList env c proxyURLs))
  | CallRotateProxy => Some (fst (RotateProxy env c))
  | CallUseCodeAssist => Some (UseCodeAssist c)
  | CallUseVertexAI location => Some (UseVertexAI c location)
  | CallSendRequest modelID req => option_map snd (SendRequest env c modelID req)
  | CallSendStreamRequestRaw modelID req =>
      option_map snd (SendStreamRequestRaw env c modelID req)
  end.

Fixpoint performAll (c : GeminiClient) (ops : list Operation) : option GeminiClient :=
  match ops with
  | [] => Some c
  | op :: rest =>
      match perform c op with
      | Some c' => performAll c' rest
      | None => None
      end
  end.

(** The request as it is serialised: validated, then given the system
    prompt of the configured file. *)
Definition preparedRequest (c : GeminiClient) (modelID : string) (req : GeminiRequest)
  : GeminiRequest :=
  let req1 := ValidateAndFixRequest (useCodeAssist c) req modelID in
  match applySystemPromptFromFile env c req1 with
  | Ok r => r
  | Err _ => req1
  end.

(** The response a 200 answer with this body decodes to, if it does. *)
Definition decodedAnswer (c : GeminiClient) (body : string) : option GeminiResponse :=
  if String.eqb (APIMode (config c)) CodeAssist
  then match json_Decode_codeAssist env body with
       | Ok (Some r) => Some r
       | Ok None => Some emptyResponse
       | Err _ => None
       end
  else match json_Decode env body with
       | Ok r => Some r
       | Err _ => None
       end.

(** The error a 200 answer with this body fails to decode with. *)
Definition decodeFailure (c : GeminiClient) (body : string) : option string :=
  if String.eqb (APIMode (config c)) CodeAssist
  then match json_Decode_codeAssist env body with
       | Err e => Some ("failed to decode Code Assist response: " +:+ e)
       | Ok _ => None
       end
  else match json_Decode env body with
       | Err e => Some ("failed to decode response: " +:+ e)
       | Ok _ => None
       end.

End WithEnv.

Section WithEnv.
Variable env : Env.

(** The prompt of the configured system-prompt file: its text when a file
    is configured, can be read and is not empty. *)
Definition filePrompt (c : GeminiClient) : option string :=
  if String.eqb (SystemPromptFile (config c)) EmptyString then None
  else match ioutil_ReadFile env (SystemPromptFile (config c)) with
       | Ok text => if String.eqb text EmptyString then None else Some text
       | Err _ => None
       end.

(** The HTTP request [ListModels] hands to the network, when it hands one. *)
Definition listRequestOf (c : GeminiClient) : option HttpRequest :=
  if String.eqb (APIMode (config c)) VertexAI
     && negb (String.eqb (APIMode (config c)) CodeAssist)
  then None
  else
    let apiURL := if String.eqb (APIMode (config c)) CodeAssist
                  then CodeAssistEndpoint +:+ "/" +:+ CodeAssistVersion +:+ "/models"
                  else DefaultAPIEndpoint +:+ "/" +:+ DefaultAPIVersion +:+ "/models" in
    match fst (createRequest env c "GET" apiURL EmptyString) with
    | Ok httpReq => Some httpReq
    | Err _ => None
    end.

End WithEnv.

(** The payload of a line of an event stream: what follows "data: ", when
    the line starts so and something follows. *)
Definition dataPayload (line : string) : option string :=
  if HasPrefix line "data: "
  then let data := TrimPrefix line "data: " in
       if negb (String.eqb data EmptyString) then Some data else None
  else None.

(** The chunks a list of lines delivers: those of the payloads that
    parse, in the order of the lines. *)
Definition deliveredChunks (senv : StreamEnv) (codeAssist : bool) (lines : list string)
  : list GeminiStreamChunk :=
  omap (fun line => match dataPayload line with
                    | Some data => parseChunk senv codeAssist data
                    | None => None
                    end) lines.

(** A callback fed a list of items in order, until it returns an error or
    panics. *)
Fixpoint feed {A B : Type} (callback : B -> A -> option (option string * A))
    (items : list B) (a : A) : option (option string * A) :=
  match items with
  | [] => Some (None, a)
  | item :: rest =>
      match callback item a with
      | None => None
      | Some (Some e, a') => Some (Some e, a')
      | Some (None, a') => feed callback rest a'
      end
  end.

(** The outcome of a stream, from the outcome of feeding its chunks and
    the scanner's final error. *)
Definition streamOutcome {A : Type} (fed : option (option string * A))
    (scanErr : option string) (c : GeminiClient)
  : option (option string * A * GeminiClient) :=
  match fed with
  | None => None
  | Some (Some e, a) => Some (Some ("callback error: " +:+ e), a, c)
  | Some (None, a) =>
      Some (match scanErr with
            | Some e => Some ("error reading stream: " +:+ e)
            | None => None
            end, a, c)
  end.

End ClientVocabulary.

Module AuthVocabulary.
Import GoStrings GoCrypto Auth.

(** A JSON status payload: an object with the given [status] and a
    [message]. *)
Definition statusPayload (body : ResponseBody) (status : string) : Prop :=
  exists m, body = JsonObject m /\ m !! "status" = Some status /\ is_Some (m !! "message").

Section WithEnv.
Variable env : Env.

(** A persisted token is structurally valid when it decodes, parses and
    carries a non-empty access token; [parseToken] is that token. *)
Definition parseToken (tokenBase64 : string) : option Token :=
  match base64_DecodeString env tokenBase64 with
  | Err _ => None
  | Ok decoded =>
      match json_Unmarshal_token env decoded with
      | Err _ => None
      | Ok token => if String.eqb (AccessToken token) EmptyString then None else Some token
      end
  end.

(** The [k]-th call is an onboarding call answered 200 without a
    completed, named project. *)
Definition onboardIncompleteAt (k : nat) : Prop :=
  exists body done id,
    api_Do env k onboardURL onboardRequest = ApiResponse 200 body /\
    json_Decode_onboard env body = Ok (done, id) /\
    done && negb (String.eqb id EmptyString) = false.

(** The [k]-th call is an onboarding call answered 200, done, with the
    non-empty project id [id]. *)
Definition onboardDoneAt (k : nat) (id : string) : Prop :=
  exists body,
    api_Do env k onboardURL onboardRequest = ApiResponse 200 body /\
    json_Decode_onboard env body = Ok (true, id) /\
    id <> EmptyString.

(** The wire after [k] more onboarding calls, each followed by its
    2-second sleep. *)
Definition afterOnboardCalls (w : Wire) (k : nat) : Wire :=
  {| calls := calls w ++ repeat (onboardURL, onboardRequest) k;
     slept := slept w + 2 * Z.of_nat k |}.
End WithEnv.


(** What can happen to a manager once it is built: a call of [Initialize],
    a request to the callback handler or to the debug handler, the body of
    a goroutine the callback handler started, and the two setters. *)
Inductive ManagerCall : Type :=
| CallInitialize
| CallCallback (r : CallbackRequest)
| CallDebug (r : CallbackRequest)
| CallGoroutine (clientID : string) (token : Token)
| CallSetOnTokenReceived (callback : option (string -> Token -> option string))
| CallSetTokenBase64 (tokenBase64 : string).

Definition isInitialize (op : ManagerCall) : bool :=
  match op with
  | CallInitialize => true
  | _ => false
  end.

Section Calls.
Variable env : Env.

Definition call (g : GoogleAuth) (op : ManagerCall) : GoogleAuth :=
  match op with
  | CallInitialize => fst (Initialize env g)
  | CallCallback r => snd (handleOAuthCallback env g r)
  | CallDebug r => snd (handleOAuthDebug env g r)
  | CallGoroutine clientID token => runTokenCallback g clientID token
  | CallSetOnTokenReceived callback => SetOnTokenReceived g callback
  | CallSetTokenBase64 tokenBase64 => SetTokenBase64 g tokenBase64
  end.

Definition callAll (g : GoogleAuth) (ops : list ManagerCall) : GoogleAuth :=
  fold_left call ops g.

End Calls.

(** The URL of the load call of the discovery. *)
Definition loadURL : string :=
  CodeAssistEndpoint +:+ "/" +:+ CodeAssistAPIVersion +:+ ":loadCodeAssist".

End AuthVocabulary.

Module HandlerVocabulary.
Import GoStrings Models Converter Client Handler.

(** The request presents the key [k]: as a bearer token, in one of the
    two key headers or as the [key] query parameter.  A header or a
    parameter that is absent reads as the empty string. *)
Definition presents (r : Request) (k : string) : Prop :=
  Header_Get r "Authorization" = "Bearer " +:+ k
  \/ Header_Get r "X-Api-Key" = k
  \/ Header_Get r "X-Goog-Api-Key" = k
  \/ Query_Get r "key" = k.

(** No key is asked of the request: none is configured, or the path is the
    health check or under /oauth/. *)
Definition exempt (s : ServerConfig) (r : Request) : Prop :=
  APIKeys s = []
  \/ In_Path r = "/health"
  \/ HasPrefix (In_Path r) "/oauth/" = true.

(** A converted chunk the streaming handler writes out: one with content
    or with a finish reason. *)
Definition written (chunk : OpenAIStreamChunk) : bool :=
  match Chunk_Choices chunk with
  | choice :: _ =>
      match Delta choice with
      | Some delta =>
          negb (String.eqb (Msg_Content delta) EmptyString
                && match FinishReason choice with
                   | None => true
                   | Some _ => false
                   end)
      | None => true
      end
  | [] => true
  end.

(** The calls that write a chunk out as an event. *)
Definition eventOf (env : Handler.Env) (chunk : OpenAIStreamChunk) : Writer :=
  match json_Marshal_chunk env chunk with
  | Ok data =>
      [ WriteString ("data: " +:+ data
                       +:+ String "010"%char (String "010"%char EmptyString));
        Flush ]
  | Err _ => []
  end.

(** The calls that close a stream on an error. *)
Definition errorEvent (env : Handler.Env) (e : string) : Writer :=
  [ WriteString ("data: "
                   +:+ json_Marshal_error env
                         {| Error_Detail := {| Error_Type := "api_error";
                                               Error_Message := e |} |}
                   +:+ String "010"%char (String "010"%char EmptyString));
    Flush ].

(** A chunk of the backend with nothing to show: no candidate, or a first
    candidate without text and without finish reason. *)
Definition silent (chunk : GeminiStreamChunk) : Prop :=
  match Chunk_Candidates chunk with
  | candidate :: _ =>
      streamContent (Parts (SC_Content candidate)) = EmptyString
      /\ SC_FinishReason candidate = EmptyString
  | [] => True
  end.

(** The request the client's health check sends to the backend. *)
Definition probeRequest : GeminiRequest :=
  {| Contents := [ {| Role := "user"; Parts := [ {| Text := "Hello" |} ] |} ];
     SystemInstruction := None;
     GenerationConfig :=
       Some {| Temperature := None; TopP := None; TopK := None;
               MaxOutputTokens := Some 10; StopSequences := [] |} |}.

End HandlerVocabulary.

Module ConfigVocabulary.
Import GoStrings ConfigFile.

(** A configuration with nothing left for [FillDefaults] to supply. *)
Definition complete (c : Config) : Prop :=
  Host c <> EmptyString /\ Port c <> 0 /\ ClientID c <> EmptyString
  /\ RedirectURL c <> EmptyString /\ ProxyURLs c <> None
  /\ (exists key keys, APIKeys c = Some (key :: keys))
  /\ APIMode c <> EmptyString /\ Location c <> EmptyString
  /\ TimeoutSeconds c <> 0 /\ MaxRetries c <> 0
  /\ UserAgent c <> EmptyString /\ LogLevel c <> EmptyString.

(** The redirect URL of the default configuration. *)
Definition defaultRedirectURL : string :=
  hostPortURL (Host DefaultConfig) (Port DefaultConfig).

(** The configuration [c] with its time-out set to [seconds]. *)
Definition withTimeoutSeconds (c : Config) (seconds : Z) : Config :=
  {| Host := Host c; Port := Port c; ClientID := ClientID c;
     RedirectURL := RedirectURL c; ProxyURLs := ProxyURLs c; APIKeys := APIKeys c;
     APIMode := APIMode c; ProjectID := ProjectID c; Location := Location c;
     TimeoutSeconds := seconds; MaxRetries := MaxRetries c;
     UserAgent := UserAgent c; TokenFile := TokenFile c; LogLevel := LogLevel c;
     EnableCORS := EnableCORS c; SystemPromptFile := SystemPromptFile c;
     SystemPromptMode := SystemPromptMode c |}.

(** The longest time-out, in seconds, whose [time.Duration] does not wrap
    around: 9223372036 * 10^9 <= 2^63 - 1 < 9223372037 * 10^9. *)
Definition maxTimeoutSeconds : Z := 9223372036.

End ConfigVocabulary.

(** ** Concrete worlds and inputs for the examples of Part II

    The library functions of these worlds are stand-ins chosen for
    evaluation (the token "decoder" reads [access_token=...], not base64 and
    JSON); the properties of Part II are proved for every world. *)
Module Fixtures.
Import GoStrings Models.

(** Case tables that fold nothing.  The text of the fixtures below is ASCII,
    on which [strings.ToLower] and [strings.ToUpper] consult no table. *)
Definition foldNothing : CaseTables :=
  {| Map_unicode_ToLower := fun s => s; Map_unicode_ToUpper := fun s => s |}.

(** Text outside ASCII: RECITATION and ASSISTANT written with U+0130, the
    capital I with a dot above (bytes C4 B0 in UTF-8), for their I. *)
Definition dottedI : string :=
  String (ascii_of_N 196) (String (ascii_of_N 176) EmptyString).

Definition dottedRecitation : string := "REC" +:+ dottedI +:+ "TAT" +:+ dottedI +:+ "ON".

Definition dottedAssistant : string := "ASS" +:+ dottedI +:+ "STANT".

(** Case tables that agree with Go's on these two texts ([unicode.ToLower]
    maps U+0130 to [i], [unicode.ToUpper] leaves it) and fold nothing else. *)
Definition dottedTables : CaseTables :=
  {| Map_unicode_ToLower := fun s =>
       if String.eqb s dottedRecitation then "recitation"
       else if String.eqb s dottedAssistant then "assistant"
       else s;
     Map_unicode_ToUpper := fun s => s |}.

(** A network on which every connection is refused. *)
Definition refusingNet : Client.Env :=
  {| Client.json_Marshal := fun _ => Ok "{}";
     Client.json_Marshal_codeAssist := fun _ => Ok "{}";
     Client.json_Decode := fun _ => Ok Client.emptyResponse;
     Client.json_Decode_codeAssist := fun _ => Ok None;
     Client.url_Parse := fun _ => Ok tt;
     Client.url_setAltSSE := fun u => Some (u +:+ "?alt=sse");
     Client.http_NewRequest := fun _ _ => Ok tt;
     Client.http_Do := fun _ _ _ =>
       Client.TransportError "dial tcp 203.0.113.7:443: connect: connection refused";
     Client.rand_draw := fun k => k;
     Client.ioutil_ReadFile := fun _ => Err "no such file or directory";
     Client.unicode_tables := foldNothing |}.

(** A backend that answers every request with 503 and a short body. *)
Definition unavailableNet : Client.Env :=
  {| Client.json_Marshal := fun _ => Ok "{}";
     Client.json_Marshal_codeAssist := fun _ => Ok "{}";
     Client.json_Decode := fun _ => Ok Client.emptyResponse;
     Client.json_Decode_codeAssist := fun _ => Ok None;
     Client.url_Parse := fun _ => Ok tt;
     Client.url_setAltSSE := fun u => Some (u +:+ "?alt=sse");
     Client.http_NewRequest := fun _ _ => Ok tt;
     Client.http_Do := fun _ _ _ => Client.Response 503 "overloaded";
     Client.rand_draw := fun k => k;
     Client.ioutil_ReadFile := fun _ => Err "no such file or directory";
     Client.unicode_tables := foldNothing |}.

Definition studioClient (maxRetries : Z) (routes : list string) : Client.GeminiClient :=
  {| Client.config :=
       {| Client.APIMode := Client.AIStudio; Client.ProjectID := EmptyString;
          Client.Location := "us-central1"; Client.MaxRetries := maxRetries;
          Client.UserAgent := "gemini-go-proxy/1.0.0";
          Client.SystemPromptFile := EmptyString;
          Client.SystemPromptMode := EmptyString |};
     Client.auth := None; Client.useCodeAssist := false;
     Client.Transport := head routes; Client.proxyURLs := routes;
     Client.draws := 0; Client.sent := []; Client.asked := 0 |}.

(** The same client with a credential manager attached and initialized,
    whose token source can no longer produce a token. *)
Definition expiredAuthClient (maxRetries : Z) (routes : list string)
  : Client.GeminiClient :=
  {| Client.config := Client.config (studioClient maxRetries routes);
     Client.auth :=
       Some {| Client.auth_initialized := true;
               Client.auth_projectID := EmptyString;
               Client.auth_tokenSource := fun _ =>
                 Err "oauth2: token expired and refresh token is not set" |};
     Client.useCodeAssist := false;
     Client.Transport := head routes; Client.proxyURLs := routes;
     Client.draws := 0; Client.sent := []; Client.asked := 0 |}.

(** A client whose manager hands out a fresh token each time it is asked. *)
Definition refreshingAuthClient (maxRetries : Z) (routes : list string)
  : Client.GeminiClient :=
  {| Client.config := Client.config (studioClient maxRetries routes);
     Client.auth :=
       Some {| Client.auth_initialized := true;
               Client.auth_projectID := EmptyString;
               Client.auth_tokenSource := fun k =>
                 Ok ("ya29.token-" +:+ fmt_d (Z.of_nat k)) |};
     Client.useCodeAssist := false;
     Client.Transport := head routes; Client.proxyURLs := routes;
     Client.draws := 0; Client.sent := []; Client.asked := 0 |}.

(** A client whose token source fails the first time it is asked and
    answers afterwards. *)
Definition recoveringAuthClient (maxRetries : Z) (routes : list string)
  : Client.GeminiClient :=
  {| Client.config := Client.config (studioClient maxRetries routes);
     Client.auth :=
       Some {| Client.auth_initialized := true;
               Client.auth_projectID := EmptyString;
               Client.auth_tokenSource := fun k =>
                 match k with
                 | O => Err "oauth2: cannot fetch token: 503 Service Unavailable"
                 | S _ => Ok "ya29.refreshed"
                 end |};
     Client.useCodeAssist := false;
     Client.Transport := head routes; Client.proxyURLs := routes;
     Client.draws := 0; Client.sent := []; Client.asked := 0 |}.

Definition twoRoutes : list string :=
  [ "http://proxy1.example.com:8080"; "http://proxy2.example.com:8080" ].

Definition helloRequest : GeminiRequest :=
  {| Contents := [ {| Role := "user"; Parts := [ {| Text := "Hello" |} ] |} ];
     SystemInstruction := None;
     GenerationConfig := None |}.

(** binary32 values: 2.5, -1.0 and 0.5 *)
Definition f32_2_5 : float32 := S754_finite false 10485760 (-22).
Definition f32_minus_1 : float32 := S754_finite true 8388608 (-23).
Definition f32_0_5 : float32 := S754_finite false 8388608 (-24).

Definition hotRequest : GeminiRequest :=
  {| Contents := [ {| Role := EmptyString; Parts := [ {| Text := "Hello" |} ] |};
                   {| Role := EmptyString; Parts := [ {| Text := "Hi" |} ] |} ];
     SystemInstruction := None;
     GenerationConfig :=
       Some {| Temperature := Some f32_2_5; TopP := Some f32_minus_1;
               TopK := Some 0; MaxOutputTokens := Some 100000;
               StopSequences := [] |} |}.

(** A request whose temperature and top-p are not numbers. *)
Definition nanRequest : GeminiRequest :=
  {| Contents := [ {| Role := "user"; Parts := [ {| Text := "Hello" |} ] |} ];
     SystemInstruction := None;
     GenerationConfig :=
       Some {| Temperature := Some S754_nan; TopP := Some S754_nan;
               TopK := Some 40; MaxOutputTokens := Some 1024;
               StopSequences := [] |} |}.

Definition systemRequest : OpenAIRequest :=
  {| Req_Model := "gemini-pro";
     Req_Messages := [ {| Msg_Role := "system"; Msg_Content := "Be brief." |};
                       {| Msg_Role := "user"; Msg_Content := "Hello" |};
                       {| Msg_Role := "System"; Msg_Content := "Answer in French." |} ];
     Req_Stream := false; Req_Temperature := None; Req_MaxTokens := None;
     Req_TopP := None; Req_Stop := [];
     Req_SystemInstruction := Some {| SI_Parts := [ {| Text := "Cite sources." |} ] |} |}.

Definition singlePartTurns : list GeminiContent :=
  [ {| Role := "user"; Parts := [ {| Text := "hello" |} ] |};
    {| Role := "user"; Parts := [ {| Text := "again" |} ] |};
    {| Role := "model"; Parts := [ {| Text := "hi" |} ] |} ].

Definition twoPartTurns : list GeminiContent :=
  [ {| Role := "user"; Parts := [ {| Text := "a" |}; {| Text := "b" |} ] |};
    {| Role := "user"; Parts := [ {| Text := "c" |}; {| Text := "d" |} ] |} ].

Definition noCandidates : GeminiResponse :=
  {| Candidates := []; UsageMetadata := None |}.

Definition demoToken : Auth.Token :=
  {| Auth.AccessToken := "ya29.demo"; Auth.TokenType := "Bearer";
     Auth.RefreshToken := "1//demo"; Auth.Expiry := 1767225600 |}.

(** Onboarding answers "pending" on the calls numbered below 11 and "done"
    afterwards: with the two load calls numbered 0 and 1, the onboarding
    calls are numbered from 2, so the tenth one is the first to be done. *)
Definition demoAuthEnv : Auth.Env :=
  {| Auth.base64_DecodeString := fun s =>
       if Contains s "!" then Err "illegal base64 data" else Ok s;
     Auth.json_Unmarshal_token := fun s =>
       if String.prefix "access_token=" s
       then Ok {| Auth.AccessToken := substring 13 (String.length s - 13) s;
                  Auth.TokenType := "Bearer"; Auth.RefreshToken := EmptyString;
                  Auth.Expiry := 0 |}
       else Err "invalid character";
     Auth.json_Decode_load := fun _ => Ok EmptyString;
     Auth.json_Decode_onboard := fun body =>
       if String.eqb body "done" then Ok (true, "123456789012")
       else Ok (false, EmptyString);
     Auth.url_withPath := fun base path => Ok (base +:+ path);
     Auth.oauth_Exchange := fun _ code =>
       if String.eqb code "4/valid" then Ok demoToken
       else Err "oauth2: cannot fetch token: 400 Bad Request";
     Auth.token_Valid := fun t => negb (String.eqb (Auth.AccessToken t) EmptyString);
     Auth.time_Format_RFC3339 := fun _ => "2026-01-01T00:00:00Z";
     Auth.api_Do := fun k url _ =>
       if String.eqb url Auth.onboardURL
       then (if (k <? 11)%nat then Auth.ApiResponse 200 "pending"
             else Auth.ApiResponse 200 "done")
       else Auth.ApiResponse 200 "{}" |}.

(** A manager as [NewGoogleAuth] builds it, with four persisted tokens of
    which the third is the first valid one. *)
Definition demoManager : Auth.GoogleAuth :=
  Auth.NewGoogleAuth demoAuthEnv
    (Some {| Auth.Cfg_RedirectURL := "http://localhost:8081";
             Auth.Cfg_OAuthTokens := [ "!!!"; "garbage"; "access_token=abc";
                                       "access_token=xyz" ];
             Auth.Cfg_ProjectID := EmptyString;
             Auth.Cfg_Location := EmptyString |}).

(** The same manager once a token has been obtained. *)
Definition authorizedManager : Auth.GoogleAuth :=
  Auth.with_currentTokens demoManager (Some demoToken).

Definition callbackRequest (path : string) (query : list (string * list string))
  : Auth.CallbackRequest :=
  {| Auth.ReqMethod := "GET"; Auth.Path := path; Auth.Query := list_to_map query |}.

Definition freshWire : Auth.Wire := {| Auth.calls := []; Auth.slept := 0 |}.

(** A backend that answers every request 200 with a page that is not
    JSON. *)
Definition garbledNet : Client.Env :=
  {| Client.json_Marshal := fun _ => Ok "{}";
     Client.json_Marshal_codeAssist := fun _ => Ok "{}";
     Client.json_Decode := fun _ =>
       Err "invalid character '<' looking for beginning of value";
     Client.json_Decode_codeAssist := fun _ =>
       Err "invalid character '<' looking for beginning of value";
     Client.url_Parse := fun _ => Ok tt;
     Client.url_setAltSSE := fun u => Some (u +:+ "?alt=sse");
     Client.http_NewRequest := fun _ _ => Ok tt;
     Client.http_Do := fun _ _ _ => Client.Response 200 "<html>";
     Client.rand_draw := fun k => k;
     Client.ioutil_ReadFile := fun _ => Err "no such file or directory";
     Client.unicode_tables := foldNothing |}.

(** The default configuration in AI Studio mode with two proxies. *)
Definition proxiedConfig : ConfigFile.Config :=
  {| ConfigFile.Host := "localhost"; ConfigFile.Port := 8081;
     ConfigFile.ClientID := EmptyString;
     ConfigFile.RedirectURL := "http://localhost:8081";
     ConfigFile.ProxyURLs := Some twoRoutes; ConfigFile.APIKeys := Some [];
     ConfigFile.APIMode := "ai_studio"; ConfigFile.ProjectID := EmptyString;
     ConfigFile.Location := "us-central1"; ConfigFile.TimeoutSeconds := 300;
     ConfigFile.MaxRetries := 3; ConfigFile.UserAgent := "gemini-go-proxy/1.0.0";
     ConfigFile.TokenFile := EmptyString; ConfigFile.LogLevel := "info";
     ConfigFile.EnableCORS := true; ConfigFile.SystemPromptFile := EmptyString;
     ConfigFile.SystemPromptMode := EmptyString |}.

(** An answer of the backend: one candidate in two parts, cut at the
    token limit. *)
Definition helloAnswer : GeminiResponse :=
  {| Candidates :=
       [ {| Cand_Content := {| Role := "model";
                               Parts := [ {| Text := "Hi" |}; {| Text := " there" |} ] |};
            Cand_FinishReason := "MAX_TOKENS"; Cand_Index := 0 |} ];
     UsageMetadata := Some {| PromptTokenCount := 1; CandidatesTokenCount := 2;
                              TotalTokenCount := 3 |} |}.

(** A backend that answers every request 200 with that answer. *)
Definition answeringNet : Client.Env :=
  {| Client.json_Marshal := fun _ => Ok "{}";
     Client.json_Marshal_codeAssist := fun _ => Ok "{}";
     Client.json_Decode := fun body =>
       if String.eqb body "{answer}" then Ok helloAnswer
       else Err "unexpected end of JSON input";
     Client.json_Decode_codeAssist := fun _ => Ok None;
     Client.url_Parse := fun _ => Ok tt;
     Client.url_setAltSSE := fun u => Some (u +:+ "?alt=sse");
     Client.http_NewRequest := fun _ _ => Ok tt;
     Client.http_Do := fun _ _ _ => Client.Response 200 "{answer}";
     Client.rand_draw := fun k => k;
     Client.ioutil_ReadFile := fun _ => Err "no such file or directory";
     Client.unicode_tables := foldNothing |}.

Definition helloChat : OpenAIRequest :=
  {| Req_Model := "gemini-pro";
     Req_Messages := [ {| Msg_Role := "user"; Msg_Content := "Hello" |} ];
     Req_Stream := true; Req_Temperature := None; Req_MaxTokens := None;
     Req_TopP := None; Req_Stop := [];
     Req_SystemInstruction := None |}.

(** Two chunks of a stream: the first without text, the second with the
    answer and the finish reason. *)
Definition openingChunk : GeminiStreamChunk :=
  {| Chunk_Candidates :=
       [ {| SC_Content := {| Role := "model"; Parts := [] |};
            SC_FinishReason := EmptyString; SC_Index := 0 |} ];
     Chunk_UsageMetadata := None |}.

Definition closingChunk : GeminiStreamChunk :=
  {| Chunk_Candidates :=
       [ {| SC_Content := {| Role := "model"; Parts := [ {| Text := "Hi" |} ] |};
            SC_FinishReason := "STOP"; SC_Index := 0 |} ];
     Chunk_UsageMetadata := None |}.

(** A stream of five lines, two of which carry a chunk, read while the
    context stays live. *)
Definition demoStreamEnv : Client.StreamEnv :=
  {| Client.bufio_Scan := fun _ =>
       ([ "data: {opening}"; EmptyString; ": keep-alive"; "data: {closing}"; "data: " ],
        None);
     Client.json_Unmarshal_chunk := fun data =>
       if String.eqb data "{opening}" then Ok openingChunk
       else if String.eqb data "{closing}" then Ok closingChunk
       else Err "unexpected end of JSON input";
     Client.json_Unmarshal_codeAssistChunk := fun _ => Ok None;
     Client.json_Decode_models := fun _ => Err "unexpected end of JSON input";
     Client.ctx_Err := fun _ => None;
     Client.time_Now_Unix := fun _ => 1700000000;
     Client.time_Now_UnixNano := 1700000000000000000 |}.

(** A front whose writes all succeed and whose client stays connected; a
    chunk is rendered as the content of its first delta between braces, an
    error as its message. *)
Definition demoHandlerEnv : Handler.Env :=
  {| Handler.time_Now_RFC3339 := "2023-11-14T22:13:20Z";
     Handler.write_Err := fun _ => None;
     Handler.callback_ctx_Err := fun _ => None;
     Handler.json_Marshal_chunk := fun chunk =>
       Ok ("{" +:+ match Chunk_Choices chunk with
                   | choice :: _ =>
                       match Delta choice with
                       | Some delta => Msg_Content delta
                       | None => EmptyString
                       end
                   | [] => EmptyString
                   end +:+ "}");
     Handler.json_Marshal_error := fun e => Error_Message (Error_Detail e);
     Handler.json_Decode_request := fun body =>
       if String.eqb body "{chat}" then Ok helloChat
       else if String.eqb body "{ask}" then Ok systemRequest
       else Err "unexpected end of JSON input" |}.

(** A request to a guarded path that shows a key in the X-API-Key header. *)
Definition keyedRequest (key : string) : Handler.Request :=
  {| Handler.In_Method := "POST"; Handler.In_Path := "/v1/chat/completions";
     Handler.In_Header := <["X-Api-Key" := [key]]> (∅ : gmap string (list string));
     Handler.In_Query := ∅; Handler.In_Body := "{ask}" |}.

(** A random source that reads the byte 0xab, a clock and a UUID. *)
Definition demoConfigEnv : ConfigFile.Env :=
  {| ConfigFile.rand_Read := fun n => Ok (repeat 171 n);
     ConfigFile.time_Now_Unix := 1700000000;
     ConfigFile.uuid_New := "3f2b8c1e-5d4a-4b6f-9e7a-1c2d3e4f5a6b" |}.

End Fixtures.

(* ===================================================================== *)
(** * Part II: properties                                                 *)
(* ===================================================================== *)

Module GoStringsFacts.
Import GoStrings StringVocabulary.

Lemma append_cons (x : ascii) (a b : string) :
  String x a +:+ b = String x (a +:+ b).
Proof. reflexivity. Qed.

Lemma append_nil_l (b : string) : EmptyString +:+ b = b.
Proof. reflexivity. Qed.

Lemma append_assoc (a b c : string) : (a +:+ b) +:+ c = a +:+ (b +:+ c).
Proof.
  induction a as [|x a IH]; [reflexivity|].
  rewrite !append_cons. now rewrite IH.
Qed.

Lemma append_nil_r (a : string) : a +:+ EmptyString = a.
Proof.
  induction a as [|x a IH]; [reflexivity|].
  rewrite append_cons. now rewrite IH.
Qed.

Lemma prefix_append (t post : string) : String.prefix t (t +:+ post) = true.
Proof.
  induction t as [|x t IH].
  - rewrite append_nil_l. now destruct post.
  - rewrite append_cons. simpl.
    destruct (ascii_dec x x) as [_|ne]; [exact IH | now elim ne].
Qed.

Lemma Contains_unfold (s sub : string) :
  Contains s sub =
  String.prefix sub s ||
  match s with
  | EmptyString => false
  | String _ s' => Contains s' sub
  end.
Proof. destruct s; reflexivity. Qed.

Lemma Contains_here (t post : string) : Contains (t +:+ post) t = true.
Proof.
  rewrite Contains_unfold, prefix_append. reflexivity.
Qed.

Lemma Contains_append (pre t post : string) :
  Contains (pre +:+ t +:+ post) t = true.
Proof.
  induction pre as [|x pre IH].
  - rewrite append_nil_l. apply Contains_here.
  - rewrite append_cons, Contains_unfold, IH. apply orb_true_r.
Qed.

Lemma occurs_in_Contains (t s : string) : occurs_in t s -> Contains s t = true.
Proof. intros (pre & post & ->). apply Contains_append. Qed.

Lemma prefix_split (t s : string) :
  String.prefix t s = true -> exists post, s = t +:+ post.
Proof.
  revert s; induction t as [|x t IH]; intros s H.
  - exists s. reflexivity.
  - destruct s as [|y s]; simpl in H; [discriminate|].
    destruct (ascii_dec x y) as [->|]; [|discriminate].
    destruct (IH s H) as [post ->]. exists post. now rewrite append_cons.
Qed.

Lemma Contains_occurs_in (t s : string) : Contains s t = true -> occurs_in t s.
Proof.
  induction s as [|y s IH]; rewrite Contains_unfold; intros H.
  - rewrite orb_false_r in H. destruct (prefix_split _ _ H) as [post E].
    exists EmptyString, post. exact E.
  - apply orb_true_iff in H as [H|H].
    + destruct (prefix_split _ _ H) as [post E].
      exists EmptyString, post. exact E.
    + destruct (IH H) as (pre & post & ->).
      exists (String y pre), post. reflexivity.
Qed.

Lemma occurs_in_refl (t : string) : occurs_in t t.
Proof. exists EmptyString, EmptyString. now rewrite append_nil_l, append_nil_r. Qed.

Lemma occurs_in_app_l (t a b : string) : occurs_in t a -> occurs_in t (a +:+ b).
Proof.
  intros (pre & post & ->). exists pre, (post +:+ b).
  now rewrite !append_assoc.
Qed.

Lemma occurs_in_app_r (t a b : string) : occurs_in t b -> occurs_in t (a +:+ b).
Proof.
  intros (pre & post & ->). exists (a +:+ pre), post.
  now rewrite !append_assoc.
Qed.

(** *** Case folding

    On ASCII text [strings.ToLower] and [strings.ToUpper] fold bytes and
    consult no table; the result is ASCII text again. *)

Lemma lower_byte_below (c : ascii) :
  (N_of_ascii (lower_byte c) <? 128)%N = (N_of_ascii c <? 128)%N.
Proof. destruct c as [[] [] [] [] [] [] [] []]; reflexivity. Qed.

Lemma upper_byte_below (c : ascii) :
  (N_of_ascii (upper_byte c) <? 128)%N = (N_of_ascii c <? 128)%N.
Proof. destruct c as [[] [] [] [] [] [] [] []]; reflexivity. Qed.

Lemma upper_byte_idempotent (c : ascii) : upper_byte (upper_byte c) = upper_byte c.
Proof. destruct c as [[] [] [] [] [] [] [] []]; reflexivity. Qed.

Lemma upper_lower_byte (c : ascii) : upper_byte (lower_byte c) = upper_byte c.
Proof. destruct c as [[] [] [] [] [] [] [] []]; reflexivity. Qed.

Lemma lower_upper_byte (c : ascii) : lower_byte (upper_byte c) = lower_byte c.
Proof. destruct c as [[] [] [] [] [] [] [] []]; reflexivity. Qed.

Lemma map_bytes_append (f : ascii -> ascii) (a b : string) :
  map_bytes f (a +:+ b) = map_bytes f a +:+ map_bytes f b.
Proof.
  induction a as [|x a IH]; [reflexivity|].
  rewrite append_cons. cbn [map_bytes]. now rewrite IH, append_cons.
Qed.

Lemma isASCII_lower (s : string) : isASCII (map_bytes lower_byte s) = isASCII s.
Proof.
  induction s as [|c s IH]; [reflexivity|].
  cbn [map_bytes isASCII]. now rewrite lower_byte_below, IH.
Qed.

Lemma isASCII_upper (s : string) : isASCII (map_bytes upper_byte s) = isASCII s.
Proof.
  induction s as [|c s IH]; [reflexivity|].
  cbn [map_bytes isASCII]. now rewrite upper_byte_below, IH.
Qed.

Lemma isASCII_append (a b : string) : isASCII (a +:+ b) = isASCII a && isASCII b.
Proof.
  induction a as [|x a IH]; [reflexivity|].
  rewrite append_cons. cbn [isASCII]. now rewrite IH, andb_assoc.
Qed.

Lemma ToLower_ASCII (tables : CaseTables) (s : string) :
  isASCII s = true -> ToLower tables s = map_bytes lower_byte s.
Proof. unfold ToLower. now intros ->. Qed.

Lemma ToUpper_ASCII (tables : CaseTables) (s : string) :
  isASCII s = true -> ToUpper tables s = map_bytes upper_byte s.
Proof. unfold ToUpper. now intros ->. Qed.

Lemma ToLower_isASCII (tables : CaseTables) (s : string) :
  isASCII s = true -> isASCII (ToLower tables s) = true.
Proof. intros H. now rewrite (ToLower_ASCII tables s H), isASCII_lower. Qed.

Lemma ToUpper_isASCII (tables : CaseTables) (s : string) :
  isASCII s = true -> isASCII (ToUpper tables s) = true.
Proof. intros H. now rewrite (ToUpper_ASCII tables s H), isASCII_upper. Qed.

Lemma ToUpper_idempotent (tables : CaseTables) (s : string) :
  isASCII s = true -> ToUpper tables (ToUpper tables s) = ToUpper tables s.
Proof.
  intros H. rewrite (ToUpper_ASCII tables _ (ToUpper_isASCII tables s H)).
  rewrite (ToUpper_ASCII tables s H). clear H.
  induction s as [|c s IH]; [reflexivity|].
  cbn [map_bytes]. now rewrite upper_byte_idempotent, IH.
Qed.

Lemma ToUpper_ToLower (tables : CaseTables) (s : string) :
  isASCII s = true -> ToUpper tables (ToLower tables s) = ToUpper tables s.
Proof.
  intros H. rewrite (ToUpper_ASCII tables _ (ToLower_isASCII tables s H)).
  rewrite (ToLower_ASCII tables s H), (ToUpper_ASCII tables s H). clear H.
  induction s as [|c s IH]; [reflexivity|].
  cbn [map_bytes]. now rewrite upper_lower_byte, IH.
Qed.

Lemma ToLower_ToUpper (tables : CaseTables) (s : string) :
  isASCII s = true -> ToLower tables (ToUpper tables s) = ToLower tables s.
Proof.
  intros H. rewrite (ToLower_ASCII tables _ (ToUpper_isASCII tables s H)).
  rewrite (ToUpper_ASCII tables s H), (ToLower_ASCII tables s H). clear H.
  induction s as [|c s IH]; [reflexivity|].
  cbn [map_bytes]. now rewrite lower_upper_byte, IH.
Qed.

Lemma ToLower_append (tables : CaseTables) (a b : string) :
  isASCII a = true -> isASCII b = true ->
  ToLower tables (a +:+ b) = ToLower tables a +:+ ToLower tables b.
Proof.
  intros Ha Hb. rewrite !ToLower_ASCII; [apply map_bytes_append|..]; try assumption.
  now rewrite isASCII_append, Ha, Hb.
Qed.

End GoStringsFacts.

Module ConverterFacts.
Import GoStrings Models Converter StringVocabulary ConverterVocabulary GoStringsFacts.

Lemma splitMessages_from (tables : CaseTables) (msgs : list OpenAIMessage) :
  forall sys rest,
    fold_left (splitStep tables) msgs (sys, rest) =
    (sys ++ embeddedSystemParts tables msgs,
     rest ++ List.filter (fun m => negb (isSystemMessage tables m)) msgs).
Proof.
  induction msgs as [|m msgs IH]; intros sys rest; simpl.
  - unfold embeddedSystemParts. simpl. now rewrite !app_nil_r.
  - unfold splitStep at 2. unfold embeddedSystemParts, isSystemMessage in *.
    simpl. destruct (String.eqb (ToLower tables (Msg_Role m)) "system"); simpl;
      rewrite IH; rewrite <- !app_assoc; reflexivity.
Qed.

Lemma splitMessages_embedded (tables : CaseTables) (msgs : list OpenAIMessage) :
  fst (splitMessages tables msgs) = embeddedSystemParts tables msgs.
Proof. unfold splitMessages. now rewrite splitMessages_from. Qed.

Lemma length_pos_nonempty {A : Type} (l : list A) :
  (0 <? length l)%nat = true <-> l <> [].
Proof.
  destruct l; simpl; split; intros H; try discriminate; try reflexivity.
  now elim H.
Qed.

Lemma length_zero_empty {A : Type} (l : list A) :
  (0 <? length l)%nat = false <-> l = [].
Proof. destruct l; simpl; split; intros H; try discriminate; reflexivity. Qed.

(** C5: when the message list holds system-role entries and the request
    carries an explicit system-instruction field with parts, the converted
    request's system-instruction block is exactly the embedded entries'
    texts in message order followed by the explicit parts in their order;
    more generally the block is that concatenation whenever it is not
    empty, and no block is set when neither source is present. *)
Theorem system_instruction_block (tables : CaseTables) (req : OpenAIRequest) :
  let embedded := embeddedSystemParts tables (Req_Messages req) in
  let explicit := explicitSystemParts req in
  match OpenAIToGeminiRequest tables (Some req) with
  | Ok g =>
      (embedded <> [] -> explicit <> [] ->
       SystemInstruction g = Some {| SI_Parts := embedded ++ explicit |}) /\
      (embedded ++ explicit <> [] ->
       SystemInstruction g = Some {| SI_Parts := embedded ++ explicit |}) /\
      (embedded = [] -> explicit = [] -> SystemInstruction g = None)
  | Err _ => False
  end.
Proof.
  intros embedded explicit. unfold OpenAIToGeminiRequest.
  pose proof (splitMessages_embedded tables (Req_Messages req)) as Hs.
  destruct (splitMessages tables (Req_Messages req)) as [emb rest]. simpl in Hs.
  subst emb. fold embedded. cbn [SystemInstruction].
  assert (Hparts :
    match Req_SystemInstruction req with
    | Some si => if (0 <? length (SI_Parts si))%nat
                 then embedded ++ SI_Parts si else embedded
    | None => embedded
    end = embedded ++ explicit).
  { unfold explicit, explicitSystemParts.
    destruct (Req_SystemInstruction req) as [si|]; [|now rewrite app_nil_r].
    destruct (0 <? length (SI_Parts si))%nat eqn:E; [reflexivity|].
    apply length_zero_empty in E. rewrite E. now rewrite app_nil_r. }
  rewrite Hparts.
  assert (Hgen : embedded ++ explicit <> [] ->
                 (if (0 <? length (embedded ++ explicit))%nat
                  then Some {| SI_Parts := embedded ++ explicit |} else None)
                 = Some {| SI_Parts := embedded ++ explicit |}).
  { intros Hne. apply length_pos_nonempty in Hne. now rewrite Hne. }
  split; [|split].
  - intros He _. apply Hgen. destruct embedded; [congruence | discriminate].
  - exact Hgen.
  - intros -> ->. reflexivity.
Qed.


(** *** Merging: roles *)

Lemma absorb_Role (current next : GeminiContent) :
  Role (absorb current next) = Role current.
Proof.
  unfold absorb. destruct (Parts current) as [|p ps]; [reflexivity|].
  destruct (Parts next); reflexivity.
Qed.

Lemma rolesAlternate_snoc (l : list GeminiContent) (a b : GeminiContent) :
  rolesAlternate (l ++ [a]) -> Role a <> Role b -> rolesAlternate ((l ++ [a]) ++ [b]).
Proof.
  induction l as [|x l IH]; intros H Hne.
  - simpl. auto.
  - destruct l as [|y l].
    + simpl in *. destruct H as [Hxa _]. auto.
    + simpl in H. destruct H as [Hxy H]. specialize (IH H Hne).
      simpl. split; [exact Hxy | exact IH].
Qed.

Lemma rolesAlternate_last (l : list GeminiContent) (a a' : GeminiContent) :
  rolesAlternate (l ++ [a]) -> Role a' = Role a -> rolesAlternate (l ++ [a']).
Proof.
  induction l as [|x l IH]; intros H E.
  - simpl. exact I.
  - destruct l as [|y l].
    + simpl in *. rewrite E. exact H.
    + simpl in H. destruct H as [Hxy H]. specialize (IH H E).
      simpl. split; [exact Hxy | exact IH].
Qed.

Lemma mergeLoop_alternates (rest : list GeminiContent) :
  forall merged current,
    rolesAlternate (merged ++ [current]) ->
    rolesAlternate (mergeLoop merged current rest).
Proof.
  induction rest as [|next rest IH]; intros merged current H; simpl.
  - exact H.
  - destruct (String.eqb (Role current) (Role next)) eqn:E.
    + apply IH. apply (rolesAlternate_last _ current); [exact H|].
      apply absorb_Role.
    + apply IH. apply rolesAlternate_snoc; [exact H|].
      now apply String.eqb_neq.
Qed.

Lemma merge_alternates (contents : list GeminiContent) :
  rolesAlternate (mergeConsecutiveMessages contents).
Proof.
  destruct contents as [|c0 [|c1 rest]]; simpl; auto.
  change (rolesAlternate (mergeLoop [] c0 (c1 :: rest))).
  apply mergeLoop_alternates. simpl. exact I.
Qed.

(** *** Merging: text *)

Lemma texts_app (a b : list GeminiContent) : texts (a ++ b) = texts a ++ texts b.
Proof. unfold texts. now rewrite map_app, concat_app, map_app. Qed.

Lemma texts_cons (c : GeminiContent) (l : list GeminiContent) :
  texts (c :: l) = map Text (Parts c) ++ texts l.
Proof. unfold texts. simpl. now rewrite map_app. Qed.

Lemma covered_app (t : string) (a b : list GeminiContent) :
  covered t (a ++ b) <-> covered t a \/ covered t b.
Proof.
  unfold covered. rewrite texts_app. split.
  - intros (s & Hin & Ho). apply in_app_or in Hin as [Hin|Hin]; eauto.
  - intros [(s & Hin & Ho)|(s & Hin & Ho)]; exists s; split; auto;
      apply in_or_app; auto.
Qed.

Lemma covered_cons (t : string) (c : GeminiContent) (l : list GeminiContent) :
  covered t (c :: l) <-> covered t [c] \/ covered t l.
Proof. apply (covered_app t [c] l). Qed.

Lemma occurs_in_trans (t s u : string) : occurs_in t s -> occurs_in s u -> occurs_in t u.
Proof.
  intros (p1 & q1 & ->) (p2 & q2 & ->).
  exists (p2 +:+ p1), (q1 +:+ q2). now rewrite !append_assoc.
Qed.

Lemma occurs_in_joined (s : string) (l : list string) :
  In s l -> occurs_in s (fold_right String.append EmptyString l).
Proof.
  induction l as [|x l IH]; intros Hin; [contradiction|].
  simpl. destruct Hin as [->|Hin].
  - apply occurs_in_app_l, occurs_in_refl.
  - apply occurs_in_app_r, IH, Hin.
Qed.

Lemma covered_allText (t : string) (contents : list GeminiContent) :
  covered t contents -> occurs_in t (allText contents).
Proof.
  intros (s & Hin & Ho). apply (occurs_in_trans t s); [exact Ho|].
  unfold allText. now apply occurs_in_joined.
Qed.

(** A turn with a part absorbs a single-part turn without loss. *)
Lemma absorb_covers (t : string) (current next : GeminiContent) :
  Parts current <> [] -> singlePart next ->
  covered t [current] \/ covered t [next] -> covered t [absorb current next].
Proof.
  intros Hcur Hnext. unfold singlePart in Hnext.
  destruct (Parts current) as [|p ps] eqn:Ec; [congruence|].
  destruct (Parts next) as [|q [|q' qs]] eqn:En; try discriminate.
  unfold covered, absorb. rewrite !texts_cons, Ec, En. simpl.
  rewrite !app_nil_r.
  intros [(s & [<-|Hin] & Ho)|(s & [<-|[]] & Ho)].
  - eexists; split; [left; reflexivity|]. now apply occurs_in_app_l.
  - exists s; split; [right; exact Hin | exact Ho].
  - eexists; split; [left; reflexivity|].
    apply occurs_in_app_r, occurs_in_app_r. exact Ho.
Qed.

Lemma absorb_Parts_nonempty (current next : GeminiContent) :
  Parts current <> [] -> Parts (absorb current next) <> [].
Proof.
  unfold absorb. destruct (Parts current) as [|p ps] eqn:E; [congruence|].
  destruct (Parts next); simpl; [rewrite E|]; discriminate.
Qed.

Lemma singlePart_nonempty (c : GeminiContent) : singlePart c -> Parts c <> [].
Proof. unfold singlePart. destruct (Parts c); [discriminate | discriminate]. Qed.

Lemma mergeLoop_covers (t : string) (rest : list GeminiContent) :
  forall merged current,
    Parts current <> [] -> Forall singlePart rest ->
    covered t (merged ++ current :: rest) ->
    covered t (mergeLoop merged current rest).
Proof.
  induction rest as [|next rest IH]; intros merged current Hcur Hrest Hcov; simpl.
  - exact Hcov.
  - inversion Hrest as [|? ? Hnext Hrest']; subst.
    destruct (String.eqb (Role current) (Role next)).
    + apply IH; [now apply absorb_Parts_nonempty | exact Hrest' |].
      apply covered_app in Hcov as [Hm|Hc]; apply covered_app; [now left|right].
      apply covered_cons in Hc as [Hc|Hc].
      * apply covered_cons. left. apply absorb_covers; auto.
      * apply covered_cons in Hc as [Hc|Hc]; apply covered_cons.
        -- left. apply absorb_covers; auto.
        -- now right.
    + apply IH; [now apply singlePart_nonempty | exact Hrest' |].
      rewrite <- app_assoc. exact Hcov.
Qed.

Lemma merge_covers (t : string) (contents : list GeminiContent) :
  Forall singlePart contents ->
  covered t contents -> covered t (mergeConsecutiveMessages contents).
Proof.
  intros Hall Hcov. destruct contents as [|c0 [|c1 rest]]; simpl; auto.
  change (covered t (mergeLoop [] c0 (c1 :: rest))).
  inversion Hall as [|? ? H0 Hrest]; subst.
  apply mergeLoop_covers; [now apply singlePart_nonempty | exact Hrest | exact Hcov].
Qed.

Lemma part_covered (c : GeminiContent) (p : GeminiPart) (contents : list GeminiContent) :
  In c contents -> In p (Parts c) -> covered (Text p) contents.
Proof.
  intros Hc Hp. exists (Text p). split; [|apply occurs_in_refl].
  unfold texts. apply in_map. apply in_concat. exists (Parts c). split; [|exact Hp].
  now apply in_map.
Qed.

(** C7, as amended: when every turn carries exactly one text part (the
    shape the converter builds), merging never drops text: every non-empty
    input text occurs in the concatenation of the merged output's texts;
    and for every list of turns the merged output has no two adjacent turns
    of equal role. *)
Theorem merge_single_part_turns (contents : list GeminiContent) :
  (Forall singlePart contents ->
   forall c p, In c contents -> In p (Parts c) -> Text p <> EmptyString ->
               occurs_in (Text p) (allText (mergeConsecutiveMessages contents)))
  /\ rolesAlternate (mergeConsecutiveMessages contents).
Proof.
  split; [|apply merge_alternates].
  intros Hall c p Hc Hp _. apply covered_allText, merge_covers; [exact Hall|].
  now apply (part_covered c).
Qed.

Lemma merge_single_part_turns_witness :
  Forall singlePart Fixtures.singlePartTurns /\
  occurs_in "again" (allText (mergeConsecutiveMessages Fixtures.singlePartTurns)) /\
  rolesAlternate (mergeConsecutiveMessages Fixtures.singlePartTurns).
Proof.
  assert (Hall : Forall singlePart Fixtures.singlePartTurns) by (repeat constructor).
  split; [exact Hall|].
  destruct (merge_single_part_turns Fixtures.singlePartTurns) as [Htext Hroles].
  split; [|exact Hroles].
  apply (Htext Hall {| Role := "user"; Parts := [ {| Text := "again" |} ] |}
               {| Text := "again" |}).
  - simpl. auto.
  - simpl. auto.
  - discriminate.
Defined.

(** C7, as stated, fails: with turns of two parts each, the second part of
    the absorbed turn is lost ([next.Parts[0]] alone is read). *)
Lemma merge_drops_unmerged_parts :
  exists c p, In c Fixtures.twoPartTurns /\ In p (Parts c) /\ Text p <> EmptyString /\
              ~ occurs_in (Text p)
                  (allText (mergeConsecutiveMessages Fixtures.twoPartTurns)).
Proof.
  exists {| Role := "user"; Parts := [ {| Text := "c" |}; {| Text := "d" |} ] |},
         {| Text := "d" |}.
  split; [simpl; auto|]. split; [simpl; auto|]. split; [discriminate|].
  intros H. apply occurs_in_Contains in H. vm_compute in H. discriminate.
Qed.

(** The converter hands single-part turns to the merge. *)
Lemma conversation_single_part (tables : CaseTables) (msgs : list OpenAIMessage) :
  forall acc, Forall singlePart acc ->
              Forall singlePart (fold_left (conversationStep tables) msgs acc).
Proof.
  induction msgs as [|m msgs IH]; intros acc Hacc; simpl; [exact Hacc|].
  apply IH. unfold conversationStep.
  destruct (String.eqb (ToLower tables (Msg_Role m)) "user").
  - apply Forall_app. split; [exact Hacc | repeat constructor].
  - destruct (String.eqb (ToLower tables (Msg_Role m)) "assistant"); [|exact Hacc].
    apply Forall_app. split; [exact Hacc | repeat constructor].
Qed.


(** C9: converting a non-nil backend response succeeds and yields exactly
    one choice, of index 0, whose message has role "assistant"; when the
    candidate list is empty that choice's content is the empty string and
    its finish reason is absent. *)
Theorem response_single_choice (tables : CaseTables) (resp : GeminiResponse)
    (model : string) (nowNano nowUnix : Z) :
  match GeminiToOpenAIResponse tables (Some resp) model nowNano nowUnix with
  | Ok r =>
      exists content finishReason,
        Choices r = [ {| Index := 0;
                         Message := Some {| Msg_Role := "assistant";
                                            Msg_Content := content |};
                         Delta := None;
                         FinishReason := finishReason |} ] /\
        (Candidates resp = [] -> content = EmptyString /\ finishReason = None)
  | Err _ => False
  end.
Proof.
  unfold GeminiToOpenAIResponse.
  destruct (Candidates resp) as [|candidate rest]; cbn [Choices].
  - exists EmptyString, None. split; [reflexivity | auto].
  - eexists _, _. split; [reflexivity | discriminate].
Qed.

Lemma response_single_choice_witness :
  match GeminiToOpenAIResponse Fixtures.foldNothing (Some Fixtures.noCandidates) "gemini-pro"
                               1730000000123456789 1730000000 with
  | Ok r => exists content finishReason,
        Choices r = [ {| Index := 0;
                         Message := Some {| Msg_Role := "assistant";
                                            Msg_Content := content |};
                         Delta := None;
                         FinishReason := finishReason |} ] /\
        content = EmptyString /\ finishReason = None
  | Err _ => False
  end.
Proof.
  pose proof (response_single_choice Fixtures.foldNothing Fixtures.noCandidates "gemini-pro"
                1730000000123456789 1730000000) as H.
  destruct (GeminiToOpenAIResponse Fixtures.foldNothing (Some Fixtures.noCandidates) "gemini-pro"
              1730000000123456789 1730000000) as [r|]; [|exact H].
  destruct H as (content & fr & Hc & Hempty).
  exists content, fr. split; [exact Hc|]. apply Hempty. reflexivity.
Defined.

(** *** Validate/clamp *)

Lemma inferRoles_present (contents : list GeminiContent) :
  forall i lastRole, rolesPresent (inferRoles i lastRole contents).
Proof.
  induction contents as [|c cs IH]; intros i lastRole; simpl; constructor.
  - destruct (String.eqb (Role c) EmptyString) eqn:E.
    + simpl. destruct ((i =? 0)%nat || String.eqb lastRole "model"); discriminate.
    + now apply String.eqb_neq.
  - apply IH.
Qed.

Lemma inferRoles_fixed (contents : list GeminiContent) :
  forall i lastRole, rolesPresent contents -> inferRoles i lastRole contents = contents.
Proof.
  induction contents as [|c cs IH]; intros i lastRole H; simpl; [reflexivity|].
  inversion H as [|? ? Hc Hcs]; subst.
  apply String.eqb_neq in Hc. rewrite Hc. f_equal. now apply IH.
Qed.

Lemma autoRole_fixed (contents : list GeminiContent) :
  rolesPresent contents -> map autoRole contents = contents.
Proof.
  induction 1 as [|c cs Hc Hcs IH]; simpl; [reflexivity|].
  unfold autoRole at 1. apply String.eqb_neq in Hc. rewrite Hc. now rewrite IH.
Qed.

Lemma SFcompare_antisym (a b : spec_float) :
  SFcompare b a = match SFcompare a b with
                  | Some c => Some (CompOpp c)
                  | None => None
                  end.
Proof.
  destruct a as [sa|sa| |sa ma ea], b as [sb|sb| |sb mb eb];
    try reflexivity; try (destruct sa; reflexivity); try (destruct sb; reflexivity);
    try (destruct sa, sb; reflexivity).
  pose proof (Pos.compare_cont_antisym ma mb Eq) as Hm. simpl in Hm.
  simpl. destruct sa, sb; try reflexivity;
    rewrite (Z.compare_antisym ea eb); destruct (ea ?= eb); simpl; try reflexivity;
    rewrite <- Hm; try reflexivity.
Qed.

Lemma not_lt_le (v lo : spec_float) :
  lo <> S754_nan -> v <> S754_nan -> SFltb v lo = false -> SFleb lo v = true.
Proof.
  intros Hlo Hv. unfold SFltb, SFleb. rewrite (SFcompare_antisym v lo).
  destruct (SFcompare v lo) as [[| |]|] eqn:E; simpl; try reflexivity; try discriminate.
  destruct v, lo; simpl in E; try discriminate; congruence.
Qed.

(** One clamp leaves a value no comparison of the next clamp moves. *)
Lemma clampFloat_settled (lo hi : float32) (p : option float32) :
  SFltb lo lo = false -> SFltb hi lo = false -> SFltb hi hi = false ->
  forall v, clampFloat lo hi p = Some v -> SFltb v lo = false /\ SFltb hi v = false.
Proof.
  intros Hll Hhl Hhh v. unfold clampFloat. destruct p as [x|]; [|discriminate].
  destruct (SFltb x lo) eqn:E1.
  - intros [= <-]. auto.
  - destruct (SFltb hi x) eqn:E2; intros [= <-]; auto.
Qed.

Lemma clampFloat_idempotent (lo hi : float32) (p : option float32) :
  SFltb lo lo = false -> SFltb hi lo = false -> SFltb hi hi = false ->
  clampFloat lo hi (clampFloat lo hi p) = clampFloat lo hi p.
Proof.
  intros Hll Hhl Hhh.
  destruct (clampFloat lo hi p) as [v|] eqn:E; [|reflexivity].
  destruct (clampFloat_settled lo hi p Hll Hhl Hhh v E) as [H1 H2].
  simpl. now rewrite H1, H2.
Qed.

Lemma clampTopK_idempotent (p : option Z) : clampTopK (clampTopK p) = clampTopK p.
Proof.
  unfold clampTopK. destruct p as [k|]; [|reflexivity].
  destruct (k <? 1) eqn:E; [reflexivity|]. now rewrite E.
Qed.

Lemma clampTopK_bound (p : option Z) (k : Z) : clampTopK p = Some k -> 1 <= k.
Proof.
  unfold clampTopK. destruct p as [k0|]; [|discriminate].
  destruct (k0 <? 1) eqn:E; intros [= <-]; lia.
Qed.

Lemma capMaxOutputTokens_idempotent (modelID : string) (m : option Z) :
  capMaxOutputTokens modelID (capMaxOutputTokens modelID m) = capMaxOutputTokens modelID m.
Proof.
  unfold capMaxOutputTokens. destruct (modelLimits !! modelID) as [limit|].
  - destruct m as [v|].
    + destruct (limit <? v) eqn:E; [|now rewrite E].
      now rewrite Z.ltb_irrefl.
    + now rewrite Z.ltb_irrefl.
  - destruct m; reflexivity.
Qed.

Lemma capMaxOutputTokens_set (modelID : string) (m : option Z) :
  exists v, capMaxOutputTokens modelID m = Some v /\
            (forall limit, modelLimits !! modelID = Some limit -> v <= limit) /\
            (modelLimits !! modelID = None -> m = None -> v = defaultTokens).
Proof.
  unfold capMaxOutputTokens. destruct (modelLimits !! modelID) as [limit|].
  - destruct m as [v|].
    + destruct (limit <? v) eqn:E; eexists; (split; [reflexivity|]); split;
        try discriminate; intros l [= <-]; lia.
    + eexists; (split; [reflexivity|]); split; try discriminate. intros l [= <-]; lia.
  - destruct m as [v|]; eexists; (split; [reflexivity|]); split;
      try discriminate; auto.
Qed.

Lemma fixConfig_idempotent (modelID : string) (config : GeminiGenerationConfig) :
  fixConfig modelID (fixConfig modelID config) = fixConfig modelID config.
Proof.
  unfold fixConfig. cbn [Temperature TopP TopK MaxOutputTokens StopSequences].
  rewrite !clampFloat_idempotent by reflexivity.
  now rewrite clampTopK_idempotent, capMaxOutputTokens_idempotent.
Qed.

Lemma validated_roles_present (uca : bool) (req : GeminiRequest) (modelID : string) :
  rolesPresent (Contents (ValidateAndFixRequest uca req modelID)).
Proof.
  unfold ValidateAndFixRequest. cbn [Contents].
  pose proof (inferRoles_present (Contents req) 0%nat EmptyString) as H.
  destruct uca; [|exact H]. now rewrite autoRole_fixed.
Qed.

(** C8: validate/clamp is idempotent.  A second application returns the
    once-fixed request unchanged; in that request every turn has a role,
    the temperature is neither below 0 nor above 2 (so within [0,2] unless
    it is NaN, which no comparison moves), top_p likewise within [0,1],
    top_k is at least 1, and max-output-tokens is set and within the
    model's limit when the model has one. *)
Theorem validate_idempotent (uca : bool) (req : GeminiRequest) (modelID : string) :
  let fixed := ValidateAndFixRequest uca req modelID in
  ValidateAndFixRequest uca fixed modelID = fixed /\
  rolesPresent (Contents fixed) /\
  match GenerationConfig fixed with
  | None => GenerationConfig req = None
  | Some config =>
      (forall t, Temperature config = Some t ->
                 SFltb t f32_zero = false /\ SFltb f32_two t = false /\
                 (t <> S754_nan -> SFleb f32_zero t = true /\ SFleb t f32_two = true)) /\
      (forall p, TopP config = Some p ->
                 SFltb p f32_zero = false /\ SFltb f32_one p = false /\
                 (p <> S754_nan -> SFleb f32_zero p = true /\ SFleb p f32_one = true)) /\
      (forall k, TopK config = Some k -> 1 <= k) /\
      (exists m, MaxOutputTokens config = Some m /\
                 (forall limit, modelLimits !! modelID = Some limit -> m <= limit))
  end.
Proof.
  intros fixed. pose proof (validated_roles_present uca req modelID) as Hroles.
  fold fixed in Hroles. split; [|split; [exact Hroles|]].
  - unfold ValidateAndFixRequest at 1.
    rewrite (inferRoles_fixed _ _ _ Hroles).
    rewrite (autoRole_fixed _ Hroles).
    assert (Hc : (if uca then Contents fixed else Contents fixed) = Contents fixed)
      by (destruct uca; reflexivity).
    rewrite Hc. subst fixed. unfold ValidateAndFixRequest at 2 3 4.
    cbn [Contents SystemInstruction GenerationConfig].
    destruct (GenerationConfig req) as [config|].
    + now rewrite fixConfig_idempotent.
    + reflexivity.
  - subst fixed. unfold ValidateAndFixRequest. cbn [GenerationConfig].
    destruct (GenerationConfig req) as [config|]; [|reflexivity].
    unfold fixConfig. cbn [Temperature TopP TopK MaxOutputTokens].
    split; [|split; [|split]].
    + intros t Ht.
      destruct (clampFloat_settled f32_zero f32_two _ eq_refl eq_refl eq_refl t Ht)
        as [H1 H2].
      split; [exact H1|]. split; [exact H2|]. intros Hn. split.
      * apply not_lt_le; [discriminate | exact Hn | exact H1].
      * apply not_lt_le; [exact Hn | discriminate | exact H2].
    + intros p Hp.
      destruct (clampFloat_settled f32_zero f32_one _ eq_refl eq_refl eq_refl p Hp)
        as [H1 H2].
      split; [exact H1|]. split; [exact H2|]. intros Hn. split.
      * apply not_lt_le; [discriminate | exact Hn | exact H1].
      * apply not_lt_le; [exact Hn | discriminate | exact H2].
    + intros k. apply clampTopK_bound.
    + destruct (capMaxOutputTokens_set modelID (MaxOutputTokens config)) as (v & Hv & Hl & _).
      exists v. auto.
Qed.

(** C8, as stated, fails on a value that is not a number: both tests of
    the clamp, [< 0.0] and [> 2.0] (resp. [> 1.0]), are false on NaN, so the
    validated request keeps a NaN temperature and a NaN top-p, and neither
    lies within its interval. *)
Lemma validate_keeps_nan :
  ValidateAndFixRequest false Fixtures.nanRequest "gemini-pro" = Fixtures.nanRequest /\
  (exists config,
      GenerationConfig (ValidateAndFixRequest false Fixtures.nanRequest "gemini-pro")
      = Some config /\
      Temperature config = Some S754_nan /\ TopP config = Some S754_nan) /\
  SFleb f32_zero S754_nan = false /\ SFleb S754_nan f32_two = false /\
  SFleb S754_nan f32_one = false.
Proof.
  split; [reflexivity|]. split; [|repeat split].
  eexists. split; [reflexivity|]. split; reflexivity.
Qed.

(** *** The scenarios, evaluated *)

Lemma system_instruction_block_witness :
  match OpenAIToGeminiRequest Fixtures.foldNothing (Some Fixtures.systemRequest) with
  | Ok g => SystemInstruction g
            = Some {| SI_Parts := [ {| Text := "Be brief." |};
                                    {| Text := "Answer in French." |};
                                    {| Text := "Cite sources." |} ] |}
  | Err _ => False
  end.
Proof.
  pose proof (system_instruction_block Fixtures.foldNothing Fixtures.systemRequest) as H.
  destruct (OpenAIToGeminiRequest Fixtures.foldNothing (Some Fixtures.systemRequest))
    as [g|]; [|exact H].
  destruct H as (H & _ & _). apply H; discriminate.
Defined.

Lemma validate_idempotent_witness :
  ValidateAndFixRequest false
    (ValidateAndFixRequest false Fixtures.hotRequest "gemini-pro") "gemini-pro"
  = ValidateAndFixRequest false Fixtures.hotRequest "gemini-pro"
  /\ SFleb f32_zero f32_two = true /\ SFleb f32_two f32_two = true.
Proof.
  destruct (validate_idempotent false Fixtures.hotRequest "gemini-pro") as (H1 & _ & H3).
  split; [exact H1|].
  destruct H3 as (Ht & _).
  destruct (Ht f32_two eq_refl) as (_ & _ & Hin).
  apply Hin. discriminate.
Defined.

Example merge_joins_with_newline :
  mergeConsecutiveMessages Fixtures.singlePartTurns
  = [ {| Role := "user";
         Parts := [ {| Text := "hello" +:+ String "010"%char "again" |} ] |};
      {| Role := "model"; Parts := [ {| Text := "hi" |} ] |} ].
Proof. reflexivity. Qed.

Example merge_two_part_turns :
  mergeConsecutiveMessages Fixtures.twoPartTurns
  = [ {| Role := "user";
         Parts := [ {| Text := "a" +:+ String "010"%char "c" |}; {| Text := "b" |} ] |} ].
Proof. reflexivity. Qed.

Example clamp_hot_request :
  ValidateAndFixRequest false Fixtures.hotRequest "gemini-pro"
  = {| Contents := [ {| Role := "user"; Parts := [ {| Text := "Hello" |} ] |};
                     {| Role := "model"; Parts := [ {| Text := "Hi" |} ] |} ];
       SystemInstruction := None;
       GenerationConfig :=
         Some {| Temperature := Some f32_two; TopP := Some f32_zero;
                 TopK := Some 1; MaxOutputTokens := Some 2048;
                 StopSequences := [] |} |}.
Proof. reflexivity. Qed.

Example clamp_constants_are_binary32 :
  valid_binary 24 128 f32_one = true /\ valid_binary 24 128 f32_two = true
  /\ valid_binary 24 128 Fixtures.f32_2_5 = true
  /\ valid_binary 24 128 Fixtures.f32_minus_1 = true.
Proof. repeat split. Qed.

Example clamp_keeps_NaN :
  clampFloat f32_zero f32_two (Some S754_nan) = Some S754_nan.
Proof. reflexivity. Qed.

Example finish_reasons :
  map (convertFinishReason Fixtures.foldNothing)
      [ "STOP"; "MAX_TOKENS"; "SAFETY"; "RECITATION"; "OTHER"; "stop" ]
  = [ "stop"; "length"; "content_filter"; "content_filter"; "stop"; "stop" ].
Proof. reflexivity. Qed.

(** Outside ASCII the case tables decide, and lower-casing a reason first
    can change its conversion. *)
Example finish_reason_outside_ASCII :
  convertFinishReason Fixtures.dottedTables Fixtures.dottedRecitation = "stop" /\
  convertFinishReason Fixtures.dottedTables
    (ToLower Fixtures.dottedTables Fixtures.dottedRecitation) = "content_filter".
Proof. split; reflexivity. Qed.

(** A role that only the case tables fold to "assistant" is a turn of the
    model. *)
Example role_folded_outside_ASCII :
  isConversationMessage Fixtures.dottedTables
    {| Msg_Role := Fixtures.dottedAssistant; Msg_Content := "Hi" |} = true.
Proof. reflexivity. Qed.

Example request_id_in_base_36 :
  GenerateRequestID 1730000000123456789 = "chatcmpl-d569tge568et".
Proof. reflexivity. Qed.

(** *** Conversion: the turns of the outgoing request *)

Lemma conversation_from (tables : CaseTables) (msgs : list OpenAIMessage) :
  forall acc,
    fold_left (conversationStep tables) msgs acc
    = acc ++ map (turnOf tables) (List.filter (isConversationMessage tables) msgs).
Proof.
  induction msgs as [|m msgs IH]; intros acc; cbn [fold_left List.filter];
    [now rewrite app_nil_r|].
  rewrite IH.
  assert (E : conversationStep tables acc m
              = acc ++ map (turnOf tables) (if isConversationMessage tables m then [m] else [])).
  { unfold conversationStep, isConversationMessage.
    destruct (String.eqb (ToLower tables (Msg_Role m)) "user") eqn:Eu; cbn [orb map].
    - unfold turnOf. now rewrite Eu.
    - destruct (String.eqb (ToLower tables (Msg_Role m)) "assistant"); cbn [map];
        [|now rewrite app_nil_r].
      unfold turnOf. now rewrite Eu. }
  rewrite E. destruct (isConversationMessage tables m); cbn [map]; rewrite <- app_assoc;
    reflexivity.
Qed.

Lemma conversation_not_system (tables : CaseTables) (m : OpenAIMessage) :
  isConversationMessage tables m = true -> isSystemMessage tables m = false.
Proof.
  unfold isConversationMessage, isSystemMessage. intros H.
  apply orb_true_iff in H as [H|H]; apply String.eqb_eq in H; now rewrite H.
Qed.

Lemma filter_conversation_nonSystem (tables : CaseTables) (msgs : list OpenAIMessage) :
  List.filter (isConversationMessage tables)
    (List.filter (fun m => negb (isSystemMessage tables m)) msgs)
  = List.filter (isConversationMessage tables) msgs.
Proof.
  induction msgs as [|m msgs IH]; simpl; [reflexivity|].
  destruct (isConversationMessage tables m) eqn:Ec.
  - rewrite (conversation_not_system tables m Ec). simpl. now rewrite Ec, IH.
  - destruct (negb (isSystemMessage tables m)); simpl; [now rewrite Ec|]; exact IH.
Qed.

(** The turns handed to the merge: one per user or assistant message. *)
Lemma conversationContents_spec (tables : CaseTables) (msgs : list OpenAIMessage) :
  fold_left (conversationStep tables) (snd (splitMessages tables msgs)) []
  = map (turnOf tables) (List.filter (isConversationMessage tables) msgs).
Proof.
  unfold splitMessages. rewrite splitMessages_from. cbn [snd app].
  rewrite conversation_from. cbn [app]. now rewrite filter_conversation_nonSystem.
Qed.

Lemma turnOf_conversationTurn (tables : CaseTables) (m : OpenAIMessage) :
  conversationTurn (turnOf tables m).
Proof.
  unfold conversationTurn, turnOf, singlePart. cbn [Role Parts]. split; [|reflexivity].
  destruct (String.eqb (ToLower tables (Msg_Role m)) "user"); auto.
Qed.

Lemma absorb_conversationTurn (current next : GeminiContent) :
  conversationTurn current -> conversationTurn next ->
  conversationTurn (absorb current next).
Proof.
  intros [Hr Hp] [_ Hq]. unfold conversationTurn, singlePart in *.
  split; [now rewrite absorb_Role|]. unfold absorb.
  destruct (Parts current) as [|p [|p' ps]]; try discriminate.
  destruct (Parts next) as [|q qs]; [discriminate | reflexivity].
Qed.

Lemma mergeLoop_turns (rest : list GeminiContent) :
  forall merged current,
    Forall conversationTurn merged -> conversationTurn current ->
    Forall conversationTurn rest ->
    Forall conversationTurn (mergeLoop merged current rest).
Proof.
  induction rest as [|next rest IH]; intros merged current Hm Hc Hr; simpl.
  - apply Forall_app. split; [exact Hm | now constructor].
  - inversion Hr as [|? ? Hn Hr']; subst.
    destruct (String.eqb (Role current) (Role next)).
    + apply IH; [exact Hm | now apply absorb_conversationTurn | exact Hr'].
    + apply IH; [|exact Hn | exact Hr'].
      apply Forall_app. split; [exact Hm | now constructor].
Qed.

Lemma merge_turns (contents : list GeminiContent) :
  Forall conversationTurn contents ->
  Forall conversationTurn (mergeConsecutiveMessages contents).
Proof.
  intros H. destruct contents as [|c0 [|c1 rest]]; simpl; auto.
  change (Forall conversationTurn (mergeLoop [] c0 (c1 :: rest))).
  inversion H as [|? ? H0 Hrest]; subst.
  apply mergeLoop_turns; [constructor | exact H0 | exact Hrest].
Qed.

Lemma mergeLoop_length (rest : list GeminiContent) :
  forall merged current,
    (length (mergeLoop merged current rest) <= length merged + 1 + length rest)%nat.
Proof.
  induction rest as [|next rest IH]; intros merged current; simpl.
  - rewrite length_app. simpl. lia.
  - destruct (String.eqb (Role current) (Role next)).
    + specialize (IH merged (absorb current next)). lia.
    + specialize (IH (merged ++ [current]) next). rewrite length_app in IH. simpl in IH. lia.
Qed.

Lemma merge_length (contents : list GeminiContent) :
  (length (mergeConsecutiveMessages contents) <= length contents)%nat.
Proof.
  destruct contents as [|c0 [|c1 rest]]; simpl; auto.
  change (length (mergeLoop [] c0 (c1 :: rest)) <= S (S (length rest)))%nat.
  pose proof (mergeLoop_length (c1 :: rest) [] c0) as H.
  cbn [length Nat.add] in H. lia.
Qed.

(** Turns that already alternate are left as they are. *)
Lemma mergeLoop_fixed (rest : list GeminiContent) :
  forall merged current,
    rolesAlternate (current :: rest) ->
    mergeLoop merged current rest = merged ++ current :: rest.
Proof.
  induction rest as [|next rest IH]; intros merged current H; simpl; [reflexivity|].
  destruct H as [Hne H]. apply String.eqb_neq in Hne. rewrite Hne.
  rewrite (IH _ _ H). now rewrite <- app_assoc.
Qed.

Lemma merge_fixed (contents : list GeminiContent) :
  rolesAlternate contents -> mergeConsecutiveMessages contents = contents.
Proof.
  intros H. destruct contents as [|c0 [|c1 rest]]; try reflexivity.
  change (mergeLoop [] c0 (c1 :: rest) = c0 :: c1 :: rest).
  now rewrite (mergeLoop_fixed (c1 :: rest) [] c0 H).
Qed.

(** X1: the conversion of a request.  A nil request is refused; any other
    is converted, and the outgoing conversation has one text part per turn,
    roles "user" and "model" only, no two neighbouring turns of the same
    role, and at most one turn per user or assistant message (none when
    there is no such message: entries of any other role are dropped).  The
    generation settings are always present and carry the request's
    temperature, top-p, token limit and stop sequences, with no top-k. *)
Theorem converted_request_shape (tables : CaseTables) (req : OpenAIRequest) :
  OpenAIToGeminiRequest tables None = Err "request cannot be nil" /\
  exists g,
    OpenAIToGeminiRequest tables (Some req) = Ok g /\
    Forall conversationTurn (Contents g) /\
    rolesAlternate (Contents g) /\
    (length (Contents g)
     <= length (List.filter (isConversationMessage tables) (Req_Messages req)))%nat /\
    GenerationConfig g
    = Some {| Temperature := Req_Temperature req; TopP := Req_TopP req;
              TopK := None; MaxOutputTokens := Req_MaxTokens req;
              StopSequences := Req_Stop req |}.
Proof.
  split; [reflexivity|]. unfold OpenAIToGeminiRequest.
  pose proof (conversationContents_spec tables (Req_Messages req)) as Hconv.
  destruct (splitMessages tables (Req_Messages req)) as [emb rest]. cbn [snd] in Hconv.
  eexists. split; [reflexivity|]. cbn [Contents GenerationConfig]. rewrite Hconv.
  split; [|split; [|split]].
  - apply merge_turns. apply Forall_map, Forall_forall. intros m _.
    apply turnOf_conversationTurn.
  - apply merge_alternates.
  - etransitivity; [apply merge_length|]. now rewrite length_map.
  - reflexivity.
Qed.

(** X2: the conversion loses no conversation text.  The content of every
    user or assistant message of the request occurs in the text of the
    outgoing conversation. *)
Theorem converted_request_keeps_text (tables : CaseTables) (req : OpenAIRequest) :
  exists g,
    OpenAIToGeminiRequest tables (Some req) = Ok g /\
    forall msg, In msg (Req_Messages req) -> isConversationMessage tables msg = true ->
                occurs_in (Msg_Content msg) (allText (Contents g)).
Proof.
  unfold OpenAIToGeminiRequest.
  pose proof (conversationContents_spec tables (Req_Messages req)) as Hconv.
  destruct (splitMessages tables (Req_Messages req)) as [emb rest]. cbn [snd] in Hconv.
  eexists. split; [reflexivity|]. cbn [Contents]. rewrite Hconv.
  intros msg Hin Hc. apply covered_allText, merge_covers.
  - apply Forall_map, Forall_forall. intros m _. reflexivity.
  - apply (part_covered (turnOf tables msg) {| Text := Msg_Content msg |}).
    + apply in_map. apply filter_In. auto.
    + simpl. auto.
Qed.

(** X3: merging is idempotent and never lengthens the conversation: a
    conversation whose neighbouring turns already differ in role is
    returned as it is, so merging a merged conversation changes nothing. *)
Theorem merge_idempotent (contents : list GeminiContent) :
  mergeConsecutiveMessages (mergeConsecutiveMessages contents)
  = mergeConsecutiveMessages contents /\
  (length (mergeConsecutiveMessages contents) <= length contents)%nat /\
  (rolesAlternate contents -> mergeConsecutiveMessages contents = contents).
Proof.
  split; [|split].
  - apply merge_fixed, merge_alternates.
  - apply merge_length.
  - apply merge_fixed.
Qed.

(** *** Finish reasons *)

(** X4: the finish reason.  The converted reason is one of "stop", "length"
    and "content_filter"; it is "length" exactly when the reason, upper-cased
    by [strings.ToUpper], is MAX_TOKENS, "content_filter" exactly when it is
    SAFETY or RECITATION, and "stop" for every other text.  For a reason of
    ASCII bytes the letter case does not count: lower-casing or upper-casing
    the reason first gives the same result.  (Outside ASCII the case tables
    decide, and a letter need not be the upper case of its lower case.) *)
Theorem finish_reason_mapping (tables : CaseTables) (geminiReason : string) :
  (convertFinishReason tables geminiReason = "stop"
   \/ convertFinishReason tables geminiReason = "length"
   \/ convertFinishReason tables geminiReason = "content_filter") /\
  (convertFinishReason tables geminiReason = "length"
   <-> ToUpper tables geminiReason = "MAX_TOKENS") /\
  (convertFinishReason tables geminiReason = "content_filter"
   <-> ToUpper tables geminiReason = "SAFETY"
       \/ ToUpper tables geminiReason = "RECITATION") /\
  (isASCII geminiReason = true ->
   convertFinishReason tables (ToLower tables geminiReason)
   = convertFinishReason tables geminiReason /\
   convertFinishReason tables (ToUpper tables geminiReason)
   = convertFinishReason tables geminiReason).
Proof.
  assert (Hcase : forall r,
             convertFinishReason tables r =
             if String.eqb (ToUpper tables r) "STOP" then "stop"
             else if String.eqb (ToUpper tables r) "MAX_TOKENS" then "length"
             else if String.eqb (ToUpper tables r) "SAFETY"
                     || String.eqb (ToUpper tables r) "RECITATION"
                  then "content_filter" else "stop") by reflexivity.
  split; [|split; [|split]].
  - rewrite Hcase.
    destruct (String.eqb (ToUpper tables geminiReason) "STOP"); [auto|].
    destruct (String.eqb (ToUpper tables geminiReason) "MAX_TOKENS"); [auto|].
    destruct (String.eqb (ToUpper tables geminiReason) "SAFETY"
              || String.eqb (ToUpper tables geminiReason) "RECITATION"); auto.
  - rewrite Hcase.
    destruct (String.eqb (ToUpper tables geminiReason) "STOP") eqn:E1.
    { apply String.eqb_eq in E1. rewrite E1. split; discriminate. }
    destruct (String.eqb (ToUpper tables geminiReason) "MAX_TOKENS") eqn:E2.
    { apply String.eqb_eq in E2. split; auto. }
    apply String.eqb_neq in E2.
    destruct (String.eqb (ToUpper tables geminiReason) "SAFETY"
              || String.eqb (ToUpper tables geminiReason) "RECITATION");
      split; try discriminate; intros H; now elim E2.
  - rewrite Hcase.
    destruct (String.eqb (ToUpper tables geminiReason) "STOP") eqn:E1.
    { apply String.eqb_eq in E1. rewrite E1. split; [discriminate|].
      intros [H|H]; discriminate. }
    destruct (String.eqb (ToUpper tables geminiReason) "MAX_TOKENS") eqn:E2.
    { apply String.eqb_eq in E2. rewrite E2. split; [discriminate|].
      intros [H|H]; discriminate. }
    destruct (String.eqb (ToUpper tables geminiReason) "SAFETY") eqn:E3.
    { apply String.eqb_eq in E3. simpl. split; auto. }
    destruct (String.eqb (ToUpper tables geminiReason) "RECITATION") eqn:E4.
    { apply String.eqb_eq in E4. simpl. split; auto. }
    apply String.eqb_neq in E3, E4. simpl. split; [discriminate|].
    intros [H|H]; contradiction.
  - intros Hascii. rewrite !Hcase. split.
    + now rewrite (ToUpper_ToLower tables geminiReason Hascii).
    + now rewrite (ToUpper_idempotent tables geminiReason Hascii).
Qed.

Lemma finish_reason_mapping_witness :
  convertFinishReason Fixtures.foldNothing "max_tokens" = "length" /\
  convertFinishReason Fixtures.foldNothing "Recitation" = "content_filter" /\
  convertFinishReason Fixtures.foldNothing (ToLower Fixtures.foldNothing "SAFETY")
  = convertFinishReason Fixtures.foldNothing "SAFETY".
Proof.
  destruct (finish_reason_mapping Fixtures.foldNothing "max_tokens") as (_ & Hlength & _).
  destruct (finish_reason_mapping Fixtures.foldNothing "Recitation") as (_ & _ & Hfilter & _).
  destruct (finish_reason_mapping Fixtures.foldNothing "SAFETY") as (_ & _ & _ & Hcase).
  split; [apply Hlength; reflexivity|].
  split; [apply Hfilter; right; reflexivity|].
  apply Hcase. reflexivity.
Defined.

(** *** Streaming conversion *)

Lemma convertStream_roles (tables : CaseTables) (model requestID : string) (clock : nat -> Z)
    (chunks : list GeminiStreamChunk) :
  forall k roleSent,
    let out := convertStream tables model requestID clock k roleSent chunks in
    length out = length chunks /\
    Forall (fun o => Chunk_ID o = requestID /\
                     Chunk_Object o = "chat.completion.chunk" /\
                     Chunk_Model o = model /\
                     exists delta fr,
                       Chunk_Choices o = [ {| Index := 0; Message := None;
                                              Delta := Some delta;
                                              FinishReason := fr |} ]) out /\
    concat (map deltaRoles out)
    = match chunks with
      | [] => []
      | _ :: rest => (if roleSent then EmptyString else "assistant")
                       :: repeat EmptyString (length rest)
      end.
Proof.
  induction chunks as [|chunk rest IH]; intros k roleSent.
  - repeat split. constructor.
  - cbn [convertStream GeminiStreamToOpenAI].
    destruct (Chunk_Candidates chunk) as [|candidate others];
      destruct (IH (S k) true) as (Hlen & Hall & Hroles); cbn zeta in *.
    + split; [simpl; now rewrite Hlen|]. split.
      * constructor; [|exact Hall]. cbn. repeat split. eexists _, _. reflexivity.
      * cbn [map concat]. rewrite Hroles.
        destruct rest as [|r rest']; reflexivity.
    + split; [simpl; now rewrite Hlen|]. split.
      * constructor; [|exact Hall]. cbn. repeat split. eexists _, _. reflexivity.
      * cbn [map concat]. rewrite Hroles.
        destruct rest as [|r rest']; reflexivity.
Qed.

(** X5: the role of a converted stream.  A nil chunk is refused and leaves
    the caller's flag alone.  The chunks of one stream, converted in order
    with the flag starting at false, give one output chunk each, every one
    with the stream's request id and model, the object
    "chat.completion.chunk" and a single choice of index 0 carrying a
    delta; the first delta has the role "assistant" and every later one has
    no role. *)
Theorem stream_role_sent_once (tables : CaseTables) (model requestID : string) (clock : nat -> Z)
    (chunks : list GeminiStreamChunk) :
  let out := convertStream tables model requestID clock 0 false chunks in
  (forall now roleSent,
      GeminiStreamToOpenAI tables None model requestID now roleSent
      = (Err "stream chunk cannot be nil", roleSent)) /\
  length out = length chunks /\
  Forall (fun o => Chunk_ID o = requestID /\
                   Chunk_Object o = "chat.completion.chunk" /\
                   Chunk_Model o = model /\
                   exists delta fr,
                     Chunk_Choices o = [ {| Index := 0; Message := None;
                                            Delta := Some delta;
                                            FinishReason := fr |} ]) out /\
  concat (map deltaRoles out)
  = match chunks with
    | [] => []
    | _ :: rest => "assistant" :: repeat EmptyString (length rest)
    end.
Proof.
  intros out. split; [reflexivity|].
  exact (convertStream_roles tables model requestID clock chunks 0%nat false).
Qed.

Lemma Join_no_separator (l : list string) :
  Join l EmptyString = fold_right String.append EmptyString l.
Proof.
  induction l as [|x [|y l] IH]; [reflexivity | |].
  - simpl. now rewrite append_nil_r.
  - change (Join (x :: y :: l) EmptyString)
      with (x +:+ EmptyString +:+ Join (y :: l) EmptyString).
    rewrite IH. reflexivity.
Qed.

Lemma textParts_from (parts : list GeminiPart) :
  forall acc,
    fold_left (fun acc part =>
                 if String.eqb (Text part) EmptyString then acc else acc ++ [Text part])
              parts acc
    = acc ++ List.filter (fun t => negb (String.eqb t EmptyString)) (map Text parts).
Proof.
  induction parts as [|p parts IH]; intros acc; cbn [fold_left map List.filter];
    [now rewrite app_nil_r|].
  rewrite IH. destruct (String.eqb (Text p) EmptyString); cbn [negb];
    [reflexivity | now rewrite <- app_assoc].
Qed.

Lemma concat_nonempty (l : list string) :
  fold_right String.append EmptyString
    (List.filter (fun t => negb (String.eqb t EmptyString)) l)
  = fold_right String.append EmptyString l.
Proof.
  induction l as [|x l IH]; [reflexivity|]. cbn [List.filter fold_right].
  destruct (String.eqb x EmptyString) eqn:E; cbn [negb fold_right]; rewrite IH;
    [|reflexivity].
  apply String.eqb_eq in E. subst x. reflexivity.
Qed.

Lemma streamContent_from (parts : list GeminiPart) :
  forall acc,
    fold_left (fun content part => content +:+ Text part) parts acc
    = acc +:+ partsText parts.
Proof.
  unfold partsText.
  induction parts as [|p parts IH]; intros acc; cbn [fold_left map fold_right];
    [now rewrite append_nil_r|].
  rewrite IH. now rewrite append_assoc.
Qed.

Lemma response_content (parts : list GeminiPart) :
  Join (textParts parts) EmptyString = partsText parts.
Proof.
  unfold textParts. rewrite textParts_from, Join_no_separator. cbn [app].
  apply concat_nonempty.
Qed.

Lemma stream_content (parts : list GeminiPart) : streamContent parts = partsText parts.
Proof. unfold streamContent. now rewrite streamContent_from. Qed.

(** X6: the two response converters agree.  For the same candidates, the
    message of the converted response and the delta of the converted
    stream chunk carry the same content, namely the texts of the first
    candidate's parts one after the other (the empty string when there is
    no candidate), and the same finish reason.  Skipping the empty parts,
    as the first does, or appending them, as the second does, makes no
    difference. *)
Theorem stream_agrees_with_response (tables : CaseTables)
    (cands : list (GeminiContent * string * Z))
    (usage : option GeminiUsageMetadata) (model requestID : string)
    (nowNano nowUnix : Z) (roleSent : bool) :
  exists r o text fr role,
    GeminiToOpenAIResponse tables (Some (responseOf cands usage)) model nowNano nowUnix = Ok r /\
    fst (GeminiStreamToOpenAI tables (Some (chunkOf cands usage)) model requestID nowUnix roleSent)
    = Ok o /\
    Choices r = [ {| Index := 0;
                     Message := Some {| Msg_Role := "assistant"; Msg_Content := text |};
                     Delta := None; FinishReason := fr |} ] /\
    Chunk_Choices o = [ {| Index := 0; Message := None;
                           Delta := Some {| Msg_Role := role; Msg_Content := text |};
                           FinishReason := fr |} ] /\
    text = match cands with
           | (content, _, _) :: _ => partsText (Parts content)
           | [] => EmptyString
           end.
Proof.
  unfold GeminiToOpenAIResponse, GeminiStreamToOpenAI, responseOf, chunkOf.
  cbn [Candidates Chunk_Candidates].
  destruct cands as [|[[content reason] i] rest]; cbn [map].
  - eexists _, _, _, _, _. repeat split.
  - cbn [Cand_Content Cand_FinishReason SC_Content SC_FinishReason].
    rewrite response_content, stream_content.
    eexists _, _, _, _, _. repeat split.
Qed.

(** *** Validation: what it leaves alone *)

Lemma inferRoles_Parts (contents : list GeminiContent) :
  forall i lastRole,
    map Parts (inferRoles i lastRole contents) = map Parts contents.
Proof.
  induction contents as [|c cs IH]; intros i lastRole; cbn [inferRoles map];
    [reflexivity|].
  rewrite IH. destruct (String.eqb (Role c) EmptyString); reflexivity.
Qed.

Lemma inferRoles_keeps (contents : list GeminiContent) :
  forall i lastRole,
    Forall2 (fun c c' => Role c <> EmptyString -> c' = c)
            contents (inferRoles i lastRole contents).
Proof.
  induction contents as [|c cs IH]; intros i lastRole; cbn [inferRoles];
    constructor; [|apply IH].
  intros Hr. apply String.eqb_neq in Hr. now rewrite Hr.
Qed.

Lemma validate_contents (uca : bool) (req : GeminiRequest) (modelID : string) :
  Contents (ValidateAndFixRequest uca req modelID)
  = inferRoles 0 EmptyString (Contents req).
Proof.
  unfold ValidateAndFixRequest. cbn [Contents]. destruct uca; [|reflexivity].
  apply autoRole_fixed, inferRoles_present.
Qed.

Lemma fixConfig_withinBounds (modelID : string) (config : GeminiGenerationConfig) :
  withinBounds modelID config -> fixConfig modelID config = config.
Proof.
  intros (Ht & Hp & Hk & m & Hm & Hlimit).
  destruct config as [t p k mo stop]. cbn [Temperature TopP TopK MaxOutputTokens] in *.
  unfold fixConfig. cbn [Temperature TopP TopK MaxOutputTokens StopSequences].
  f_equal.
  - destruct t as [t|]; [|reflexivity]. destruct (Ht t eq_refl) as [H1 H2].
    cbn [clampFloat]. now rewrite H1, H2.
  - destruct p as [p|]; [|reflexivity]. destruct (Hp p eq_refl) as [H1 H2].
    cbn [clampFloat]. now rewrite H1, H2.
  - destruct k as [k|]; [|reflexivity]. specialize (Hk k eq_refl).
    cbn [clampTopK]. destruct (k <? 1) eqn:E; [apply Z.ltb_lt in E; lia | reflexivity].
  - subst mo. unfold capMaxOutputTokens.
    destruct (modelLimits !! modelID) as [limit|]; [|reflexivity].
    specialize (Hlimit limit eq_refl).
    destruct (limit <? m) eqn:E; [apply Z.ltb_lt in E; lia | reflexivity].
Qed.

(** X7: what validation leaves alone.  The Code Assist pass over the
    roles never fires, the first pass having left no role empty: the
    result is the same whatever the converter's [useCodeAssist] flag.
    Validation keeps the parts of every turn, every turn that has a role,
    the system instruction and the absence of generation settings; and a
    request whose turns all have a role and whose settings are within the
    bounds is returned as it is. *)
Theorem validate_frame (uca : bool) (req : GeminiRequest) (modelID : string) :
  let fixed := ValidateAndFixRequest uca req modelID in
  fixed = ValidateAndFixRequest (negb uca) req modelID /\
  map Parts (Contents fixed) = map Parts (Contents req) /\
  Forall2 (fun c c' => Role c <> EmptyString -> c' = c) (Contents req) (Contents fixed) /\
  SystemInstruction fixed = SystemInstruction req /\
  (GenerationConfig fixed = None <-> GenerationConfig req = None) /\
  (rolesPresent (Contents req) ->
   (forall config, GenerationConfig req = Some config -> withinBounds modelID config) ->
   fixed = req).
Proof.
  intros fixed. pose proof (validate_contents uca req modelID) as Hc.
  pose proof (validate_contents (negb uca) req modelID) as Hc'. fold fixed in Hc.
  split; [|split; [|split; [|split; [|split]]]].
  - subst fixed. unfold ValidateAndFixRequest in *. cbn [Contents] in Hc, Hc'.
    now rewrite Hc, Hc'.
  - rewrite Hc. apply inferRoles_Parts.
  - rewrite Hc. apply inferRoles_keeps.
  - reflexivity.
  - subst fixed. unfold ValidateAndFixRequest. cbn [GenerationConfig].
    destruct (GenerationConfig req); split; intros H; try discriminate; reflexivity.
  - intros Hroles Hbounds. subst fixed. unfold ValidateAndFixRequest in *.
    cbn [Contents] in Hc. rewrite Hc. rewrite (inferRoles_fixed _ _ _ Hroles).
    destruct req as [contents si gc]. cbn [Contents SystemInstruction GenerationConfig] in *.
    f_equal. destruct gc as [config|]; [|reflexivity].
    now rewrite (fixConfig_withinBounds modelID config (Hbounds config eq_refl)).
Qed.

Lemma inferRoles_alternate (contents : list GeminiContent) :
  forall i lastRole,
    Forall (fun c => Role c = EmptyString) contents ->
    (i = 0%nat \/ lastRole = if Nat.even i then "model" else "user") ->
    map Role (inferRoles i lastRole contents) = alternatingRoles i (length contents).
Proof.
  induction contents as [|c cs IH]; intros i lastRole Hall Hlast;
    cbn [inferRoles map length alternatingRoles]; [reflexivity|].
  inversion Hall as [|? ? Hc Hcs]; subst. rewrite Hc. cbn [String.eqb Role].
  assert (Hrole : (if (i =? 0)%nat || String.eqb lastRole "model" then "user" else "model")
                  = if Nat.even i then "user" else "model").
  { destruct Hlast as [-> | ->]; [reflexivity|].
    destruct i as [|i]; [reflexivity|]. cbn [Nat.eqb orb].
    destruct (Nat.even (S i)); reflexivity. }
  rewrite Hrole. f_equal. apply IH; [exact Hcs|]. right.
  rewrite Nat.even_succ. unfold Nat.odd. destruct (Nat.even i); reflexivity.
Qed.

(** X8: the roles validation infers.  When no turn of the request has a
    role, the validated turns are "user", "model", "user", ... in turn,
    starting with "user". *)
Theorem roles_inferred_alternate (uca : bool) (req : GeminiRequest) (modelID : string) :
  Forall (fun c => Role c = EmptyString) (Contents req) ->
  map Role (Contents (ValidateAndFixRequest uca req modelID))
  = alternatingRoles 0 (length (Contents req)).
Proof.
  intros Hall. rewrite validate_contents. apply inferRoles_alternate; auto.
Qed.

Lemma roles_inferred_alternate_witness :
  Forall (fun c => Role c = EmptyString) (Contents Fixtures.hotRequest) /\
  map Role (Contents (ValidateAndFixRequest true Fixtures.hotRequest "gemini-pro"))
  = [ "user"; "model" ].
Proof.
  assert (H : Forall (fun c => Role c = EmptyString) (Contents Fixtures.hotRequest))
    by (repeat constructor).
  split; [exact H|].
  exact (roles_inferred_alternate true Fixtures.hotRequest "gemini-pro" H).
Defined.

(** The system instruction of a converted request: the embedded entries
    followed by the explicit parts, when there is any. *)
Lemma converted_system_parts (tables : CaseTables) (req : OpenAIRequest) :
  exists g,
    OpenAIToGeminiRequest tables (Some req) = Ok g /\
    SystemInstruction g
    = match embeddedSystemParts tables (Req_Messages req) ++ explicitSystemParts req with
      | [] => None
      | own => Some {| SI_Parts := own |}
      end.
Proof.
  unfold OpenAIToGeminiRequest.
  pose proof (splitMessages_embedded tables (Req_Messages req)) as Hs.
  destruct (splitMessages tables (Req_Messages req)) as [emb rest]. cbn [fst] in Hs. subst emb.
  eexists. split; [reflexivity|]. cbn [SystemInstruction].
  assert (Hparts :
    match Req_SystemInstruction req with
    | Some si => if (0 <? length (SI_Parts si))%nat
                 then embeddedSystemParts tables (Req_Messages req) ++ SI_Parts si
                 else embeddedSystemParts tables (Req_Messages req)
    | None => embeddedSystemParts tables (Req_Messages req)
    end = embeddedSystemParts tables (Req_Messages req) ++ explicitSystemParts req).
  { unfold explicitSystemParts.
    destruct (Req_SystemInstruction req) as [si|]; [|now rewrite app_nil_r].
    destruct (SI_Parts si); [now rewrite app_nil_r | reflexivity]. }
  rewrite Hparts.
  destruct (embeddedSystemParts tables (Req_Messages req) ++ explicitSystemParts req);
    reflexivity.
Qed.

End ConverterFacts.

Module ClientFacts.
Import GoStrings Models Converter Client StringVocabulary ClientVocabulary GoStringsFacts.

Section WithEnv.
Variable env : Env.

Lemma sameSetup_refl (c : GeminiClient) : sameSetup c c.
Proof. repeat split. Qed.

Lemma sameSetup_trans (a b c : GeminiClient) :
  sameSetup a b -> sameSetup b c -> sameSetup a c.
Proof. unfold sameSetup. intros (?&?&?&?) (?&?&?&?). repeat split; congruence. Qed.

Lemma setRandomProxy_setup (c : GeminiClient) :
  sameSetup c (fst (setRandomProxy env c)) /\
  sent (fst (setRandomProxy env c)) = sent c.
Proof.
  unfold setRandomProxy. destruct (proxyURLs c) eqn:E.
  - simpl. unfold sameSetup. simpl. rewrite E. auto.
  - destruct (url_Parse env _); simpl; unfold sameSetup; simpl; rewrite E; auto.
Qed.

Lemma RotateProxy_setup (c : GeminiClient) :
  sameSetup c (fst (RotateProxy env c)) /\ sent (fst (RotateProxy env c)) = sent c.
Proof.
  unfold RotateProxy. destruct (length (proxyURLs c) <=? 1)%nat.
  - split; [apply sameSetup_refl | reflexivity].
  - apply setRandomProxy_setup.
Qed.

Lemma setRandomProxy_asked (c : GeminiClient) :
  asked (fst (setRandomProxy env c)) = asked c.
Proof.
  unfold setRandomProxy. destruct (proxyURLs c); [reflexivity|].
  destruct (url_Parse env _); reflexivity.
Qed.

Lemma RotateProxy_asked (c : GeminiClient) : asked (fst (RotateProxy env c)) = asked c.
Proof.
  unfold RotateProxy. destruct (length (proxyURLs c) <=? 1)%nat; [reflexivity|].
  apply setRandomProxy_asked.
Qed.

Lemma tick_asked_setup (c : GeminiClient) : sameSetup c (tick_asked c).
Proof. repeat split. Qed.

Lemma afterAsk_setup (c : GeminiClient) : sameSetup c (afterAsk c).
Proof. unfold afterAsk. destruct (asksToken c); repeat split. Qed.

(** Creating a request changes nothing of the client but the number of
    tokens asked for. *)
Lemma createRequest_state (c : GeminiClient) (method url body : string) :
  let c' := snd (createRequest env c method url body) in
  sameSetup c c' /\ sent c' = sent c /\ Transport c' = Transport c /\
  draws c' = draws c /\ (asked c <= asked c')%nat /\
  (forall httpReq, fst (createRequest env c method url body) = Ok httpReq ->
                   c' = afterAsk c).
Proof.
  unfold createRequest, afterAsk, asksToken.
  destruct (http_NewRequest env method url) as [x|e];
    [|cbn [fst snd]; repeat split; [lia | discriminate]].
  destruct (auth c) as [a|]; [|cbn [fst snd]; repeat split; lia].
  destruct (auth_initialized a); [|cbn [fst snd]; repeat split; lia].
  destruct (GetToken a (asked c)); cbn [fst snd asked tick_asked];
    repeat split; try lia; discriminate.
Qed.

(** The request created depends on the client through its configuration,
    its credential manager and the number of tokens asked for. *)
Lemma createRequest_setup (c c' : GeminiClient) (method url body : string) :
  sameSetup c c' -> asked c' = asked c ->
  fst (createRequest env c' method url body) = fst (createRequest env c method url body).
Proof.
  intros (Hc & Ha & _ & _) Hk. unfold createRequest. rewrite Hc, Ha, Hk.
  destruct (http_NewRequest env method url) as [x|e]; [|reflexivity].
  destruct (auth c) as [a|]; [|reflexivity].
  destruct (auth_initialized a); [|reflexivity].
  destruct (GetToken a (asked c)); reflexivity.
Qed.

(** Where a request was created once and the token source always answers,
    a request is created again at any later time, the same but for its
    credential. *)
Lemma createRequest_granted (c c' : GeminiClient) (method url body : string)
    (httpReq : HttpRequest) :
  fst (createRequest env c method url body) = Ok httpReq ->
  tokenGranted c -> sameSetup c c' ->
  exists httpReq',
    createRequest env c' method url body = (Ok httpReq', afterAsk c') /\
    sameButToken httpReq httpReq'.
Proof.
  intros Hcreate Htok (Hc & Ha & _ & _). unfold createRequest in *.
  unfold afterAsk, asksToken. rewrite Hc, Ha.
  destruct (http_NewRequest env method url) as [x|e]; [|discriminate].
  destruct (auth c) as [a|] eqn:Hauth.
  - destruct (auth_initialized a) eqn:Hinit.
    + destruct (Htok a Hauth Hinit (asked c')) as [token Htoken].
      unfold GetToken in *. rewrite Hinit in *. cbn [negb] in *. rewrite Htoken.
      destruct (auth_tokenSource a (asked c)); [|discriminate].
      cbn [fst] in Hcreate. injection Hcreate as <-.
      eexists. split; [reflexivity|]. repeat split.
    + cbn [fst] in Hcreate. injection Hcreate as <-.
      eexists. split; [reflexivity|]. repeat split.
  - cbn [fst] in Hcreate. injection Hcreate as <-.
    eexists. split; [reflexivity|]. repeat split.
Qed.

Lemma log_sent_setup (c : GeminiClient) (r : HttpRequest) : sameSetup c (log_sent c r).
Proof. repeat split. Qed.

Lemma exhaustedPrefix_app (n : Z) (e : string) :
  exhaustedPrefix n +:+ e
  = "request failed after " +:+ fmt_d n +:+ " attempts: " +:+ e.
Proof. unfold exhaustedPrefix. now rewrite !append_assoc. Qed.

(** The client a loop iteration starts from, after the rotation. *)
Lemma rotated_state (attempt : Z) (c : GeminiClient) :
  let c1 := if (0 <? attempt) && (1 <? length (proxyURLs c))%nat
            then fst (RotateProxy env c) else c in
  sameSetup c c1 /\ sent c1 = sent c /\ asked c1 = asked c.
Proof.
  cbv zeta. destruct ((0 <? attempt) && (1 <? length (proxyURLs c))%nat).
  - destruct (RotateProxy_setup c) as [Hs He]. split; [exact Hs|].
    split; [exact He | apply RotateProxy_asked].
  - split; [apply sameSetup_refl|]. split; reflexivity.
Qed.

Section AlwaysTransient.
Variables (apiURL reqBody : string) (httpReq : HttpRequest) (c0 : GeminiClient).
Variable maxRetries : Z.
Hypothesis Hcreate : fst (createRequest env c0 "POST" apiURL reqBody) = Ok httpReq.
Hypothesis Htoken : tokenGranted c0.
Hypothesis Hnet : everyAttemptTransient env.

(** With two routes or more the loop runs to exhaustion. *)
Lemma retryLoop_rotating (fuel : nat) :
  (1 < length (proxyURLs c0))%nat ->
  forall attempt lastErr c,
    sameSetup c0 c ->
    exists c' le,
      retryLoop env fuel attempt maxRetries apiURL reqBody false lastErr c
      = (Err (exhaustedPrefix maxRetries +:+ fmt_err le), c') /\
      sameSetup c0 c' /\
      length (sent c') = (length (sent c) + fuel)%nat /\
      (exists new, sent c' = sent c ++ new /\
                   Forall (fun entry => sameButToken httpReq (snd entry)) new) /\
      match fuel with
      | O => le = lastErr /\ c' = c
      | S _ => exists proxy last_req msg,
          last (sent c') = Some (proxy, last_req) /\
          http_Do env (pred (length (sent c'))) proxy last_req = TransportError msg /\
          le = Some ("request failed: " +:+ msg)
      end.
Proof.
  intros Hroutes. induction fuel as [|fuel IH]; intros attempt lastErr c Hc.
  - exists c, lastErr.
    split; [|split; [exact Hc | split; [simpl; lia | split; [|split; reflexivity]]]].
    + simpl. now rewrite exhaustedPrefix_app.
    + exists []. rewrite app_nil_r. split; [reflexivity | constructor].
  - cbn [retryLoop].
    destruct (rotated_state attempt c) as (H1 & Hsent1 & _).
    set (c1 := if (0 <? attempt) && (1 <? length (proxyURLs c))%nat
               then fst (RotateProxy env c) else c) in *.
    pose proof (sameSetup_trans _ _ _ Hc H1) as Hc1.
    destruct (createRequest_granted c0 c1 _ _ _ httpReq Hcreate Htoken Hc1)
      as (req1 & Hbuilt & Hsame).
    rewrite Hbuilt.
    pose proof (sameSetup_trans _ _ _ Hc1 (afterAsk_setup c1)) as Hc1'.
    assert (Hsent1' : sent (afterAsk c1) = sent c1 /\ Transport (afterAsk c1) = Transport c1)
      by (unfold afterAsk; destruct (asksToken c1); split; reflexivity).
    destruct Hsent1' as [Hsent1' Htr1'].
    unfold Do.
    destruct (Hnet (length (sent (afterAsk c1))) (Transport (afterAsk c1)) req1)
      as (msg & Hdo & Hlex).
    rewrite Hdo, Hlex.
    assert (Hlen : (1 <? length (proxyURLs (log_sent (afterAsk c1) req1)))%nat = true).
    { cbn [proxyURLs log_sent]. destruct Hc1' as (_ & _ & _ & ->). now apply Nat.ltb_lt. }
    rewrite Hlen. cbn [andb].
    pose proof (sameSetup_trans _ _ _ Hc1' (log_sent_setup (afterAsk c1) req1)) as Hc2.
    destruct (IH (attempt + 1) (Some ("request failed: " +:+ msg))
                 (log_sent (afterAsk c1) req1) Hc2)
      as (c' & le & Hrun & Hset & Hcount & (new & Hnew & Hall) & Hlast).
    exists c', le. split; [exact Hrun|]. split; [exact Hset|]. split; [|split].
    + rewrite Hcount. cbn [sent log_sent]. rewrite length_app, Hsent1', Hsent1. simpl. lia.
    + exists ((Transport c1, req1) :: new). split.
      * rewrite Hnew. cbn [sent log_sent]. rewrite Hsent1', Htr1', Hsent1, <- app_assoc.
        reflexivity.
      * constructor; [exact Hsame | exact Hall].
    + destruct fuel as [|fuel'].
      * destruct Hlast as [Hle ->].
        exists (Transport (afterAsk c1)), req1, msg. split; [|split].
        -- cbn [sent log_sent]. apply last_snoc.
        -- cbn [sent log_sent]. rewrite length_app. simpl.
           replace (pred (length (sent (afterAsk c1)) + 1))
             with (length (sent (afterAsk c1))) by lia.
           exact Hdo.
        -- exact Hle.
      * exact Hlast.
Qed.
End AlwaysTransient.
End WithEnv.

Section WithEnv.
Variable env : Env.

(** With fewer than two routes the first transport error is returned. *)
Lemma retryLoop_single_route (apiURL reqBody : string) (httpReq : HttpRequest)
    (maxRetries : Z) (fuel : nat) (attempt : Z) (lastErr : option string)
    (c : GeminiClient) (msg : string) :
  (length (proxyURLs c) <= 1)%nat ->
  fst (createRequest env c "POST" apiURL reqBody) = Ok httpReq ->
  http_Do env (length (sent c)) (Transport c) httpReq = TransportError msg ->
  retryLoop env (S fuel) attempt maxRetries apiURL reqBody false lastErr c
  = (Err ("request failed: " +:+ msg), log_sent (afterAsk c) httpReq).
Proof.
  intros Hroutes Hcreate Hdo. cbn [retryLoop].
  assert (Hlt : (1 <? length (proxyURLs c))%nat = false) by now apply Nat.ltb_ge.
  rewrite Hlt, andb_false_r.
  destruct (createRequest_state env c "POST" apiURL reqBody)
    as (_ & _ & _ & _ & _ & Hstate).
  specialize (Hstate httpReq Hcreate).
  destruct (createRequest env c "POST" apiURL reqBody) as [built c1].
  cbn [fst snd] in *. subst built c1. unfold Do.
  assert (Hsame : sent (afterAsk c) = sent c /\ Transport (afterAsk c) = Transport c
                  /\ proxyURLs (afterAsk c) = proxyURLs c)
    by (unfold afterAsk; destruct (asksToken c); repeat split).
  destruct Hsame as (-> & -> & Hp). rewrite Hdo.
  cbn [proxyURLs log_sent]. now rewrite Hp, Hlt.
Qed.


(** *** The raw streaming operation *)

(** C10, as amended: the raw streaming operation never rotates the proxy
    and never retries.  Whatever the input, it leaves the routes, the
    transport and the random source alone and hands at most one request
    to the network; once the request is built it hands exactly one, and
    a transport error or a status other than 200 is returned at once,
    the latter with the status and the captured body.  The outcome does
    not depend on the retry bound or on the list of routes. *)
Theorem stream_raw_single_attempt (c : GeminiClient) (modelID : string)
    (req : GeminiRequest) :
  match SendStreamRequestRaw env c modelID (Some req) with
  | None => streamURL env c modelID = None
  | Some (r, c') =>
      config c' = config c /\ proxyURLs c' = proxyURLs c /\
      Transport c' = Transport c /\ draws c' = draws c /\
      ((sent c' = sent c /\ exists e, r = Err e) \/
       (exists httpReq,
           sent c' = sent c ++ [(Transport c, httpReq)] /\
           match http_Do env (length (sent c)) (Transport c) httpReq with
           | TransportError msg => r = Err ("stream request failed: " +:+ msg)
           | Response status body =>
               if status =? 200
               then r = Ok {| Stream_StatusCode := status; Stream_Body := body |}
               else r = Err ("stream API request failed with status "
                               +:+ fmt_d status +:+ ": " +:+ body)
           end))
  end
  /\ (forall httpReq,
         streamRequestOf env c modelID req = Some httpReq ->
         exists r c', SendStreamRequestRaw env c modelID (Some req) = Some (r, c') /\
                      sent c' = sent c ++ [(Transport c, httpReq)])
  /\ (forall maxRetries routes,
         option_map fst
           (SendStreamRequestRaw env (with_retry_setup c maxRetries routes) modelID (Some req))
         = option_map fst (SendStreamRequestRaw env c modelID (Some req))).
Proof.
  split; [|split].
  - unfold SendStreamRequestRaw.
    destruct (buildBody env c modelID req) as [reqBody|e].
    2:{ repeat split; auto. left. split; [reflexivity | now exists ("failed to marshal request: " +:+ e)]. }
    destruct (streamURL env c modelID) as [apiURL|]; [|reflexivity].
    destruct (createRequest_state env c "POST" apiURL reqBody)
      as ((Hcfg & _ & _ & Hroutes) & Hsent & Htr & Hdraws & _ & _).
    destruct (createRequest env c "POST" apiURL reqBody) as [[httpReq|e] c0];
      cbn [fst snd] in *.
    2:{ repeat split; auto. left. split; [exact Hsent | now exists e]. }
    unfold Do. rewrite Hsent, Htr.
    destruct (http_Do env (length (sent c)) (Transport c) httpReq) as [msg|status body] eqn:Hdo.
    + cbn [config proxyURLs Transport draws sent log_sent]. rewrite Hsent, Htr.
      repeat split; auto. right. exists httpReq. split; [reflexivity|]. now rewrite Hdo.
    + destruct (status =? 200) eqn:Hs; cbn [negb];
        cbn [config proxyURLs Transport draws sent log_sent]; rewrite Hsent, Htr;
        (repeat split; auto; right; exists httpReq; split; [reflexivity|]);
        now rewrite Hdo, Hs.
  - intros httpReq Hreq. unfold streamRequestOf in Hreq. unfold SendStreamRequestRaw.
    destruct (buildBody env c modelID req) as [reqBody|]; [|discriminate].
    destruct (streamURL env c modelID) as [apiURL|]; [|discriminate].
    destruct (createRequest_state env c "POST" apiURL reqBody)
      as (_ & Hsent & Htr & _).
    destruct (createRequest env c "POST" apiURL reqBody) as [[httpReq'|e] c0];
      cbn [fst snd] in *; [|discriminate].
    injection Hreq as ->. unfold Do. rewrite Hsent, Htr.
    destruct (http_Do env (length (sent c)) (Transport c) httpReq) as [msg|status body].
    + eexists _, _. split; [reflexivity|].
      cbn [sent log_sent]. now rewrite Hsent, Htr.
    + destruct (negb (status =? 200)); eexists _, _; (split; [reflexivity|]);
        cbn [sent log_sent]; now rewrite Hsent, Htr.
  - intros maxRetries routes. unfold SendStreamRequestRaw.
    change (buildBody env (with_retry_setup c maxRetries routes) modelID req)
      with (buildBody env c modelID req).
    destruct (buildBody env c modelID req) as [reqBody|e]; [|reflexivity].
    change (streamURL env (with_retry_setup c maxRetries routes) modelID)
      with (streamURL env c modelID).
    destruct (streamURL env c modelID) as [apiURL|]; [|reflexivity].
    assert (Hfst : fst (createRequest env (with_retry_setup c maxRetries routes)
                          "POST" apiURL reqBody)
                   = fst (createRequest env c "POST" apiURL reqBody)).
    { unfold createRequest. cbn [config auth asked with_retry_setup UserAgent].
      destruct (http_NewRequest env "POST" apiURL) as [x|e]; [|reflexivity].
      destruct (auth c) as [a|]; [|reflexivity].
      destruct (auth_initialized a); [|reflexivity].
      destruct (GetToken a (asked c)); reflexivity. }
    destruct (createRequest_state env c "POST" apiURL reqBody)
      as (_ & Hsent & Htr & _).
    destruct (createRequest_state env (with_retry_setup c maxRetries routes)
                "POST" apiURL reqBody) as (_ & Hsent' & Htr' & _).
    destruct (createRequest env (with_retry_setup c maxRetries routes) "POST" apiURL reqBody)
      as [built' c0'].
    destruct (createRequest env c "POST" apiURL reqBody) as [built c0].
    cbn [fst snd] in *. subst built'.
    destruct built as [httpReq|e]; [|reflexivity].
    unfold Do. rewrite Hsent, Htr, Hsent', Htr'. cbn [sent Transport with_retry_setup].
    destruct (http_Do env (length (sent c)) (Transport c) httpReq) as [msg|status body];
      [reflexivity|].
    destruct (negb (status =? 200)); reflexivity.
Qed.

End WithEnv.

(** *** The scenarios, evaluated *)


Lemma stream_raw_single_attempt_witness :
  exists r c',
    SendStreamRequestRaw Fixtures.unavailableNet
      (Fixtures.studioClient 3 Fixtures.twoRoutes) "gemini-pro" (Some Fixtures.helloRequest)
    = Some (r, c') /\
    length (sent c') = 1%nat.
Proof.
  destruct (stream_raw_single_attempt Fixtures.unavailableNet
              (Fixtures.studioClient 3 Fixtures.twoRoutes)
              "gemini-pro" Fixtures.helloRequest) as (_ & H & _).
  edestruct H as (r & c' & Hrun & Hsent); [reflexivity|].
  exists r, c'. split; [exact Hrun|]. rewrite Hsent. reflexivity.
Defined.

(** Without a route the first refusal is final: one attempt, and an error
    that carries no attempt count. *)
Example send_without_routes_one_attempt :
  MaxRetries (config (Fixtures.studioClient 3 [])) = 3 /\
  isNetworkError Fixtures.refusingNet
    (Some "dial tcp 203.0.113.7:443: connect: connection refused") = true /\
  exists c',
    SendRequest Fixtures.refusingNet (Fixtures.studioClient 3 [])
                "gemini-pro" (Some Fixtures.helloRequest)
    = Some (Err ("request failed: "
                   +:+ "dial tcp 203.0.113.7:443: connect: connection refused"), c') /\
    length (sent c') = 1%nat /\
    Contains ("request failed: "
                +:+ "dial tcp 203.0.113.7:443: connect: connection refused")
             "3 attempts" = false.
Proof.
  split; [reflexivity|]. split; [reflexivity|].
  eexists. split; [vm_compute; reflexivity|]. split; reflexivity.
Qed.

(** C10, as stated, fails: with a credential manager attached whose token
    source fails, the raw streaming operation returns the error of the
    request construction and hands nothing to the network. *)
Lemma stream_raw_no_attempt_without_token :
  exists c',
    SendStreamRequestRaw Fixtures.unavailableNet
      (Fixtures.expiredAuthClient 3 Fixtures.twoRoutes) "gemini-pro" (Some Fixtures.helloRequest)
    = Some (Err ("failed to get auth token: failed to get token: "
                   +:+ "oauth2: token expired and refresh token is not set"), c')
    /\ sent c' = [].
Proof. eexists. split; reflexivity. Qed.

Example send_rotates_before_later_attempts :
  option_map (fun out => map fst (sent (snd out)))
    (SendRequest Fixtures.refusingNet (Fixtures.studioClient 3 Fixtures.twoRoutes)
                 "gemini-pro" (Some Fixtures.helloRequest))
  = Some [ Some "http://proxy1.example.com:8080";
           Some "http://proxy1.example.com:8080";
           Some "http://proxy2.example.com:8080" ].
Proof. vm_compute. reflexivity. Qed.

Example send_retries_on_503 :
  option_map fst
    (SendRequest Fixtures.unavailableNet (Fixtures.studioClient 3 Fixtures.twoRoutes)
                 "gemini-pro" (Some Fixtures.helloRequest))
  = Some (Err "request failed after 3 attempts: API request failed with status 503: overloaded").
Proof. vm_compute. reflexivity. Qed.

Example stream_raw_returns_503_at_once :
  option_map fst
    (SendStreamRequestRaw Fixtures.unavailableNet
       (Fixtures.studioClient 3 Fixtures.twoRoutes) "gemini-pro" (Some Fixtures.helloRequest))
  = Some (Err "stream API request failed with status 503: overloaded").
Proof. vm_compute. reflexivity. Qed.

(** The cases of TestGeminiClient_IsNetworkError. *)
Example network_error_lexicon :
  map (isNetworkError Fixtures.refusingNet)
      [ None; Some "connection refused"; Some "connection reset"; Some "timeout";
        Some "dial tcp"; Some "proxy error"; Some "other error" ]
  = [ false; true; true; true; true; true; false ].
Proof. reflexivity. Qed.

(** *** The transient lexicon *)

Lemma occurs_in_transitive (t s u : string) :
  occurs_in t s -> occurs_in s u -> occurs_in t u.
Proof.
  intros (p1 & q1 & ->) (p2 & q2 & ->).
  exists (p2 +:+ p1), (q1 +:+ q2). now rewrite !append_assoc.
Qed.

Lemma isNetworkError_words (env : Env) (e : string) :
  isNetworkError env (Some e) = true <->
  exists w, In w coreLexicon /\ occurs_in w (ToLower (unicode_tables env) e).
Proof.
  unfold isNetworkError. rewrite existsb_exists. split.
  - intros (w & Hin & Hc). apply Contains_occurs_in in Hc.
    destruct (String.eqb w "connection timeout") eqn:E.
    + apply String.eqb_eq in E. subst w. exists "timeout". split; [simpl; tauto|].
      apply (occurs_in_transitive _ "connection timeout"); [|exact Hc].
      exists "connection ", EmptyString. reflexivity.
    + exists w. split; [|exact Hc]. apply String.eqb_neq in E.
      simpl in Hin. simpl. intuition congruence.
  - intros (w & Hin & Hc). exists w. split; [|now apply occurs_in_Contains].
    simpl in Hin. simpl. intuition.
Qed.

(** X9: the transient lexicon.  No error is not a network error.  An error
    is a network error exactly when its text, lower-cased by
    [strings.ToLower], holds one of seven words (the eighth entry of the list,
    "connection timeout", never decides: a text that holds it holds
    "timeout").  On an error text of ASCII bytes the test is blind to letter
    case, and it survives wrapping in ASCII text: an error that is a network
    error stays one under any such prefix and suffix. *)
Theorem network_error_words (env : Env) (e : string) :
  isNetworkError env None = false /\
  (isNetworkError env (Some e) = true <->
   exists w, In w coreLexicon /\ occurs_in w (ToLower (unicode_tables env) e)) /\
  (isASCII e = true ->
   isNetworkError env (Some (ToUpper (unicode_tables env) e))
   = isNetworkError env (Some e) /\
   forall pre post,
     isASCII pre = true -> isASCII post = true ->
     isNetworkError env (Some e) = true ->
     isNetworkError env (Some (pre +:+ e +:+ post)) = true).
Proof.
  split; [reflexivity|]. split; [apply isNetworkError_words|].
  intros Hascii. split.
  - unfold isNetworkError. now rewrite (ToLower_ToUpper _ e Hascii).
  - intros pre post Hpre Hpost H. apply isNetworkError_words in H as (w & Hin & Ho).
    apply isNetworkError_words. exists w. split; [exact Hin|].
    rewrite (ToLower_append _ pre (e +:+ post) Hpre);
      [|now rewrite isASCII_append, Hascii, Hpost].
    rewrite (ToLower_append _ e post Hascii Hpost).
    now apply occurs_in_app_r, occurs_in_app_l.
Qed.

Lemma network_error_words_witness :
  isNetworkError Fixtures.refusingNet (Some "Dial TCP 203.0.113.7:443: I/O Timeout") = true /\
  isNetworkError Fixtures.refusingNet
    (Some ("request failed: " +:+ "Dial TCP 203.0.113.7:443: I/O Timeout"
             +:+ " (attempt 1)")) = true /\
  isNetworkError Fixtures.refusingNet (Some "unexpected EOF") = false.
Proof.
  destruct (network_error_words Fixtures.refusingNet "Dial TCP 203.0.113.7:443: I/O Timeout")
    as (_ & Hwords & Hascii).
  destruct (Hascii eq_refl) as (_ & Hwrap).
  assert (H : isNetworkError Fixtures.refusingNet
                (Some "Dial TCP 203.0.113.7:443: I/O Timeout") = true).
  { apply Hwords. exists "dial tcp". split; [simpl; tauto|].
    exists EmptyString, " 203.0.113.7:443: i/o timeout". reflexivity. }
  split; [exact H|]. split; [|reflexivity].
  apply (Hwrap "request failed: " " (attempt 1)"); [reflexivity | reflexivity | exact H].
Defined.

(** *** Routes *)

Section WithEnv.
Variable env : Env.

Lemma setRandomProxy_routed (c : GeminiClient) :
  routed c -> routed (fst (setRandomProxy env c)).
Proof.
  unfold setRandomProxy, routed. intros H.
  destruct (proxyURLs c) as [|u us] eqn:E; [exact I|].
  destruct (url_Parse env _) as [[]|e]; cbn [fst Transport proxyURLs set_Transport tick_draws].
  - rewrite E. apply nth_In. apply Nat.mod_upper_bound. discriminate.
  - rewrite E. exact H.
Qed.

Lemma setRandomProxy_picks (c : GeminiClient) :
  proxyURLs c <> [] ->
  viaKnownRoute c (Transport (fst (setRandomProxy env c))).
Proof.
  unfold setRandomProxy, viaKnownRoute. intros Hne.
  destruct (proxyURLs c) as [|u us] eqn:E; [congruence|].
  destruct (url_Parse env _) as [[]|e]; cbn [fst Transport set_Transport tick_draws].
  - right. eexists. split; [reflexivity|].
    apply nth_In. apply Nat.mod_upper_bound. discriminate.
  - now left.
Qed.

Lemma RotateProxy_picks (c : GeminiClient) :
  viaKnownRoute c (Transport (fst (RotateProxy env c))).
Proof.
  unfold RotateProxy. destruct (length (proxyURLs c) <=? 1)%nat eqn:E.
  - now left.
  - apply setRandomProxy_picks. intros H. rewrite H in E. discriminate.
Qed.

Lemma viaKnownRoute_routed (c c' : GeminiClient) :
  routed c -> sameSetup c c' -> viaKnownRoute c (Transport c') -> routed c'.
Proof.
  unfold routed, viaKnownRoute. intros H (_ & _ & _ & Hp) [Ht|(u & Ht & Hin)].
  - rewrite Ht, Hp. exact H.
  - rewrite Ht, Hp. exact Hin.
Qed.

Lemma viaKnownRoute_step (c c1 : GeminiClient) (route : option string) :
  sameSetup c c1 -> viaKnownRoute c (Transport c1) ->
  viaKnownRoute c1 route -> viaKnownRoute c route.
Proof.
  unfold viaKnownRoute. intros (_ & _ & _ & Hp) H1 [->|(u & -> & Hin)].
  - exact H1.
  - right. exists u. split; [reflexivity|]. now rewrite <- Hp.
Qed.

(** Whatever the world answers, the loop leaves the configuration, the
    credential manager and the list of routes alone, makes no more
    attempts than it has iterations, and makes each through the transport
    it started with or through a configured proxy. *)
Lemma retryLoop_frame (fuel : nat) :
  forall attempt maxRetries apiURL reqBody isStream lastErr c r c',
    retryLoop env fuel attempt maxRetries apiURL reqBody isStream lastErr c = (r, c') ->
    sameSetup c c' /\ viaKnownRoute c (Transport c') /\
    exists new,
      sent c' = sent c ++ new /\ (length new <= fuel)%nat /\
      Forall (fun entry => viaKnownRoute c (fst entry)) new.
Proof.
  induction fuel as [|fuel IH];
    intros attempt maxRetries apiURL reqBody isStream lastErr c r c' Hrun.
  - cbn [retryLoop] in Hrun. injection Hrun as _ <-.
    split; [apply sameSetup_refl|]. split; [now left|].
    exists []. rewrite app_nil_r. repeat split; [simpl; lia | constructor].
  - cbn [retryLoop] in Hrun.
    set (c1 := if (0 <? attempt) && (1 <? length (proxyURLs c))%nat
               then fst (RotateProxy env c) else c) in *.
    assert (H1 : sameSetup c c1 /\ sent c1 = sent c /\ viaKnownRoute c (Transport c1)).
    { subst c1. destruct ((0 <? attempt) && (1 <? length (proxyURLs c))%nat).
      - destruct (RotateProxy_setup env c) as [Hs He].
        split; [exact Hs|]. split; [exact He|]. apply RotateProxy_picks.
      - split; [apply sameSetup_refl|]. split; [reflexivity | now left]. }
    destruct H1 as (Hs1 & Hsent1 & Hvia1).
    assert (Hcont : forall cx pre le,
               sameSetup c cx -> viaKnownRoute c (Transport cx) ->
               sent cx = sent c ++ pre -> (length pre <= 1)%nat ->
               Forall (fun entry => viaKnownRoute c (fst entry)) pre ->
               retryLoop env fuel (attempt + 1) maxRetries apiURL reqBody isStream le cx
               = (r, c') ->
               sameSetup c c' /\ viaKnownRoute c (Transport c') /\
               exists new, sent c' = sent c ++ new /\ (length new <= S fuel)%nat /\
                           Forall (fun entry => viaKnownRoute c (fst entry)) new).
    { intros cx pre le Hsx Hvx Hpre Hlen Hvpre H.
      destruct (IH _ _ _ _ _ _ _ _ _ H) as (Hs & Hv & new & Hn & Hl & Hall).
      split; [now apply (sameSetup_trans _ cx)|].
      split; [now apply (viaKnownRoute_step c cx)|].
      exists (pre ++ new). rewrite Hn, Hpre, <- app_assoc.
      split; [reflexivity|]. split; [rewrite length_app; lia|].
      apply Forall_app. split; [exact Hvpre|].
      eapply Forall_impl; [exact Hall|]. intros entry. now apply (viaKnownRoute_step c cx). }
    destruct (createRequest_state env c1 "POST" apiURL reqBody)
      as (Hs1' & Hsent1' & Htr1' & _).
    destruct (createRequest env c1 "POST" apiURL reqBody) as [built c1'].
    cbn [fst snd] in *.
    pose proof (sameSetup_trans _ _ _ Hs1 Hs1') as Hsx.
    assert (Hvia1' : viaKnownRoute c (Transport c1')) by (rewrite Htr1'; exact Hvia1).
    destruct built as [httpReq|e].
    2:{ apply (Hcont c1' [] (Some e) Hsx Hvia1'); [| simpl; lia | constructor | exact Hrun].
        now rewrite app_nil_r, Hsent1', Hsent1. }
    unfold Do in Hrun. set (c2 := log_sent c1' httpReq) in *.
    assert (Hs2 : sameSetup c c2)
      by (apply (sameSetup_trans _ c1'); [exact Hsx | apply log_sent_setup]).
    assert (Hsent2 : sent c2 = sent c ++ [(Transport c1', httpReq)])
      by (subst c2; cbn [sent log_sent]; now rewrite Hsent1', Hsent1).
    assert (Hfin : forall x, (x, c2) = (r, c') ->
               sameSetup c c' /\ viaKnownRoute c (Transport c') /\
               exists new, sent c' = sent c ++ new /\ (length new <= S fuel)%nat /\
                           Forall (fun entry => viaKnownRoute c (fst entry)) new).
    { intros x [= _ <-]. split; [exact Hs2|]. split; [exact Hvia1'|].
      exists [(Transport c1', httpReq)].
      split; [exact Hsent2|]. split; [simpl; lia|].
      constructor; [exact Hvia1' | constructor]. }
    assert (Hcont2 : forall le,
               retryLoop env fuel (attempt + 1) maxRetries apiURL reqBody isStream le c2
               = (r, c') ->
               sameSetup c c' /\ viaKnownRoute c (Transport c') /\
               exists new, sent c' = sent c ++ new /\ (length new <= S fuel)%nat /\
                           Forall (fun entry => viaKnownRoute c (fst entry)) new).
    { intros le H.
      apply (Hcont c2 [(Transport c1', httpReq)] le Hs2 Hvia1' Hsent2);
        [simpl; lia | constructor; [exact Hvia1' | constructor] | exact H]. }
    destruct (http_Do env (length (sent c1')) (Transport c1') httpReq) as [msg|status body].
    + destruct ((1 <? length (proxyURLs c2))%nat && isNetworkError env (Some msg));
        [(eapply Hcont2; exact Hrun) | (eapply Hfin; exact Hrun)].
    + destruct isStream; [(eapply Hfin; exact Hrun)|].
      destruct (negb (status =? 200)).
      * destruct (((status =? 429) || (500 <=? status)) && (1 <? length (proxyURLs c2))%nat);
          [(eapply Hcont2; exact Hrun) | (eapply Hfin; exact Hrun)].
      * destruct (String.eqb (APIMode (config c2)) CodeAssist).
        -- destruct (json_Decode_codeAssist env body) as [[resp|]|e];
             [(eapply Hfin; exact Hrun) | (eapply Hfin; exact Hrun) | (eapply Hcont2; exact Hrun)].
        -- destruct (json_Decode env body) as [resp|e];
             [(eapply Hfin; exact Hrun) | (eapply Hcont2; exact Hrun)].
Qed.

Lemma effectiveMaxRetries_pos (c : GeminiClient) : 1 <= effectiveMaxRetries c.
Proof.
  unfold effectiveMaxRetries. destruct (MaxRetries (config c) <=? 0) eqn:E; [lia|].
  apply Z.leb_gt in E. lia.
Qed.

(** X10: the bound on the attempts of Send.  Whatever the world answers, a
    Send that returns has made at most max-retries HTTP attempts (at most 3
    when the configured value is zero or negative), each through the
    transport that was active when it started or through a configured
    proxy, and has left the configuration, the credential manager and the
    list of proxies as they were. *)
Theorem send_attempts_bounded (c : GeminiClient) (modelID : string) (req : GeminiRequest)
    (r : result GeminiResponse) (c' : GeminiClient) :
  SendRequest env c modelID (Some req) = Some (r, c') ->
  sameSetup c c' /\
  exists new,
    sent c' = sent c ++ new /\
    Z.of_nat (length new) <= (if MaxRetries (config c) <=? 0 then 3
                              else MaxRetries (config c)) /\
    Forall (fun entry => viaKnownRoute c (fst entry)) new.
Proof.
  unfold SendRequest, sendRequestWithRetry. intros H.
  destruct (buildBody env c modelID req) as [reqBody|e].
  2:{ injection H as _ <-. split; [apply sameSetup_refl|]. exists [].
      rewrite app_nil_r. split; [reflexivity|]. split; [|constructor].
      pose proof (effectiveMaxRetries_pos c) as Hp. unfold effectiveMaxRetries in Hp.
      simpl. lia. }
  destruct (buildAPIURL c modelID "generateContent") as [apiURL|]; [|discriminate].
  injection H as H.
  destruct (retryLoop_frame _ _ _ _ _ _ _ _ _ _ H) as (Hs & _ & new & Hn & Hl & Hall).
  split; [exact Hs|]. exists new. split; [exact Hn|]. split; [|exact Hall].
  pose proof (effectiveMaxRetries_pos c) as Hp. unfold effectiveMaxRetries in *. lia.
Qed.

(** X11: when Send panics.  Send dereferences a nil pointer in two cases
    and in no other: the request is nil (the validation it starts with
    ranges over the request's contents), or the request is not nil, its
    body has been serialised, the API mode is Vertex AI and no credential
    manager is attached (the URL needs the manager's project).  In every
    other case it returns. *)
Theorem send_panic_cases (c : GeminiClient) (modelID : string)
    (req : option GeminiRequest) :
  SendRequest env c modelID req = None <->
  req = None \/
  exists r,
    req = Some r /\
    (exists reqBody, buildBody env c modelID r = Ok reqBody) /\
    APIMode (config c) = VertexAI /\ auth c = None.
Proof.
  destruct req as [r|].
  2:{ split; [now left | reflexivity]. }
  unfold SendRequest, sendRequestWithRetry, buildAPIURL.
  destruct (buildBody env c modelID r) as [reqBody|e] eqn:Eb.
  2:{ split; [discriminate|]. intros [H|(r0 & Hr & (b & Hb) & _)]; [discriminate|].
      injection Hr as <-. rewrite Eb in Hb. discriminate. }
  destruct (String.eqb (APIMode (config c)) CodeAssist) eqn:Eca.
  { apply String.eqb_eq in Eca. split; [discriminate|].
    intros [H|(r0 & _ & _ & Hv & _)]; [discriminate|]. rewrite Hv in Eca. discriminate. }
  destruct (String.eqb (APIMode (config c)) VertexAI) eqn:Ev.
  - apply String.eqb_eq in Ev. destruct (auth c) as [a|].
    + split; [discriminate|]. intros [H|(r0 & _ & _ & _ & H)]; discriminate.
    + split; [|reflexivity]. intros _. right. exists r.
      split; [reflexivity|]. split; [now exists reqBody | auto].
  - apply String.eqb_neq in Ev. split; [discriminate|].
    intros [H|(r0 & _ & _ & Hv & _)]; [discriminate | contradiction].
Qed.

(** The streaming operation starts with the same validation. *)
Lemma stream_raw_nil_request (c : GeminiClient) (modelID : string) :
  SendStreamRequestRaw env c modelID None = None.
Proof. reflexivity. Qed.

(** *** The proxy setters *)

Lemma validProxies_from (proxyURLs : list string) :
  forall valid,
    fold_left (fun valid proxyURL =>
                 match url_Parse env proxyURL with
                 | Err _ => valid
                 | Ok _ => valid ++ [proxyURL]
                 end)
              proxyURLs valid
    = valid ++ List.filter (parses env) proxyURLs.
Proof.
  induction proxyURLs as [|u us IH]; intros valid; cbn [fold_left List.filter];
    [now rewrite app_nil_r|].
  rewrite IH. unfold parses at 2. destruct (url_Parse env u); [|reflexivity].
  now rewrite <- app_assoc.
Qed.

Lemma validProxies_filter (proxyURLs : list string) :
  validProxies env proxyURLs = List.filter (parses env) proxyURLs.
Proof. unfold validProxies. now rewrite validProxies_from. Qed.

(** A draw among proxies that all parse installs the proxy drawn. *)
Lemma setRandomProxy_valid (c : GeminiClient) :
  proxyURLs c <> [] -> Forall (fun u => parses env u = true) (proxyURLs c) ->
  exists u,
    In u (proxyURLs c) /\
    setRandomProxy env c = (set_Transport (tick_draws c) (Some u), None).
Proof.
  intros Hne Hall. unfold setRandomProxy.
  destruct (proxyURLs c) as [|u0 us] eqn:E; [congruence|].
  set (i := (rand_draw env (draws c) mod length (u0 :: us))%nat).
  assert (Hin : In (nth i (u0 :: us) EmptyString) (u0 :: us)).
  { apply nth_In. apply Nat.mod_upper_bound. discriminate. }
  exists (nth i (u0 :: us) EmptyString). split; [exact Hin|].
  rewrite List.Forall_forall in Hall. specialize (Hall _ Hin). unfold parses in Hall.
  destruct (url_Parse env (nth i (u0 :: us) EmptyString)) as [[]|]; [reflexivity | discriminate].
Qed.

(** X12: the proxy list setter.  An empty list clears the proxies and the
    transport.  Otherwise the URLs that do not parse are dropped and the
    others kept in their order: when none is left the call fails with "no
    valid proxy URLs provided" and changes nothing, the proxies set before
    staying in use; when some are left they become the proxy list, one of
    them is drawn as the transport with a single draw of the random
    source, and the call succeeds. *)
Theorem SetProxyList_outcome (c : GeminiClient) (proxyURLs : list string) :
  let valid := List.filter (parses env) proxyURLs in
  let c' := fst (SetProxyList env c proxyURLs) in
  let err := snd (SetProxyList env c proxyURLs) in
  match proxyURLs, valid with
  | [], _ => err = None /\ Client.proxyURLs c' = [] /\ Transport c' = None
  | _ :: _, [] => err = Some "no valid proxy URLs provided" /\ c' = c
  | _ :: _, _ :: _ =>
      err = None /\ Client.proxyURLs c' = valid /\
      (exists u, Transport c' = Some u /\ In u valid) /\
      draws c' = S (draws c)
  end
  /\ config c' = config c /\ auth c' = auth c /\ sent c' = sent c.
Proof.
  intros valid c' err. subst c' err. unfold SetProxyList.
  destruct proxyURLs as [|u0 us]; [repeat split|].
  rewrite validProxies_filter. fold valid.
  destruct valid as [|v vs] eqn:Ev; [repeat split|].
  destruct (setRandomProxy_valid (with_proxyURLs c (v :: vs))) as (u & Hin & Hset).
  - discriminate.
  - cbn [Client.proxyURLs with_proxyURLs]. rewrite <- Ev. unfold valid.
    apply List.Forall_forall. intros x Hx. now apply filter_In in Hx.
  - rewrite Hset. cbn. repeat split. exists u. split; [reflexivity | exact Hin].
Qed.

Lemma SetProxy_routed (c : GeminiClient) (proxyURL : string) :
  routed c -> routed (fst (SetProxy env c proxyURL)).
Proof.
  intros H. unfold SetProxy. destruct (String.eqb proxyURL EmptyString); [exact I|].
  destruct (url_Parse env proxyURL); [|exact H]. cbn. auto.
Qed.

Lemma SetProxyList_routed (c : GeminiClient) (proxyURLs : list string) :
  routed c -> routed (fst (SetProxyList env c proxyURLs)).
Proof.
  intros H. unfold SetProxyList. destruct proxyURLs as [|u0 us]; [exact I|].
  rewrite validProxies_filter.
  destruct (List.filter (parses env) (u0 :: us)) as [|v vs] eqn:Ev; [exact H|].
  destruct (setRandomProxy_valid (with_proxyURLs c (v :: vs))) as (u & Hin & Hset).
  - discriminate.
  - cbn [Client.proxyURLs with_proxyURLs]. rewrite <- Ev.
    apply List.Forall_forall. intros x Hx. now apply filter_In in Hx.
  - rewrite Hset. exact Hin.
Qed.

Lemma RotateProxy_routed (c : GeminiClient) :
  routed c -> routed (fst (RotateProxy env c)).
Proof.
  intros H. unfold RotateProxy. destruct (length (proxyURLs c) <=? 1)%nat; [exact H|].
  now apply setRandomProxy_routed.
Qed.

Lemma SendRequest_routed (c c' : GeminiClient) (modelID : string) (req : GeminiRequest)
    (r : result GeminiResponse) :
  routed c -> SendRequest env c modelID (Some req) = Some (r, c') -> routed c'.
Proof.
  unfold SendRequest, sendRequestWithRetry. intros Hr H.
  destruct (buildBody env c modelID req) as [reqBody|e]; [|now injection H as _ <-].
  destruct (buildAPIURL c modelID "generateContent") as [apiURL|]; [|discriminate].
  injection H as H.
  destruct (retryLoop_frame _ _ _ _ _ _ _ _ _ _ H) as (Hs & Hv & _).
  now apply (viaKnownRoute_routed c).
Qed.

Lemma SendStreamRequestRaw_routed (c c' : GeminiClient) (modelID : string)
    (req : GeminiRequest) (r : result StreamHandle) :
  routed c -> SendStreamRequestRaw env c modelID (Some req) = Some (r, c') -> routed c'.
Proof.
  unfold SendStreamRequestRaw. intros Hr H.
  destruct (buildBody env c modelID req) as [reqBody|e]; [|now injection H as _ <-].
  destruct (streamURL env c modelID) as [apiURL|]; [|discriminate].
  destruct (createRequest_state env c "POST" apiURL reqBody)
    as ((_ & _ & _ & Hp) & _ & Htr & _).
  destruct (createRequest env c "POST" apiURL reqBody) as [built c0]. cbn [snd] in *.
  assert (Hr0 : routed c0) by (unfold routed in *; now rewrite Htr, Hp).
  destruct built as [httpReq|e]; [|now injection H as _ <-].
  unfold Do in H.
  destruct (http_Do env (length (sent c0)) (Transport c0) httpReq) as [msg|status body].
  - injection H as _ <-. exact Hr0.
  - destruct (negb (status =? 200)); injection H as _ <-; exact Hr0.
Qed.

Lemma perform_routed (c c' : GeminiClient) (op : Operation) :
  routed c -> perform env c op = Some c' -> routed c'.
Proof.
  intros Hr H. destruct op as [u|l| | |loc|m req|m req]; cbn [perform] in H.
  - injection H as <-. now apply SetProxy_routed.
  - injection H as <-. now apply SetProxyList_routed.
  - injection H as <-. now apply RotateProxy_routed.
  - injection H as <-. exact Hr.
  - injection H as <-. exact Hr.
  - destruct req as [req|]; [|discriminate].
    destruct (SendRequest env c m (Some req)) as [[r c1]|] eqn:E; [|discriminate].
    injection H as <-. now apply (SendRequest_routed c c1 m req r).
  - destruct req as [req|]; [|discriminate].
    destruct (SendStreamRequestRaw env c m (Some req)) as [[r c1]|] eqn:E; [|discriminate].
    injection H as <-. now apply (SendStreamRequestRaw_routed c c1 m req r).
Qed.

Lemma NewGeminiClient_routed (cfg : option ConfigFile.Config)
    (googleAuth : option AuthHandle) :
  routed (NewGeminiClient env cfg googleAuth).
Proof.
  unfold NewGeminiClient.
  match goal with |- routed (if _ then fst (setRandomProxy env ?c0) else _) =>
    assert (H0 : routed c0) by exact I;
    destruct (0 <? length (proxyURLs c0))%nat; [now apply setRandomProxy_routed | exact H0]
  end.
Qed.

(** X13: the active route is always a known one.  A client as
    [NewGeminiClient] builds it, after any sequence of proxy settings,
    rotations, mode switches, Sends and raw streaming requests, uses the
    direct transport or a proxy of its current proxy list. *)
Theorem routes_invariant (cfg : option ConfigFile.Config) (googleAuth : option AuthHandle)
    (ops : list Operation) (c' : GeminiClient) :
  performAll env (NewGeminiClient env cfg googleAuth) ops = Some c' -> routed c'.
Proof.
  pose proof (NewGeminiClient_routed cfg googleAuth) as H0.
  generalize dependent (NewGeminiClient env cfg googleAuth). intros c H0.
  revert c H0. induction ops as [|op ops IH]; intros c H0 H; cbn [performAll] in H.
  - now injection H as <-.
  - destruct (perform env c op) as [c1|] eqn:E; [|discriminate].
    apply (IH c1); [|exact H]. now apply (perform_routed c c1 op).
Qed.

(** *** Send: the attempts that go on *)

Section Exhaust.
Variables (apiURL reqBody : string) (maxRetries : Z) (e0 : string) (delta : nat).
Variable Inv : GeminiClient -> Prop.
Hypothesis Hstep :
  forall fuel attempt lastErr c,
    Inv c ->
    exists c2,
      retryLoop env (S fuel) attempt maxRetries apiURL reqBody false lastErr c
      = retryLoop env fuel (attempt + 1) maxRetries apiURL reqBody false (Some e0) c2 /\
      Inv c2 /\ length (sent c2) = (length (sent c) + delta)%nat.

(** When every iteration goes on with the same error, the loop runs to
    exhaustion. *)
Lemma retryLoop_exhausts (fuel : nat) :
  forall attempt lastErr c,
    Inv c ->
    exists c',
      retryLoop env fuel attempt maxRetries apiURL reqBody false lastErr c
      = (Err (exhaustedPrefix maxRetries
                +:+ fmt_err (match fuel with O => lastErr | S _ => Some e0 end)), c') /\
      Inv c' /\ length (sent c') = (length (sent c) + fuel * delta)%nat.
Proof.
  induction fuel as [|fuel IH]; intros attempt lastErr c Hc.
  - exists c. split; [|split; [exact Hc | simpl; lia]].
    cbn [retryLoop]. now rewrite exhaustedPrefix_app.
  - destruct (Hstep fuel attempt lastErr c Hc) as (c2 & Hrun & Hc2 & Hlen).
    destruct (IH (attempt + 1) (Some e0) c2 Hc2) as (c' & Hrun' & Hc' & Hlen').
    exists c'. rewrite Hrun, Hrun'. split; [|split; [exact Hc' | simpl; lia]].
    destruct fuel; reflexivity.
Qed.
End Exhaust.

Lemma effectiveMaxRetries_given (c : GeminiClient) (N : Z) :
  MaxRetries (config c) = N -> 1 <= N -> effectiveMaxRetries c = N.
Proof.
  intros HN Hpos. unfold effectiveMaxRetries. rewrite HN.
  destruct (N <=? 0) eqn:E; [apply Z.leb_le in E; lia | reflexivity].
Qed.

Lemma sendRequestOf_parts (c : GeminiClient) (modelID : string) (req : GeminiRequest)
    (httpReq : HttpRequest) :
  sendRequestOf env c modelID req = Some httpReq ->
  exists reqBody apiURL,
    buildBody env c modelID req = Ok reqBody /\
    buildAPIURL c modelID "generateContent" = Some apiURL /\
    fst (createRequest env c "POST" apiURL reqBody) = Ok httpReq.
Proof.
  unfold sendRequestOf. intros H.
  destruct (buildBody env c modelID req) as [reqBody|]; [|discriminate].
  destruct (buildAPIURL c modelID "generateContent") as [apiURL|]; [|discriminate].
  destruct (fst (createRequest env c "POST" apiURL reqBody)) as [h|] eqn:Hc; [|discriminate].
  injection H as ->. exists reqBody, apiURL. auto.
Qed.

(** The request first created, with the state it leaves. *)
Lemma createRequest_first (c : GeminiClient) (method url body : string)
    (httpReq : HttpRequest) :
  fst (createRequest env c method url body) = Ok httpReq ->
  createRequest env c method url body = (Ok httpReq, afterAsk c).
Proof.
  intros H.
  destruct (createRequest_state env c method url body) as (_ & _ & _ & _ & _ & Hstate).
  specialize (Hstate httpReq H).
  destruct (createRequest env c method url body) as [built c1]. cbn [fst snd] in *.
  now subst.
Qed.

Lemma afterAsk_state (c : GeminiClient) :
  sent (afterAsk c) = sent c /\ Transport (afterAsk c) = Transport c /\
  proxyURLs (afterAsk c) = proxyURLs c /\ config (afterAsk c) = config c.
Proof. unfold afterAsk. destruct (asksToken c); repeat split. Qed.

(** While the token source fails, an iteration sends nothing and goes on
    with the failure as last error. *)
Lemma retryLoop_without_token (c : GeminiClient) (apiURL reqBody : string)
    (maxRetries : Z) (e : nat -> string) :
  http_NewRequest env "POST" apiURL = Ok tt ->
  tokenUnavailable c e ->
  forall fuel attempt lastErr c1 j,
    sameSetup c c1 -> asked c1 = (asked c + j)%nat ->
    exists c',
      retryLoop env fuel attempt maxRetries apiURL reqBody false lastErr c1
      = (Err (exhaustedPrefix maxRetries
                +:+ fmt_err (match fuel with
                             | O => lastErr
                             | S n => Some ("failed to get auth token: failed to get token: "
                                              +:+ e (j + n)%nat)
                             end)), c') /\
      sent c' = sent c1 /\ sameSetup c c' /\ asked c' = (asked c1 + fuel)%nat.
Proof.
  intros Hnew (a & Ha & Hinit & Htok).
  induction fuel as [|fuel IH]; intros attempt lastErr c1 j Hc1 Hj.
  - exists c1. split; [|split; [reflexivity | split; [exact Hc1 | lia]]].
    cbn [retryLoop]. now rewrite exhaustedPrefix_app.
  - cbn [retryLoop].
    destruct (rotated_state env attempt c1) as (Hs1 & Hsent1 & Hasked1).
    set (c0 := if (0 <? attempt) && (1 <? length (proxyURLs c1))%nat
               then fst (RotateProxy env c1) else c1) in *.
    pose proof (sameSetup_trans _ _ _ Hc1 Hs1) as Hc0.
    assert (Hcreate : createRequest env c0 "POST" apiURL reqBody
                      = (Err ("failed to get auth token: failed to get token: " +:+ e j),
                         tick_asked c0)).
    { unfold createRequest, GetToken. destruct Hc0 as (_ & Hauth & _).
      now rewrite Hnew, Hauth, Ha, Hinit, Hasked1, Hj, Htok. }
    rewrite Hcreate.
    destruct (IH (attempt + 1)
                 (Some ("failed to get auth token: failed to get token: " +:+ e j))
                 (tick_asked c0) (S j)) as (c' & Hrun & Hsent & Hs & Hasked).
    + apply (sameSetup_trans _ _ _ Hc0). apply tick_asked_setup.
    + cbn [asked tick_asked]. rewrite Hasked1, Hj. lia.
    + exists c'. rewrite Hrun. split; [|split; [|split; [exact Hs|]]].
      * destruct fuel as [|n]; [now rewrite Nat.add_0_r|].
        now replace (S j + n)%nat with (j + S n)%nat by lia.
      * rewrite Hsent. cbn [sent tick_asked]. exact Hsent1.
      * rewrite Hasked. cbn [asked tick_asked]. rewrite Hasked1. lia.
Qed.

(** X14: Send without a token.  When the credential manager is attached
    and initialized but its token source fails every time it is asked
    during the call, no request can be given its credential: Send asks
    once per iteration, hands nothing to the network, and after running
    through all its iterations returns the last token error behind
    "request failed after N attempts: ", N being the effective retry
    bound. *)
Theorem send_without_token (c : GeminiClient) (modelID : string) (req : GeminiRequest)
    (reqBody apiURL : string) (e : nat -> string) :
  buildBody env c modelID req = Ok reqBody ->
  buildAPIURL c modelID "generateContent" = Some apiURL ->
  http_NewRequest env "POST" apiURL = Ok tt ->
  tokenUnavailable c e ->
  let N := if MaxRetries (config c) <=? 0 then 3 else MaxRetries (config c) in
  exists c',
    SendRequest env c modelID (Some req)
    = Some (Err ("request failed after " +:+ fmt_d N +:+ " attempts: "
                   +:+ "failed to get auth token: failed to get token: "
                   +:+ e (Z.to_nat N - 1)%nat), c') /\
    sent c' = sent c /\ sameSetup c c' /\
    Z.of_nat (asked c') = Z.of_nat (asked c) + N.
Proof.
  intros Hbody Hurl Hnew Htok N.
  unfold SendRequest, sendRequestWithRetry. rewrite Hbody, Hurl.
  change (effectiveMaxRetries c) with N.
  assert (Hpos : 1 <= N) by apply effectiveMaxRetries_pos.
  destruct (retryLoop_without_token c apiURL reqBody N e Hnew Htok
              (Z.to_nat N) 0 None c 0%nat (sameSetup_refl c) ltac:(lia))
    as (c' & Hrun & Hsent & Hs & Hasked).
  exists c'. split; [|split; [exact Hsent | split; [exact Hs | lia]]].
  rewrite Hrun. destruct (Z.to_nat N) as [|n] eqn:En; [lia|].
  rewrite exhaustedPrefix_app. cbn [fmt_err Nat.add].
  now replace (S n - 1)%nat with n by lia.
Qed.

(** X15: Send and the status codes.  When the token source answers
    whenever it is asked and every attempt is answered with the same
    status other than 200: if the status is 429 or at least 500
    and two proxies or more are configured, Send makes exactly N attempts
    and returns the status error behind "request failed after N attempts: ";
    in every other case the first answer is final, and Send returns
    the status error alone after a single attempt. *)
Theorem send_every_attempt_status (c : GeminiClient) (modelID : string)
    (req : GeminiRequest) (N : Z) (httpReq : HttpRequest) (status : Z) (body : string) :
  MaxRetries (config c) = N -> 1 <= N ->
  sendRequestOf env c modelID req = Some httpReq ->
  tokenGranted c ->
  (forall k proxy r, sameButToken httpReq r ->
                     http_Do env k proxy r = Response status body) ->
  status <> 200 ->
  let statusError := "API request failed with status " +:+ fmt_d status +:+ ": " +:+ body in
  exists c',
    if ((status =? 429) || (500 <=? status)) && (2 <=? length (proxyURLs c))%nat
    then
      SendRequest env c modelID (Some req)
      = Some (Err ("request failed after " +:+ fmt_d N +:+ " attempts: " +:+ statusError),
              c') /\
      Z.of_nat (length (sent c')) = Z.of_nat (length (sent c)) + N
    else
      SendRequest env c modelID (Some req) = Some (Err statusError, c') /\
      sent c' = sent c ++ [(Transport c, httpReq)].
Proof.
  intros HN Hpos Hreq Htoken Hdo Hs statusError.
  destruct (sendRequestOf_parts c modelID req httpReq Hreq)
    as (reqBody & apiURL & Hbody & Hurl & Hcreate).
  unfold SendRequest, sendRequestWithRetry. rewrite Hbody, Hurl.
  rewrite (effectiveMaxRetries_given c N HN Hpos).
  assert (Hne : negb (status =? 200) = true).
  { destruct (status =? 200) eqn:E; [apply Z.eqb_eq in E; contradiction | reflexivity]. }
  destruct (((status =? 429) || (500 <=? status)) && (2 <=? length (proxyURLs c))%nat)
    eqn:Hretry.
  - apply andb_true_iff in Hretry as [Hcode Hroutes]. apply Nat.leb_le in Hroutes.
    assert (Hstep : forall fuel attempt lastErr c1,
               sameSetup c c1 ->
               exists c2,
                 retryLoop env (S fuel) attempt N apiURL reqBody false lastErr c1
                 = retryLoop env fuel (attempt + 1) N apiURL reqBody false
                             (Some statusError) c2 /\
                 sameSetup c c2 /\ length (sent c2) = (length (sent c1) + 1)%nat).
    { intros fuel attempt lastErr c1 Hc1. cbn [retryLoop].
      destruct (rotated_state env attempt c1) as (Hs1 & He & _).
      pose proof (sameSetup_trans _ _ _ Hc1 Hs1) as Hc2.
      destruct (createRequest_granted env c _ _ _ _ httpReq Hcreate Htoken Hc2)
        as (req1 & Hbuilt & Hsame).
      destruct (afterAsk_state
                  (if (0 <? attempt) && (1 <? length (proxyURLs c1))%nat
                   then fst (RotateProxy env c1) else c1)) as (Hsa & Hta & Hpa & _).
      eexists. split; [|split].
      - rewrite Hbuilt. unfold Do. rewrite (Hdo _ _ req1 Hsame), Hne, Hcode.
        cbn [proxyURLs log_sent]. rewrite Hpa.
        destruct Hc2 as (_ & _ & _ & ->).
        assert (Hlt : (1 <? length (proxyURLs c))%nat = true) by (apply Nat.ltb_lt; lia).
        rewrite Hlt. reflexivity.
      - apply (sameSetup_trans _ _ _ Hc2).
        apply (sameSetup_trans _ _ _ (afterAsk_setup _)). apply log_sent_setup.
      - cbn [sent log_sent]. rewrite length_app, Hsa, He. reflexivity. }
    destruct (retryLoop_exhausts apiURL reqBody N statusError 1 (sameSetup c) Hstep
                (Z.to_nat N) 0 None c (sameSetup_refl c)) as (c' & Hrun & _ & Hlen).
    exists c'. destruct (Z.to_nat N) as [|n] eqn:En; [lia|]. rewrite <- En in *.
    split; [|lia]. rewrite Hrun, exhaustedPrefix_app. reflexivity.
  - destruct (Z.to_nat N) as [|n] eqn:En; [lia|]. cbn [retryLoop].
    rewrite Z.ltb_irrefl. cbn [andb]. rewrite (createRequest_first c _ _ _ _ Hcreate).
    destruct (afterAsk_state c) as (Hsa & Hta & Hpa & _).
    unfold Do. rewrite Hsa, Hta, (Hdo _ _ httpReq ltac:(repeat split)), Hne.
    cbn [proxyURLs log_sent]. rewrite Hpa.
    assert (Hno : ((status =? 429) || (500 <=? status))
                  && (1 <? length (proxyURLs c))%nat = false).
    { apply andb_false_iff in Hretry as [H|H]; apply andb_false_iff; [now left | right].
      apply Nat.leb_gt in H. apply Nat.ltb_ge. lia. }
    rewrite Hno. eexists. split; [reflexivity|].
    cbn [sent log_sent]. now rewrite Hsa, Hta.
Qed.

(** X16: Send and an answer that does not decode.  When the token source
    answers whenever it is asked and every attempt is answered 200 with a
    body the JSON decoder rejects, Send tries again whatever the number
    of proxies (with fewer than two, through the same route): it makes
    exactly N attempts and returns the decoding error behind "request
    failed after N attempts: ". *)
Theorem send_undecodable_answers (c : GeminiClient) (modelID : string)
    (req : GeminiRequest) (N : Z) (httpReq : HttpRequest) (body e : string) :
  MaxRetries (config c) = N -> 1 <= N ->
  sendRequestOf env c modelID req = Some httpReq ->
  tokenGranted c ->
  (forall k proxy r, sameButToken httpReq r ->
                     http_Do env k proxy r = Response 200 body) ->
  decodeFailure env c body = Some e ->
  exists c',
    SendRequest env c modelID (Some req)
    = Some (Err ("request failed after " +:+ fmt_d N +:+ " attempts: " +:+ e), c') /\
    Z.of_nat (length (sent c')) = Z.of_nat (length (sent c)) + N /\
    ((length (proxyURLs c) <= 1)%nat -> Transport c' = Transport c).
Proof.
  intros HN Hpos Hreq Htoken Hdo Hdec.
  destruct (sendRequestOf_parts c modelID req httpReq Hreq)
    as (reqBody & apiURL & Hbody & Hurl & Hcreate).
  unfold SendRequest, sendRequestWithRetry. rewrite Hbody, Hurl.
  rewrite (effectiveMaxRetries_given c N HN Hpos).
  set (Inv := fun c1 => sameSetup c c1 /\
                        ((length (proxyURLs c) <= 1)%nat -> Transport c1 = Transport c)).
  assert (Hstep : forall fuel attempt lastErr c1,
             Inv c1 ->
             exists c2,
               retryLoop env (S fuel) attempt N apiURL reqBody false lastErr c1
               = retryLoop env fuel (attempt + 1) N apiURL reqBody false (Some e) c2 /\
               Inv c2 /\ length (sent c2) = (length (sent c1) + 1)%nat).
  { intros fuel attempt lastErr c1 [Hc1 Ht1]. cbn [retryLoop].
    destruct (rotated_state env attempt c1) as (Hs1 & He & _).
    pose proof (sameSetup_trans _ _ _ Hc1 Hs1) as Hc2.
    destruct (createRequest_granted env c _ _ _ _ httpReq Hcreate Htoken Hc2)
      as (req1 & Hbuilt & Hsame).
    destruct (afterAsk_state
                (if (0 <? attempt) && (1 <? length (proxyURLs c1))%nat
                 then fst (RotateProxy env c1) else c1)) as (Hsa & Hta & Hpa & Hca).
    eexists. split; [|split; [split|]].
    - rewrite Hbuilt. unfold Do. rewrite (Hdo _ _ req1 Hsame).
      cbn [Z.eqb negb Pos.eqb]. cbn [config log_sent]. rewrite Hca.
      unfold decodeFailure in Hdec. destruct Hc2 as (-> & _ & _ & _).
      destruct (String.eqb (APIMode (config c)) CodeAssist).
      + destruct (json_Decode_codeAssist env body) as [r|e']; [discriminate|].
        injection Hdec as <-. reflexivity.
      + destruct (json_Decode env body) as [r|e']; [discriminate|].
        injection Hdec as <-. reflexivity.
    - apply (sameSetup_trans _ _ _ Hc2).
      apply (sameSetup_trans _ _ _ (afterAsk_setup _)). apply log_sent_setup.
    - intros Hle. cbn [Transport log_sent]. rewrite Hta, <- (Ht1 Hle).
      destruct Hc1 as (_ & _ & _ & Hp).
      assert (Hlt : (1 <? length (proxyURLs c1))%nat = false)
        by (rewrite Hp; apply Nat.ltb_ge; lia).
      now rewrite Hlt, andb_false_r.
    - cbn [sent log_sent]. rewrite length_app, Hsa, He. reflexivity. }
  destruct (retryLoop_exhausts apiURL reqBody N e 1 Inv Hstep (Z.to_nat N) 0 None c)
    as (c' & Hrun & [_ Ht] & Hlen).
  { split; [apply sameSetup_refl | reflexivity]. }
  exists c'. destruct (Z.to_nat N) as [|n] eqn:En; [lia|]. rewrite <- En in *.
  split; [|split; [lia | exact Ht]]. rewrite Hrun, exhaustedPrefix_app. reflexivity.
Qed.

End WithEnv.

(** *** Further scenarios, evaluated *)

Lemma send_panic_cases_witness :
  SendRequest Fixtures.refusingNet (Fixtures.studioClient 3 Fixtures.twoRoutes)
    "gemini-pro" None = None /\
  SendRequest Fixtures.refusingNet (Fixtures.studioClient 3 Fixtures.twoRoutes)
    "gemini-pro" (Some Fixtures.helloRequest) <> None.
Proof.
  split.
  - apply send_panic_cases. now left.
  - intros H. apply send_panic_cases in H as [H|(r & _ & _ & H & _)]; discriminate.
Defined.

Lemma send_attempts_bounded_witness :
  exists r c',
    SendRequest Fixtures.unavailableNet (Fixtures.studioClient 3 Fixtures.twoRoutes)
                "gemini-pro" (Some Fixtures.helloRequest) = Some (r, c') /\
    (length (sent c') <= 3)%nat.
Proof.
  destruct (SendRequest Fixtures.unavailableNet (Fixtures.studioClient 3 Fixtures.twoRoutes)
                        "gemini-pro" (Some Fixtures.helloRequest)) as [[r c']|] eqn:E;
    [|vm_compute in E; discriminate].
  exists r, c'. split; [reflexivity|].
  destruct (send_attempts_bounded Fixtures.unavailableNet _ _ _ r c' E)
    as (_ & new & Hn & Hl & _).
  rewrite Hn. simpl in *. lia.
Defined.

Lemma routes_invariant_witness :
  exists c',
    performAll Fixtures.unavailableNet
      (NewGeminiClient Fixtures.unavailableNet (Some Fixtures.proxiedConfig) None)
      [ CallSendRequest "gemini-pro" (Some Fixtures.helloRequest);
        CallSetProxyList [ "http://proxy3.example.com:8080" ];
        CallRotateProxy;
        CallSendStreamRequestRaw "gemini-pro" (Some Fixtures.helloRequest) ]
    = Some c' /\
    routed c'.
Proof.
  eexists. split; [vm_compute; reflexivity|].
  apply (routes_invariant Fixtures.unavailableNet (Some Fixtures.proxiedConfig) None
           [ CallSendRequest "gemini-pro" (Some Fixtures.helloRequest);
             CallSetProxyList [ "http://proxy3.example.com:8080" ];
             CallRotateProxy;
             CallSendStreamRequestRaw "gemini-pro" (Some Fixtures.helloRequest) ]).
  vm_compute. reflexivity.
Defined.

Lemma send_without_token_witness :
  exists c',
    SendRequest Fixtures.unavailableNet (Fixtures.expiredAuthClient 3 Fixtures.twoRoutes)
                "gemini-pro" (Some Fixtures.helloRequest)
    = Some (Err ("request failed after 3 attempts: "
                   +:+ "failed to get auth token: failed to get token: "
                   +:+ "oauth2: token expired and refresh token is not set"), c') /\
    sent c' = [] /\ asked c' = 3%nat.
Proof.
  destruct (send_without_token Fixtures.unavailableNet
              (Fixtures.expiredAuthClient 3 Fixtures.twoRoutes)
              "gemini-pro" Fixtures.helloRequest "{}"
              "https://generativelanguage.googleapis.com/v1beta/models/gemini-pro:generateContent"
              (fun _ => "oauth2: token expired and refresh token is not set"))
    as (c' & Hrun & Hsent & _ & Hasked).
  - reflexivity.
  - reflexivity.
  - reflexivity.
  - eexists. repeat split.
  - exists c'. split; [exact Hrun|]. split; [exact Hsent|]. simpl in Hasked. lia.
Defined.

Lemma send_every_attempt_status_witness :
  exists c',
    SendRequest Fixtures.unavailableNet (Fixtures.refreshingAuthClient 3 Fixtures.twoRoutes)
                "gemini-pro" (Some Fixtures.helloRequest)
    = Some (Err ("request failed after 3 attempts: "
                   +:+ "API request failed with status 503: overloaded"), c') /\
    length (sent c') = 3%nat.
Proof.
  destruct (sendRequestOf Fixtures.unavailableNet
              (Fixtures.refreshingAuthClient 3 Fixtures.twoRoutes)
              "gemini-pro" Fixtures.helloRequest) as [httpReq|] eqn:Hreq;
    [|vm_compute in Hreq; discriminate].
  assert (Htoken : tokenGranted (Fixtures.refreshingAuthClient 3 Fixtures.twoRoutes))
    by (intros a [= <-] _ k; eexists; reflexivity).
  pose proof (send_every_attempt_status Fixtures.unavailableNet
                (Fixtures.refreshingAuthClient 3 Fixtures.twoRoutes)
                "gemini-pro" Fixtures.helloRequest 3 httpReq
                503 "overloaded" eq_refl ltac:(lia) Hreq Htoken (fun _ _ _ _ => eq_refl)
                ltac:(discriminate)) as H.
  cbv zeta in H. destruct H as [c' H].
  match type of H with (if ?b then _ else _) => change b with true in H end.
  cbv iota in H. destruct H as [Hrun Hcount].
  exists c'. split; [exact Hrun|]. simpl in Hcount. lia.
Defined.

Lemma send_undecodable_answers_witness :
  exists c',
    SendRequest Fixtures.garbledNet (Fixtures.refreshingAuthClient 3 [])
                "gemini-pro" (Some Fixtures.helloRequest)
    = Some (Err ("request failed after 3 attempts: failed to decode response: "
                   +:+ "invalid character '<' looking for beginning of value"), c') /\
    length (sent c') = 3%nat /\ Transport c' = None.
Proof.
  destruct (sendRequestOf Fixtures.garbledNet (Fixtures.refreshingAuthClient 3 [])
              "gemini-pro" Fixtures.helloRequest) as [httpReq|] eqn:Hreq;
    [|vm_compute in Hreq; discriminate].
  assert (Htoken : tokenGranted (Fixtures.refreshingAuthClient 3 []))
    by (intros a [= <-] _ k; eexists; reflexivity).
  destruct (send_undecodable_answers Fixtures.garbledNet (Fixtures.refreshingAuthClient 3 [])
              "gemini-pro" Fixtures.helloRequest 3 httpReq "<html>"
              "failed to decode response: invalid character '<' looking for beginning of value"
              eq_refl ltac:(lia) Hreq Htoken (fun _ _ _ _ => eq_refl) eq_refl)
    as (c' & Hrun & Hcount & Ht).
  exists c'. split; [exact Hrun|]. split; [simpl in Hcount; lia|].
  apply Ht. simpl. lia.
Defined.

(** A token source that fails once and then answers: the first iteration
    sends nothing, the two others do, each with the token of its own
    asking. *)
Example send_after_token_recovers :
  option_map (fun out => (fst out, length (sent (snd out)), asked (snd out)))
    (SendRequest Fixtures.unavailableNet
       (Fixtures.recoveringAuthClient 3 Fixtures.twoRoutes)
       "gemini-pro" (Some Fixtures.helloRequest))
  = Some (Err "request failed after 3 attempts: API request failed with status 503: overloaded",
          2%nat, 3%nat).
Proof. vm_compute. reflexivity. Qed.

(** *** An answered request, end to end *)

Section WithStreamEnv.
Variable env : Env.
Variable senv : StreamEnv.

Lemma send_first_answer (c : GeminiClient) (modelID : string) (req : GeminiRequest)
    (httpReq : HttpRequest) (body : string) (resp : GeminiResponse) :
  sendRequestOf env c modelID req = Some httpReq ->
  http_Do env (length (sent c)) (Transport c) httpReq = Response 200 body ->
  decodedAnswer env c body = Some resp ->
  SendRequest env c modelID (Some req) = Some (Ok resp, log_sent (afterAsk c) httpReq).
Proof.
  intros Hreq Hdo Hdec.
  destruct (sendRequestOf_parts env c modelID req httpReq Hreq)
    as (reqBody & apiURL & Hbody & Hurl & Hcreate).
  unfold SendRequest, sendRequestWithRetry. rewrite Hbody, Hurl.
  pose proof (effectiveMaxRetries_pos c) as Hpos.
  destruct (Z.to_nat (effectiveMaxRetries c)) as [|n] eqn:En; [lia|].
  cbn [retryLoop]. rewrite Z.ltb_irrefl. cbn [andb].
  rewrite (createRequest_first env c _ _ _ _ Hcreate).
  destruct (afterAsk_state c) as (Hsa & Hta & _ & Hca).
  unfold Do. rewrite Hsa, Hta, Hdo. cbn [Z.eqb Pos.eqb negb]. cbn [config log_sent].
  rewrite Hca. unfold decodedAnswer in Hdec.
  destruct (String.eqb (APIMode (config c)) CodeAssist).
  - destruct (json_Decode_codeAssist env body) as [[r|]|e];
      [now injection Hdec as -> | now injection Hdec as <- | discriminate].
  - destruct (json_Decode env body) as [r|e]; [now injection Hdec as -> | discriminate].
Qed.

(** The first attempt of a Send whose request is built is always made. *)
Lemma send_logs_first_attempt (c : GeminiClient) (modelID : string)
    (req : GeminiRequest) (httpReq : HttpRequest) :
  sendRequestOf env c modelID req = Some httpReq ->
  exists r c' rest,
    SendRequest env c modelID (Some req) = Some (r, c') /\
    sent c' = sent c ++ (Transport c, httpReq) :: rest.
Proof.
  intros Hreq.
  destruct (sendRequestOf_parts env c modelID req httpReq Hreq)
    as (reqBody & apiURL & Hbody & Hurl & Hcreate).
  unfold SendRequest, sendRequestWithRetry. rewrite Hbody, Hurl.
  pose proof (effectiveMaxRetries_pos c) as Hpos.
  destruct (Z.to_nat (effectiveMaxRetries c)) as [|n] eqn:En; [lia|].
  cbn [retryLoop]. rewrite Z.ltb_irrefl. cbn [andb].
  rewrite (createRequest_first env c _ _ _ _ Hcreate).
  destruct (afterAsk_state c) as (Hsa & Hta & _ & _).
  unfold Do. rewrite Hsa, Hta. set (c2 := log_sent (afterAsk c) httpReq).
  assert (Hsent2 : sent c2 = sent c ++ [(Transport c, httpReq)])
    by (subst c2; cbn [sent log_sent]; now rewrite Hsa, Hta).
  assert (Hnext : forall le,
             exists r c' rest,
               Some (retryLoop env n (0 + 1) (effectiveMaxRetries c) apiURL reqBody false
                               le c2) = Some (r, c') /\
               sent c' = sent c ++ (Transport c, httpReq) :: rest).
  { intros le.
    destruct (retryLoop env n (0 + 1) (effectiveMaxRetries c) apiURL reqBody false le c2)
      as [r c'] eqn:Hrun.
    destruct (retryLoop_frame env n _ _ _ _ _ _ _ _ _ Hrun) as (_ & _ & new & Hn & _).
    exists r, c', new. split; [reflexivity|]. rewrite Hn, Hsent2.
    now rewrite <- app_assoc. }
  assert (Hfinal : forall r : result GeminiResponse,
             exists r' c' rest,
               Some (r, c2) = Some (r', c') /\
               sent c' = sent c ++ (Transport c, httpReq) :: rest).
  { intros r. exists r, c2, []. split; [reflexivity | exact Hsent2]. }
  destruct (http_Do env (length (sent c)) (Transport c) httpReq) as [msg|status body].
  - destruct ((1 <? length (proxyURLs c2))%nat && isNetworkError env (Some msg));
      [apply Hnext | apply Hfinal].
  - cbn [negb]. destruct (negb (status =? 200)).
    + destruct (((status =? 429) || (500 <=? status)) && (1 <? length (proxyURLs c2))%nat);
        [apply Hnext | apply Hfinal].
    + destruct (String.eqb (APIMode (config c2)) CodeAssist).
      * destruct (json_Decode_codeAssist env body) as [[r|]|e];
          [apply Hfinal | apply Hfinal | apply Hnext].
      * destruct (json_Decode env body) as [r|e]; [apply Hfinal | apply Hnext].
Qed.

(** With at most one proxy, a first answer other than 200 is final. *)
Lemma send_status_final (c : GeminiClient) (modelID : string) (req : GeminiRequest)
    (httpReq : HttpRequest) (status : Z) (body : string) :
  sendRequestOf env c modelID req = Some httpReq ->
  http_Do env (length (sent c)) (Transport c) httpReq = Response status body ->
  status <> 200 ->
  (length (proxyURLs c) <= 1)%nat ->
  SendRequest env c modelID (Some req)
  = Some (Err ("API request failed with status " +:+ fmt_d status +:+ ": " +:+ body),
          log_sent (afterAsk c) httpReq).
Proof.
  intros Hreq Hdo Hs Hroutes.
  destruct (sendRequestOf_parts env c modelID req httpReq Hreq)
    as (reqBody & apiURL & Hbody & Hurl & Hcreate).
  unfold SendRequest, sendRequestWithRetry. rewrite Hbody, Hurl.
  pose proof (effectiveMaxRetries_pos c) as Hpos.
  destruct (Z.to_nat (effectiveMaxRetries c)) as [|n] eqn:En; [lia|].
  cbn [retryLoop]. rewrite Z.ltb_irrefl. cbn [andb].
  rewrite (createRequest_first env c _ _ _ _ Hcreate).
  destruct (afterAsk_state c) as (Hsa & Hta & Hpa & _).
  unfold Do. rewrite Hsa, Hta, Hdo. apply Z.eqb_neq in Hs. rewrite Hs.
  cbn [negb proxyURLs log_sent]. rewrite Hpa.
  assert (Hno : (1 <? length (proxyURLs c))%nat = false) by (apply Nat.ltb_ge; lia).
  rewrite Hno, andb_false_r. reflexivity.
Qed.

(** X17: an answered request, end to end.  When the first HTTP attempt of
    an OpenAI-format request is answered 200 with a body that decodes,
    [SendOpenAIRequest] returns after that single attempt, made through
    the active transport, with a response for the requested model whose
    only choice has index 0 and an assistant message holding the texts of
    the first candidate's parts, the converted finish reason of that
    candidate and the usage counts of the answer.  A Code Assist answer
    that lacks its [response] member counts as an answer without
    candidates: the message is then empty. *)
Theorem openai_request_answered (c : GeminiClient) (req : OpenAIRequest)
    (g : GeminiRequest) (httpReq : HttpRequest) (body : string) (resp : GeminiResponse) :
  OpenAIToGeminiRequest (unicode_tables env) (Some req) = Ok g ->
  sendRequestOf env c (Req_Model req) g = Some httpReq ->
  http_Do env (length (sent c)) (Transport c) httpReq = Response 200 body ->
  decodedAnswer env c body = Some resp ->
  exists o,
    SendOpenAIRequest env senv c (Some req)
    = Some (Ok o, log_sent (afterAsk c) httpReq) /\
    sent (log_sent (afterAsk c) httpReq) = sent c ++ [(Transport c, httpReq)] /\
    Resp_Model o = Req_Model req /\
    Object o = "chat.completion" /\
    Choices o
    = [ {| Index := 0;
           Message :=
             Some {| Msg_Role := "assistant";
                     Msg_Content :=
                       match Candidates resp with
                       | candidate :: _ =>
                           ConverterVocabulary.partsText (Parts (Cand_Content candidate))
                       | [] => EmptyString
                       end |};
           Delta := None;
           FinishReason :=
             match Candidates resp with
             | candidate :: _ =>
                 if String.eqb (Cand_FinishReason candidate) EmptyString then None
                 else Some (convertFinishReason (unicode_tables env) (Cand_FinishReason candidate))
             | [] => None
             end |} ] /\
    Usage o = option_map (fun u => {| PromptTokens := PromptTokenCount u;
                                      CompletionTokens := CandidatesTokenCount u;
                                      TotalTokens := TotalTokenCount u |})
                         (UsageMetadata resp) /\
    (json_Decode_codeAssist env body = Ok None ->
     APIMode (config c) = CodeAssist -> Candidates resp = []).
Proof.
  intros Hconv Hreq Hdo Hdec. unfold SendOpenAIRequest. rewrite Hconv.
  rewrite (send_first_answer c (Req_Model req) g httpReq body resp Hreq Hdo Hdec).
  assert (Hnone : json_Decode_codeAssist env body = Ok None ->
                  APIMode (config c) = CodeAssist -> Candidates resp = []).
  { intros Hn Hmode. unfold decodedAnswer in Hdec.
    rewrite Hmode, Hn in Hdec. cbn in Hdec. now injection Hdec as <-. }
  assert (Husage : forall o, Usage o = match UsageMetadata resp with
                                       | Some u => Some {| PromptTokens := PromptTokenCount u;
                                                           CompletionTokens := CandidatesTokenCount u;
                                                           TotalTokens := TotalTokenCount u |}
                                       | None => None
                                       end ->
                   Usage o = option_map (fun u => {| PromptTokens := PromptTokenCount u;
                                                     CompletionTokens := CandidatesTokenCount u;
                                                     TotalTokens := TotalTokenCount u |})
                                        (UsageMetadata resp)).
  { intros o ->. destruct (UsageMetadata resp); reflexivity. }
  assert (Hlogged : sent (log_sent (afterAsk c) httpReq)
                    = sent c ++ [(Transport c, httpReq)]).
  { destruct (afterAsk_state c) as (Hsa & Hta & _).
    cbn [sent log_sent]. now rewrite Hsa, Hta. }
  unfold GeminiToOpenAIResponse.
  destruct (Candidates resp) as [|candidate rest] eqn:Ec.
  - eexists. split; [reflexivity|]. split; [exact Hlogged|].
    cbn [Resp_Model Object Choices].
    do 3 (split; [reflexivity|]). split; [now apply Husage | reflexivity].
  - eexists. split; [reflexivity|]. split; [exact Hlogged|].
    cbn [Resp_Model Object Choices].
    rewrite ConverterFacts.response_content.
    do 3 (split; [reflexivity|]). split; [now apply Husage|].
    intros Hn Hmode. exact (Hnone Hn Hmode).
Qed.

(** X18: the system instruction that goes out.  The request serialised by
    a Send of a converted OpenAI request is the validated request with the
    prompt of the configured file applied.  Its system instruction is: with
    no usable file prompt (no file configured, a file that cannot be read,
    which is not fatal, or an empty file), the embedded system messages
    followed by the explicit parts, or none when there is neither; with a
    file prompt in "append" mode (the mode is lower-cased before it is
    compared), these followed by the file prompt; in any other mode, the
    file prompt alone. *)
Theorem outgoing_system_instruction (c : GeminiClient) (req : OpenAIRequest) :
  exists g,
    OpenAIToGeminiRequest (unicode_tables env) (Some req) = Ok g /\
    let out := preparedRequest env c (Req_Model req) g in
    buildBody env c (Req_Model req) g
    = (if String.eqb (APIMode (config c)) CodeAssist
       then json_Marshal_codeAssist env
              {| CA_Model := Req_Model req; CA_Project := ProjectID (config c);
                 CA_Request := out |}
       else json_Marshal env out) /\
    let own := ConverterVocabulary.embeddedSystemParts (unicode_tables env) (Req_Messages req)
               ++ ConverterVocabulary.explicitSystemParts req in
    SystemInstruction out
    = match filePrompt env c with
      | None => match own with
                | [] => None
                | _ => Some {| SI_Parts := own |}
                end
      | Some text =>
          Some {| SI_Parts :=
                    if String.eqb (ToLower (unicode_tables env)
                                           (SystemPromptMode (config c))) "append"
                    then own ++ [ {| Text := text |} ]
                    else [ {| Text := text |} ] |}
      end.
Proof.
  destruct (ConverterFacts.converted_system_parts (unicode_tables env) req) as (g & Hconv & Hsi).
  exists g. split; [exact Hconv|]. cbn zeta. split; [reflexivity|].
  unfold preparedRequest, applySystemPromptFromFile, filePrompt.
  set (own := ConverterVocabulary.embeddedSystemParts (unicode_tables env) (Req_Messages req)
              ++ ConverterVocabulary.explicitSystemParts req) in *.
  assert (Hv : SystemInstruction
                 (ValidateAndFixRequest (useCodeAssist c) g (Req_Model req))
               = match own with [] => None | _ => Some {| SI_Parts := own |} end)
    by (change (SystemInstruction g
                = match own with [] => None | _ => Some {| SI_Parts := own |} end);
        rewrite Hsi; clearbody own; destruct own; reflexivity).
  clearbody own.
  destruct (String.eqb (SystemPromptFile (config c)) EmptyString); [exact Hv|].
  destruct (ioutil_ReadFile env (SystemPromptFile (config c))) as [text|e]; [|exact Hv].
  destruct (String.eqb text EmptyString); [exact Hv|].
  cbn [SystemInstruction]. rewrite Hv. f_equal. f_equal.
  destruct own as [|p ps]; reflexivity.
Qed.

(** X19: listing the models.  In Vertex AI mode no request is made and the
    built-in list of six models is returned.  In the other modes one GET
    request is made through the active transport: an answer 404 or 405
    gives the built-in list rather than an error, any other status but 200
    gives an error naming the status and the body, and a 200 answer gives
    one entry per backend model, in the backend's order, each named by the
    backend's name without its leading "models/". *)
Theorem list_models_outcome (c : GeminiClient) :
  let builtin := GenerateModelsList (time_Now_Unix senv 0) in
  map Model_ID (List_Data builtin)
  = [ "gemini-2.5-pro"; "gemini-2.5-flash"; "gemini-1.5-pro"; "gemini-1.5-flash";
      "gemini-pro"; "gemini-pro-vision" ] /\
  (APIMode (config c) = VertexAI -> ListModels env senv c = (Ok builtin, c)) /\
  (forall httpReq status body,
      listRequestOf env c = Some httpReq ->
      http_Do env (length (sent c)) (Transport c) httpReq = Response status body ->
      ListModels env senv c
      = (if status =? 200
         then match json_Decode_models senv body with
              | Ok geminiModels =>
                  Ok (ConvertGeminiModels geminiModels (time_Now_Unix senv 0))
              | Err e => Err ("failed to decode models response: " +:+ e)
              end
         else if (status =? 404) || (status =? 405) then Ok builtin
         else Err ("models API request failed with status " +:+ fmt_d status
                     +:+ ": " +:+ body),
         log_sent (afterAsk c) httpReq)) /\
  (forall geminiModels now,
      map Model_ID (List_Data (ConvertGeminiModels geminiModels now))
      = map (fun model => TrimPrefix (Model_Name model) "models/")
            (Models_List geminiModels)) /\
  (forall name, TrimPrefix ("models/" +:+ name) "models/" = name).
Proof.
  intros builtin. split; [reflexivity|]. split; [|split; [|split]].
  - intros Hv. unfold ListModels. rewrite Hv. reflexivity.
  - intros httpReq status body Hreq Hdo. unfold listRequestOf in Hreq.
    unfold ListModels.
    destruct (String.eqb (APIMode (config c)) CodeAssist) eqn:Eca.
    + rewrite andb_false_r in Hreq.
      destruct (fst (createRequest env c "GET" _ EmptyString)) as [h|] eqn:Hcreate;
        [|discriminate].
      injection Hreq as ->. rewrite (createRequest_first env c _ _ _ _ Hcreate).
      destruct (afterAsk_state c) as (Hsa & Hta & _).
      unfold Do. rewrite Hsa, Hta, Hdo.
      destruct (status =? 200); cbn [negb]; [|destruct ((status =? 404) || (status =? 405))];
        try reflexivity.
      destruct (json_Decode_models senv body); reflexivity.
    + rewrite andb_true_r in Hreq.
      destruct (String.eqb (APIMode (config c)) VertexAI); [discriminate|].
      destruct (fst (createRequest env c "GET" _ EmptyString)) as [h|] eqn:Hcreate;
        [|discriminate].
      injection Hreq as ->. rewrite (createRequest_first env c _ _ _ _ Hcreate).
      destruct (afterAsk_state c) as (Hsa & Hta & _).
      unfold Do. rewrite Hsa, Hta, Hdo.
      destruct (status =? 200); cbn [negb]; [|destruct ((status =? 404) || (status =? 405))];
        try reflexivity.
      destruct (json_Decode_models senv body); reflexivity.
  - intros geminiModels now. unfold ConvertGeminiModels. cbn [List_Data].
    assert (H : forall l acc,
               map Model_ID
                 (fold_left (fun openaiModels model =>
                               openaiModels ++
                               [ {| Model_ID := TrimPrefix (Model_Name model) "models/";
                                    Model_Object := "model"; Model_Created := now;
                                    Model_OwnedBy := "google" |} ]) l acc)
               = map Model_ID acc
                 ++ map (fun model => TrimPrefix (Model_Name model) "models/") l).
    { induction l as [|m l IH]; intros acc; cbn [fold_left map];
        [now rewrite app_nil_r|].
      rewrite IH, map_app. cbn [map Model_ID]. now rewrite <- app_assoc. }
    now rewrite H.
  - intros name. unfold TrimPrefix, HasPrefix. rewrite prefix_append.
    change (String.length "models/") with 7%nat.
    change ("models/" +:+ name) with
      (String "m" (String "o" (String "d" (String "e" (String "l" (String "s"
        (String "/" name))))))).
    cbn [String.length substring Nat.sub].
    rewrite Nat.sub_0_r. clear. induction name as [|x name IH]; [reflexivity|].
    cbn [String.length substring]. now rewrite IH.
Qed.

End WithStreamEnv.

Lemma openai_request_answered_witness :
  exists o c',
    SendOpenAIRequest Fixtures.answeringNet Fixtures.demoStreamEnv
                      (Fixtures.studioClient 3 []) (Some Fixtures.helloChat)
    = Some (Ok o, c') /\
    length (sent c') = 1%nat /\
    Choices o
    = [ {| Index := 0;
           Message := Some {| Msg_Role := "assistant"; Msg_Content := "Hi there" |};
           Delta := None;
           FinishReason := Some "length" |} ].
Proof.
  edestruct (openai_request_answered Fixtures.answeringNet Fixtures.demoStreamEnv
               (Fixtures.studioClient 3 []) Fixtures.helloChat)
    as (o & Hrun & Hsent & _ & _ & Hchoices & _).
  - vm_compute. reflexivity.
  - vm_compute. reflexivity.
  - reflexivity.
  - reflexivity.
  - exists o. eexists. split; [exact Hrun|]. split; [now rewrite Hsent|].
    exact Hchoices.
Defined.

(** *** Streams *)

Section Streams.
Variable env : Env.
Variable senv : StreamEnv.
Hypothesis Hlive : forall k, ctx_Err senv k = None.

Lemma scanLoop_feed {A : Type}
    (callback : GeminiStreamChunk -> A -> option (option string * A))
    (codeAssist : bool) (lines : list string) :
  forall k a,
    scanLoop senv callback codeAssist lines k a
    = match feed callback (deliveredChunks senv codeAssist lines) a with
      | None => None
      | Some (Some e, a') => Some (Some ("callback error: " +:+ e), a')
      | Some (None, a') => Some (None, a')
      end.
Proof.
  induction lines as [|line rest IH]; intros k a; [reflexivity|].
  cbn [scanLoop]. rewrite Hlive. unfold deliveredChunks. cbn [omap list_omap].
  fold (deliveredChunks senv codeAssist rest). unfold dataPayload.
  destruct (HasPrefix line "data: "); [|apply IH]. cbn zeta.
  destruct (negb (String.eqb (TrimPrefix line "data: ") EmptyString)); [|apply IH].
  destruct (parseChunk senv codeAssist (TrimPrefix line "data: ")) as [chunk|];
    [|apply IH].
  cbn [feed]. destruct (callback chunk a) as [[[e|] a']|]; try reflexivity. apply IH.
Qed.

Lemma GeminiStreamToOpenAI_total (chunk : GeminiStreamChunk) (model requestID : string)
    (now : Z) (roleSent : bool) :
  exists out,
    GeminiStreamToOpenAI (unicode_tables env) (Some chunk) model requestID now roleSent
    = (Ok out, true).
Proof.
  unfold GeminiStreamToOpenAI.
  destruct (Chunk_Candidates chunk); eexists; reflexivity.
Qed.

Lemma feed_openAICallback {A : Type}
    (callback : OpenAIStreamChunk -> A -> option (option string * A))
    (model requestID : string) (chunks : list GeminiStreamChunk) :
  forall roleSent n a,
    option_map (fun out => (fst out, snd (snd out)))
      (feed (openAICallback env senv callback model requestID) chunks (roleSent, n, a))
    = feed callback
        (ConverterVocabulary.convertStream (unicode_tables env) model requestID
           (time_Now_Unix senv) n roleSent chunks) a.
Proof.
  induction chunks as [|chunk rest IH]; intros roleSent n a; [reflexivity|].
  cbn [feed ConverterVocabulary.convertStream]. unfold openAICallback.
  destruct (GeminiStreamToOpenAI_total chunk model requestID (time_Now_Unix senv n)
              roleSent) as [out Hout].
  rewrite Hout. cbn [feed].
  destruct (callback out a) as [[[e|] a']|]; try reflexivity. apply IH.
Qed.

(** X20: the delivery of a native stream.  A streaming request hands the
    raw request's error on without calling the callback.  Otherwise, the
    context staying live, the callback is fed, in the order of the lines,
    exactly the chunks of the lines that start with "data: ", carry a
    payload and parse (in Code Assist mode a wrapper without [response]
    gives an empty chunk); every other line is passed over.  The first
    error of the callback ends the stream and is returned behind
    "callback error: "; when the callback never fails, the result is the
    scanner's error behind "error reading stream: ", or nil. *)
Theorem stream_delivery {A : Type}
    (callback : GeminiStreamChunk -> A -> option (option string * A))
    (c : GeminiClient) (modelID : string) (req : GeminiRequest) (a : A) :
  SendStreamRequest env senv callback c modelID (Some req) a
  = match SendStreamRequestRaw env c modelID (Some req) with
    | None => None
    | Some (Err e, c1) => Some (Some e, a, c1)
    | Some (Ok resp, c1) =>
        streamOutcome
          (feed callback
             (deliveredChunks senv (String.eqb (APIMode (config c1)) CodeAssist)
                (fst (bufio_Scan senv (Stream_Body resp)))) a)
          (snd (bufio_Scan senv (Stream_Body resp))) c1
    end.
Proof.
  unfold SendStreamRequest.
  destruct (SendStreamRequestRaw env c modelID (Some req)) as [[[resp|e] c1]|]; try reflexivity.
  destruct (bufio_Scan senv (Stream_Body resp)) as [lines scanErr]. cbn [fst snd].
  rewrite scanLoop_feed. unfold streamOutcome.
  destruct (feed callback _ a) as [[[e|] a']|]; try reflexivity.
  destruct scanErr; reflexivity.
Qed.

Lemma SendOpenAIStreamRequest_feed {A : Type}
    (callback : OpenAIStreamChunk -> A -> option (option string * A))
    (c : GeminiClient) (req : OpenAIRequest) (g : GeminiRequest) (a : A) :
  OpenAIToGeminiRequest (unicode_tables env) (Some req) = Ok g ->
  SendOpenAIStreamRequest env senv callback c (Some req) a
  = match SendStreamRequestRaw env c (Req_Model req) (Some g) with
    | None => None
    | Some (Err e, c1) => Some (Some e, a, c1)
    | Some (Ok resp, c1) =>
        streamOutcome
          (feed callback
             (ConverterVocabulary.convertStream (unicode_tables env) (Req_Model req)
                (GenerateRequestID (time_Now_UnixNano senv)) (time_Now_Unix senv) 0 false
                (deliveredChunks senv (String.eqb (APIMode (config c1)) CodeAssist)
                   (fst (bufio_Scan senv (Stream_Body resp))))) a)
          (snd (bufio_Scan senv (Stream_Body resp))) c1
    end.
Proof.
  intros Hconv. unfold SendOpenAIStreamRequest, SendStreamRequest. rewrite Hconv.
  destruct (SendStreamRequestRaw env c (Req_Model req) (Some g)) as [[[resp|e] c1]|];
    try reflexivity.
  destruct (bufio_Scan senv (Stream_Body resp)) as [lines scanErr]. cbn [fst snd].
  rewrite scanLoop_feed, <- feed_openAICallback. unfold streamOutcome.
  destruct (feed (openAICallback env senv callback (Req_Model req) _) _ _)
    as [[[e|] [[rs n] a']]|]; try reflexivity.
  destruct scanErr; reflexivity.
Qed.

(** X21: the delivery of an OpenAI-format stream.  The request is
    converted and sent as a native stream; the context staying live, the
    caller's callback is fed the converted chunks of that stream: one per
    delivered chunk, in order, all under one request id, the first with
    the role "assistant" and the others without a role. *)
Theorem openai_stream_delivery {A : Type}
    (callback : OpenAIStreamChunk -> A -> option (option string * A))
    (c : GeminiClient) (req : OpenAIRequest) (a : A) :
  exists g,
    OpenAIToGeminiRequest (unicode_tables env) (Some req) = Ok g /\
    SendOpenAIStreamRequest env senv callback c (Some req) a
    = match SendStreamRequestRaw env c (Req_Model req) (Some g) with
      | None => None
      | Some (Err e, c1) => Some (Some e, a, c1)
      | Some (Ok resp, c1) =>
          streamOutcome
            (feed callback
               (ConverterVocabulary.convertStream (unicode_tables env) (Req_Model req)
                  (GenerateRequestID (time_Now_UnixNano senv)) (time_Now_Unix senv) 0 false
                  (deliveredChunks senv (String.eqb (APIMode (config c1)) CodeAssist)
                     (fst (bufio_Scan senv (Stream_Body resp))))) a)
            (snd (bufio_Scan senv (Stream_Body resp))) c1
      end.
Proof.
  destruct (ConverterFacts.converted_system_parts (unicode_tables env) req) as (g & Hconv & _).
  exists g. split; [exact Hconv|].
  now apply SendOpenAIStreamRequest_feed.
Qed.

End Streams.

Lemma stream_delivery_witness :
  exists c',
    SendStreamRequest Fixtures.answeringNet Fixtures.demoStreamEnv
      (fun chunk seen => Some (None, seen ++ [chunk]))
      (Fixtures.studioClient 3 []) "gemini-pro" (Some Fixtures.helloRequest) []
    = Some (None, [ Fixtures.openingChunk; Fixtures.closingChunk ], c').
Proof.
  rewrite (stream_delivery Fixtures.answeringNet Fixtures.demoStreamEnv
             (fun k => eq_refl)).
  vm_compute. eexists. reflexivity.
Defined.

Lemma openai_stream_delivery_witness :
  exists err contents c',
    SendOpenAIStreamRequest Fixtures.answeringNet Fixtures.demoStreamEnv
      (fun chunk seen => Some (None, seen ++ [ConverterVocabulary.deltaRoles chunk]))
      (Fixtures.studioClient 3 []) (Some Fixtures.helloChat) []
    = Some (err, contents, c') /\
    err = None /\ contents = [ ["assistant"]; [EmptyString] ].
Proof.
  destruct (openai_stream_delivery Fixtures.answeringNet Fixtures.demoStreamEnv
              (fun k => eq_refl)
              (fun chunk seen => Some (None, seen ++ [ConverterVocabulary.deltaRoles chunk]))
              (Fixtures.studioClient 3 []) Fixtures.helloChat []) as (g & Hg & Hrun).
  vm_compute in Hg. injection Hg as <-.
  rewrite Hrun. vm_compute. eexists _, _, _. repeat split.
Defined.

End ClientFacts.

Module AuthFacts.
Import GoStrings GoCrypto Auth StringVocabulary AuthVocabulary GoStringsFacts.

(** *** The callback path *)

Lemma length_append (a b : string) :
  String.length (a +:+ b) = (String.length a + String.length b)%nat.
Proof.
  induction a as [|x a IH]; [reflexivity|].
  rewrite append_cons. simpl. now rewrite IH.
Qed.

Lemma length_substring_0 (n : nat) :
  forall s, (n <= String.length s)%nat -> String.length (substring 0 n s) = n.
Proof.
  induction n as [|n IH]; intros s H.
  - destruct s; reflexivity.
  - destruct s as [|x s]; simpl in *; [lia|]. rewrite IH; [reflexivity | lia].
Qed.

Lemma length_hex (bs : list Z) :
  String.length (hex_EncodeToString bs) = (2 * length bs)%nat.
Proof. induction bs as [|b bs IH]; simpl; [reflexivity | rewrite IH; lia]. Qed.

Lemma length_md5_Sum (s : string) : length (md5_Sum s) = 16%nat.
Proof.
  unfold md5_Sum.
  destruct (fold_left md5_block _ _) as [[[a b] c] d].
  rewrite !length_app. unfold le_bytes. rewrite !length_map, !length_seq. reflexivity.
Qed.

(** In both branches the slice is in range and the path has the 16 bytes of
    the prefix and 12 more. *)
Lemma callback_path_length (g : GoogleAuth) (clientID : string) :
  String.length (callbackPath (generateCallbackPath g clientID)) = 28%nat.
Proof.
  unfold generateCallbackPath, slice_to.
  destruct (String.length clientID <? 12)%nat eqn:E; cbn [callbackPath with_path];
    rewrite length_append, length_substring_0.
  - reflexivity.
  - rewrite length_hex, length_md5_Sum. lia.
  - reflexivity.
  - apply Nat.ltb_ge in E. exact E.
Qed.

(** C3: the callback path is a function of the client identifier alone.
    For an identifier of 12 bytes or more it is "/oauth/callback/" followed
    by the identifier's first 12 bytes; for a shorter one, the prefix
    followed by the first 12 hex digits of the identifier's MD5 digest; in
    both cases 12 bytes follow the prefix; the identifier of the scenario
    gives "/oauth/callback/681255809395"; and whatever the manager held
    before, the same identifier gives the same path. *)
Theorem callback_path_derivation :
  (forall g clientID, (12 <= String.length clientID)%nat ->
      callbackPath (generateCallbackPath g clientID)
      = "/oauth/callback/" +:+ substring 0 12 clientID) /\
  (forall g clientID, (String.length clientID < 12)%nat ->
      callbackPath (generateCallbackPath g clientID)
      = "/oauth/callback/" +:+ substring 0 12 (hex_EncodeToString (md5_Sum clientID))) /\
  (forall g clientID,
      String.length (callbackPath (generateCallbackPath g clientID))
      = (String.length "/oauth/callback/" + 12)%nat) /\
  (forall g, callbackPath
               (generateCallbackPath g "681255809395-oo8ft2oprdrnp9e3aqf6av3hmdib135j")
             = "/oauth/callback/681255809395") /\
  (forall g1 g2 clientID,
      callbackPath (generateCallbackPath g1 clientID)
      = callbackPath (generateCallbackPath g2 clientID)).
Proof.
  split; [|split; [|split; [exact callback_path_length|split]]].
  - intros g clientID H. unfold generateCallbackPath.
    assert (E : (String.length clientID <? 12)%nat = false) by now apply Nat.ltb_ge.
    now rewrite E.
  - intros g clientID H. unfold generateCallbackPath.
    assert (E : (String.length clientID <? 12)%nat = true) by now apply Nat.ltb_lt.
    now rewrite E.
  - intros g. reflexivity.
  - intros g1 g2 clientID. unfold generateCallbackPath.
    destruct (String.length clientID <? 12)%nat; reflexivity.
Qed.

Section WithEnv.
Variable env : Env.

(** *** Initialize *)

Lemma loadToken_parse (g : GoogleAuth) (s : string) :
  match parseToken env s with
  | Some t => loadTokenFromBase64 env g s = (with_currentTokens g (Some t), None)
  | None => exists e, loadTokenFromBase64 env g s = (g, Some e)
  end.
Proof.
  unfold parseToken, loadTokenFromBase64.
  destruct (base64_DecodeString env s) as [decoded|e]; [|eauto].
  destruct (json_Unmarshal_token env decoded) as [token|e]; [|eauto].
  destruct (String.eqb (AccessToken token) EmptyString); eauto.
Qed.

Lemma loadFirstToken_none (g : GoogleAuth) (toks : list string) :
  Forall (fun s => parseToken env s = None) toks -> loadFirstToken env g toks = g.
Proof.
  induction 1 as [|s toks Hs _ IH]; simpl; [reflexivity|].
  pose proof (loadToken_parse g s) as H. rewrite Hs in H.
  destruct H as [e ->]. exact IH.
Qed.

Lemma loadFirstToken_first (g : GoogleAuth) (pre post : list string)
    (tok : string) (t : Token) :
  Forall (fun s => parseToken env s = None) pre ->
  parseToken env tok = Some t ->
  loadFirstToken env g (pre ++ tok :: post) = with_currentTokens g (Some t).
Proof.
  intros Hpre Htok. induction Hpre as [|s pre Hs _ IH]; simpl.
  - pose proof (loadToken_parse g tok) as H. rewrite Htok in H. now rewrite H.
  - pose proof (loadToken_parse g s) as H. rewrite Hs in H.
    destruct H as [e ->]. exact IH.
Qed.

Lemma initialize_from_uninitialized (g : GoogleAuth) :
  initialized g = false -> currentTokens g = None ->
  (forall pre tok post t,
      tokens g = pre ++ tok :: post ->
      Forall (fun s => parseToken env s = None) pre ->
      parseToken env tok = Some t ->
      Initialize env g
      = (with_initialized (with_currentTokens g (Some t))
                          (Config_TokenSource (oauthConfig g) t), None)) /\
  (Forall (fun s => parseToken env s = None) (tokens g) ->
   Initialize env g = (g, Some authRequiredMessage)) /\
  (forall e, snd (Initialize env g) = Some e -> e = authRequiredMessage).
Proof.
  intros Hinit Hcur. split; [|split].
  - intros pre tok post t Htoks Hpre Htok. unfold Initialize.
    rewrite Hinit, Htoks, (loadFirstToken_first g pre post tok t Hpre Htok).
    reflexivity.
  - intros Hnone. unfold Initialize.
    rewrite Hinit, (loadFirstToken_none g _ Hnone), Hcur. reflexivity.
  - intros e. unfold Initialize. rewrite Hinit.
    destruct (currentTokens (loadFirstToken env g (tokens g))); simpl; congruence.
Qed.

Lemma NewGoogleAuth_uninitialized (authConfig : option GoogleAuthConfig) :
  initialized (NewGoogleAuth env authConfig) = false /\
  currentTokens (NewGoogleAuth env authConfig) = None /\
  tokenSource (NewGoogleAuth env authConfig) = None /\
  tokens (NewGoogleAuth env authConfig)
  = match authConfig with Some a => Cfg_OAuthTokens a | None => [] end /\
  TokenURL (oauthConfig (NewGoogleAuth env authConfig)) = GoogleTokenURL.
Proof. destruct authConfig; repeat split. Qed.

(** C4: on the manager [NewGoogleAuth] builds, [Initialize] reads the
    persisted tokens in list order and adopts the first structurally
    valid one (it decodes, parses and has a non-empty access token): the
    manager becomes initialized, with that token current and a token
    source refreshing at the provider's token endpoint.  When no token
    is valid the manager is left as it was, uninitialized and without a
    token, and the error is the "authentication required" condition,
    which is the only error [Initialize] ever returns. *)
Theorem initialize_first_valid_token (authConfig : option GoogleAuthConfig) :
  let g := NewGoogleAuth env authConfig in
  let persisted := match authConfig with Some a => Cfg_OAuthTokens a | None => [] end in
  (forall pre tok post t,
      persisted = pre ++ tok :: post ->
      Forall (fun s => parseToken env s = None) pre ->
      parseToken env tok = Some t ->
      snd (Initialize env g) = None /\
      currentTokens (fst (Initialize env g)) = Some t /\
      initialized (fst (Initialize env g)) = true /\
      tokenSource (fst (Initialize env g))
      = Some {| ts_token := t; ts_refreshURL := GoogleTokenURL;
                ts_refreshToken := RefreshToken t |}) /\
  (Forall (fun s => parseToken env s = None) persisted ->
   Initialize env g = (g, Some authRequiredMessage) /\
   initialized g = false /\ currentTokens g = None /\ tokenSource g = None) /\
  (forall e, snd (Initialize env g) = Some e -> e = authRequiredMessage).
Proof.
  intros g persisted.
  destruct (NewGoogleAuth_uninitialized authConfig)
    as (Hinit & Hcur & Hsrc & Htoks & Hurl).
  fold g in Hinit, Hcur, Hsrc, Htoks, Hurl. fold persisted in Htoks.
  destruct (initialize_from_uninitialized g Hinit Hcur) as (Hfirst & Hnone & Honly).
  split; [|split; [|exact Honly]].
  - intros pre tok post t Hp Hpre Htok.
    rewrite (Hfirst pre tok post t) by (rewrite ?Htoks; assumption).
    cbn [fst snd]. unfold Config_TokenSource. rewrite Hurl. repeat split.
  - intros Hall. rewrite Hnone by (rewrite Htoks; exact Hall). auto.
Qed.

(** *** The callback handler *)

Ltac json_payload :=
  eexists; split; [reflexivity|]; split; [reflexivity | now eexists].

Ltac same_outcome :=
  try match goal with
      | H : Ok _ = Ok _ |- _ => injection H as <-
      | H : Err _ = Err _ |- _ => injection H as <-
      | H : Ok _ = Err _ |- _ => discriminate H
      | H : Err _ = Ok _ |- _ => discriminate H
      end.

(** C2, as amended: a request whose path is not the bound callback path
    gets 400 and leaves the manager unchanged; otherwise a non-empty
    [error] parameter gets 400 with a JSON status payload carrying that
    value, manager unchanged; otherwise an absent or empty [code] gets
    204 with no body, manager unchanged; otherwise a failed exchange gets
    500 with a JSON status payload carrying the error, manager
    unchanged, and a successful one gets 200 with a JSON status payload
    and the token stored. *)
Theorem callback_contract (g : GoogleAuth) (r : CallbackRequest) :
  let '(resp, g') := handleOAuthCallback env g r in
  let code := Query_Get r "code" in
  let errorParam := Query_Get r "error" in
  (Path r <> callbackPath g -> StatusCode resp = 400 /\ g' = g) /\
  (Path r = callbackPath g -> errorParam <> EmptyString ->
   StatusCode resp = 400 /\ g' = g /\ statusPayload (Body resp) "error" /\
   exists m, Body resp = JsonObject m /\ m !! "error" = Some errorParam) /\
  (Path r = callbackPath g -> errorParam = EmptyString -> code = EmptyString ->
   StatusCode resp = 204 /\ g' = g /\ Body resp = NoBody) /\
  (Path r = callbackPath g -> errorParam = EmptyString -> code <> EmptyString ->
   forall e, oauth_Exchange env (oauthConfig g) code = Err e ->
   StatusCode resp = 500 /\ g' = g /\ statusPayload (Body resp) "error" /\
   exists m, Body resp = JsonObject m /\ m !! "error" = Some e) /\
  (Path r = callbackPath g -> errorParam = EmptyString -> code <> EmptyString ->
   forall token, oauth_Exchange env (oauthConfig g) code = Ok token ->
   StatusCode resp = 200 /\ currentTokens g' = Some token /\
   statusPayload (Body resp) "success").
Proof.
  unfold handleOAuthCallback.
  destruct (String.eqb (Path r) (callbackPath g)) eqn:Hpath; cbn [negb].
  2:{ apply String.eqb_neq in Hpath. repeat split; intros; try contradiction; auto. }
  apply String.eqb_eq in Hpath.
  destruct (String.eqb (Query_Get r "error") EmptyString) eqn:Herr; cbn [negb].
  2:{ apply String.eqb_neq in Herr.
      repeat split; intros; try contradiction; try congruence; auto.
      - json_payload.
      - eexists. split; reflexivity. }
  apply String.eqb_eq in Herr.
  destruct (String.eqb (Query_Get r "code") EmptyString) eqn:Hcode.
  { apply String.eqb_eq in Hcode.
    repeat split; intros; try contradiction; try congruence; auto. }
  apply String.eqb_neq in Hcode.
  destruct (oauth_Exchange env (oauthConfig g) (Query_Get r "code")) as [token|e];
    repeat split; intros; same_outcome;
    try contradiction; try congruence; auto; try json_payload.
  - destruct (onTokenReceived _); reflexivity.
  - eexists. split; reflexivity.
Qed.
End WithEnv.

Section WithEnv.
Variable env : Env.

Lemma callOnboardAPI_incomplete (w : Wire) :
  onboardIncompleteAt env (length (calls w)) ->
  callOnboardAPI env w onboardRequest
  = (Ok EmptyString, {| calls := calls w ++ [(onboardURL, onboardRequest)];
                        slept := slept w |}).
Proof.
  intros (body & done & id & Hdo & Hdec & Hnot).
  unfold callOnboardAPI, apiCall. rewrite Hdo. cbn. rewrite Hdec, Hnot. reflexivity.
Qed.

Lemma callOnboardAPI_done (w : Wire) (id : string) :
  onboardDoneAt env (length (calls w)) id ->
  callOnboardAPI env w onboardRequest
  = (Ok id, {| calls := calls w ++ [(onboardURL, onboardRequest)];
               slept := slept w |}).
Proof.
  intros (body & Hdo & Hdec & Hid).
  unfold callOnboardAPI, apiCall. rewrite Hdo. cbn. rewrite Hdec.
  apply String.eqb_neq in Hid. now rewrite Hid.
Qed.

Lemma callOnboardAPI_status (w : Wire) (status : Z) (body : string) :
  api_Do env (length (calls w)) onboardURL onboardRequest = ApiResponse status body ->
  status <> 200 ->
  callOnboardAPI env w onboardRequest
  = (Err ("onboard API returned status " +:+ fmt_d status),
     {| calls := calls w ++ [(onboardURL, onboardRequest)]; slept := slept w |}).
Proof.
  intros Hdo Hs. unfold callOnboardAPI, apiCall. rewrite Hdo.
  apply Z.eqb_neq in Hs. now rewrite Hs.
Qed.

Lemma afterOnboardCalls_S (w : Wire) (k : nat) :
  afterOnboardCalls
    (sleepSeconds {| calls := calls w ++ [(onboardURL, onboardRequest)];
                     slept := slept w |} 2) k
  = afterOnboardCalls w (S k).
Proof.
  unfold afterOnboardCalls, sleepSeconds. cbn [calls slept]. f_equal.
  - rewrite <- app_assoc. reflexivity.
  - lia.
Qed.

(** [k] incomplete answers use up [k] iterations, [k] calls and [2k]
    seconds. *)
Lemma onboardLoop_skip (k : nat) :
  forall fuel w,
    (forall j, (j < k)%nat -> onboardIncompleteAt env (length (calls w) + j)) ->
    onboardLoop env (k + fuel) w = onboardLoop env fuel (afterOnboardCalls w k).
Proof.
  induction k as [|k IH]; intros fuel w Hinc.
  - assert (E : afterOnboardCalls w 0 = w).
    { unfold afterOnboardCalls. destruct w as [cs sl]. cbn [calls slept repeat].
      rewrite app_nil_r. f_equal. lia. }
    now rewrite E.
  - change (S k + fuel)%nat with (S (k + fuel)). cbn [onboardLoop].
    rewrite callOnboardAPI_incomplete.
    2:{ specialize (Hinc 0%nat ltac:(lia)). now rewrite Nat.add_0_r in Hinc. }
    cbn [String.eqb negb]. rewrite IH.
    + now rewrite afterOnboardCalls_S.
    + intros j Hj. cbn [calls sleepSeconds]. rewrite length_app. simpl.
      specialize (Hinc (S j) ltac:(lia)).
      now replace (length (calls w) + 1 + j)%nat with (length (calls w) + S j)%nat by lia.
Qed.

Lemma afterOnboardCalls_length (w : Wire) (k : nat) :
  length (calls (afterOnboardCalls w k)) = (length (calls w) + k)%nat.
Proof. unfold afterOnboardCalls. cbn [calls]. now rewrite length_app, repeat_length. Qed.

Lemma onboardLoop_bound (fuel : nat) :
  forall w, (length (calls (snd (onboardLoop env fuel w))) <= length (calls w) + fuel)%nat.
Proof.
  induction fuel as [|fuel IH]; intros w; cbn [onboardLoop].
  - simpl. lia.
  - destruct (callOnboardAPI env w onboardRequest) as [r w1] eqn:E.
    assert (Hw1 : length (calls w1) = S (length (calls w))).
    { unfold callOnboardAPI, apiCall in E.
      destruct (api_Do env _ _ _) as [e|status body].
      - injection E as _ <-. cbn. rewrite length_app. simpl. lia.
      - destruct (negb (status =? 200)).
        + injection E as _ <-. cbn. rewrite length_app. simpl. lia.
        + destruct (json_Decode_onboard env body) as [[done id]|e].
          * destruct (done && negb (String.eqb id EmptyString));
              injection E as _ <-; cbn; rewrite length_app; simpl; lia.
          * injection E as _ <-. cbn. rewrite length_app. simpl. lia. }
    destruct r as [projectID|e]; [|simpl; lia].
    destruct (negb (String.eqb projectID EmptyString)); [simpl; lia|].
    specialize (IH (sleepSeconds w1 2)). cbn [sleepSeconds calls] in IH. lia.
Qed.

(** The wire after the two load calls that precede the onboarding loop. *)
Lemma callCodeAssistAPI_wire (w : Wire) (method : string) (body : Json) :
  snd (callCodeAssistAPI env w method body)
  = {| calls := calls w ++ [(CodeAssistEndpoint +:+ "/" +:+ CodeAssistAPIVersion
                               +:+ ":" +:+ method, body)];
       slept := slept w |}.
Proof.
  unfold callCodeAssistAPI, apiCall.
  destruct (api_Do env _ _ _) as [e|status rbody]; [reflexivity|].
  destruct (negb (status =? 200)); [reflexivity|].
  destruct (json_Decode_load env rbody); reflexivity.
Qed.

Lemma discover_enters_onboarding (g : GoogleAuth) (w : Wire) :
  (exists t, currentTokens g = Some t /\ token_Valid env t = true) ->
  (forall p, fst (callCodeAssistAPI env w "loadCodeAssist" pluginMetadata) = Ok p ->
             p = EmptyString) ->
  exists w2,
    length (calls w2) = (length (calls w) + 2)%nat /\ slept w2 = slept w /\
    DiscoverProjectID env g w =
    (match fst (onboardLoop env 10 w2) with
     | Err e => Err ("could not discover a valid Google Cloud Project ID: " +:+ e)
     | Ok projectID => Ok projectID
     end, snd (onboardLoop env 10 w2)).
Proof.
  intros (t & Hcur & Hvalid) Hload.
  exists (snd (callCodeAssistAPI env
                 (snd (callCodeAssistAPI env w "loadCodeAssist" pluginMetadata))
                 "loadCodeAssist" pluginMetadata)).
  rewrite !callCodeAssistAPI_wire. cbn [calls slept].
  split; [|split; [reflexivity|]].
  - rewrite !length_app. simpl. lia.
  - unfold DiscoverProjectID. rewrite Hcur, Hvalid. cbn [negb].
    pose proof (callCodeAssistAPI_wire w "loadCodeAssist" pluginMetadata) as Hw1.
    destruct (callCodeAssistAPI env w "loadCodeAssist" pluginMetadata) as [r w1] eqn:E1.
    cbn [snd] in Hw1. subst w1. unfold onboardUser.
    match goal with
    | |- context [callCodeAssistAPI env ?w1 "loadCodeAssist" pluginMetadata] =>
        pose proof (callCodeAssistAPI_wire w1 "loadCodeAssist" pluginMetadata) as Hw2;
        destruct (callCodeAssistAPI env w1 "loadCodeAssist" pluginMetadata)
          as [r2 w2] eqn:E2
    end.
    cbn [snd calls slept] in Hw2. subst w2.
    match goal with
    | |- context [onboardLoop env 10 ?w2] => destruct (onboardLoop env 10 w2) as [r3 w3]
    end.
    cbn [fst snd].
    destruct r as [p|e]; [rewrite (Hload p) by reflexivity; cbn [String.eqb negb]|];
      destruct r3; reflexivity.
Qed.

(** Any non-200 answer fails the call it answers, at once. *)
Lemma discovery_call_non200 (w : Wire) (method : string) (body : Json)
    (status : Z) (rbody : string) :
  status <> 200 ->
  (api_Do env (length (calls w))
          (CodeAssistEndpoint +:+ "/" +:+ CodeAssistAPIVersion +:+ ":" +:+ method) body
   = ApiResponse status rbody ->
   fst (callCodeAssistAPI env w method body)
   = Err ("API returned status " +:+ fmt_d status)) /\
  (api_Do env (length (calls w)) onboardURL body = ApiResponse status rbody ->
   fst (callOnboardAPI env w body)
   = Err ("onboard API returned status " +:+ fmt_d status)).
Proof.
  intros Hs. apply Z.eqb_neq in Hs. split; intros Hdo.
  - unfold callCodeAssistAPI, apiCall. now rewrite Hdo, Hs.
  - unfold callOnboardAPI, apiCall. now rewrite Hdo, Hs.
Qed.

(** C6: when the token is valid and the first load call yields no project
    id, discovery makes at most 10 onboarding calls.  If the first [k]
    of them (k < 10) are incomplete and the next one reports completion
    with a non-empty id, discovery returns that id after [k + 1]
    onboarding calls and [2k] seconds of sleep; a status other than 200
    on an onboarding call ends discovery with that call's error, without
    a further call; ten incomplete answers end in the time-out error
    after 20 seconds of sleep.  On any discovery call, load or onboard, a
    status other than 200 makes that call return an error at once. *)
Theorem discovery_onboarding_loop (g : GoogleAuth) (w : Wire) :
  (exists t, currentTokens g = Some t /\ token_Valid env t = true) ->
  (forall p, fst (callCodeAssistAPI env w "loadCodeAssist" pluginMetadata) = Ok p ->
             p = EmptyString) ->
  let base := (length (calls w) + 2)%nat in
  let '(r, w') := DiscoverProjectID env g w in
  (length (calls w') <= base + 10)%nat /\
  (forall k id, (k < 10)%nat ->
      (forall j, (j < k)%nat -> onboardIncompleteAt env (base + j)) ->
      onboardDoneAt env (base + k) id ->
      r = Ok id /\ length (calls w') = (base + k + 1)%nat /\
      slept w' = slept w + 2 * Z.of_nat k) /\
  (forall k status body, (k < 10)%nat ->
      (forall j, (j < k)%nat -> onboardIncompleteAt env (base + j)) ->
      api_Do env (base + k) onboardURL onboardRequest = ApiResponse status body ->
      status <> 200 ->
      r = Err ("could not discover a valid Google Cloud Project ID: "
                 +:+ "onboard API returned status " +:+ fmt_d status) /\
      length (calls w') = (base + k + 1)%nat) /\
  ((forall j, (j < 10)%nat -> onboardIncompleteAt env (base + j)) ->
   r = Err ("could not discover a valid Google Cloud Project ID: "
              +:+ "onboarding process timed out") /\
   length (calls w') = (base + 10)%nat /\ slept w' = slept w + 20) /\
  (forall w0 method body status rbody,
      status <> 200 ->
      (api_Do env (length (calls w0))
              (CodeAssistEndpoint +:+ "/" +:+ CodeAssistAPIVersion +:+ ":" +:+ method)
              body = ApiResponse status rbody ->
       fst (callCodeAssistAPI env w0 method body)
       = Err ("API returned status " +:+ fmt_d status)) /\
      (api_Do env (length (calls w0)) onboardURL body = ApiResponse status rbody ->
       fst (callOnboardAPI env w0 body)
       = Err ("onboard API returned status " +:+ fmt_d status))).
Proof.
  intros Htok Hload base.
  destruct (discover_enters_onboarding g w Htok Hload) as (w2 & Hlen & Hslept & ->).
  fold base in Hlen.
  split; [|split; [|split; [|split]]];
    [| | | |intros w0 method body status rbody; apply discovery_call_non200].
  - pose proof (onboardLoop_bound 10 w2). lia.
  - intros k id Hk Hinc Hdone.
    assert (E : onboardLoop env 10 w2
                = onboardLoop env (S (9 - k)) (afterOnboardCalls w2 k)).
    { replace 10%nat with (k + S (9 - k))%nat by lia.
      apply onboardLoop_skip. intros j Hj. rewrite Hlen. now apply Hinc. }
    rewrite E.
    cbn [onboardLoop]. rewrite (callOnboardAPI_done _ id)
      by (rewrite afterOnboardCalls_length, Hlen; exact Hdone).
    destruct Hdone as (_ & _ & _ & Hid). apply String.eqb_neq in Hid. rewrite Hid.
    cbn [negb fst snd calls slept afterOnboardCalls].
    split; [reflexivity|]. split.
    + rewrite !length_app, repeat_length, Hlen. simpl. lia.
    + now rewrite Hslept.
  - intros k status body Hk Hinc Hdo Hs.
    assert (E : onboardLoop env 10 w2
                = onboardLoop env (S (9 - k)) (afterOnboardCalls w2 k)).
    { replace 10%nat with (k + S (9 - k))%nat by lia.
      apply onboardLoop_skip. intros j Hj. rewrite Hlen. now apply Hinc. }
    rewrite E.
    cbn [onboardLoop]. rewrite (callOnboardAPI_status _ status body)
      by (try rewrite afterOnboardCalls_length, Hlen; assumption).
    cbn [fst snd calls afterOnboardCalls]. split; [reflexivity|].
    rewrite !length_app, repeat_length, Hlen. simpl. lia.
  - intros Hinc.
    assert (E : onboardLoop env 10 w2 = onboardLoop env 0 (afterOnboardCalls w2 10)).
    { apply (onboardLoop_skip 10 0 w2). intros j Hj. rewrite Hlen. now apply Hinc. }
    rewrite E.
    cbn [onboardLoop fst snd]. split; [reflexivity|].
    rewrite afterOnboardCalls_length. unfold afterOnboardCalls. cbn [slept].
    split; lia.
Qed.

End WithEnv.

(** *** The scenarios, evaluated *)

Lemma callback_path_derivation_witness :
  callbackPath (generateCallbackPath Fixtures.demoManager OAuthClientID)
  = "/oauth/callback/681255809395".
Proof.
  destruct callback_path_derivation as (H & _).
  rewrite H; [reflexivity|]. apply Nat.leb_le. reflexivity.
Defined.

Lemma initialize_first_valid_token_witness :
  snd (Initialize Fixtures.demoAuthEnv Fixtures.demoManager) = None /\
  currentTokens (fst (Initialize Fixtures.demoAuthEnv Fixtures.demoManager))
  = Some {| AccessToken := "abc"; TokenType := "Bearer";
            RefreshToken := EmptyString; Expiry := 0 |} /\
  initialized (fst (Initialize Fixtures.demoAuthEnv Fixtures.demoManager)) = true.
Proof.
  destruct (initialize_first_valid_token Fixtures.demoAuthEnv
              (Some {| Cfg_RedirectURL := "http://localhost:8081";
                       Cfg_OAuthTokens := [ "!!!"; "garbage"; "access_token=abc";
                                            "access_token=xyz" ];
                       Cfg_ProjectID := EmptyString;
                       Cfg_Location := EmptyString |})) as (H & _ & _).
  destruct (H [ "!!!"; "garbage" ] "access_token=abc" [ "access_token=xyz" ]
              {| AccessToken := "abc"; TokenType := "Bearer";
                 RefreshToken := EmptyString; Expiry := 0 |})
    as (He & Hc & Hi & _).
  - reflexivity.
  - repeat constructor.
  - reflexivity.
  - split; [exact He|]. split; [exact Hc | exact Hi].
Defined.

Lemma callback_contract_witness :
  StatusCode
    (fst (handleOAuthCallback Fixtures.demoAuthEnv Fixtures.demoManager
            (Fixtures.callbackRequest "/oauth/callback/681255809395"
                                      [ ("error", [ "access_denied" ]) ])))
  = 400 /\
  snd (handleOAuthCallback Fixtures.demoAuthEnv Fixtures.demoManager
         (Fixtures.callbackRequest "/oauth/callback/681255809395"
                                   [ ("error", [ "access_denied" ]) ]))
  = Fixtures.demoManager /\
  exists m,
    Body (fst (handleOAuthCallback Fixtures.demoAuthEnv Fixtures.demoManager
                 (Fixtures.callbackRequest "/oauth/callback/681255809395"
                                           [ ("error", [ "access_denied" ]) ])))
    = JsonObject m /\
    m !! "error" = Some "access_denied".
Proof.
  pose proof (callback_contract Fixtures.demoAuthEnv Fixtures.demoManager
                (Fixtures.callbackRequest "/oauth/callback/681255809395"
                                          [ ("error", [ "access_denied" ]) ])) as H.
  destruct (handleOAuthCallback Fixtures.demoAuthEnv Fixtures.demoManager
              (Fixtures.callbackRequest "/oauth/callback/681255809395"
                                        [ ("error", [ "access_denied" ]) ]))
    as [resp g'].
  destruct H as (_ & H & _).
  destruct H as (Hs & Hg & _ & Hm); [reflexivity | discriminate |].
  cbn [fst snd]. auto.
Defined.

(** C2, as stated, fails: the response to a request on another path is the
    plain text written by [http.Error], not a JSON payload; the 204
    response to a request without a code has no body at all; and an
    [error] parameter that is present but empty is not answered 400. *)
Lemma callback_bodies_not_all_json :
  Body (fst (handleOAuthCallback Fixtures.demoAuthEnv Fixtures.demoManager
               (Fixtures.callbackRequest "/wrong/path" [])))
  = PlainText ("Invalid callback path: /wrong/path, expected: /oauth/callback/681255809395"
                 +:+ String "010"%char EmptyString)
  /\ ~ (exists status, statusPayload
          (Body (fst (handleOAuthCallback Fixtures.demoAuthEnv Fixtures.demoManager
                        (Fixtures.callbackRequest "/wrong/path" [])))) status)
  /\ Body (fst (handleOAuthCallback Fixtures.demoAuthEnv Fixtures.demoManager
                  (Fixtures.callbackRequest "/oauth/callback/681255809395" [])))
     = NoBody
  /\ ~ (exists status, statusPayload
          (Body (fst (handleOAuthCallback Fixtures.demoAuthEnv Fixtures.demoManager
                        (Fixtures.callbackRequest "/oauth/callback/681255809395" []))))
          status)
  /\ StatusCode
       (fst (handleOAuthCallback Fixtures.demoAuthEnv Fixtures.demoManager
               (Fixtures.callbackRequest "/oauth/callback/681255809395"
                                         [ ("error", [ EmptyString ]) ])))
     = 204.
Proof.
  split; [reflexivity|]. split; [|split; [reflexivity|split; [|reflexivity]]].
  - intros (status & m & Hm & _). vm_compute in Hm. discriminate Hm.
  - intros (status & m & Hm & _). vm_compute in Hm. discriminate Hm.
Qed.

Lemma discovery_onboarding_loop_witness :
  fst (DiscoverProjectID Fixtures.demoAuthEnv Fixtures.authorizedManager Fixtures.freshWire)
  = Ok "123456789012" /\
  slept (snd (DiscoverProjectID Fixtures.demoAuthEnv Fixtures.authorizedManager
                                Fixtures.freshWire)) = 18.
Proof.
  pose proof (discovery_onboarding_loop Fixtures.demoAuthEnv Fixtures.authorizedManager
                Fixtures.freshWire) as H.
  destruct (DiscoverProjectID Fixtures.demoAuthEnv Fixtures.authorizedManager
                              Fixtures.freshWire) as [r w'].
  destruct H as (_ & Hdone & _).
  - exists Fixtures.demoToken. split; reflexivity.
  - intros p Hp. vm_compute in Hp. now injection Hp as <-.
  - destruct (Hdone 9%nat "123456789012") as (Hr & _ & Hs).
    + lia.
    + intros j Hj. exists "pending", false, EmptyString.
      do 9 (destruct j as [|j]; [repeat split|]). lia.
    + exists "done". repeat split. discriminate.
    + cbn [fst snd]. split; [exact Hr|]. rewrite Hs. reflexivity.
Defined.

Example callback_success_stores_token :
  let out := handleOAuthCallback Fixtures.demoAuthEnv Fixtures.demoManager
               (Fixtures.callbackRequest "/oauth/callback/681255809395"
                                         [ ("code", [ "4/valid" ]) ]) in
  StatusCode (fst out) = 200 /\ currentTokens (snd out) = Some Fixtures.demoToken /\
  initialized (snd out) = false /\ authComplete (snd out) = Some true.
Proof. vm_compute. auto. Qed.

Example callback_exchange_failure :
  let out := handleOAuthCallback Fixtures.demoAuthEnv Fixtures.demoManager
               (Fixtures.callbackRequest "/oauth/callback/681255809395"
                                         [ ("code", [ "4/expired" ]) ]) in
  StatusCode (fst out) = 500 /\ snd out = Fixtures.demoManager.
Proof. split; reflexivity. Qed.

Example constructed_manager :
  callbackPath Fixtures.demoManager = "/oauth/callback/681255809395" /\
  clientBinding Fixtures.demoManager = OAuthClientID /\
  RedirectURL (oauthConfig Fixtures.demoManager)
  = "http://localhost:8081/oauth/callback/681255809395" /\
  initialized Fixtures.demoManager = false /\
  currentTokens Fixtures.demoManager = None.
Proof. repeat split. Qed.

(** The short identifier of TestGenerateCallbackPath. *)
Example callback_path_of_short_identifier :
  callbackPath (generateCallbackPath Fixtures.demoManager "short")
  = "/oauth/callback/4f09daa9d95b".
Proof. vm_compute. reflexivity. Qed.

Example md5_test_vectors :
  hex_EncodeToString (md5_Sum EmptyString) = "d41d8cd98f00b204e9800998ecf8427e" /\
  hex_EncodeToString (md5_Sum "abc") = "900150983cd24fb0d6963f7d28e17f72" /\
  hex_EncodeToString (md5_Sum "The quick brown fox jumps over the lazy dog")
  = "9e107d9d372bb6826bd81d3542a419d6".
Proof. vm_compute. auto. Qed.

Example initialize_without_tokens :
  Initialize Fixtures.demoAuthEnv (NewGoogleAuth Fixtures.demoAuthEnv None)
  = (NewGoogleAuth Fixtures.demoAuthEnv None, Some authRequiredMessage).
Proof. reflexivity. Qed.

Example discovery_scenario_wire :
  let out := DiscoverProjectID Fixtures.demoAuthEnv Fixtures.authorizedManager
                               Fixtures.freshWire in
  length (calls (snd out)) = 12%nat /\ slept (snd out) = 18.
Proof. vm_compute. auto. Qed.


(** *** The life of a manager *)

Section Life.
Variable env : Env.

(** A step other than [Initialize] leaves the initialization alone. *)
Lemma call_keeps_source (g : GoogleAuth) (op : ManagerCall) :
  isInitialize op = false ->
  initialized (call env g op) = initialized g /\
  tokenSource (call env g op) = tokenSource g.
Proof.
  destruct op as [|r|r|clientID token|callback|tokenBase64]; intros Hop;
    try discriminate; cbn [call].
  - unfold handleOAuthCallback.
    destruct (negb (String.eqb (Path r) (callbackPath g))); [now split|].
    destruct (negb (String.eqb (Query_Get r "error") EmptyString)); [now split|].
    destruct (String.eqb (Query_Get r "code") EmptyString); [now split|].
    destruct (oauth_Exchange env (oauthConfig g) (Query_Get r "code")) as [t|e];
      [|now split].
    cbn [snd]. destruct (onTokenReceived (with_currentTokens g (Some t))); now split.
  - unfold handleOAuthDebug, handleOAuthCallback.
    destruct (HasPrefix (Path r) (callbackPath g)); [|now split].
    destruct (negb (String.eqb (Path r) (callbackPath g))); [now split|].
    destruct (negb (String.eqb (Query_Get r "error") EmptyString)); [now split|].
    destruct (String.eqb (Query_Get r "code") EmptyString); [now split|].
    destruct (oauth_Exchange env (oauthConfig g) (Query_Get r "code")) as [t|e];
      [|now split].
    cbn [snd]. destruct (onTokenReceived (with_currentTokens g (Some t))); now split.
  - unfold runTokenCallback. destruct (onTokenReceived g) as [save|]; [|now split].
    destruct (save clientID token) as [err|]; [|now split].
    destruct (Contains err fatalPhrase); now split.
  - now split.
  - now split.
Qed.

Lemma loadFirstToken_keeps_source (toks : list string) :
  forall g,
    initialized (loadFirstToken env g toks) = initialized g /\
    tokenSource (loadFirstToken env g toks) = tokenSource g.
Proof.
  induction toks as [|tok rest IH]; intros g; [now split|].
  cbn [loadFirstToken]. unfold loadTokenFromBase64.
  destruct (base64_DecodeString env tok) as [decoded|e]; [|apply IH].
  destruct (json_Unmarshal_token env decoded) as [token|e]; [|apply IH].
  destruct (String.eqb (AccessToken token) EmptyString); [apply IH | now split].
Qed.

(** Every step keeps a source under an initialized manager, and an
    initialized manager keeps its source. *)
Lemma call_sound (g : GoogleAuth) (op : ManagerCall) :
  (initialized g = true -> is_Some (tokenSource g)) ->
  (initialized (call env g op) = true -> is_Some (tokenSource (call env g op))) /\
  (initialized g = true ->
   initialized (call env g op) = true /\ tokenSource (call env g op) = tokenSource g).
Proof.
  intros Hinv. destruct (isInitialize op) eqn:Hop.
  - destruct op; try discriminate. cbn [call]. unfold Initialize.
    destruct (initialized g) eqn:Hi.
    { cbn [fst]. split; [intros _; now apply Hinv | now split]. }
    split; [|discriminate].
    destruct (currentTokens (loadFirstToken env g (tokens g))) as [t|] eqn:Hcur;
      cbn [fst].
    + intros _. cbn. eauto.
    + destruct (loadFirstToken_keeps_source (tokens g) g) as [-> _]. congruence.
  - destruct (call_keeps_source g op Hop) as [-> ->]. now split.
Qed.

Lemma callAll_sound (ops : list ManagerCall) :
  forall g,
    (initialized g = true -> is_Some (tokenSource g)) ->
    (initialized (callAll env g ops) = true -> is_Some (tokenSource (callAll env g ops))) /\
    (initialized g = true ->
     initialized (callAll env g ops) = true /\
     tokenSource (callAll env g ops) = tokenSource g).
Proof.
  induction ops as [|op ops IH]; intros g Hinv; [now split|].
  change (callAll env g (op :: ops)) with (callAll env (call env g op) ops).
  destruct (call_sound g op Hinv) as [Hinv' Hkeep].
  destruct (IH _ Hinv') as [Hafter Hfrozen]. split; [exact Hafter|].
  intros Hi. destruct (Hkeep Hi) as [Hi' Hs]. destruct (Hfrozen Hi') as [Hi'' Hs'].
  split; [exact Hi''|congruence].
Qed.

Lemma callAll_uninitialized (ops : list ManagerCall) :
  forall g,
    forallb (fun op => negb (isInitialize op)) ops = true ->
    initialized (callAll env g ops) = initialized g.
Proof.
  induction ops as [|op ops IH]; intros g Hops; [reflexivity|].
  cbn [forallb] in Hops. apply andb_true_iff in Hops as [Hop Hops].
  change (callAll env g (op :: ops)) with (callAll env (call env g op) ops).
  rewrite IH by exact Hops. apply call_keeps_source. now destruct (isInitialize op).
Qed.

(** X25: the life of a credential manager.  Take a manager built by
    [NewGoogleAuth] and let any sequence of [Initialize] calls, callback
    and debug requests, callback goroutines and setter calls act on it.
    Then [GetToken] and [Health] never panic: an initialized manager
    always holds a token source.  Only [Initialize] initializes: whatever
    the callbacks have received, a manager on which [Initialize] was not
    called answers [GetToken] with "authentication not initialized", even
    when it holds a valid token.  And an initialized manager keeps the
    source it was initialized with: later steps, a successful callback
    with a fresh token included, change neither the source nor what
    [GetToken] answers.  The persistence callback is taken as the manager
    holds it here: a function that reports an error or nil and does not
    itself act on the manager (the one gemini.go installs saves the
    configuration and runs the discovery, which only read it). *)
Theorem manager_life (source_Token : TokenSource -> result Token)
    (authConfig : option GoogleAuthConfig) (ops : list ManagerCall) :
  let g := callAll env (NewGoogleAuth env authConfig) ops in
  GetToken source_Token g <> None /\
  Health env source_Token g <> None /\
  (forallb (fun op => negb (isInitialize op)) ops = true ->
   initialized g = false /\
   GetToken source_Token g = Some (Err "authentication not initialized") /\
   Health env source_Token g = Some (Some "authentication not initialized")) /\
  (initialized g = true ->
   forall later,
     initialized (callAll env g later) = true /\
     tokenSource (callAll env g later) = tokenSource g /\
     GetToken source_Token (callAll env g later) = GetToken source_Token g).
Proof.
  intros g.
  assert (Hnew : initialized (NewGoogleAuth env authConfig) = false).
  { unfold NewGoogleAuth, generateCallbackPath.
    destruct (String.length OAuthClientID <? 12)%nat; reflexivity. }
  assert (Hinv : initialized g = true -> is_Some (tokenSource g)).
  { apply callAll_sound. rewrite Hnew. discriminate. }
  assert (Htoken : GetToken source_Token g <> None).
  { unfold GetToken. destruct (initialized g) eqn:Hi; [|discriminate]. cbn [negb].
    destruct (Hinv eq_refl) as [src ->]. destruct (source_Token src); discriminate. }
  split; [exact Htoken|]. split; [|split].
  - unfold Health. destruct (initialized g); [|discriminate]. cbn [negb].
    destruct (GetToken source_Token g) as [[token|e]|]; [|discriminate|contradiction].
    destruct (negb (token_Valid env token)); discriminate.
  - intros Hops.
    assert (Hi : initialized g = false)
      by (unfold g; rewrite callAll_uninitialized by exact Hops; exact Hnew).
    unfold Health, GetToken. now rewrite Hi.
  - intros Hi later. destruct (callAll_sound later g Hinv) as [_ Hfrozen].
    destruct (Hfrozen Hi) as [Hi' Hs]. split; [exact Hi'|]. split; [exact Hs|].
    unfold GetToken. now rewrite Hi', Hi, Hs.
Qed.

(** X26: the debug handler, which serves every path under /oauth/.  A
    request for the bound callback path is answered by the callback
    handler.  A request for a longer path that starts with the callback
    path is refused by the callback handler with 400, the manager
    unchanged.  Every other request is answered 200 with a JSON object
    that tells the bound callback path and the client binding, the manager
    unchanged; for a manager built by [NewGoogleAuth] the binding is the
    whole OAuth client id, of which the [client_id] member shows only the
    first 20 characters. *)
Theorem oauth_debug_routing (g : GoogleAuth) (r : CallbackRequest) :
  (Path r = callbackPath g -> handleOAuthDebug env g r = handleOAuthCallback env g r) /\
  (HasPrefix (Path r) (callbackPath g) = true -> Path r <> callbackPath g ->
   handleOAuthDebug env g r
   = (http_Error ("Invalid callback path: " +:+ Path r +:+ ", expected: "
                    +:+ callbackPath g) 400, g)) /\
  (HasPrefix (Path r) (callbackPath g) = false ->
   exists m,
     handleOAuthDebug env g r
     = ({| StatusCode := 200; Header := jsonHeader; Body := JsonObject m |}, g) /\
     m !! "status" = Some "debug" /\
     m !! "expected_callback_path" = Some (callbackPath g) /\
     m !! "current_request_path" = Some (Path r) /\
     m !! "client_binding" = Some (clientBinding g) /\
     m !! "client_id" = Some "681255809395-oo8ft2o...") /\
  (forall authConfig,
      clientBinding (NewGoogleAuth env authConfig) = OAuthClientID /\
      String.length OAuthClientID = 72%nat).
Proof.
  split; [|split; [|split]].
  - intros Hpath. unfold handleOAuthDebug, HasPrefix. rewrite Hpath.
    assert (Hself : forall s, String.prefix s s = true)
      by (induction s as [|a s IH]; [reflexivity|];
          cbn [String.prefix]; destruct (Ascii.ascii_dec a a); [exact IH|contradiction]).
    now rewrite Hself.
  - intros Hprefix Hpath. unfold handleOAuthDebug. rewrite Hprefix.
    unfold handleOAuthCallback. apply String.eqb_neq in Hpath. now rewrite Hpath.
  - intros Hprefix. unfold handleOAuthDebug. rewrite Hprefix.
    eexists. split; [reflexivity|]. repeat split.
  - intros authConfig. split; [|reflexivity].
    unfold NewGoogleAuth, generateCallbackPath.
    destruct (String.length OAuthClientID <? 12)%nat; reflexivity.
Qed.

End Life.

(** *** Discovery, whatever the backend answers *)

Section Discovery.
Variable env : Env.

Lemma callOnboardAPI_wire (w : Wire) (body : Json) :
  snd (callOnboardAPI env w body)
  = {| calls := calls w ++ [(onboardURL, body)]; slept := slept w |}.
Proof.
  unfold callOnboardAPI, apiCall.
  destruct (api_Do env _ _ _) as [e|status rbody]; [reflexivity|].
  destruct (negb (status =? 200)); [reflexivity|].
  destruct (json_Decode_onboard env rbody) as [[done id]|e]; [|reflexivity].
  destruct (done && negb (String.eqb id EmptyString)); reflexivity.
Qed.

(** The loop makes onboarding calls only, sleeps 2 seconds after each
    incomplete one, and succeeds with a named project only. *)
Lemma onboardLoop_trace (fuel : nat) :
  forall w,
    exists k,
      (k <= fuel)%nat /\
      calls (snd (onboardLoop env fuel w))
      = calls w ++ repeat (onboardURL, onboardRequest) k /\
      slept w <= slept (snd (onboardLoop env fuel w)) <= slept w + 2 * Z.of_nat k /\
      (forall id, fst (onboardLoop env fuel w) = Ok id -> id <> EmptyString).
Proof.
  induction fuel as [|fuel IH]; intros w; cbn [onboardLoop].
  - exists 0%nat. cbn [fst snd repeat]. rewrite app_nil_r.
    repeat split; [lia | lia | lia | discriminate].
  - pose proof (callOnboardAPI_wire w onboardRequest) as Hw.
    destruct (callOnboardAPI env w onboardRequest) as [r w1]. cbn [snd] in Hw. subst w1.
    destruct r as [projectID|e].
    + destruct (String.eqb projectID EmptyString) eqn:Hp; cbn [negb].
      * destruct (IH (sleepSeconds
                        {| calls := calls w ++ [(onboardURL, onboardRequest)];
                           slept := slept w |} 2)) as (k & Hk & Hcalls & Hslept & Hok).
        exists (S k). cbn [sleepSeconds calls slept] in *.
        split; [lia|]. split; [|split; [lia | exact Hok]].
        rewrite Hcalls, <- app_assoc. reflexivity.
      * exists 1%nat. cbn [fst snd calls slept repeat].
        split; [lia|]. split; [reflexivity|]. split; [lia|].
        intros id Hid. injection Hid as <-. now apply String.eqb_neq.
    + exists 1%nat. cbn [fst snd calls slept repeat].
      split; [lia|]. split; [reflexivity|]. split; [lia | discriminate].
Qed.

(** X27: project discovery, whatever the backend answers.  Without a valid
    current token no call is made.  Otherwise discovery makes one load
    call and, unless that call names a project, one more load call, whose
    outcome is ignored, and at most ten onboarding calls: never more than
    twelve calls in all, every one to the loadCodeAssist or the
    onboardUser method of the Code Assist endpoint, with at most 20
    seconds slept.  A success always names a project: the empty project
    id is never returned as a success.  When the first load call names a
    project, that project is the result, after this single call and
    without waiting. *)
Theorem discovery_outcome (g : GoogleAuth) (w : Wire) :
  let r := fst (DiscoverProjectID env g w) in
  let w' := snd (DiscoverProjectID env g w) in
  (IsAuthComplete env g = false ->
   r = Err "no valid OAuth token available for project discovery" /\ w' = w) /\
  (exists k,
      (k <= 10)%nat /\
      (calls w' = calls w
       \/ calls w' = calls w ++ [(loadURL, pluginMetadata)]
       \/ calls w' = calls w ++ [(loadURL, pluginMetadata); (loadURL, pluginMetadata)]
                             ++ repeat (onboardURL, onboardRequest) k)) /\
  (length (calls w') <= length (calls w) + 12)%nat /\
  slept w <= slept w' <= slept w + 20 /\
  (forall id, r = Ok id -> id <> EmptyString) /\
  (IsAuthComplete env g = true ->
   forall p, fst (callCodeAssistAPI env w "loadCodeAssist" pluginMetadata) = Ok p ->
             p <> EmptyString ->
             r = Ok p /\ calls w' = calls w ++ [(loadURL, pluginMetadata)] /\
             slept w' = slept w).
Proof.
  intros r w'.
  assert (Hshape :
    (IsAuthComplete env g = false ->
     r = Err "no valid OAuth token available for project discovery" /\ w' = w) /\
    (exists k,
        (k <= 10)%nat /\
        (calls w' = calls w /\ slept w' = slept w
         \/ calls w' = calls w ++ [(loadURL, pluginMetadata)] /\ slept w' = slept w
         \/ calls w' = calls w ++ [(loadURL, pluginMetadata); (loadURL, pluginMetadata)]
                               ++ repeat (onboardURL, onboardRequest) k
            /\ slept w <= slept w' <= slept w + 2 * Z.of_nat k)) /\
    (forall id, r = Ok id -> id <> EmptyString) /\
    (IsAuthComplete env g = true ->
     forall p, fst (callCodeAssistAPI env w "loadCodeAssist" pluginMetadata) = Ok p ->
               p <> EmptyString ->
               r = Ok p /\ calls w' = calls w ++ [(loadURL, pluginMetadata)] /\
               slept w' = slept w)).
  { subst r w'. unfold DiscoverProjectID, IsAuthComplete.
    destruct (match currentTokens g with
              | Some t => token_Valid env t
              | None => false
              end) eqn:Hvalid; cbn [negb].
    2:{ cbn [fst snd]. split; [now split|]. split; [|split; [discriminate|discriminate]].
        exists 0%nat. split; [lia|]. left. now split. }
    pose proof (callCodeAssistAPI_wire env w "loadCodeAssist" pluginMetadata) as Hw1.
    destruct (callCodeAssistAPI env w "loadCodeAssist" pluginMetadata) as [r1 w1].
    cbn [snd fst] in *. subst w1.
    set (w1 := {| calls := calls w ++ [(loadURL, pluginMetadata)]; slept := slept w |}).
    change (CodeAssistEndpoint +:+ "/" +:+ CodeAssistAPIVersion +:+ ":"
              +:+ "loadCodeAssist") with loadURL.
    fold w1.
    assert (Honboard :
      let out := (let '(r2, w2) := onboardUser env w1 in
                  match r2 with
                  | Err e => (Err ("could not discover a valid Google Cloud Project ID: "
                                     +:+ e), w2)
                  | Ok projectID => (Ok projectID, w2)
                  end) in
      (exists k,
          (k <= 10)%nat /\
          calls (snd out)
          = calls w ++ [(loadURL, pluginMetadata); (loadURL, pluginMetadata)]
                    ++ repeat (onboardURL, onboardRequest) k /\
          slept w <= slept (snd out) <= slept w + 2 * Z.of_nat k) /\
      (forall id, fst out = Ok id -> id <> EmptyString)).
    { unfold onboardUser.
      pose proof (callCodeAssistAPI_wire env w1 "loadCodeAssist" pluginMetadata) as Hw2.
      destruct (callCodeAssistAPI env w1 "loadCodeAssist" pluginMetadata) as [r2 w2].
      cbn [snd] in Hw2. subst w2.
      change (CodeAssistEndpoint +:+ "/" +:+ CodeAssistAPIVersion +:+ ":"
                +:+ "loadCodeAssist") with loadURL.
      match goal with
      | |- context [onboardLoop env 10 ?w2] =>
          destruct (onboardLoop_trace 10 w2) as (k & Hk & Hcalls & Hslept & Hok);
          destruct (onboardLoop env 10 w2) as [r3 w3]
      end.
      cbn [fst snd calls slept w1] in *. cbv zeta.
      assert (Hw3 : calls w3
                    = calls w ++ [(loadURL, pluginMetadata); (loadURL, pluginMetadata)]
                              ++ repeat (onboardURL, onboardRequest) k)
        by (rewrite Hcalls, <- !app_assoc; reflexivity).
      destruct r3 as [projectID|e]; cbn [fst snd].
      - split; [exists k; now repeat split|]. exact Hok.
      - split; [exists k; now repeat split|]. discriminate. }
    cbv zeta in Honboard.
    split; [discriminate|].
    destruct r1 as [projectID|e].
    - destruct (String.eqb projectID EmptyString) eqn:Hp; cbn [negb].
      + destruct Honboard as [(k & Hk & Hcalls & Hslept) Hok].
        split; [exists k; split; [exact Hk|]; right; right; now split|].
        split; [exact Hok|].
        intros _ p Hq Hne. injection Hq as <-. apply String.eqb_eq in Hp. contradiction.
      + cbn [fst snd]. split; [exists 0%nat; split; [lia|]; right; left; now split|].
        split.
        * intros id Hid. injection Hid as <-. now apply String.eqb_neq.
        * intros _ p Hq _. injection Hq as <-. now repeat split.
    - destruct Honboard as [(k & Hk & Hcalls & Hslept) Hok].
      split; [exists k; split; [exact Hk|]; right; right; now split|].
      split; [exact Hok|]. intros _ p Hq. discriminate. }
  destruct Hshape as (Hnone & (k & Hk & Hcalls) & Hok & Hfirst).
  split; [exact Hnone|]. split; [|split; [|split; [|split; [exact Hok | exact Hfirst]]]].
  - exists k. split; [exact Hk|].
    destruct Hcalls as [[H _]|[[H _]|[H _]]]; auto.
  - destruct Hcalls as [[H _]|[[H _]|[H _]]]; rewrite H;
      rewrite ?length_app, ?repeat_length; cbn [length]; lia.
  - destruct Hcalls as [[_ H]|[[_ H]|[_ H]]]; lia.
Qed.

End Discovery.

(** *** A token saved and loaded again *)

Section RoundTrip.
Variable env : Env.
Variable json_Marshal_token : Token -> result string.
Variable base64_EncodeToString : string -> string.

(** X30: a token saved and loaded again.  Let a manager hold the token
    [t], and let the encoders and the decoders agree on it (what is
    encoded decodes to what it was).  Then [GetTokenAsBase64] yields the
    text that is saved, and a manager later built by [NewGoogleAuth] with
    that text as its only persisted token is initialized by [Initialize]
    with the very token [t], a token source for it and no error; unless
    the access token of [t] is empty: such a token is saved without
    complaint but is refused when loaded, and [Initialize] then fails with
    the "authentication required" error, leaving the new manager
    uninitialized. *)
Theorem token_round_trip (g : GoogleAuth) (t : Token) (tokenJSON : string)
    (authConfig : GoogleAuthConfig) :
  currentTokens g = Some t ->
  json_Marshal_token t = Ok tokenJSON ->
  base64_DecodeString env (base64_EncodeToString tokenJSON) = Ok tokenJSON ->
  json_Unmarshal_token env tokenJSON = Ok t ->
  let saved := base64_EncodeToString tokenJSON in
  let g' := NewGoogleAuth env
              (Some {| Cfg_RedirectURL := Cfg_RedirectURL authConfig;
                       Cfg_OAuthTokens := [ saved ];
                       Cfg_ProjectID := Cfg_ProjectID authConfig;
                       Cfg_Location := Cfg_Location authConfig |}) in
  GetTokenAsBase64 json_Marshal_token base64_EncodeToString g = Ok saved /\
  (AccessToken t <> EmptyString ->
   Initialize env g'
   = (with_initialized (with_currentTokens g' (Some t))
                       (Config_TokenSource (oauthConfig g') t), None) /\
   initialized (fst (Initialize env g')) = true /\
   currentTokens (fst (Initialize env g')) = Some t) /\
  (AccessToken t = EmptyString ->
   Initialize env g' = (g', Some authRequiredMessage) /\ initialized g' = false).
Proof.
  intros Hcur Hmarshal Hdecode Hparse saved g'.
  split; [unfold GetTokenAsBase64; now rewrite Hcur, Hmarshal|].
  destruct (NewGoogleAuth_uninitialized env
              (Some {| Cfg_RedirectURL := Cfg_RedirectURL authConfig;
                       Cfg_OAuthTokens := [ saved ];
                       Cfg_ProjectID := Cfg_ProjectID authConfig;
                       Cfg_Location := Cfg_Location authConfig |}))
    as (Hinit & Hnone & _ & Htoks & _).
  fold g' in Hinit, Hnone, Htoks. cbn [Cfg_OAuthTokens] in Htoks.
  destruct (initialize_from_uninitialized env g' Hinit Hnone) as (Hfirst & Hfail & _).
  assert (Hsaved : parseToken env saved
                   = if String.eqb (AccessToken t) EmptyString then None else Some t)
    by (unfold parseToken, saved; now rewrite Hdecode, Hparse).
  split.
  - intros Haccess. apply String.eqb_neq in Haccess. rewrite Haccess in Hsaved.
    rewrite (Hfirst [] saved [] t Htoks ltac:(constructor) Hsaved). now repeat split.
  - intros Haccess. apply String.eqb_eq in Haccess. rewrite Haccess in Hsaved.
    split; [|exact Hinit]. apply Hfail. rewrite Htoks. now constructor.
Qed.

End RoundTrip.

Lemma token_round_trip_witness :
  GetTokenAsBase64 (fun t => Ok ("access_token=" +:+ AccessToken t)) (fun s => s)
    (with_currentTokens Fixtures.demoManager
       (Some {| AccessToken := "abc"; TokenType := "Bearer"; RefreshToken := EmptyString;
                Expiry := 0 |}))
  = Ok "access_token=abc"
  /\ currentTokens
       (fst (Initialize Fixtures.demoAuthEnv
               (NewGoogleAuth Fixtures.demoAuthEnv
                  (Some {| Cfg_RedirectURL := "http://localhost:8081";
                           Cfg_OAuthTokens := [ "access_token=abc" ];
                           Cfg_ProjectID := EmptyString;
                           Cfg_Location := EmptyString |}))))
     = Some {| AccessToken := "abc"; TokenType := "Bearer"; RefreshToken := EmptyString;
               Expiry := 0 |}.
Proof.
  destruct (token_round_trip Fixtures.demoAuthEnv
              (fun t => Ok ("access_token=" +:+ AccessToken t)) (fun s => s)
              (with_currentTokens Fixtures.demoManager
                 (Some {| AccessToken := "abc"; TokenType := "Bearer";
                          RefreshToken := EmptyString; Expiry := 0 |}))
              {| AccessToken := "abc"; TokenType := "Bearer"; RefreshToken := EmptyString;
                 Expiry := 0 |}
              "access_token=abc"
              {| Cfg_RedirectURL := "http://localhost:8081"; Cfg_OAuthTokens := [];
                 Cfg_ProjectID := EmptyString; Cfg_Location := EmptyString |}
              eq_refl eq_refl eq_refl eq_refl) as (Hsave & Hload & _).
  split; [exact Hsave|].
  destruct (Hload ltac:(discriminate)) as (_ & _ & Hcur). exact Hcur.
Defined.

End AuthFacts.

Module HandlerFacts.
Import GoStrings Models Converter Client Handler StringVocabulary ClientVocabulary.
Import HandlerVocabulary GoStringsFacts.

Section WithEnv.
Variable env : Handler.Env.

Lemma existsb_eqb (x : string) (keys : list string) :
  existsb (fun k => String.eqb x k) keys = true <-> In x keys.
Proof.
  rewrite existsb_exists. split.
  - intros (k & Hin & He). apply String.eqb_eq in He. now subst.
  - intros Hin. exists x. split; [exact Hin | apply String.eqb_refl].
Qed.

Lemma substring_append (p s : string) :
  substring (String.length p) (String.length (p +:+ s) - String.length p) (p +:+ s) = s.
Proof.
  induction p as [|x p IH].
  - rewrite append_nil_l. cbn [String.length]. rewrite Nat.sub_0_r.
    induction s as [|y s IHs]; [reflexivity|].
    cbn [String.length substring]. now rewrite IHs.
  - rewrite append_cons. cbn [String.length substring Nat.sub]. exact IH.
Qed.

(** A bearer header carries the key [k] exactly when it is "Bearer "
    followed by [k]. *)
Lemma bearer_token (authHeader k : string) :
  (negb (String.eqb authHeader EmptyString) && HasPrefix authHeader "Bearer ") = true /\
  TrimPrefix authHeader "Bearer " = k
  <-> authHeader = "Bearer " +:+ k.
Proof.
  split.
  - intros [H Ht]. apply andb_true_iff in H as [_ Hp]. unfold TrimPrefix in Ht.
    rewrite Hp in Ht. unfold HasPrefix in Hp.
    destruct (prefix_split _ _ Hp) as [post ->].
    rewrite substring_append in Ht. now subst.
  - intros ->. unfold TrimPrefix, HasPrefix. rewrite prefix_append.
    split; [reflexivity|]. apply substring_append.
Qed.

Lemma passes_iff (s : ServerConfig) (r : Request) :
  ((length (APIKeys s) =? 0)%nat
   || (String.eqb (In_Path r) "/health" || HasPrefix (In_Path r) "/oauth/")
   || ((negb (String.eqb (Header_Get r "Authorization") EmptyString)
        && HasPrefix (Header_Get r "Authorization") "Bearer ")
       && existsb (fun apiKey =>
                     String.eqb (TrimPrefix (Header_Get r "Authorization") "Bearer ") apiKey)
                  (APIKeys s))
   || existsb (fun k => String.eqb (Header_Get r "X-Api-Key") k) (APIKeys s)
   || existsb (fun k => String.eqb (Header_Get r "X-Goog-Api-Key") k) (APIKeys s)
   || existsb (fun k => String.eqb (Query_Get r "key") k) (APIKeys s)) = true
  <-> exempt s r \/ exists k, In k (APIKeys s) /\ presents r k.
Proof.
  unfold exempt, presents. rewrite !orb_true_iff, !andb_true_iff, !existsb_eqb.
  rewrite Nat.eqb_eq, String.eqb_eq. split.
  - intros [[[[[H|[H|H]]|[H Hin]]|H]|H]|H].
    + left. left. now destruct (APIKeys s).
    + left. right. now left.
    + left. right. now right.
    + right. eexists. split; [exact Hin|]. left.
      apply bearer_token. split; [apply andb_true_iff; exact H | reflexivity].
    + right. eexists. split; [exact H|]. right. now left.
    + right. eexists. split; [exact H|]. right. right. now left.
    + right. eexists. split; [exact H|]. right. right. now right.
  - intros [[H|[H|H]]|(k & Hin & [H|[H|[H|H]]])].
    + left. left. left. left. left. now rewrite H.
    + left. left. left. left. right. now left.
    + left. left. left. left. right. now right.
    + left. left. left. right. apply bearer_token in H as [H1 H2]. rewrite H2.
      split; [now apply andb_true_iff | exact Hin].
    + left. left. right. now rewrite H.
    + left. right. now rewrite H.
    + right. now rewrite H.
Qed.

(** X22: the API-key gate.  A request goes on to the handler, untouched,
    exactly when no key is asked of it (none is configured, or the path is
    /health or under /oauth/) or it presents a configured key, as a bearer
    token, in the X-API-Key or x-goog-api-key header, or as the [key]
    query parameter.  Every other request is answered 401 with the
    "unauthorized" error and the handler is not called.  In particular,
    when every configured key is non-empty, a request to a guarded path
    that carries none of the four credentials is refused. *)
Theorem api_key_gate (s : ServerConfig) (r : Request) (w : Writer) :
  let allowed := exempt s r \/ exists k, In k (APIKeys s) /\ presents r k in
  (allowed -> forall next, authMiddleware env s next r w = next r w) /\
  (~ allowed ->
   forall next,
     authMiddleware env s next r w
     = Some (writeErrorResponse env w 401 "unauthorized" unauthorizedMessage)) /\
  (APIKeys s <> [] -> Forall (fun k => k <> EmptyString) (APIKeys s) ->
   In_Path r <> "/health" -> HasPrefix (In_Path r) "/oauth/" = false ->
   Header_Get r "Authorization" = EmptyString -> Header_Get r "X-Api-Key" = EmptyString ->
   Header_Get r "X-Goog-Api-Key" = EmptyString -> Query_Get r "key" = EmptyString ->
   ~ allowed).
Proof.
  intros allowed. pose proof (passes_iff s r) as Hiff. fold allowed in Hiff.
  assert (Hrun : forall next,
             authMiddleware env s next r w
             = if ((length (APIKeys s) =? 0)%nat
                   || (String.eqb (In_Path r) "/health" || HasPrefix (In_Path r) "/oauth/")
                   || ((negb (String.eqb (Header_Get r "Authorization") EmptyString)
                        && HasPrefix (Header_Get r "Authorization") "Bearer ")
                       && existsb (fun apiKey =>
                                     String.eqb (TrimPrefix (Header_Get r "Authorization")
                                                            "Bearer ") apiKey)
                                  (APIKeys s))
                   || existsb (fun k => String.eqb (Header_Get r "X-Api-Key") k) (APIKeys s)
                   || existsb (fun k => String.eqb (Header_Get r "X-Goog-Api-Key") k)
                              (APIKeys s)
                   || existsb (fun k => String.eqb (Query_Get r "key") k) (APIKeys s))
               then next r w
               else Some (writeErrorResponse env w 401 "unauthorized" unauthorizedMessage)).
  { intros next. unfold authMiddleware.
    destruct (length (APIKeys s) =? 0)%nat; [reflexivity|].
    destruct (String.eqb (In_Path r) "/health" || HasPrefix (In_Path r) "/oauth/");
      [reflexivity|].
    cbn [orb].
    destruct ((negb (String.eqb (Header_Get r "Authorization") EmptyString)
               && HasPrefix (Header_Get r "Authorization") "Bearer ")
              && existsb _ (APIKeys s)); [reflexivity|].
    cbn [orb].
    destruct (existsb (fun k => String.eqb (Header_Get r "X-Api-Key") k) (APIKeys s));
      [reflexivity|].
    cbn [orb].
    destruct (existsb (fun k => String.eqb (Header_Get r "X-Goog-Api-Key") k) (APIKeys s));
      reflexivity. }
  split; [|split].
  - intros Ha next. rewrite Hrun. apply Hiff in Ha. now rewrite Ha.
  - intros Hn next. rewrite Hrun.
    match goal with |- (if ?b then _ else _) = _ => destruct b eqn:E end; [|reflexivity].
    elim Hn. now apply Hiff.
  - intros Hkeys Hne Hh Ho Ha Hx Hg Hq [[H|[H|H]]|(k & Hin & Hp)].
    + contradiction.
    + contradiction.
    + rewrite H in Ho. discriminate.
    + rewrite List.Forall_forall in Hne. specialize (Hne k Hin).
      unfold presents in Hp. rewrite Ha, Hx, Hg, Hq in Hp.
      destruct Hp as [H|[H|[H|H]]]; try (now subst k). discriminate.
Qed.

End WithEnv.

Section Streaming.
Variable env : Handler.Env.
Variable cenv : Client.Env.
Variable senv : StreamEnv.
Hypothesis Hlive : forall k, ctx_Err senv k = None.
Hypothesis Hctx : forall k, callback_ctx_Err env k = None.
Hypothesis Hwrite : forall k, write_Err env k = None.
Hypothesis Hmarshal : forall chunk, exists data, json_Marshal_chunk env chunk = Ok data.

(** The callback never meets a nil [Delta] on a converted chunk. *)
Lemma feed_sseCallback (chunks : list OpenAIStreamChunk) :
  Forall (fun o => exists delta fr,
              Chunk_Choices o = [ {| Index := 0; Message := None; Delta := Some delta;
                                     FinishReason := fr |} ]) chunks ->
  forall n w,
    feed (sseCallback env) chunks (n, w)
    = Some (None, ((n + length chunks)%nat,
                   w ++ concat (map (eventOf env) (List.filter written chunks)))).
Proof.
  induction 1 as [|o rest (delta & fr & Ho) _ IH]; intros n w.
  - cbn. now rewrite Nat.add_0_r, app_nil_r.
  - cbn [feed sseCallback length List.filter]. rewrite Hctx. unfold written.
    rewrite Ho. cbn [Delta FinishReason].
    destruct (String.eqb (Msg_Content delta) EmptyString
              && match fr with None => true | Some _ => false end) eqn:Eempty.
    + cbn [negb]. rewrite IH. now rewrite Nat.add_succ_r.
    + cbn [negb map concat]. unfold eventOf at 1.
      destruct (Hmarshal o) as [data Hdata]. rewrite Hdata, Hwrite, IH.
      now rewrite Nat.add_succ_r, <- !app_assoc.
Qed.

Lemma convertStream_later (model requestID : string) (clock : nat -> Z)
    (chunks : list GeminiStreamChunk) :
  forall k,
    Forall (fun o => ConverterVocabulary.deltaRoles o = [EmptyString])
           (ConverterVocabulary.convertStream (unicode_tables cenv) model requestID clock k
              true chunks).
Proof.
  induction chunks as [|chunk rest IH]; intros k; [constructor|].
  cbn [ConverterVocabulary.convertStream GeminiStreamToOpenAI].
  destruct (Chunk_Candidates chunk); (constructor; [reflexivity | apply IH]).
Qed.

Lemma silent_not_written (model requestID : string) (clock : nat -> Z) (k : nat)
    (roleSent : bool) (chunk : GeminiStreamChunk) (rest : list GeminiStreamChunk) :
  silent chunk ->
  List.filter written
    (ConverterVocabulary.convertStream (unicode_tables cenv) model requestID clock k roleSent
       (chunk :: rest))
  = List.filter written
      (ConverterVocabulary.convertStream (unicode_tables cenv) model requestID clock (S k)
         true rest).
Proof.
  unfold silent. intros Hs.
  cbn [ConverterVocabulary.convertStream GeminiStreamToOpenAI].
  destruct (Chunk_Candidates chunk) as [|candidate others]; [reflexivity|].
  destruct Hs as [Hc Hf]. rewrite Hc, Hf. reflexivity.
Qed.

(** X23: the events of a streamed chat completion.  On a writer that can
    flush, with the client connected and every write succeeding, the
    handler writes the SSE headers and the status 200, then one [data:]
    event, flushed, for each converted chunk of the stream that has
    content or a finish reason, in order, and closes with [data: [DONE]];
    an error of the raw request or of the scanner is written as a last
    [data:] event instead, after the status 200 has gone out.  The chunks
    without content and without finish reason are dropped, and with the
    first of them the only delta that carries the role: when the first
    chunk of the stream is silent, no event written has the role
    "assistant". *)
Theorem stream_handler_events (c : GeminiClient) (req : OpenAIRequest) (w : Writer) :
  exists g,
    OpenAIToGeminiRequest (unicode_tables cenv) (Some req) = Ok g /\
    handleOpenAIStreamResponse env cenv senv c req true w
    = match SendStreamRequestRaw cenv c (Req_Model req) (Some g) with
      | None => None
      | Some (Err e, c1) => Some (w ++ sseHeaders ++ errorEvent env e, c1)
      | Some (Ok resp, c1) =>
          let converted :=
            ConverterVocabulary.convertStream (unicode_tables cenv) (Req_Model req)
              (GenerateRequestID (time_Now_UnixNano senv)) (time_Now_Unix senv) 0 false
              (deliveredChunks senv (String.eqb (APIMode (config c1)) CodeAssist)
                 (fst (bufio_Scan senv (Stream_Body resp)))) in
          Some (w ++ sseHeaders
                  ++ concat (map (eventOf env) (List.filter written converted))
                  ++ match snd (bufio_Scan senv (Stream_Body resp)) with
                     | Some e => errorEvent env ("error reading stream: " +:+ e)
                     | None => doneEvent
                     end, c1)
      end /\
    (forall codeAssist lines first rest,
        deliveredChunks senv codeAssist lines = first :: rest ->
        silent first ->
        Forall (fun o => ConverterVocabulary.deltaRoles o = [EmptyString])
               (List.filter written
                  (ConverterVocabulary.convertStream (unicode_tables cenv) (Req_Model req)
                     (GenerateRequestID (time_Now_UnixNano senv)) (time_Now_Unix senv)
                     0 false (deliveredChunks senv codeAssist lines)))).
Proof.
  destruct (ConverterFacts.converted_system_parts (unicode_tables cenv) req) as (g & Hconv & _).
  exists g. split; [exact Hconv|]. split.
  - unfold handleOpenAIStreamResponse. cbn [negb].
    rewrite (ClientFacts.SendOpenAIStreamRequest_feed cenv senv Hlive
               (sseCallback env) c req g _ Hconv).
    destruct (SendStreamRequestRaw cenv c (Req_Model req) (Some g)) as [[[resp|e] c1]|];
      [| now rewrite <- app_assoc | reflexivity].
    cbv zeta. unfold streamOutcome.
    destruct (ConverterFacts.convertStream_roles (unicode_tables cenv) (Req_Model req)
                (GenerateRequestID (time_Now_UnixNano senv)) (time_Now_Unix senv)
                (deliveredChunks senv (String.eqb (APIMode (config c1)) CodeAssist)
                   (fst (bufio_Scan senv (Stream_Body resp)))) 0%nat false)
      as (_ & Hshape & _).
    rewrite feed_sseCallback.
    + destruct (snd (bufio_Scan senv (Stream_Body resp)));
        now rewrite <- !app_assoc.
    + eapply Forall_impl; [exact Hshape|]. intros o (_ & _ & _ & Ho). exact Ho.
  - intros codeAssist lines first rest Hd Hs. rewrite Hd.
    rewrite silent_not_written by exact Hs.
    apply List.Forall_forall. intros o Hin. apply List.filter_In in Hin as [Hin _].
    pose proof (convertStream_later (Req_Model req)
                  (GenerateRequestID (time_Now_UnixNano senv)) (time_Now_Unix senv)
                  rest 1%nat) as Hall.
    rewrite List.Forall_forall in Hall. now apply Hall.
Qed.

End Streaming.

Lemma stream_handler_events_witness :
  exists c',
    handleOpenAIStreamResponse Fixtures.demoHandlerEnv Fixtures.answeringNet
      Fixtures.demoStreamEnv (Fixtures.studioClient 3 []) Fixtures.helloChat true []
    = Some (sseHeaders
              ++ [ WriteString ("data: {Hi}"
                                  +:+ String "010"%char (String "010"%char EmptyString));
                   Flush ]
              ++ doneEvent, c').
Proof.
  destruct (stream_handler_events Fixtures.demoHandlerEnv Fixtures.answeringNet
              Fixtures.demoStreamEnv (fun k => eq_refl) (fun k => eq_refl)
              (fun k => eq_refl) (fun chunk => ex_intro _ _ eq_refl)
              (Fixtures.studioClient 3 []) Fixtures.helloChat [])
    as (g & Hg & Hrun & _).
  vm_compute in Hg. injection Hg as <-.
  rewrite Hrun. vm_compute. eexists. reflexivity.
Defined.

Lemma api_key_gate_witness :
  authMiddleware Fixtures.demoHandlerEnv {| EnableCORS := true; APIKeys := ["s3cret"] |}
    (fun _ w => Some (w ++ [WriteHeader 200])) (Fixtures.keyedRequest "s3cret") []
  = Some [WriteHeader 200]
  /\ authMiddleware Fixtures.demoHandlerEnv {| EnableCORS := true; APIKeys := ["s3cret"] |}
       (fun _ w => Some (w ++ [WriteHeader 200])) (Fixtures.keyedRequest "guess") []
     = Some [ SetHeader "Content-Type" "application/json"; WriteHeader 401;
              EncodeError 401 unauthorizedMessage "unauthorized" "2023-11-14T22:13:20Z" ].
Proof.
  split.
  - rewrite (proj1 (api_key_gate Fixtures.demoHandlerEnv
                      {| EnableCORS := true; APIKeys := ["s3cret"] |}
                      (Fixtures.keyedRequest "s3cret") [])); [reflexivity|].
    right. exists "s3cret". split; [now left|]. right. left. reflexivity.
  - rewrite (proj1 (proj2 (api_key_gate Fixtures.demoHandlerEnv
                             {| EnableCORS := true; APIKeys := ["s3cret"] |}
                             (Fixtures.keyedRequest "guess") []))); [reflexivity|].
    intros [[H|[H|H]]|(k & [<-|[]] & [H|[H|[H|H]]])]; discriminate.
Defined.

Section Front.
Variable env : Handler.Env.
Variable cenv : Client.Env.
Variable senv : StreamEnv.

(** X28: the health endpoint.  Whatever state the client is in, a health
    request that is answered is answered "healthy", version "1.0.0": the
    outcome of the client's health check is dropped.  That check is not
    free: unless the attached credential manager reports itself unhealthy
    (in which case nothing is sent), it sends the backend a real
    generation request, "Hello" to the model gemini-pro with at most 10
    output tokens, through the retry loop: whenever that request can be
    built, at least one HTTP attempt carrying it is made for every health
    request. *)
Theorem health_endpoint (authHealth : AuthHandle -> option string)
    (c : option GeminiClient) (w : Writer) :
  let answer :=
    writeJSONResponse env w (EncodeHealth "healthy" (time_Now_RFC3339 env) "1.0.0") in
  (forall out c', handleHealth env cenv senv authHealth c w = Some (out, c') ->
                  out = answer) /\
  (c = None -> handleHealth env cenv senv authHealth c w = Some (answer, None)) /\
  (forall c0 a e,
      c = Some c0 -> auth c0 = Some a -> authHealth a = Some e ->
      handleHealth env cenv senv authHealth c w = Some (answer, Some c0)) /\
  OpenAIToGeminiRequest (unicode_tables cenv) (Some healthProbe) = Ok probeRequest /\
  (forall c0 httpReq,
      c = Some c0 ->
      (forall a, auth c0 = Some a -> authHealth a = None) ->
      sendRequestOf cenv c0 "gemini-pro" probeRequest = Some httpReq ->
      exists c1 rest,
        handleHealth env cenv senv authHealth c w = Some (answer, Some c1) /\
        sent c1 = sent c0 ++ (Transport c0, httpReq) :: rest).
Proof.
  intros answer.
  assert (Hconv : OpenAIToGeminiRequest (unicode_tables cenv) (Some healthProbe) = Ok probeRequest)
    by reflexivity.
  split; [|split; [|split; [|split; [exact Hconv|]]]].
  - intros out c' Hrun. unfold handleHealth in Hrun. fold answer in Hrun.
    destruct c as [c0|]; [|now injection Hrun as <- _].
    destruct (Client.Health cenv senv authHealth c0) as [[err c1]|]; [|discriminate].
    now injection Hrun as <- _.
  - intros ->. reflexivity.
  - intros c0 a e -> Ha He. unfold handleHealth, Client.Health. now rewrite Ha, He.
  - intros c0 httpReq -> Hauth Hreq.
    destruct (ClientFacts.send_logs_first_attempt cenv c0 "gemini-pro" _ httpReq Hreq)
      as (r & c1 & rest & Hsend & Hsent).
    exists c1, rest. split; [|exact Hsent].
    unfold handleHealth. fold answer.
    assert (Hprobe : exists err,
               match SendOpenAIRequest cenv senv c0 (Some healthProbe) with
               | None => None
               | Some (Err e, c') => Some (Some e, c')
               | Some (Ok _, c') => Some (None, c')
               end = Some (err, c1)).
    { unfold SendOpenAIRequest. rewrite Hconv.
      change (Req_Model healthProbe) with "gemini-pro".
      rewrite Hsend. destruct r as [resp|e]; [|eexists; reflexivity].
      destruct (GeminiToOpenAIResponse (unicode_tables cenv) (Some resp) "gemini-pro" _ _);
        eexists; reflexivity. }
    destruct Hprobe as [err Hprobe]. unfold Client.Health.
    destruct (auth c0) as [a|]; [rewrite (Hauth a eq_refl)|]; now rewrite Hprobe.
Qed.

(** X29: what a chat completion answers when things go wrong.  A body
    that does not decode is answered 400 "invalid_request_error" and
    nothing is sent to the backend.  A request that is not streamed and
    that the client fails is answered 500 "api_error" with the client's
    error as message, whatever the failure; in particular the backend's
    own status is not passed on: with at most one proxy configured, a
    first answer of the backend with a status other than 200 (429, 401,
    404 as well) is answered 500, the message naming that status and the
    body, after that single attempt. *)
Theorem chat_completion_failures (c : GeminiClient) (r : Request) (flusher : bool)
    (w : Writer) :
  (forall e, json_Decode_request env (In_Body r) = Err e ->
             handleChatCompletions env cenv senv c r flusher w
             = Some (writeErrorResponse env w 400 "invalid_request_error"
                                        "Invalid request body", c)) /\
  (forall req e c',
      json_Decode_request env (In_Body r) = Ok req -> Req_Stream req = false ->
      SendOpenAIRequest cenv senv c (Some req) = Some (Err e, c') ->
      handleChatCompletions env cenv senv c r flusher w
      = Some (writeErrorResponse env w 500 "api_error" e, c')) /\
  (forall req, json_Decode_request env (In_Body r) = Ok req -> Req_Stream req = false ->
     exists g,
       OpenAIToGeminiRequest (unicode_tables cenv) (Some req) = Ok g /\
       forall httpReq status body,
         sendRequestOf cenv c (Req_Model req) g = Some httpReq ->
         http_Do cenv (length (sent c)) (Transport c) httpReq = Response status body ->
         status <> 200 ->
         (length (proxyURLs c) <= 1)%nat ->
         handleChatCompletions env cenv senv c r flusher w
         = Some (writeErrorResponse env w 500 "api_error"
                   ("API request failed with status " +:+ fmt_d status +:+ ": " +:+ body),
                 log_sent (afterAsk c) httpReq)) /\
  (forall statusCode errorType message,
      exists rest,
        writeErrorResponse env w statusCode errorType message
        = w ++ [ SetHeader "Content-Type" "application/json"; WriteHeader statusCode;
                 EncodeError statusCode message errorType (time_Now_RFC3339 env) ]
            ++ rest).
Proof.
  split; [|split; [|split]].
  - intros e He. unfold handleChatCompletions. now rewrite He.
  - intros req e c' Hreq Hstream Hsend. unfold handleChatCompletions.
    now rewrite Hreq, Hstream, Hsend.
  - intros req Hreq Hstream.
    destruct (ConverterFacts.converted_system_parts (unicode_tables cenv) req) as (g & Hconv & _).
    exists g. split; [exact Hconv|].
    intros httpReq status body Hbuilt Hdo Hs Hroutes.
    unfold handleChatCompletions. rewrite Hreq, Hstream.
    unfold SendOpenAIRequest. rewrite Hconv.
    now rewrite (ClientFacts.send_status_final cenv c (Req_Model req) g httpReq status body
                   Hbuilt Hdo Hs Hroutes).
  - intros statusCode errorType message. unfold writeErrorResponse. cbv zeta.
    destruct (write_Err env _); eexists; rewrite <- !app_assoc; cbn [app]; reflexivity.
Qed.

End Front.

Lemma chat_completion_failures_witness :
  exists c',
    handleChatCompletions Fixtures.demoHandlerEnv Fixtures.unavailableNet
      Fixtures.demoStreamEnv (Fixtures.studioClient 3 []) (Fixtures.keyedRequest "s3cret")
      true []
    = Some ([ SetHeader "Content-Type" "application/json"; WriteHeader 500;
              EncodeError 500 "API request failed with status 503: overloaded" "api_error"
                          "2023-11-14T22:13:20Z" ], c')
    /\ length (sent c') = 1%nat.
Proof.
  destruct (chat_completion_failures Fixtures.demoHandlerEnv Fixtures.unavailableNet
              Fixtures.demoStreamEnv (Fixtures.studioClient 3 [])
              (Fixtures.keyedRequest "s3cret") true []) as (_ & _ & Hstatus & _).
  destruct (Hstatus Fixtures.systemRequest eq_refl eq_refl) as (g & _ & Hrun).
  destruct (sendRequestOf Fixtures.unavailableNet (Fixtures.studioClient 3 [])
              (Req_Model Fixtures.systemRequest) g) as [httpReq|] eqn:Hbuilt.
  - exists (log_sent (afterAsk (Fixtures.studioClient 3 [])) httpReq).
    split; [|reflexivity].
    rewrite (Hrun httpReq 503 "overloaded" eq_refl eq_refl);
      [reflexivity | discriminate | simpl; lia].
  - exfalso. unfold sendRequestOf in Hbuilt. cbn in Hbuilt. discriminate.
Defined.

Lemma health_endpoint_witness :
  exists c',
    handleHealth Fixtures.demoHandlerEnv Fixtures.unavailableNet Fixtures.demoStreamEnv
      (fun _ => None) (Some (Fixtures.studioClient 3 [])) []
    = Some ([ SetHeader "Content-Type" "application/json";
              EncodeHealth "healthy" "2023-11-14T22:13:20Z" "1.0.0" ], Some c')
    /\ (1 <= length (sent c'))%nat.
Proof.
  destruct (health_endpoint Fixtures.demoHandlerEnv Fixtures.unavailableNet
              Fixtures.demoStreamEnv (fun _ => None) (Some (Fixtures.studioClient 3 []))
              []) as (_ & _ & _ & _ & Hrun).
  edestruct Hrun as (c1 & rest & Hh & Hsent).
  - reflexivity.
  - intros a Ha. discriminate.
  - vm_compute. reflexivity.
  - exists c1. split; [exact Hh|]. rewrite Hsent, length_app. simpl. lia.
Defined.

End HandlerFacts.

Module ConfigFacts.
Import GoStrings ConfigFile ConfigVocabulary.

Lemma filled_string (d s : string) :
  d <> EmptyString ->
  let s' := if String.eqb s EmptyString then d else s in
  s' <> EmptyString /\ String.eqb s' EmptyString = false.
Proof.
  intros Hd s'. subst s'. destruct (String.eqb s EmptyString) eqn:E.
  - split; [exact Hd | now apply String.eqb_neq].
  - split; [now apply String.eqb_neq | exact E].
Qed.

Lemma filled_number (d n : Z) :
  d <> 0 ->
  let n' := if n =? 0 then d else n in
  n' <> 0 /\ (n' =? 0) = false.
Proof.
  intros Hd n'. subst n'. destruct (n =? 0) eqn:E.
  - split; [exact Hd | now apply Z.eqb_neq].
  - split; [now apply Z.eqb_neq | exact E].
Qed.

Lemma hostPortURL_nonempty (host : string) (port : Z) :
  String.eqb (hostPortURL host port) EmptyString = false.
Proof. reflexivity. Qed.

Lemma generated_key_nonempty (env : Env) : GenerateRandomAPIKey env <> EmptyString.
Proof. unfold GenerateRandomAPIKey. destruct (rand_Read env 16); discriminate. Qed.

(** Within the range of [time.Duration] the time-out is the configured
    number of seconds, negative numbers giving 30 seconds. *)
Lemma GetTimeout_in_range (c : Config) :
  TimeoutSeconds c <> 0 -> TimeoutSeconds c <= maxTimeoutSeconds ->
  GetTimeout c
  = (if TimeoutSeconds c <? 0 then 30 else TimeoutSeconds c) * time_Second /\
  0 < GetTimeout c.
Proof.
  unfold GetTimeout, maxTimeoutSeconds, time_Second, int64_wrap. intros Hnz Hmax.
  destruct (TimeoutSeconds c <=? 0) eqn:E.
  - apply Z.leb_le in E. destruct (TimeoutSeconds c <? 0) eqn:E'; [lia|].
    apply Z.ltb_ge in E'. lia.
  - apply Z.leb_gt in E. destruct (TimeoutSeconds c <? 0) eqn:E'.
    { apply Z.ltb_lt in E'. lia. }
    rewrite Z.mod_small by lia. lia.
Qed.

(** One second more and the duration is negative. *)
Example timeout_wraps_around :
  GetTimeout (withTimeoutSeconds DefaultConfig (maxTimeoutSeconds + 1))
  = -9223372036709551616.
Proof. reflexivity. Qed.

(** The cases of TestConfig_GetTimeout: 60 seconds, and 30 seconds for 0 and -10. *)
Example timeout_cases :
  map (fun seconds => GetTimeout (withTimeoutSeconds DefaultConfig seconds)) [ 60; 0; -10 ]
  = [ 60 * time_Second; 30 * time_Second; 30 * time_Second ].
Proof. reflexivity. Qed.

(** X24: completing a configuration.  Given that the UUID generator yields
    a non-empty id, [FillDefaults] leaves a complete configuration: host,
    port, client id, redirect URL, API mode, location, time-out, retry
    bound, user agent and log level are set, the proxy list is not nil and
    there is at least one API key (one is generated when there was none,
    and it is never empty).  It reports no change only when it changed
    nothing.  The completion is stable: a second [FillDefaults], whatever
    its random source, changes nothing more; yet it still reports a change
    exactly when the redirect URL is the default "http://localhost:8081",
    so a configuration left on the default host, port and redirect URL is
    reported as changed on every run.  After completion the redirect URL
    is used as it is (the fallback that appends the callback path and
    client id is never taken).  The time-out read is the configured
    number of seconds, or 30 seconds when that number is negative, and so
    positive, as long as the number is at most 9223372036; beyond that the
    nanosecond count of the duration wraps around. *)
Theorem fill_defaults_settles (env1 env2 : Env) (c : Config) :
  uuid_New env1 <> EmptyString ->
  let c' := fst (FillDefaults env1 c) in
  complete c' /\
  (forall key, APIKeys c = None \/ APIKeys c = Some [] ->
               APIKeys c' = Some [key] -> key <> EmptyString) /\
  (snd (FillDefaults env1 c) = false -> c' = c) /\
  FillDefaults env2 c' = (c', String.eqb (RedirectURL c') "http://localhost:8081") /\
  ((Host c = EmptyString \/ Host c = "localhost") ->
   (Port c = 0 \/ Port c = 8081) ->
   (RedirectURL c = EmptyString \/ RedirectURL c = "http://localhost:8081") ->
   snd (FillDefaults env2 c') = true) /\
  GetRedirectURL c' = RedirectURL c' /\
  (TimeoutSeconds c' <= maxTimeoutSeconds ->
   GetTimeout c'
   = (if TimeoutSeconds c' <? 0 then 30 else TimeoutSeconds c') * time_Second /\
   0 < GetTimeout c').
Proof.
  intros Huuid c'.
  destruct (filled_string "localhost" (Host c) ltac:(discriminate)) as [Hh Hh'].
  destruct (filled_number 8081 (Port c) ltac:(discriminate)) as [Hp Hp'].
  destruct (filled_string (uuid_New env1) (ClientID c) Huuid) as [Hc Hc'].
  destruct (filled_string "code_assist" (APIMode c) ltac:(discriminate)) as [Hm Hm'].
  destruct (filled_string "us-central1" (Location c) ltac:(discriminate)) as [Hl Hl'].
  destruct (filled_number 300 (TimeoutSeconds c) ltac:(discriminate)) as [Ht Ht'].
  destruct (filled_number 3 (MaxRetries c) ltac:(discriminate)) as [Hr Hr'].
  destruct (filled_string "gemini-go-proxy/1.0.0" (UserAgent c) ltac:(discriminate))
    as [Hu Hu'].
  destruct (filled_string "info" (LogLevel c) ltac:(discriminate)) as [Hg Hg'].
  cbv zeta in *.
  set (reset := String.eqb (RedirectURL c) EmptyString
                || String.eqb (RedirectURL c) "http://localhost:8081").
  assert (Hredirect : RedirectURL c'
                      = if reset
                        then hostPortURL (Host c') (Port c')
                        else RedirectURL c) by reflexivity.
  assert (Hrne : String.eqb (RedirectURL c') EmptyString = false).
  { rewrite Hredirect. destruct reset eqn:E; [apply hostPortURL_nonempty|].
    subst reset. now apply orb_false_iff in E as [E _]. }
  assert (Hkeys : exists key keys, APIKeys c' = Some (key :: keys)).
  { subst c'. unfold FillDefaults. cbn [fst APIKeys].
    destruct (APIKeys c) as [[|key keys]|]; cbn; eauto. }
  assert (Hproxies : exists l, ProxyURLs c' = Some l).
  { subst c'. unfold FillDefaults. cbn [fst ProxyURLs].
    destruct (ProxyURLs c); eauto. }
  assert (Hagain : FillDefaults env2 c'
                   = (c', String.eqb (RedirectURL c') "http://localhost:8081")).
  { destruct Hkeys as (key & keys & Hkeys). destruct Hproxies as [l Hproxies].
    unfold FillDefaults at 1. rewrite Hkeys, Hproxies, Hrne.
    change (Host c') with (if String.eqb (Host c) EmptyString then "localhost" else Host c)
      in *.
    change (Port c') with (if Port c =? 0 then 8081 else Port c) in *.
    change (ClientID c')
      with (if String.eqb (ClientID c) EmptyString then uuid_New env1 else ClientID c).
    change (APIMode c')
      with (if String.eqb (APIMode c) EmptyString then "code_assist" else APIMode c).
    change (Location c')
      with (if String.eqb (Location c) EmptyString then "us-central1" else Location c).
    change (TimeoutSeconds c')
      with (if TimeoutSeconds c =? 0 then 300 else TimeoutSeconds c).
    change (MaxRetries c') with (if MaxRetries c =? 0 then 3 else MaxRetries c).
    change (UserAgent c')
      with (if String.eqb (UserAgent c) EmptyString then "gemini-go-proxy/1.0.0"
            else UserAgent c).
    change (LogLevel c')
      with (if String.eqb (LogLevel c) EmptyString then "info" else LogLevel c).
    rewrite Hh', Hp', Hc', Hm', Hl', Ht', Hr', Hu', Hg'.
    cbn [orb slice_len length Nat.eqb hostPortURL Host Port DefaultConfig].
    rewrite !orb_false_r.
    change (String.eqb (RedirectURL c') (hostPortURL "localhost" 8081))
      with (String.eqb (RedirectURL c') "http://localhost:8081").
    f_equal.
    assert (Hsame : (if String.eqb (RedirectURL c') "http://localhost:8081"
                     then hostPortURL
                            (if String.eqb (Host c) EmptyString then "localhost" else Host c)
                            (if Port c =? 0 then 8081 else Port c)
                     else RedirectURL c') = RedirectURL c').
    { destruct (String.eqb (RedirectURL c') "http://localhost:8081") eqn:E; [|reflexivity].
      rewrite Hredirect in *. destruct reset eqn:Er; [reflexivity|].
      subst reset. apply orb_false_iff in Er as [_ Er]. congruence. }
    rewrite Hsame.
    subst c'. unfold FillDefaults in *. cbn [fst] in *.
    cbn [Host Port ClientID RedirectURL ProxyURLs APIKeys APIMode ProjectID Location
         TimeoutSeconds MaxRetries UserAgent TokenFile LogLevel EnableCORS
         SystemPromptFile SystemPromptMode] in *.
    rewrite Hkeys, Hproxies. reflexivity. }
  split; [|split; [|split; [|split; [|split; [|split]]]]].
  - unfold complete. repeat split; try assumption.
    + now apply String.eqb_neq.
    + destruct Hproxies as [l ->]. discriminate.
  - intros key Hnone Hkey. subst c'. unfold FillDefaults in Hkey. cbn [fst APIKeys] in Hkey.
    destruct Hnone as [Hn | Hn]; rewrite Hn in Hkey; cbn in Hkey; injection Hkey as <-;
      apply generated_key_nonempty.
  - subst c' reset. unfold FillDefaults. cbn [fst snd]. intros Hchanged.
    repeat (apply orb_false_iff in Hchanged as [Hchanged ?]).
    destruct c as [host port clientID redirect proxies keys mode project location
                   timeout retries agent tokenFile level cors promptFile promptMode].
    cbn [Host Port ClientID RedirectURL ProxyURLs APIKeys APIMode ProjectID Location
         TimeoutSeconds MaxRetries UserAgent TokenFile LogLevel EnableCORS
         SystemPromptFile SystemPromptMode] in *.
    destruct proxies; [|discriminate]. destruct keys as [keys|]; [|discriminate].
    cbn [slice_len] in *.
    repeat match goal with
           | H : ?b = false |- context [if ?b then _ else _] => rewrite H
           end.
    change (hostPortURL "localhost" 8081) with "http://localhost:8081".
    repeat match goal with
           | H : ?b = false |- context [if ?b then _ else _] => rewrite H
           end.
    reflexivity.
  - exact Hagain.
  - intros Hhost Hport Hurl. rewrite Hagain. cbn [snd]. rewrite Hredirect.
    assert (Hreset : reset = true)
      by (subst reset; destruct Hurl as [-> | ->]; reflexivity).
    rewrite Hreset. subst c'. unfold FillDefaults. cbn [fst Host Port].
    destruct Hhost as [-> | ->]; destruct Hport as [-> | ->]; reflexivity.
  - unfold GetRedirectURL. now rewrite Hrne.
  - intros Hmax. apply GetTimeout_in_range; [exact Ht | exact Hmax].
Qed.

Lemma fill_defaults_settles_witness :
  APIKeys (fst (FillDefaults Fixtures.demoConfigEnv DefaultConfig))
  = Some [ "gp-abababababababababababababababab" ]
  /\ ClientID (fst (FillDefaults Fixtures.demoConfigEnv DefaultConfig))
     = "3f2b8c1e-5d4a-4b6f-9e7a-1c2d3e4f5a6b"
  /\ FillDefaults Fixtures.demoConfigEnv
       (fst (FillDefaults Fixtures.demoConfigEnv DefaultConfig))
     = (fst (FillDefaults Fixtures.demoConfigEnv DefaultConfig), true)
  /\ GetTimeout (fst (FillDefaults Fixtures.demoConfigEnv DefaultConfig))
     = 300 * time_Second.
Proof.
  destruct (fill_defaults_settles Fixtures.demoConfigEnv Fixtures.demoConfigEnv
              DefaultConfig ltac:(discriminate))
    as (_ & _ & _ & Hagain & _ & _ & Htimeout).
  split; [reflexivity|]. split; [reflexivity|]. split; [exact Hagain|].
  apply Htimeout. vm_compute. discriminate.
Defined.

End ConfigFacts.
